(* ===== verification/_CoqProject ===== *)
-Q . S2P
Prelude.v
Text.v
Crc32.v
Base64.v
Sysfile.v
Bucket.v
DirectBucket.v
CircularBucket.v
Storage.v
HashStream.v
Sha1.v
Sha256.v
Digest.v
Hmac.v
DigestFile.v
StateVar.v
RawFormat.v
StorageExamples.v
Dt.v
Tree.v
PinTables.v
Fdt.v
FdtLaws.v
FdtParse.v
Proc.v
Dtblint.v
Print.v
Variables.v
State.v
StateNode.v
DtbFormat.v
Devices.v
Make.v
Fixup.v
Cli.v
Main.v
LinkedList.v
ListRefinement.v
HList.v
Persist.v
Session.v
Readonly.v
Keystore.v
Common.v
