(* ===== verification/Prelude.v ===== *)
(** * dt-utils: a verification library

    dt-utils keeps a few variables (boot counters, MAC addresses, strings, ...)
    that a boot loader and Linux share in a "state", described by a node of the
    device tree and stored redundantly on a device, and it brings tools around
    device trees. This library models the C sources under src/ and proves what makes
    them correct. A function of the source has a definition of the same name; the
    state it changes is passed in and out.

    ** The parts, and where they are modelled

    The tool barebox-state gets, sets and prints the variables of states ([Main]:
    barebox-state.c, the options, [state_get] and [main]; [Cli]: the values as text and
    [main] behind the loop of [state_get]). A state is made from its node ([Make]:
    [state_new_from_node] of state.c, with buckets of two kinds and formats of two
    kinds) on the device the node names ([Devices]: libdt.c with udev). It ([State]:
    barebox-state/state.c) has variables ([StateVar]: state.h and the list of variables;
    [Variables]: state_variables.c, the five types), a format and a storage, reached
    through tables of function pointers; these tables are the classes [FormatVerify],
    [FormatPack] and [BucketOps], and the theorems on a client are proved against the laws
    of a class.

    - Formats: [RawFormat] (backend_format_raw.c: header, variables, HMAC) and
      [DtbFormat] (backend_format_dtb.c: a flattened tree).
    - Storage: [Storage] (backend_storage.c: several buckets, the first valid one is
      read, the others are repaired), over [Bucket] (the interface with its laws),
      [DirectBucket] (backend_bucket_direct.c) and [CircularBucket]
      (backend_bucket_circular.c), over [Sysfile] (the I/O helpers of dt/common.h on a
      model of the system calls, with errors and short transfers).
    - [Fixup]: [of_state_fixup] of state.c, which describes a state in another tree.
    - Checksums and keys: [Crc32] (crc32.c), [HashStream], [Sha1], [Sha256]
      (crypto/sha1.c, crypto/sha2.c), [Digest] (crypto/digest.c and the interface of
      an algorithm with its laws), [DigestFile] (the rest of crypto/digest.c, with
      digests of files), [Hmac] (crypto/hmac.c), [Base64] (base64.c), [Keystore]
      (keystore-blob.c: secrets sealed in a state of their own).
    - Device trees: [Dt] (properties and nodes of libdt.c), [Tree] (the list of all
      nodes, paths, aliases, phandles), [Fdt] (fdt.c, both directions) with its laws in
      [FdtLaws] and [FdtParse], [Proc] (the tree of the running system), [StateNode]
      (a state written to a tree and read back).
    - Tools on trees: [Print] (printing, fdtdump.c), [Dtblint] (dtblint.c and
      dtblint-imx-pinmux.c) with the tables in [PinTables].
    - Lists: [LinkedList] (dt/list.h, nodes with pointers on a heap) with
      [ListRefinement], which says that they are the lists the other files use, and
      [HList] (the lists with a single pointer as their head).
    - [Common]: the remaining helpers of dt/common.h and dt/dt.h, and that they compute
      the plainer forms used elsewhere.
    - [Persist], [Session], [Readonly]: no code of their own, the theorems on the calls
      of the tool: two calls, any series of calls, calls that only read.
    - [Text]: numbers as the C library prints and reads them. [StorageExamples]: a
      storage on a concrete medium, for the examples of other files.

    ** How the code is represented

    Integers are [Z], wrapped where the type of the source wraps ([u8] to [u64],
    [s32], [s64], [+32]). Buffers are lists of bytes; a C string is the bytes before
    its NUL. Errors of a function are the negative numbers of the source, or
    [outcome]: [Ok], [Err] with an errno, and [Undef] where the source reads or writes
    outside an object, so that a theorem that gives [Ok] also says that this does not
    happen. In older files [option] has the part of [outcome] without [Err]. Tables
    of function pointers are classes; a pointer to a node is the path to it from the
    root. A medium is a record of its bytes with a script of how the next system
    calls end; [healthy] is a script of successes, [benign] one of successes and of
    errors the medium corrected.

    ** What the theorems show

    - The data survive: what one process saves another loads ([State.state_save_load]
      and [DtbFormat.dtb_state_save_load] for any lawful buckets and each format,
      [Storage.storage_write_read], [Cli.cli_set_get] for the tool from text to text),
      from the options and the tree of one process to the output of the next
      ([Persist.tool_set_get], whose examples run the whole tool); any series of calls
      refines a store of texts ([Session.tool_refines_store]); a write that stops
      anywhere leaves the old or the new data ([Storage.storage_crash_safe]), a read
      repairs the other copies ([Storage.storage_read_restores]), and a call that only
      reads leaves plain memory as it was ([Readonly.reading_changes_nothing]).
    - The buckets: round trips, what a write may touch, the last of a series of
      writes with errors is read ([CircularBucket], [DirectBucket]), and the buckets
      that are made are in order and apart ([Storage.file_buckets_init_ready],
      [Storage.mtd_buckets_init_ready]).
    - Checksums: the code computes the published functions, in any number of pieces, for
      SHA and HMAC of less than 2^32 - 64 bytes each ([Crc32.crc32_bit_serial], [Sha1],
      [Sha256], [Hmac.hmac_correct]), and damage is found ([Crc32.crc32_detects_byte] and
      [RawFormat.raw_detects_corruption]).
    - Keys: the secret of a name is what the driver unseals of the stored blob
      ([Keystore.keystore_secret]).
    - Layout: variables made from a node are well formed, sorted and apart, and stay
      so ([State.state_from_node_layout], [State.state_from_node_import],
      [Variables.variables_wf]); round trips through nodes, blobs and text
      ([StateNode.state_node_roundtrip], [FdtParse.fdt_roundtrip],
      [Cli.text_roundtrip]); the node that a fixup makes describes the state
      ([Fixup.fixup_node_describes]); as dt/dt.h finds no device the fixup then leaves
      the other tree alone ([Fixup.fixup_restores]), and with a search that finds one
      the state is made again from that tree ([Fixup.fixup_describes]).
    - Lists: any permitted series of the functions on linked nodes does to the rings
      what it does to lists ([ListRefinement.list_ops_refine]), and the loop that frees
      a list ends ([ListRefinement.safe_loop_frees]).
    - Trees: the parser ends on every blob, the list of nodes is in order, paths and
      phandles find what was made, lists of phandles are taken apart ([FdtParse],
      [Tree]); the tools print and check what the tree says, from a blob or
      from directories whose listings are in any order ([Print], [Dtblint]); the region of
      a disk that is used is the one named ([Devices.block_region_kept]);
      what a list of options means ([Main.parse_options_meaning]).
    - Faults: where the source does something it does not mean to, a lemma or example
      shows it on the model, next to the definition (for example
      [DtbFormat.dtb_unpacks_last], [RawFormat.raw_large_state],
      [Sha256.sha256_update_endless], [Cli.enum32_get_beyond]).

    ** Bounds and fuel

    Loops over lists are structural. The loops that are not take fuel: the parser
    takes one round more than the blob has bytes, which [FdtParse.unflatten_terminates]
    shows to be enough; the scan of a flash block and the loop over its eraseblocks
    take one round per unit and one more; [read_full] and [write_full] take one round
    per byte, as every call transfers at least one or ends the loop; the loop over the
    blocks of a hash takes one round per byte and one more, which is enough while its
    counter of 32 bits does not wrap around, and when it wraps no number is; the search of
    compatible strings and of lists of phandles take one round per byte of the value.
    The loops over linked nodes take one round per node and one more; hashing a part of a
    file takes one round per byte at most.
    Sizes are as on a 64-bit Linux: [size_t] and [off_t] have 64 bits; a call of [read]
    or [write] transfers less than 2 GiB, and results of type [int] are wrapped.

    ** Not modelled

    When messages are logged (Common has how the log cuts them), the texts of -h and -V;
    running out of memory, which ends the program; releasing memory, except where its life time matters (the key of the
    HMAC, the tree of the dtb format, the loop that frees a list). The code for barebox
    itself (the MTD layer in backend_bucket_circular.c), which is not compiled here, and
    stubs of dt/common.h that do nothing (parameters and the registration of devices). The lock
    file of barebox-state beyond whether it is got. What the system answers is an
    argument: system calls, directories, udev, the geometry of a device, the driver of
    the kernel that unseals secrets. The raw format takes the keystore as an argument. *)

From Stdlib Require Export ZArith Lia.
From coqutil Require Export Byte Word.LittleEndianList.
From stdpp Require Export base list strings gmap numbers tactics.

#[export] Set Default Goal Selector "!".

(** ** Notations *)

Declare Scope dt_scope.
Delimit Scope dt_scope with dt.
Global Open Scope Z_scope.
Global Open Scope dt_scope.

(** A memory buffer, and also a C string without its terminating NUL. *)
Abbreviation bytes := (list Byte.byte).

(** The bytes of a string literal. *)
Definition cstr (s : string) : bytes := String.list_byte_of_string s.

(** ** Machine integers *)

Definition u8 (z : Z) : Z := z mod 2 ^ 8.
Definition u16 (z : Z) : Z := z mod 2 ^ 16.
Definition u32 (z : Z) : Z := z mod 2 ^ 32.
Definition u64 (z : Z) : Z := z mod 2 ^ 64.
Definition s32 (z : Z) : Z := (z + 2 ^ 31) mod 2 ^ 32 - 2 ^ 31.
Definition s64 (z : Z) : Z := (z + 2 ^ 63) mod 2 ^ 64 - 2 ^ 63.

Notation "x +32 y" := (u32 (x + y)) (at level 50, left associativity) : dt_scope.
Notation "x -32 y" := (u32 (x - y)) (at level 50, left associativity) : dt_scope.

Notation "'0u8'" := Byte.x00 : dt_scope.

(** The numeric value of a byte and the byte of a number. *)
Abbreviation bval := byte.unsigned.
Abbreviation byte_of := byte.of_Z.

#[global] Instance byte_eq_dec : EqDecision Byte.byte := Byte.byte_eq_dec.

(** Little-endian stores and loads of the host, big-endian ones of the
    device tree. *)
Definition le16 (v : Z) : bytes := le_split 2 v.
Definition le32 (v : Z) : bytes := le_split 4 v.
Definition get_le (b : bytes) : Z := le_combine b.
Definition be32 (v : Z) : bytes := rev (le_split 4 v).
Definition get_be (b : bytes) : Z := le_combine (rev b).

#[global] Arguments le16 : simpl never.
#[global] Arguments le32 : simpl never.
#[global] Arguments be32 : simpl never.
#[global] Arguments get_le : simpl never.
#[global] Arguments get_be : simpl never.

(** ** Error numbers (asm-generic/errno-base.h, errno.h) *)

Definition EPERM := 1.
Definition ENOENT := 2.
Definition EIO := 5.
Definition E2BIG := 7.
Definition EWOULDBLOCK := 11.
Definition ENOMEM := 12.
Definition EBUSY := 16.
Definition ENODEV := 19.
Definition EINVAL := 22.
Definition ENOSPC := 28.
Definition ESPIPE := 29.
Definition EROFS := 30.
Definition ERANGE := 34.
Definition ENODATA := 61.
Definition EOVERFLOW := 75.
Definition EILSEQ := 84.
Definition EUCLEAN := 117.
Definition EPROBE_DEFER := 517.
Definition ENOTSUPP := 524.

(** ** Outcomes of code that can fail or be undefined *)

(** [Ok] is a returned value, [Err e] a negative errno or an [ERR_PTR],
    [Undef] behaviour the C standard leaves undefined (an access outside its
    object, a NULL dereference, the use of a freed object). *)
Inductive outcome (A : Type) : Type :=
| Ok (a : A)
| Err (e : Z)
| Undef.
Arguments Ok {A} a.
Arguments Err {A} e.
Arguments Undef {A}.

#[global] Instance outcome_ret : MRet outcome := fun A a => Ok a.
#[global] Instance outcome_bind : MBind outcome := fun A B f m =>
  match m with Ok a => f a | Err e => Err e | Undef => Undef end.

Lemma bind_ok {A B} (f : A -> outcome B) (m : outcome A) b : mbind f m = Ok b -> exists a, m = Ok a /\ f a = Ok b.
Proof. destruct m as [a|e|]; [by exists a|done|done]. Qed.

Definition of_option {A} (o : option A) : outcome A :=
  match o with Some a => Ok a | None => Undef end.

(** ** Slices of buffers *)

Definition sub (off len : nat) (l : bytes) : bytes := take len (drop off l).

Definition splice (off : nat) (new old : bytes) : bytes :=
  take off old ++ new ++ drop (off + length new) old.

Definition zeros (n : nat) : bytes := replicate n 0u8.

(** [until_nul l]: the C string stored at the start of [l], [None] when no NUL
    byte ends it inside [l]. *)
Fixpoint until_nul (l : bytes) : option bytes :=
  match l with
  | [] => None
  | b :: l' => if decide (b = 0u8) then Some [] else cons b <$> until_nul l'
  end.

(** [strnlen]: bytes before the first NUL, at most the whole of [l]. *)
Fixpoint strnlen (l : bytes) : nat :=
  match l with
  | [] => 0
  | b :: l' => if decide (b = 0u8) then 0 else S (strnlen l')
  end%nat.

(** A buffer that holds no NUL, so that it is the value of a C string. *)
Definition cstring (s : bytes) : Prop := 0u8 ∉ s.
#[global] Instance cstring_dec s : Decision (cstring s).
Proof. unfold cstring. apply _. Defined.

(** ** Tactics *)

(** Case analysis on the integer tests of the code. *)
Ltac ztest :=
  match goal with
  | |- context [?a =? ?b] => destruct (Z.eqb_spec a b)
  | |- context [?a <? ?b] => destruct (Z.ltb_spec a b)
  | |- context [?a <=? ?b] => destruct (Z.leb_spec a b)
  | H : context [?a =? ?b] |- _ => destruct (Z.eqb_spec a b)
  | H : context [?a <? ?b] |- _ => destruct (Z.ltb_spec a b)
  | H : context [?a <=? ?b] |- _ => destruct (Z.leb_spec a b)
  end.
Ltac ztests := repeat (ztest; try lia; simpl in *).

(** Linear arithmetic with division and remainder by constants. *)
Ltac dlia := Z.to_euclidean_division_equations; lia.

Ltac some := eexists; reflexivity.

(** Prove a decidable proposition on concrete values by evaluation. *)
Ltac evaluate := refine (bool_decide_unpack _ _); vm_compute; exact I.

Create Rewrite HintDb bytes.

(** ** Induction on the length of a list *)

Lemma list_length_ind {A} (P : list A -> Prop) :
  (forall l, (forall l', (length l' < length l)%nat -> P l') -> P l) -> forall l, P l.
Proof.
  intros H l. remember (length l) as n eqn:Hn. revert l Hn.
  induction n as [n IH] using lt_wf_ind. intros l ->. apply H.
  intros l' Hl. by apply (IH (length l')).
Qed.

Lemma Forall_weaken {A} (P Q : A -> Prop) l :
  Forall P l -> (forall x, P x -> Q x) -> Forall Q l.
Proof. intros H HPQ. induction H; constructor; auto. Qed.

(** ** Integers *)

Lemma u32_range z : 0 <= u32 z < 2 ^ 32.
Proof. apply Z.mod_pos_bound. lia. Qed.
Lemma u16_range z : 0 <= u16 z < 2 ^ 16.
Proof. apply Z.mod_pos_bound. lia. Qed.
Lemma u8_range z : 0 <= u8 z < 2 ^ 8.
Proof. apply Z.mod_pos_bound. lia. Qed.
Lemma u64_range z : 0 <= u64 z < 2 ^ 64.
Proof. apply Z.mod_pos_bound. lia. Qed.
Lemma u32_small z : 0 <= z < 2 ^ 32 -> u32 z = z.
Proof. apply Z.mod_small. Qed.
Lemma u16_small z : 0 <= z < 2 ^ 16 -> u16 z = z.
Proof. apply Z.mod_small. Qed.
Lemma u8_small z : 0 <= z < 2 ^ 8 -> u8 z = z.
Proof. apply Z.mod_small. Qed.
Lemma u64_small z : 0 <= z < 2 ^ 64 -> u64 z = z.
Proof. apply Z.mod_small. Qed.
Lemma s64_small z : 0 <= z < 2 ^ 63 -> s64 z = z.
Proof. intros. unfold s64. rewrite Z.mod_small; lia. Qed.
Lemma s32_small z : - 2 ^ 31 <= z < 2 ^ 31 -> s32 z = z.
Proof. intros. unfold s32. rewrite Z.mod_small; lia. Qed.

Lemma bval_range b : 0 <= bval b < 256.
Proof. apply byte.unsigned_range. Qed.
Lemma bval_of z : bval (byte_of z) = u8 z.
Proof. apply byte.unsigned_of_Z. Qed.
Lemma byte_of_bval b : byte_of (bval b) = b.
Proof. apply byte.of_Z_unsigned. Qed.
Lemma bval_inj a b : bval a = bval b -> a = b.
Proof. apply byte.unsigned_inj. Qed.

(** ** Finite checks, decided by evaluation *)

Definition Zforall (n : nat) (P : Z -> bool) : bool := forallb (fun i => P (Z.of_nat i)) (seq 0 n).

Lemma Zforall_spec n P : Zforall n P = true -> forall z, 0 <= z < Z.of_nat n -> P z = true.
Proof.
  unfold Zforall. intros H z Hz. rewrite forallb_forall in H.
  specialize (H (Z.to_nat z)). rewrite Z2Nat.id in H by lia. apply H, in_seq. lia.
Qed.

Lemma bytes_forall (P : Byte.byte -> bool) :
  Zforall 256 (fun z => P (byte_of z)) = true -> forall b, P b = true.
Proof.
  intros H b. rewrite <-(byte_of_bval b).
  apply (Zforall_spec _ _ H). apply bval_range.
Qed.

(** ** Stores and loads *)

Lemma length_le16 v : length (le16 v) = 2%nat.
Proof. apply length_le_split. Qed.
Lemma length_le32 v : length (le32 v) = 4%nat.
Proof. apply length_le_split. Qed.
Lemma length_be32 v : length (be32 v) = 4%nat.
Proof. unfold be32. rewrite length_rev. apply length_le_split. Qed.
Lemma get_le_le16 v : get_le (le16 v) = u16 v.
Proof. apply (le_combine_split 2). Qed.
Lemma get_le_le32 v : get_le (le32 v) = u32 v.
Proof. apply (le_combine_split 4). Qed.
Lemma get_be_be32 v : get_be (be32 v) = u32 v.
Proof. unfold get_be, be32. rewrite rev_involutive. apply (le_combine_split 4). Qed.
Lemma le32_get_le b : length b = 4%nat -> le32 (get_le b) = b.
Proof. apply split_le_combine'. Qed.
Lemma le16_get_le b : length b = 2%nat -> le16 (get_le b) = b.
Proof. apply split_le_combine'. Qed.
Lemma be32_get_be b : length b = 4%nat -> be32 (get_be b) = b.
Proof.
  intros. unfold be32, get_be. rewrite split_le_combine' by (by rewrite length_rev).
  apply rev_involutive.
Qed.
Lemma get_le_range b : 0 <= get_le b < 2 ^ (8 * Z.of_nat (length b)).
Proof. apply le_combine_bound. Qed.
Lemma get_be_range b : 0 <= get_be b < 2 ^ (8 * Z.of_nat (length b)).
Proof. unfold get_be. rewrite <-(length_rev b). apply le_combine_bound. Qed.
Lemma get_le_inj a b : length a = length b -> get_le a = get_le b -> a = b.
Proof. apply le_combine_inj. Qed.

#[export] Hint Rewrite length_le16 length_le32 length_be32 : bytes.
#[export] Hint Rewrite @length_app @length_take @length_drop @length_replicate @length_insert : bytes.

Lemma length_zeros n : length (zeros n) = n.
Proof. apply length_replicate. Qed.
#[export] Hint Rewrite length_zeros : bytes.

(** Arithmetic on the lengths of buffers. *)
Ltac len := autorewrite with bytes in *; simpl length in *; try lia.

(** ** Slices *)

Lemma length_splice off new old :
  (off + length new <= length old)%nat -> length (splice off new old) = length old.
Proof. intros. unfold splice. len. Qed.

Lemma length_sub off len l : (off + len <= length l)%nat -> length (sub off len l) = len.
Proof. intros. unfold sub. len. Qed.

Lemma sub_all l : sub 0 (length l) l = l.
Proof. unfold sub. rewrite drop_0. by apply take_ge. Qed.

Lemma sub_app_l n a b : (n <= length a)%nat -> sub 0 n (a ++ b) = take n a.
Proof. intros. unfold sub. rewrite drop_0. by rewrite take_app_le. Qed.

Lemma sub_app_skip a b n : sub (length a) n (a ++ b) = take n b.
Proof. unfold sub. by rewrite drop_app_length. Qed.

Lemma sub_splice_same off new old :
  (off + length new <= length old)%nat -> sub off (length new) (splice off new old) = new.
Proof.
  intros. unfold sub, splice. rewrite drop_app_length' by len.
  by rewrite take_app_length.
Qed.

Lemma sub_splice_at off n new old : length new = n ->
  (off + n <= length old)%nat -> sub off n (splice off new old) = new.
Proof. intros <-. apply sub_splice_same. Qed.

Lemma sub_lookup off len l i : (i < len)%nat -> sub off len l !! i = l !! (off + i)%nat.
Proof. intros. unfold sub. rewrite lookup_take_lt by lia. apply lookup_drop. Qed.

Lemma splice_lookup_out off new old i :
  (off + length new <= length old)%nat ->
  (i < off \/ off + length new <= i)%nat -> splice off new old !! i = old !! i.
Proof.
  intros ? [?|?]; unfold splice.
  - rewrite lookup_app_l by len. by rewrite lookup_take_lt.
  - rewrite lookup_app_r by len. rewrite lookup_app_r by len.
    rewrite lookup_drop. f_equal. len.
Qed.

(** A slice that the write does not touch is unchanged. *)
Lemma sub_splice_disjoint off new old o n :
  (off + length new <= length old)%nat ->
  (o + n <= off \/ off + length new <= o)%nat ->
  sub o n (splice off new old) = sub o n old.
Proof.
  intros Hin Hd. apply list_eq. intros i.
  destruct (decide (i < n)%nat).
  - rewrite !sub_lookup by done. apply splice_lookup_out; [done|]. lia.
  - unfold sub. rewrite !lookup_take_ge by lia. done.
Qed.

Lemma sub_sub o n o' n' l :
  (o' + n' <= n)%nat -> sub o' n' (sub o n l) = sub (o + o') n' l.
Proof.
  intros. apply list_eq. intros i. destruct (decide (i < n')%nat).
  - rewrite !sub_lookup by lia. f_equal. lia.
  - unfold sub. rewrite !lookup_take_ge by lia. done.
Qed.

Lemma take_sub n o m l : (n <= m)%nat -> take n (sub o m l) = sub o n l.
Proof. intros. unfold sub. rewrite take_take. f_equal. lia. Qed.

(** Two 32-bit words at the front of a buffer. *)
Lemma get_le32_fst a b rest : 0 <= a < 2 ^ 32 ->
  get_le (sub 0 4 ((le32 a ++ le32 b) ++ rest)) = a.
Proof.
  intros. rewrite <-app_assoc, sub_app_l by len. rewrite take_ge by len.
  rewrite get_le_le32. by apply u32_small.
Qed.

Lemma get_le32_snd a b rest : 0 <= b < 2 ^ 32 ->
  get_le (sub 4 4 ((le32 a ++ le32 b) ++ rest)) = b.
Proof.
  intros. rewrite <-app_assoc. rewrite <-(length_le32 a) at 1. rewrite sub_app_skip.
  rewrite take_app_le by len. rewrite take_ge by len. rewrite get_le_le32. by apply u32_small.
Qed.

(** ** C strings *)

Lemma until_nul_app s l : cstring s -> until_nul (s ++ 0u8 :: l) = Some s.
Proof.
  unfold cstring. induction s as [|b s IH]; simpl; [done|].
  intros Hs. rewrite decide_False by set_solver. rewrite IH by set_solver. done.
Qed.

Lemma until_nul_cstring l s : until_nul l = Some s -> cstring s.
Proof.
  unfold cstring. revert s. induction l as [|b l IH]; simpl; intros s; [done|].
  case_decide; [intros [= <-]; set_solver|].
  destruct (until_nul l) eqn:E; simpl; intros; simplify_eq.
  specialize (IH _ eq_refl). set_solver.
Qed.

Lemma until_nul_split l s : until_nul l = Some s -> exists r, l = s ++ 0u8 :: r.
Proof.
  revert s. induction l as [|b l IH]; simpl; intros s; [done|].
  case_decide; [intros; simplify_eq; by exists l|].
  destruct (until_nul l) eqn:E; simpl; intros; simplify_eq.
  destruct (IH _ eq_refl) as [r ->]. by exists r.
Qed.

Lemma until_nul_last l : list.last l = Some 0u8 -> exists s, until_nul l = Some s.
Proof.
  induction l as [|b l IH]; [done|]. cbn [until_nul]. destruct (decide (b = 0u8)); [by eexists|].
  rewrite last_cons. destruct l as [|c l]; [by intros [= ->]|].
  destruct (list.last (c :: l)) eqn:E; [|by apply last_None in E]. intros [= ->].
  destruct (IH eq_refl) as [s ->]. by eexists.
Qed.

Lemma strnlen_le l : (strnlen l <= length l)%nat.
Proof. induction l; simpl; [done|]. case_decide; lia. Qed.

Lemma strnlen_cstring s l : cstring s -> strnlen (s ++ 0u8 :: l) = length s.
Proof.
  unfold cstring. induction s as [|b s IH]; simpl; [done|].
  intros. rewrite decide_False by set_solver. rewrite IH by set_solver. done.
Qed.

Lemma take_strnlen_cstring l : cstring (take (strnlen l) l).
Proof.
  unfold cstring. induction l as [|b l IH]; simpl; [set_solver|].
  case_decide; simpl; set_solver.
Qed.

Lemma strnlen_take_cstring s n : cstring s -> strnlen (s ++ zeros n) = length s.
Proof.
  unfold cstring. induction s as [|b s IH]; simpl.
  - intros _. by destruct n.
  - intros. rewrite decide_False by set_solver. rewrite IH by set_solver. done.
Qed.
