(* ===== verification/Text.v ===== *)
(** * Numbers as text

    What the program prints and reads of numbers with the C library: [%u], [%x],
    [%02x] and [strtoul]. *)

From S2P Require Import Prelude.

Definition colon : Byte.byte := Byte.x3a.

(** The digit of a value below 16. *)
Definition hex_digit (n : Z) : Byte.byte := byte_of (if n <? 10 then 48 + n else 87 + n).

(** The digits of a number below [base ^ fuel], without leading zeros. *)
Fixpoint number (base : Z) (fuel : nat) (v : Z) : bytes :=
  match fuel with
  | O => []
  | S fuel' => (if v <? base then [] else number base fuel' (v / base)) ++ [hex_digit (v mod base)]
  end.
Definition hex (v : Z) : bytes := number 16 8 v.
Definition dec (v : Z) : bytes := number 10 10 v.
Definition hex02 (b : Byte.byte) : bytes := [hex_digit (bval b / 16); hex_digit (bval b mod 16)].

(** A text in a field that is filled up with blanks ([%-15s]). *)
Definition field (width : nat) (s : bytes) : bytes := s ++ replicate (width - length s) Byte.x20.

(** ** strtoul *)

Definition isspace (b : Byte.byte) : bool := (bval b =? 32) || ((9 <=? bval b) && (bval b <=? 13)).
Definition digit_value (b : Byte.byte) : Z :=
  let c := bval b in
  if (48 <=? c) && (c <=? 57) then c - 48
  else if (97 <=? c) && (c <=? 122) then c - 87
  else if (65 <=? c) && (c <=? 90) then c - 55
  else 99.
Definition is_digit (base : Z) (b : Byte.byte) : bool := digit_value b <? base.

Fixpoint span (p : Byte.byte -> bool) (s : bytes) : bytes * bytes :=
  match s with
  | [] => ([], [])
  | b :: s' => if p b then let (x, y) := span p s' in (b :: x, y) else ([], s)
  end.

Definition ULONG_MAX : Z := 2 ^ 64 - 1.

(** A sign, and the prefix that tells the base. *)
Definition sign (s : bytes) : bool * bytes :=
  match s with
  | b :: s' => if decide (b = Byte.x2d) then (true, s') else if decide (b = Byte.x2b) then (false, s') else (false, s)
  | [] => (false, [])
  end.
Definition prefix (base : Z) (s : bytes) : Z * bytes :=
  match s with
  | z :: x :: h :: s' =>
      if bool_decide (z = Byte.x30) && (bool_decide (x = Byte.x78) || bool_decide (x = Byte.x58)) && is_digit 16 h
         && ((base =? 0) || (base =? 16))
      then (16, h :: s')
      else if base =? 0 then (if bool_decide (z = Byte.x30) then 8 else 10, s) else (base, s)
  | z :: _ => if base =? 0 then (if bool_decide (z = Byte.x30) then 8 else 10, s) else (base, s)
  | [] => (if base =? 0 then 10 else base, [])
  end.

(** The value and what is left behind the number, or the whole string when it does
    not begin with one. *)
Definition strtoul (base : Z) (s : bytes) : Z * bytes :=
  let (_, s1) := span isspace s in
  let (neg, s2) := sign s1 in
  let (b, s3) := prefix base s2 in
  let (ds, rest) := span (is_digit b) s3 in
  if (length ds =? 0)%nat then (0, s) else
  let v := fold_left (fun acc d => acc * b + digit_value d) ds 0 in
  (if ULONG_MAX <? v then ULONG_MAX else if (neg : bool) then u64 (- v) else v, rest).

(** ** Lemmas *)

Lemma span_app p s r : forallb p s = true -> match r with [] => True | b :: _ => p b = false end -> span p (s ++ r) = (s, r).
Proof.
  intros Hs Hr. induction s as [|b s IH]; cbn [app span].
  - destruct r as [|b r]; [done|]. cbn. by rewrite Hr.
  - cbn in Hs. apply andb_true_iff in Hs as [-> Hs]. by rewrite (IH Hs).
Qed.

(** Nothing behind a character that is not accepted is taken. *)
Lemma span_suffix p s : exists n, snd (span p s) = drop n s /\ forall i b, s !! i = Some b -> p b = false -> (n <= i)%nat.
Proof.
  induction s as [|b s (n & Hn & Hi)]; [exists 0%nat; split; [done|lia]|]. cbn [span]. destruct (p b) eqn:E.
  - exists (S n). destruct (span p s) as [x y]. split; [done|]. intros [|i] c Hc Hp; [injection Hc as ->; congruence|].
    specialize (Hi i c Hc Hp). lia.
  - exists 0%nat. split; [done|lia].
Qed.

Lemma hex_digit_value n : 0 <= n < 16 -> digit_value (hex_digit n) = n.
Proof.
  intros Hn. assert (H : forallb (fun n => digit_value (hex_digit n) =? n) (seqZ 0 16) = true) by reflexivity.
  rewrite forallb_forall in H. apply Z.eqb_eq, H, list_elem_of_In, elem_of_seqZ. lia.
Qed.

Section Number.
Context (base : Z) (Hb : 2 <= base <= 16).

Lemma number_digits fuel : forall v, 0 <= v -> forallb (is_digit base) (number base fuel v) = true.
Proof.
  induction fuel as [|fuel IH]; intros v Hv; [done|]. cbn [number]. rewrite forallb_app. apply andb_true_iff. split.
  - destruct (v <? base); [done|]. apply IH. apply Z.div_pos; lia.
  - cbn. pose proof (Z.mod_pos_bound v base ltac:(lia)). unfold is_digit. rewrite hex_digit_value by lia.
    rewrite andb_true_r. apply Z.ltb_lt. lia.
Qed.

Lemma number_value fuel : forall v, 0 <= v < base ^ Z.of_nat fuel ->
  fold_left (fun acc d => acc * base + digit_value d) (number base fuel v) 0 = v.
Proof.
  induction fuel as [|fuel IH]; intros v Hv; [cbn in *; lia|]. cbn [number]. rewrite fold_left_app. cbn [fold_left].
  pose proof (Z.mod_pos_bound v base ltac:(lia)). pose proof (Z.div_mod v base ltac:(lia)).
  rewrite hex_digit_value by lia. destruct (Z.ltb_spec v base) as [Hlt|Hge].
  - rewrite Z.mod_small by lia. cbn. lia.
  - rewrite IH; [lia|]. rewrite Nat2Z.inj_succ, Z.pow_succ_r in Hv by lia.
    split; [apply Z.div_pos; lia|]. apply Z.div_lt_upper_bound; lia.
Qed.

(** The first digit of a number is not 0. *)
Lemma number_head fuel : forall v, 0 < v < base ^ Z.of_nat fuel -> exists d s, number base fuel v = d :: s /\ 1 <= digit_value d < base.
Proof.
  induction fuel as [|fuel IH]; intros v Hv; [cbn in *; lia|]. cbn [number].
  pose proof (Z.mod_pos_bound v base ltac:(lia)). destruct (Z.ltb_spec v base) as [Hlt|Hge].
  - eexists _, []. split; [reflexivity|]. rewrite Z.mod_small, hex_digit_value by lia. lia.
  - rewrite Nat2Z.inj_succ, Z.pow_succ_r in Hv by lia. destruct (IH (v / base)) as (d & s & -> & Hd).
    { split; [apply Z.div_str_pos; lia|]. apply Z.div_lt_upper_bound; lia. }
    by eexists d, _.
Qed.
End Number.

Lemma decimal_digit d : digit_value d < 10 ->
  isspace d = false /\ d <> Byte.x2d /\ d <> Byte.x2b /\ (1 <= digit_value d -> d <> Byte.x30).
Proof.
  intros Hd. assert (H : implb (digit_value d <? 10) (negb (isspace d)) = true).
  { clear Hd. revert d. apply bytes_forall. vm_compute. reflexivity. }
  rewrite (proj2 (Z.ltb_lt _ _) Hd) in H. split; [by destruct (isspace d)|].
  split; [by intros ->|]. split; [by intros ->|]. intros H1 ->. by vm_compute in H1.
Qed.

(** A number in base 10 is read back, by a caller that leaves the base open. *)
Lemma strtoul_dec v : 0 <= v < 10 ^ 10 -> strtoul 0 (dec v) = (v, []).
Proof.
  intros Hv. destruct (Z.eq_dec v 0) as [->|Hnz]; [reflexivity|]. unfold dec.
  pose proof (number_digits 10 ltac:(lia) 10 v ltac:(lia)) as Hd.
  pose proof (number_value 10 ltac:(lia) 10 v ltac:(cbn; lia)) as Hval.
  destruct (number_head 10 ltac:(lia) 10 v ltac:(cbn; lia)) as (d & s & E & H1). rewrite E in *. clear E.
  destruct (decimal_digit d ltac:(lia)) as (Hsp & Hm & Hp & Hz). specialize (Hz ltac:(lia)).
  unfold strtoul. cbn [span]. rewrite Hsp. cbn [sign]. rewrite !decide_False by done.
  assert (prefix 0 (d :: s) = (10, d :: s)) as ->.
  { destruct s as [|x [|h s]]; cbn [prefix]; by rewrite (bool_decide_eq_false_2 (d = Byte.x30)) by done. }
  rewrite <-(app_nil_r (d :: s)), span_app by done. cbn [length Nat.eqb]. rewrite Hval.
  rewrite (proj2 (Z.ltb_ge _ _)); [done|]. unfold ULONG_MAX. lia.
Qed.

Lemma hex02_digits b : exists x y, hex02 b = [x; y] /\ digit_value x = bval b / 16 /\ digit_value y = bval b mod 16
  /\ is_digit 16 x = true /\ is_digit 16 y = true /\ isspace x = false /\ x <> Byte.x2d /\ x <> Byte.x2b /\ y <> Byte.x78 /\ y <> Byte.x58
  /\ digit_value x * 16 + digit_value y = bval b.
Proof.
  exists (hex_digit (bval b / 16)), (hex_digit (bval b mod 16)). split; [done|].
  match goal with |- ?G => enough (bool_decide G = true) as H by (by apply bool_decide_eq_true_1 in H) end.
  revert b. apply bytes_forall. vm_compute. reflexivity.
Qed.

(** A byte in base 16 is read back up to its end or a colon. *)
Lemma strtoul_hex02 b r : match r with [] => True | c :: _ => c = colon end -> strtoul 16 (hex02 b ++ r) = (bval b, r).
Proof.
  intros Hr. destruct (hex02_digits b) as (x & y & -> & Hx & Hy & Dx & Dy & Hs & Hm & Hp & H78 & H58 & Hv).
  unfold strtoul. cbn [app span]. rewrite Hs. cbn [sign]. rewrite !decide_False by done.
  assert (prefix 16 (x :: y :: r) = (16, x :: y :: r)) as ->.
  { cbn [prefix Z.eqb Pos.eqb orb andb]. destruct r as [|c r]; [done|].
    rewrite (bool_decide_eq_false_2 (y = Byte.x78)), (bool_decide_eq_false_2 (y = Byte.x58)) by done. cbn [orb].
    by rewrite !andb_false_r. }
  change (x :: y :: r) with ([x; y] ++ r). rewrite span_app.
  - cbn [length Nat.eqb fold_left]. rewrite Z.mul_0_l, Z.add_0_l, Hv. pose proof (byte.unsigned_range b).
    rewrite (proj2 (Z.ltb_ge _ _)); [done|]. unfold ULONG_MAX. lia.
  - cbn. by rewrite Dx, Dy.
  - destruct r as [|c r]; [done|]. by rewrite Hr.
Qed.

(** Reading a number in base 16 never goes past a colon. *)
Lemma strtoul_colon s p : s !! p = Some colon -> exists n, snd (strtoul 16 s) = drop n s /\ (n <= p)%nat.
Proof.
  intros Hp. unfold strtoul. destruct (span_suffix isspace s) as (n1 & E1 & H1).
  destruct (span isspace s) as [sp s1] eqn:Es1. cbn [snd] in E1. specialize (H1 p colon Hp eq_refl).
  assert (exists n2, snd (sign s1) = drop n2 s1 /\ (n2 <= p - n1)%nat) as (n2 & E2 & H2).
  { assert (Hp1 : s1 !! (p - n1)%nat = Some colon) by (rewrite E1, lookup_drop; rewrite <-Hp; f_equal; lia).
    unfold sign. destruct s1 as [|b s1']; [by exists 0%nat; split; [|lia]|].
    destruct (p - n1)%nat as [|q] eqn:Eq; [injection Hp1 as ->; by exists 0%nat|].
    destruct (decide (b = Byte.x2d)); [exists 1%nat; split; [done|lia]|].
    destruct (decide (b = Byte.x2b)); [exists 1%nat|exists 0%nat]; split; done || lia. }
  destruct (sign s1) as [neg s2] eqn:Es2. cbn [snd] in E2.
  assert (Hp2 : s2 !! (p - n1 - n2)%nat = Some colon) by (rewrite E2, E1, !lookup_drop; rewrite <-Hp; f_equal; lia).
  assert (exists n3, snd (prefix 16 s2) = drop n3 s2 /\ (n3 <= p - n1 - n2)%nat) as (n3 & E3 & H3).
  { unfold prefix. destruct s2 as [|z [|x [|h s2']]]; try (exists 0%nat; split; done || lia).
    cbn [Z.eqb orb]. case_match eqn:Ec; [|exists 0%nat; split; done || lia]. exists 2%nat. split; [done|].
    destruct (p - n1 - n2)%nat as [|[|q]]; [| |lia].
    - injection Hp2 as ->. done.
    - injection Hp2 as ->. rewrite !andb_false_r in Ec || rewrite andb_false_r in Ec; done. }
  assert (Hb : fst (prefix 16 s2) = 16).
  { unfold prefix. destruct s2 as [|z [|x [|h s2']]]; cbn [Z.eqb Pos.eqb orb]; try done. by case_match. }
  destruct (prefix 16 s2) as [b s3] eqn:Es3. cbn [fst snd] in *. subst b.
  assert (Hp3 : s3 !! (p - n1 - n2 - n3)%nat = Some colon) by (rewrite E3, lookup_drop; rewrite <-Hp2; f_equal; lia).
  destruct (span_suffix (is_digit 16) s3) as (n4 & E4 & H4). specialize (H4 _ colon Hp3 eq_refl).
  destruct (span (is_digit 16) s3) as [ds rest]. cbn [snd] in E4.
  destruct (length ds =? 0)%nat; cbn [snd]; [exists 0%nat; split; [done|lia]|].
  exists (n1 + n2 + n3 + n4)%nat. split; [|lia]. rewrite E4, E3, E2, E1, !drop_drop. f_equal. lia.
Qed.
