(* ===== verification/Crc32.v ===== *)
(** * CRC-32 (src/crc32.c)

    The table-driven checksum of zlib that the raw format stores over its
    header and its data, with the loop unrolled by eight as the code has it.
    The specification is the bit-serial division by the reflected polynomial
    0xEDB88320: the table, the unrolling and the tail loop compute exactly it,
    checksums chain over concatenated buffers, and a corruption of one byte is
    always detected. *)

From S2P Require Import Prelude.

Definition crc_table : list Z :=
  [ 0x00000000; 0x77073096; 0xee0e612c; 0x990951ba;
    0x076dc419; 0x706af48f; 0xe963a535; 0x9e6495a3;
    0x0edb8832; 0x79dcb8a4; 0xe0d5e91e; 0x97d2d988;
    0x09b64c2b; 0x7eb17cbd; 0xe7b82d07; 0x90bf1d91;
    0x1db71064; 0x6ab020f2; 0xf3b97148; 0x84be41de;
    0x1adad47d; 0x6ddde4eb; 0xf4d4b551; 0x83d385c7;
    0x136c9856; 0x646ba8c0; 0xfd62f97a; 0x8a65c9ec;
    0x14015c4f; 0x63066cd9; 0xfa0f3d63; 0x8d080df5;
    0x3b6e20c8; 0x4c69105e; 0xd56041e4; 0xa2677172;
    0x3c03e4d1; 0x4b04d447; 0xd20d85fd; 0xa50ab56b;
    0x35b5a8fa; 0x42b2986c; 0xdbbbc9d6; 0xacbcf940;
    0x32d86ce3; 0x45df5c75; 0xdcd60dcf; 0xabd13d59;
    0x26d930ac; 0x51de003a; 0xc8d75180; 0xbfd06116;
    0x21b4f4b5; 0x56b3c423; 0xcfba9599; 0xb8bda50f;
    0x2802b89e; 0x5f058808; 0xc60cd9b2; 0xb10be924;
    0x2f6f7c87; 0x58684c11; 0xc1611dab; 0xb6662d3d;
    0x76dc4190; 0x01db7106; 0x98d220bc; 0xefd5102a;
    0x71b18589; 0x06b6b51f; 0x9fbfe4a5; 0xe8b8d433;
    0x7807c9a2; 0x0f00f934; 0x9609a88e; 0xe10e9818;
    0x7f6a0dbb; 0x086d3d2d; 0x91646c97; 0xe6635c01;
    0x6b6b51f4; 0x1c6c6162; 0x856530d8; 0xf262004e;
    0x6c0695ed; 0x1b01a57b; 0x8208f4c1; 0xf50fc457;
    0x65b0d9c6; 0x12b7e950; 0x8bbeb8ea; 0xfcb9887c;
    0x62dd1ddf; 0x15da2d49; 0x8cd37cf3; 0xfbd44c65;
    0x4db26158; 0x3ab551ce; 0xa3bc0074; 0xd4bb30e2;
    0x4adfa541; 0x3dd895d7; 0xa4d1c46d; 0xd3d6f4fb;
    0x4369e96a; 0x346ed9fc; 0xad678846; 0xda60b8d0;
    0x44042d73; 0x33031de5; 0xaa0a4c5f; 0xdd0d7cc9;
    0x5005713c; 0x270241aa; 0xbe0b1010; 0xc90c2086;
    0x5768b525; 0x206f85b3; 0xb966d409; 0xce61e49f;
    0x5edef90e; 0x29d9c998; 0xb0d09822; 0xc7d7a8b4;
    0x59b33d17; 0x2eb40d81; 0xb7bd5c3b; 0xc0ba6cad;
    0xedb88320; 0x9abfb3b6; 0x03b6e20c; 0x74b1d29a;
    0xead54739; 0x9dd277af; 0x04db2615; 0x73dc1683;
    0xe3630b12; 0x94643b84; 0x0d6d6a3e; 0x7a6a5aa8;
    0xe40ecf0b; 0x9309ff9d; 0x0a00ae27; 0x7d079eb1;
    0xf00f9344; 0x8708a3d2; 0x1e01f268; 0x6906c2fe;
    0xf762575d; 0x806567cb; 0x196c3671; 0x6e6b06e7;
    0xfed41b76; 0x89d32be0; 0x10da7a5a; 0x67dd4acc;
    0xf9b9df6f; 0x8ebeeff9; 0x17b7be43; 0x60b08ed5;
    0xd6d6a3e8; 0xa1d1937e; 0x38d8c2c4; 0x4fdff252;
    0xd1bb67f1; 0xa6bc5767; 0x3fb506dd; 0x48b2364b;
    0xd80d2bda; 0xaf0a1b4c; 0x36034af6; 0x41047a60;
    0xdf60efc3; 0xa867df55; 0x316e8eef; 0x4669be79;
    0xcb61b38c; 0xbc66831a; 0x256fd2a0; 0x5268e236;
    0xcc0c7795; 0xbb0b4703; 0x220216b9; 0x5505262f;
    0xc5ba3bbe; 0xb2bd0b28; 0x2bb45a92; 0x5cb36a04;
    0xc2d7ffa7; 0xb5d0cf31; 0x2cd99e8b; 0x5bdeae1d;
    0x9b64c2b0; 0xec63f226; 0x756aa39c; 0x026d930a;
    0x9c0906a9; 0xeb0e363f; 0x72076785; 0x05005713;
    0x95bf4a82; 0xe2b87a14; 0x7bb12bae; 0x0cb61b38;
    0x92d28e9b; 0xe5d5be0d; 0x7cdcefb7; 0x0bdbdf21;
    0x86d3d2d4; 0xf1d4e242; 0x68ddb3f8; 0x1fda836e;
    0x81be16cd; 0xf6b9265b; 0x6fb077e1; 0x18b74777;
    0x88085ae6; 0xff0f6a70; 0x66063bca; 0x11010b5c;
    0x8f659eff; 0xf862ae69; 0x616bffd3; 0x166ccf45;
    0xa00ae278; 0xd70dd2ee; 0x4e048354; 0x3903b3c2;
    0xa7672661; 0xd06016f7; 0x4969474d; 0x3e6e77db;
    0xaed16a4a; 0xd9d65adc; 0x40df0b66; 0x37d83bf0;
    0xa9bcae53; 0xdebb9ec5; 0x47b2cf7f; 0x30b5ffe9;
    0xbdbdf21c; 0xcabac28a; 0x53b39330; 0x24b4a3a6;
    0xbad03605; 0xcdd70693; 0x54de5729; 0x23d967bf;
    0xb3667a2e; 0xc4614ab8; 0x5d681b02; 0x2a6f2b94;
    0xb40bbe37; 0xc30c8ea1; 0x5a05df1b; 0x2d02ef8d ].

(** [crc_table[i]]. *)
Definition crc_tab (i : Z) : Z := nth (Z.to_nat i) crc_table 0.

(** The macro [DO1]: one byte. *)
Definition DO1 (crc : Z) (b : Byte.byte) : Z :=
  Z.lxor (crc_tab (Z.land (Z.lxor crc (bval b)) 0xff)) (Z.shiftr crc 8).

(** The macros [DO2] .. [DO8] and the loops of both functions, over the step
    they repeat. *)
Section Unrolled.
  Variable step : Z -> Byte.byte -> Z.

Definition DO2 (crc : Z) (b0 b1 : Byte.byte) : Z := step (step crc b0) b1.
Definition DO4 (crc : Z) (b0 b1 b2 b3 : Byte.byte) : Z := DO2 (DO2 crc b0 b1) b2 b3.
Definition DO8 (crc : Z) (b0 b1 b2 b3 b4 b5 b6 b7 : Byte.byte) : Z :=
  DO4 (DO4 crc b0 b1 b2 b3) b4 b5 b6 b7.

(** [if (len) do { DO1(buf); } while (--len);] *)
Fixpoint crc_tail (crc : Z) (buf : bytes) : Z :=
  match buf with
  | [] => crc
  | b :: buf' => crc_tail (step crc b) buf'
  end.

(** [while (len >= 8) { DO8(buf); len -= 8; }] and the tail. *)
Fixpoint crc_loop (crc : Z) (buf : bytes) {struct buf} : Z :=
  match buf with
  | b0 :: b1 :: b2 :: b3 :: b4 :: b5 :: b6 :: b7 :: buf' =>
      crc_loop (DO8 crc b0 b1 b2 b3 b4 b5 b6 b7) buf'
  | _ => crc_tail crc buf
  end.

Lemma crc_tail_fold buf : forall crc, crc_tail crc buf = fold_left step buf crc.
Proof. induction buf; simpl; auto. Qed.

Lemma crc_loop_fold buf : forall crc, crc_loop crc buf = fold_left step buf crc.
Proof.
  induction buf as [buf IH] using list_length_ind. intros crc.
  do 8 (destruct buf as [|? buf]; [apply crc_tail_fold|]).
  cbn [crc_loop fold_left]. rewrite IH by (cbn [length]; lia). reflexivity.
Qed.
End Unrolled.

Definition crc32 (crc : Z) (buf : bytes) : Z :=
  Z.lxor (crc_loop DO1 (Z.lxor crc 0xffffffff) buf) 0xffffffff.

(** The variant without the ones complement. *)
Definition crc32_no_comp (crc : Z) (buf : bytes) : Z := crc_loop DO1 crc buf.

(** ** The bit-serial specification *)

Definition crc_poly : Z := 0xEDB88320.

(** One step of the division, least significant bit first. *)
Definition crc_bit (c : Z) : Z :=
  Z.lxor (Z.shiftr c 1) (if Z.testbit c 0 then crc_poly else 0).

(** The eight steps of a byte. *)
Definition crc_bits8 (c : Z) : Z :=
  crc_bit (crc_bit (crc_bit (crc_bit (crc_bit (crc_bit (crc_bit (crc_bit c))))))).

Definition crc_spec_byte (c : Z) (b : Byte.byte) : Z := crc_bits8 (Z.lxor c (bval b)).

Definition crc32_spec (crc : Z) (buf : bytes) : Z :=
  Z.lxor (fold_left crc_spec_byte buf (Z.lxor crc 0xffffffff)) 0xffffffff.

(** ** Lemmas *)

Lemma crc_bit_lxor a b : crc_bit (Z.lxor a b) = Z.lxor (crc_bit a) (crc_bit b).
Proof.
  unfold crc_bit. rewrite Z.shiftr_lxor, Z.lxor_spec.
  destruct (Z.testbit a 0), (Z.testbit b 0); simpl xorb; cbv iota;
    apply Z.bits_inj'; intros i Hi; rewrite !Z.lxor_spec, ?Z.bits_0;
    repeat match goal with |- context [Z.testbit ?x ?n] => destruct (Z.testbit x n) end;
    reflexivity.
Qed.

Lemma crc_bits8_lxor a b : crc_bits8 (Z.lxor a b) = Z.lxor (crc_bits8 a) (crc_bits8 b).
Proof. unfold crc_bits8. by rewrite !crc_bit_lxor. Qed.

Lemma crc_bit_shiftl a n : 0 < n -> crc_bit (Z.shiftl a n) = Z.shiftl a (n - 1).
Proof.
  intros Hn. unfold crc_bit.
  rewrite Z.shiftl_spec, Z.testbit_neg_r, Z.lxor_0_r by lia.
  rewrite Z.shiftr_shiftl_l by lia. done.
Qed.

Lemma crc_bits8_shiftl a : crc_bits8 (Z.shiftl a 8) = a.
Proof. unfold crc_bits8. rewrite !crc_bit_shiftl by lia. apply Z.shiftl_0_r. Qed.

(** A fact about every table index, from its check on all of them. *)
Lemma byte_index_ind (P : Z -> bool) :
  forallb P (map Z.of_nat (seq 0 256)) = true -> forall i, 0 <= i < 256 -> P i = true.
Proof.
  intros H i Hi. rewrite forallb_forall in H. apply H.
  apply in_map_iff. exists (Z.to_nat i). split; [lia|]. apply in_seq. lia.
Qed.

Lemma crc_table_spec i : 0 <= i < 256 -> crc_tab i = crc_bits8 i.
Proof.
  intros Hi. apply Z.eqb_eq.
  apply (byte_index_ind (fun i => crc_tab i =? crc_bits8 i)); [by vm_compute | done].
Qed.

Lemma land_255 x : 0 <= Z.land x 0xff < 256.
Proof. change 0xff with (Z.ones 8). rewrite Z.land_ones by lia. apply Z.mod_pos_bound. lia. Qed.

Lemma split_byte x : x = Z.lxor (Z.shiftl (Z.shiftr x 8) 8) (Z.land x 0xff).
Proof.
  apply Z.bits_inj'. intros i Hi. rewrite Z.lxor_spec, Z.shiftl_spec by lia.
  change 0xff with (Z.ones 8). rewrite Z.land_spec, Z.testbit_ones_nonneg by lia.
  destruct (Z.ltb_spec i 8).
  - rewrite (Z.testbit_neg_r _ (i - 8)) by lia. by rewrite andb_true_r.
  - rewrite Z.shiftr_spec by lia. rewrite andb_false_r, xorb_false_r. f_equal. lia.
Qed.

Lemma shiftr_byte_0 b : Z.shiftr (bval b) 8 = 0.
Proof. rewrite Z.shiftr_div_pow2 by lia. apply Z.div_small, bval_range. Qed.

Lemma crc_bits8_table x :
  crc_bits8 x = Z.lxor (crc_tab (Z.land x 0xff)) (Z.shiftr x 8).
Proof.
  transitivity (Z.lxor (Z.shiftr x 8) (crc_bits8 (Z.land x 0xff))).
  - rewrite <-(crc_bits8_shiftl (Z.shiftr x 8)) at 1. rewrite <-crc_bits8_lxor.
    by rewrite <-split_byte.
  - rewrite <-crc_table_spec by apply land_255. apply Z.lxor_comm.
Qed.

Lemma DO1_spec crc b : DO1 crc b = crc_spec_byte crc b.
Proof.
  unfold crc_spec_byte. rewrite crc_bits8_table.
  by rewrite Z.shiftr_lxor, shiftr_byte_0, Z.lxor_0_r.
Qed.

Lemma fold_left_pointwise {A B} (f g : A -> B -> A) l : (forall a b, f a b = g a b) ->
  forall a, fold_left f l a = fold_left g l a.
Proof. intros H. induction l as [|x l IH]; intros a; simpl; [done|]. by rewrite H. Qed.

Lemma fold_DO1_spec buf crc : fold_left DO1 buf crc = fold_left crc_spec_byte buf crc.
Proof. apply fold_left_pointwise, DO1_spec. Qed.

Lemma lxor_cancel_r a b : Z.lxor (Z.lxor a b) b = a.
Proof. by rewrite Z.lxor_assoc, Z.lxor_nilpotent, Z.lxor_0_r. Qed.

Lemma lxor_inj_r a b c : Z.lxor a c = Z.lxor b c -> a = b.
Proof. intros H. by rewrite <-(lxor_cancel_r a c), H, lxor_cancel_r. Qed.

(** The table entries are words, and their top bytes are pairwise distinct. *)
Lemma crc_tab_range i : 0 <= i < 256 -> 0 <= crc_tab i < 2 ^ 32.
Proof.
  intros Hi.
  assert (((0 <=? crc_tab i) && (crc_tab i <? 2 ^ 32)) = true) as H.
  { apply (byte_index_ind (fun i => (0 <=? crc_tab i) && (crc_tab i <? 2 ^ 32)));
      [by vm_compute | done]. }
  lia.
Qed.

Lemma crc_table_tops_NoDup : NoDup ((fun t => Z.shiftr t 24) <$> crc_table).
Proof. apply (bool_decide_unpack _). by vm_compute. Qed.

Lemma crc_tab_top_inj i j : 0 <= i < 256 -> 0 <= j < 256 ->
  Z.shiftr (crc_tab i) 24 = Z.shiftr (crc_tab j) 24 -> i = j.
Proof.
  intros Hi Hj He. apply Z2Nat.inj; [lia..|].
  assert (forall k, 0 <= k < 256 -> ((fun t => Z.shiftr t 24) <$> crc_table) !! Z.to_nat k
    = Some (Z.shiftr (crc_tab k) 24)) as Hl.
  { intros k Hk. rewrite list_lookup_fmap. unfold crc_tab.
    destruct (nth_lookup_or_length crc_table (Z.to_nat k) 0) as [->|Hlen]; [done|].
    change (length crc_table) with 256%nat in Hlen. lia. }
  eapply NoDup_lookup; [apply crc_table_tops_NoDup|by apply Hl|]. by rewrite He, Hl.
Qed.

Lemma lxor_range a b n : 0 <= n -> 0 <= a < 2 ^ n -> 0 <= b < 2 ^ n -> 0 <= Z.lxor a b < 2 ^ n.
Proof.
  intros Hn Ha Hb. rewrite <-(Z.mod_small a (2 ^ n)), <-(Z.mod_small b (2 ^ n)) by done.
  rewrite <-!Z.land_ones by done.
  replace (Z.lxor (Z.land a (Z.ones n)) (Z.land b (Z.ones n)))
    with (Z.land (Z.lxor a b) (Z.ones n)).
  - rewrite Z.land_ones by done. apply Z.mod_pos_bound. lia.
  - apply Z.bits_inj'. intros i Hi. rewrite !Z.lxor_spec, !Z.land_spec, !Z.lxor_spec.
    destruct (Z.testbit a i), (Z.testbit b i), (Z.testbit (Z.ones n) i); done.
Qed.

Lemma DO1_range crc b : 0 <= crc < 2 ^ 32 -> 0 <= DO1 crc b < 2 ^ 32.
Proof.
  intros Hc. unfold DO1. apply lxor_range; [lia|apply crc_tab_range, land_255|].
  rewrite Z.shiftr_div_pow2 by lia. split; [apply Z.div_pos; lia|].
  apply Z.div_lt_upper_bound; lia.
Qed.

(** The top byte of a step is the top byte of the table entry it used. *)
Lemma DO1_top crc b : 0 <= crc < 2 ^ 32 ->
  Z.shiftr (DO1 crc b) 24 = Z.shiftr (crc_tab (Z.land (Z.lxor crc (bval b)) 0xff)) 24.
Proof.
  intros Hc. unfold DO1. rewrite Z.shiftr_lxor, Z.shiftr_shiftr by lia.
  rewrite (Z.shiftr_div_pow2 crc) by lia. rewrite (Z.div_small crc) by (simpl; lia).
  apply Z.lxor_0_r.
Qed.

Lemma land_lxor_255 a b : Z.land (Z.lxor a b) 0xff = Z.lxor (Z.land a 0xff) (Z.land b 0xff).
Proof.
  apply Z.bits_inj'. intros i Hi. rewrite !Z.lxor_spec, !Z.land_spec, !Z.lxor_spec.
  destruct (Z.testbit a i), (Z.testbit b i), (Z.testbit 0xff i); done.
Qed.

(** Equal results of a step come from equal table indices and equal high parts. *)
Lemma DO1_inj_index c c' b b' :
  0 <= c < 2 ^ 32 -> 0 <= c' < 2 ^ 32 -> DO1 c b = DO1 c' b' ->
  Z.land (Z.lxor c (bval b)) 0xff = Z.land (Z.lxor c' (bval b')) 0xff /\
  Z.shiftr c 8 = Z.shiftr c' 8.
Proof.
  intros Hc Hc' He.
  assert (Z.land (Z.lxor c (bval b)) 0xff = Z.land (Z.lxor c' (bval b')) 0xff) as Hi.
  { apply crc_tab_top_inj; [apply land_255..|]. rewrite <-!DO1_top by done. by rewrite He. }
  split; [done|]. unfold DO1 in He. rewrite Hi in He.
  rewrite !(Z.lxor_comm (crc_tab _)) in He. by apply lxor_inj_r in He.
Qed.

Lemma DO1_inj_crc c c' b :
  0 <= c < 2 ^ 32 -> 0 <= c' < 2 ^ 32 -> DO1 c b = DO1 c' b -> c = c'.
Proof.
  intros Hc Hc' He. destruct (DO1_inj_index _ _ _ _ Hc Hc' He) as [Hi Hs].
  rewrite !land_lxor_255 in Hi. apply lxor_inj_r in Hi.
  rewrite (split_byte c), (split_byte c'). by rewrite Hi, Hs.
Qed.

Lemma land_bval b : Z.land (bval b) 0xff = bval b.
Proof.
  change 0xff with (Z.ones 8). rewrite Z.land_ones by lia.
  apply Z.mod_small, bval_range.
Qed.

Lemma DO1_inj_byte c b b' : 0 <= c < 2 ^ 32 -> DO1 c b = DO1 c b' -> b = b'.
Proof.
  intros Hc He. destruct (DO1_inj_index _ _ _ _ Hc Hc He) as [Hi _].
  rewrite !land_lxor_255, !(Z.lxor_comm (Z.land c _)) in Hi. apply lxor_inj_r in Hi.
  rewrite !land_bval in Hi. by apply bval_inj.
Qed.

Lemma fold_DO1_range buf : forall crc, 0 <= crc < 2 ^ 32 -> 0 <= fold_left DO1 buf crc < 2 ^ 32.
Proof. induction buf; simpl; auto using DO1_range. Qed.

Lemma fold_DO1_inj buf : forall c c', 0 <= c < 2 ^ 32 -> 0 <= c' < 2 ^ 32 ->
  fold_left DO1 buf c = fold_left DO1 buf c' -> c = c'.
Proof.
  induction buf as [|b buf IH]; intros c c' Hc Hc' He; simpl in *; [done|].
  eapply DO1_inj_crc; eauto using DO1_range.
Qed.

Lemma fold_DO1_differ c pre b b' post : 0 <= c < 2 ^ 32 -> b <> b' ->
  fold_left DO1 (pre ++ b :: post) c <> fold_left DO1 (pre ++ b' :: post) c.
Proof.
  intros Hc Hb He. rewrite !fold_left_app in He. simpl in He.
  apply fold_DO1_inj in He; [|apply DO1_range, fold_DO1_range, Hc..].
  apply DO1_inj_byte in He; [done|]. by apply fold_DO1_range.
Qed.

(** The result of [crc32] is a 32-bit word. *)
Lemma crc32_range crc buf : 0 <= crc < 2 ^ 32 -> 0 <= crc32 crc buf < 2 ^ 32.
Proof.
  intros. unfold crc32. rewrite crc_loop_fold.
  apply lxor_range; [lia| |lia]. apply fold_DO1_range, lxor_range; lia.
Qed.

Lemma crc32_differ crc pre b b' post : 0 <= crc < 2 ^ 32 -> b <> b' ->
  crc32 crc (pre ++ b :: post) <> crc32 crc (pre ++ b' :: post).
Proof.
  intros Hc Hb He. unfold crc32 in He. apply lxor_inj_r in He.
  rewrite !crc_loop_fold in He. revert He. apply fold_DO1_differ; [|done].
  apply lxor_range; lia.
Qed.

(** The vectors of test/crc32.c. *)
Example crc32_test_vector : crc32 0 (cstr "Hello, World!") = 0xec4ac3d0.
Proof. by vm_compute. Qed.
Example crc32_no_comp_test_vector : crc32_no_comp 0 (cstr "Hello, World!") = 0xe33e8552.
Proof. by vm_compute. Qed.

Lemma crc32_app crc a b : crc32 (crc32 crc a) b = crc32 crc (a ++ b).
Proof. unfold crc32. by rewrite !crc_loop_fold, lxor_cancel_r, fold_left_app. Qed.

(** ** Properties *)

(** C26: the table, the eight-fold unrolled loop and the tail loop of [crc32]
    and [crc32_no_comp] compute the bit-serial CRC with the reflected
    polynomial 0xEDB88320, for every start value and every buffer. *)
Theorem crc32_bit_serial crc buf :
  crc32 crc buf = crc32_spec crc buf /\
  crc32_no_comp crc buf = fold_left crc_spec_byte buf crc.
Proof.
  unfold crc32, crc32_no_comp, crc32_spec. by rewrite !crc_loop_fold, !fold_DO1_spec.
Qed.

(** Two buffers that differ in exactly one byte never have the same
    checksum, so a corruption of one byte is always detected. *)
Theorem crc32_detects_byte crc pre b b' post :
  0 <= crc < 2 ^ 32 -> b <> b' ->
  crc32 crc (pre ++ b :: post) <> crc32 crc (pre ++ b' :: post).
Proof. apply crc32_differ. Qed.

Lemma crc32_detects_byte_witness :
  crc32 0 (cstr "ab" ++ Byte.x00 :: cstr "cd") <> crc32 0 (cstr "ab" ++ Byte.x01 :: cstr "cd").
Proof. apply crc32_detects_byte; [lia | discriminate]. Defined.
