(* ===== verification/Base64.v ===== *)
(** * Base64 decoding (src/base64.c)

    [decode_base64] as a function of the destination size and the source
    string, which returns the bytes it stores through [dst] and its result.
    The stores are not cut at [dst_len], so that a store past the end of the
    destination shows as a list longer than [dst_len]. *)

From S2P Require Import Prelude.

(** The 65 characters before the terminating NUL. *)
Definition uuenc_tbl_base64 : bytes :=
  cstr "ABCDEFGHIJKLMNOPQRSTUVWXYZabcdefghijklmnopqrstuvwxyz0123456789+/=".

Definition pad : Byte.byte := Byte.x3d.

(** [strchr(tbl, ch) - tbl] for a character other than NUL. *)
Fixpoint strchr_index (tbl : bytes) (ch : Byte.byte) : option nat :=
  match tbl with
  | [] => None
  | b :: tbl' => if decide (b = ch) then Some 0%nat else S <$> strchr_index tbl' ch
  end.

(** The inner loop: up to four 6-bit values and the rest of the source, [None]
    when the source ends first ([goto ret]). *)
Fixpoint fetch (six_bit : list Z) (src : bytes) : option (list Z * bytes) :=
  match src with
  | [] => None
  | ch :: src' =>
      match strchr_index uuenc_tbl_base64 ch with
      | None => fetch six_bit src'
      | Some i =>
          if (i =? 64)%nat then Some (six_bit, src')
          else if (length six_bit =? 3)%nat then Some (six_bit ++ [Z.of_nat i], src')
          else fetch (six_bit ++ [Z.of_nat i]) src'
      end
  end.

(** The stores of one group; an [unsigned char] keeps the low 8 bits. *)
Definition group_bytes (six_bit : list Z) : bytes :=
  match six_bit with
  | [s0; s1] => [byte_of (Z.lor (Z.shiftl s0 2) (Z.shiftr s1 4))]
  | [s0; s1; s2] =>
      [byte_of (Z.lor (Z.shiftl s0 2) (Z.shiftr s1 4));
       byte_of (Z.lor (Z.shiftl s1 4) (Z.shiftr s2 2))]
  | [s0; s1; s2; s3] =>
      [byte_of (Z.lor (Z.shiftl s0 2) (Z.shiftr s1 4));
       byte_of (Z.lor (Z.shiftl s1 4) (Z.shiftr s2 2));
       byte_of (Z.lor (Z.shiftl s2 6) s3)]
  | _ => []
  end.

(** The outer loop: [fuel] bounds the characters left, [dst] is what has been
    stored. *)
Fixpoint decode_loop (fuel : nat) (dst_len : Z) (length' : Z) (dst src : bytes) : bytes * Z :=
  match fuel with
  | O => (dst, length')
  | S fuel' =>
      if 0 <? dst_len then
        match fetch [] src with
        | None => (dst, length')
        | Some (six_bit, src') =>
            let count := Z.of_nat (length six_bit) in
            decode_loop fuel' (dst_len - (count - 1))
              (if count =? 0 then length' else length' + (count - 1))
              (dst ++ group_bytes six_bit) src'
        end
      else (dst, length')
  end.

Definition decode_base64 (dst_len : Z) (src : bytes) : bytes * Z :=
  decode_loop (length src) dst_len 0 [] src.

(** ** The encoder of RFC 4648, as the specification *)

Definition enc_char (i : Z) : Byte.byte := nth (Z.to_nat i) uuenc_tbl_base64 0u8.

Fixpoint encode_base64 (data : bytes) : bytes :=
  match data with
  | b0 :: b1 :: b2 :: rest =>
      enc_char (bval b0 / 4)
      :: enc_char (bval b0 mod 4 * 16 + bval b1 / 16)
      :: enc_char (bval b1 mod 16 * 4 + bval b2 / 64)
      :: enc_char (bval b2 mod 64) :: encode_base64 rest
  | [b0; b1] =>
      [enc_char (bval b0 / 4); enc_char (bval b0 mod 4 * 16 + bval b1 / 16);
       enc_char (bval b1 mod 16 * 4); pad]
  | [b0] => [enc_char (bval b0 / 4); enc_char (bval b0 mod 4 * 16); pad; pad]
  | [] => []
  end.

(** A character of the alphabet or the padding. *)
Definition in_table (ch : Byte.byte) : bool :=
  match strchr_index uuenc_tbl_base64 ch with Some _ => true | None => false end.

(** ** Lemmas *)

#[local] Arguments strchr_index : simpl never.

Lemma fetch_shorter src : forall six s' r,
  fetch six src = Some (s', r) -> (length r < length src)%nat.
Proof.
  induction src as [|ch src IH]; intros six s' r; simpl; [done|].
  destruct (strchr_index uuenc_tbl_base64 ch) as [i|]; [|intros H%IH; lia].
  destruct (i =? 64)%nat; [intros; simplify_eq; lia|].
  destruct (length six =? 3)%nat; [intros; simplify_eq; lia|]. intros H%IH. lia.
Qed.

(** The fuel is the number of characters left: more of it changes nothing. *)
Lemma decode_loop_fuel f1 : forall f2 dl len dst src,
  (length src <= f1)%nat -> (length src <= f2)%nat ->
  decode_loop f1 dl len dst src = decode_loop f2 dl len dst src.
Proof.
  induction f1 as [|f1 IH]; intros [|f2] dl len dst src H1 H2; [done| | |].
  - destruct src; [|simpl in *; lia]. simpl. by destruct (0 <? dl).
  - destruct src; [|simpl in *; lia]. simpl. by destruct (0 <? dl).
  - simpl. destruct (0 <? dl); [|done].
    destruct (fetch [] src) as [[six r]|] eqn:E; [|done].
    apply fetch_shorter in E. apply IH; lia.
Qed.

Lemma fetch_noise src : forall six,
  fetch six (filter in_table src) = (prod_map id (filter in_table)) <$> fetch six src.
Proof.
  induction src as [|ch src IH]; intros six; [done|].
  rewrite filter_cons. cbn [fetch].
  destruct (strchr_index uuenc_tbl_base64 ch) as [i|] eqn:E.
  - rewrite decide_True by (unfold in_table; by rewrite E). cbn [fetch]. rewrite E.
    destruct (i =? 64)%nat; [done|]. destruct (length six =? 3)%nat; [done|]. apply IH.
  - rewrite decide_False by (unfold in_table; rewrite E; tauto). apply IH.
Qed.

Lemma decode_loop_noise fuel : forall dl len dst src,
  decode_loop fuel dl len dst (filter in_table src) = decode_loop fuel dl len dst src.
Proof.
  induction fuel as [|fuel IH]; intros dl len dst src; [done|]. simpl.
  destruct (0 <? dl); [|done]. rewrite fetch_noise.
  destruct (fetch [] src) as [[six r]|]; simpl; [|done]. apply IH.
Qed.

(** Characters outside the alphabet are skipped. *)
Lemma decode_noise dl src : decode_base64 dl (filter in_table src) = decode_base64 dl src.
Proof.
  unfold decode_base64. rewrite (decode_loop_fuel _ (length src)); [|done|apply length_filter].
  apply decode_loop_noise.
Qed.

(** One group of characters at the front of the source. *)
Lemma decode_step dl len dst src six r fuel n :
  0 < dl -> fetch [] src = Some (six, r) -> (length src <= fuel)%nat -> length six = S n ->
  decode_loop fuel dl len dst src =
  decode_loop (length r) (dl - Z.of_nat n) (len + Z.of_nat n) (dst ++ group_bytes six) r.
Proof.
  intros Hdl E Hf Hn. pose proof (fetch_shorter _ _ _ _ E).
  destruct fuel as [|fuel]; [lia|].
  simpl. destruct (Z.ltb_spec 0 dl); [|lia]. rewrite E, Hn.
  destruct (Z.eqb_spec (Z.of_nat (S n)) 0); [lia|].
  replace (Z.of_nat (S n) - 1) with (Z.of_nat n) by lia. apply decode_loop_fuel; lia.
Qed.

Lemma decode_step_pad dl len dst r fuel :
  0 < dl -> (length r < fuel)%nat ->
  decode_loop fuel dl len dst (pad :: r) = decode_loop (length r) (dl + 1) len dst r.
Proof.
  intros Hdl Hf. destruct fuel as [|fuel]; [lia|].
  simpl. destruct (Z.ltb_spec 0 dl); [|lia]. rewrite app_nil_r.
  replace (dl - (0 - 1)) with (dl + 1) by lia. apply decode_loop_fuel; lia.
Qed.

Lemma decode_loop_done fuel dl len dst src :
  dl <= 0 -> decode_loop fuel dl len dst src = (dst, len).
Proof. intros. destruct fuel; [done|]. simpl. destruct (Z.ltb_spec 0 dl); [lia|done]. Qed.

(** The alphabet: the index of the [i]-th character is [i]. *)
Lemma enc_char_index i : 0 <= i < 64 ->
  strchr_index uuenc_tbl_base64 (enc_char i) = Some (Z.to_nat i).
Proof.
  intros Hi. assert (Zforall 64 (fun z => bool_decide
     (strchr_index uuenc_tbl_base64 (enc_char z) = Some (Z.to_nat z))) = true) as T
    by (vm_compute; reflexivity).
  eapply bool_decide_eq_true_1, (Zforall_spec _ _ T), Hi.
Qed.

Lemma fetch_enc six i r : 0 <= i < 64 -> (length six < 4)%nat ->
  fetch six (enc_char i :: r) =
  if (length six =? 3)%nat then Some (six ++ [i], r) else fetch (six ++ [i]) r.
Proof.
  intros Hi Hl. cbn [fetch]. rewrite enc_char_index by done.
  destruct (Nat.eqb_spec (Z.to_nat i) 64); [lia|]. by rewrite Z2Nat.id by lia.
Qed.

Lemma fetch_pad six r : fetch six (pad :: r) = Some (six, r).
Proof. reflexivity. Qed.

(** Regrouping gives the bytes back: checked on every value. *)
Lemma regroup0 b0 b1 :
  byte_of (Z.lor (Z.shiftl (bval b0 / 4) 2) (Z.shiftr (bval b0 mod 4 * 16 + bval b1 / 16) 4)) = b0.
Proof.
  pose proof (bval_range b1).
  rewrite Z.shiftr_div_pow2 by lia.
  replace ((bval b0 mod 4 * 16 + bval b1 / 16) / 2 ^ 4) with (bval b0 mod 4) by (change (2 ^ 4) with 16; dlia).
  apply (bool_decide_eq_true_1 _). revert b0. apply bytes_forall. vm_compute. reflexivity.
Qed.

Lemma regroup1 p b1 x : 0 <= p < 4 -> 0 <= x < 4 ->
  byte_of (Z.lor (Z.shiftl (p * 16 + bval b1 / 16) 4) (Z.shiftr (bval b1 mod 16 * 4 + x) 2)) = b1.
Proof.
  intros. rewrite Z.shiftr_div_pow2 by lia.
  replace ((bval b1 mod 16 * 4 + x) / 2 ^ 2) with (bval b1 mod 16) by (change (2 ^ 2) with 4; dlia).
  apply (bool_decide_eq_true_1 _). revert p H b1.
  assert (Zforall 4 (fun p => Zforall 256 (fun z => let b1 := byte_of z in bool_decide
    (byte_of (Z.lor (Z.shiftl (p * 16 + bval b1 / 16) 4) (bval b1 mod 16)) = b1))) = true) as T
    by (vm_compute; reflexivity).
  intros p Hp. apply bytes_forall. exact (Zforall_spec _ _ T p Hp).
Qed.

Lemma regroup2 q b2 : 0 <= q < 16 ->
  byte_of (Z.lor (Z.shiftl (q * 4 + bval b2 / 64) 6) (bval b2 mod 64)) = b2.
Proof.
  intros Hq. apply (bool_decide_eq_true_1 _). revert q Hq b2.
  assert (Zforall 16 (fun q => Zforall 256 (fun z => let b2 := byte_of z in bool_decide
    (byte_of (Z.lor (Z.shiftl (q * 4 + bval b2 / 64) 6) (bval b2 mod 64)) = b2))) = true) as T
    by (vm_compute; reflexivity).
  intros q Hq. apply bytes_forall. exact (Zforall_spec _ _ T q Hq).
Qed.

(** Lists are consumed three at a time. *)
Lemma list_ind3 {A} (P : list A -> Prop) :
  P [] -> (forall a, P [a]) -> (forall a b, P [a; b]) ->
  (forall a b c l, P l -> P (a :: b :: c :: l)) -> forall l, P l.
Proof.
  intros H0 H1 H2 H3 l. induction l as [l IH] using list_length_ind.
  destruct l as [|a [|b [|c l]]]; [apply H0|apply H1|apply H2|].
  apply H3, IH. simpl. lia.
Qed.

Lemma decode_encode_loop data : forall dl len dst fuel,
  Z.of_nat (length data) <= dl -> (length (encode_base64 data) <= fuel)%nat ->
  decode_loop fuel dl len dst (encode_base64 data)
  = (dst ++ data, len + Z.of_nat (length data)).
Proof.
  induction data as [|b0|b0 b1|b0 b1 b2 data IH] using list_ind3; intros dl len dst fuel Hdl Hf;
    cbn [length encode_base64] in *.
  - rewrite app_nil_r, Z.add_0_r. destruct fuel; simpl; [done|]. by destruct (0 <? dl).
  - pose proof (bval_range b0).
    erewrite (decode_step _ _ _ _ _ _ _ 1); [|lia| |done|].
    2: { do 2 (rewrite fetch_enc by (simpl; dlia); cbn [length Nat.eqb app]). apply fetch_pad. }
    2: done.
    cbn [length group_bytes].
    replace (bval b0 mod 4 * 16) with (bval b0 mod 4 * 16 + bval Byte.x00 / 16) by
      (change (bval Byte.x00 / 16) with 0; lia).
    rewrite regroup0. destruct (Z.ltb_spec 0 (dl - Z.of_nat 1)).
    + rewrite decode_step_pad by (simpl; lia). done.
    + by rewrite decode_loop_done by lia.
  - pose proof (bval_range b0). pose proof (bval_range b1).
    erewrite (decode_step _ _ _ _ _ _ _ 2); [|lia| |done|].
    2: { do 3 (rewrite fetch_enc by (simpl; dlia); cbn [length Nat.eqb app]). apply fetch_pad. }
    2: done.
    cbn [length group_bytes decode_loop].
    rewrite regroup0. replace (bval b1 mod 16 * 4) with (bval b1 mod 16 * 4 + 0) by lia.
    by rewrite regroup1 by dlia.
  - pose proof (bval_range b0). pose proof (bval_range b1). pose proof (bval_range b2).
    erewrite (decode_step _ _ _ _ _ _ _ 3); [|lia| |done|].
    2: { do 3 (rewrite fetch_enc by (simpl; dlia); cbn [length Nat.eqb app]).
         rewrite fetch_enc by (simpl; dlia). reflexivity. }
    2: done.
    cbn [length group_bytes app].
    rewrite regroup0, regroup1, regroup2 by dlia.
    rewrite IH by lia. rewrite <-app_assoc. cbn [app]. f_equal. lia.
Qed.

(** Padding characters in the source. *)
Fixpoint pads (src : bytes) : nat :=
  match src with
  | [] => 0
  | ch :: src' => (if decide (ch = pad) then 1 else 0) + pads src'
  end.

Lemma strchr_pad ch : strchr_index uuenc_tbl_base64 ch = Some 64%nat -> ch = pad.
Proof.
  assert (forall b, negb (bool_decide (strchr_index uuenc_tbl_base64 b = Some 64%nat))
    || bool_decide (b = pad) = true) as H by (apply bytes_forall; vm_compute; reflexivity).
  specialize (H ch). intros E. rewrite (bool_decide_eq_true_2 _ E) in H.
  by apply (bool_decide_eq_true_1 _) in H.
Qed.

Lemma fetch_pads src : forall six s' r,
  fetch six src = Some (s', r) -> (length six <= 3)%nat ->
  (length six <= length s' <= 4)%nat /\
  (pads r + (if decide (length s' = 4%nat) then 0 else 1) <= pads src)%nat.
Proof.
  induction src as [|ch src IH]; intros six s' r; [done|]. cbn [fetch pads].
  destruct (strchr_index uuenc_tbl_base64 ch) as [i|] eqn:E; [|intros H Hl].
  2: { destruct (IH _ _ _ H Hl). split; lia. }
  destruct (Nat.eqb_spec i 64) as [->|]; [intros; simplify_eq|].
  { rewrite (decide_True (P := ch = pad)) by (by apply strchr_pad). rewrite decide_False by lia. lia. }
  destruct (Nat.eqb_spec (length six) 3); intros H Hl; simplify_eq.
  - rewrite length_app. simpl. rewrite decide_True by lia. split; lia.
  - apply IH in H; rewrite length_app in *; simpl in *; [|lia]. split; lia.
Qed.

Lemma length_group six : (length six <= 4)%nat -> length (group_bytes six) = (length six - 1)%nat.
Proof. destruct six as [|? [|? [|? [|? [|]]]]]; simpl; lia. Qed.

Lemma decode_loop_bounds fuel : forall dl len dst src out ret,
  decode_loop fuel dl len dst src = (out, ret) -> len = Z.of_nat (length dst) ->
  ret = Z.of_nat (length out) /\
  Z.of_nat (length out) <=
    Z.max (Z.of_nat (length dst)) (dl + Z.of_nat (length dst) + 2 + Z.of_nat (pads src)).
Proof.
  induction fuel as [|fuel IH]; intros dl len dst src out ret; simpl; [intros; simplify_eq; lia|].
  destruct (Z.ltb_spec 0 dl); [|intros; simplify_eq; lia].
  destruct (fetch [] src) as [[six r]|] eqn:E; [|intros; simplify_eq; lia].
  apply fetch_pads in E as [[_ H4] Hp]; [|simpl; lia].
  intros HH Hl. apply IH in HH; rewrite length_app, length_group in * by done.
  - destruct (Z.eqb_spec (Z.of_nat (length six)) 0); case_decide; lia.
  - destruct (Z.eqb_spec (Z.of_nat (length six)) 0); lia.
Qed.

Lemma fetch_consumes src : forall six s' r,
  fetch six src = Some (s', r) -> (length s' + length r <= length six + length src)%nat.
Proof.
  induction src as [|ch src IH]; intros six s' r; [done|]. cbn [fetch length].
  destruct (strchr_index uuenc_tbl_base64 ch) as [i|]; [|intros H%IH; lia].
  destruct (i =? 64)%nat; [intros; simplify_eq; lia|].
  destruct (length six =? 3)%nat; [intros; simplify_eq; len|]. intros H%IH. len.
Qed.

(** No more bytes come out than characters go in. *)
Lemma decode_loop_src fuel : forall dl len dst src out ret,
  decode_loop fuel dl len dst src = (out, ret) ->
  (length out <= length dst + length src)%nat.
Proof.
  induction fuel as [|fuel IH]; intros dl len dst src out ret; simpl; [intros; simplify_eq; lia|].
  destruct (0 <? dl); [|intros; simplify_eq; lia].
  destruct (fetch [] src) as [[six r]|] eqn:E; [|intros; simplify_eq; lia].
  pose proof (fetch_consumes _ _ _ _ E). apply fetch_pads in E as [[_ H4] _]; [|simpl; lia].
  intros HH%IH. rewrite length_app, length_group in HH by done. simpl in *. lia.
Qed.

(** A padding character where a group starts adds one to [dst_len]. *)
Lemma decode_pads n : forall fuel dl len dst src,
  0 < dl -> (n + length src <= fuel)%nat ->
  decode_loop fuel dl len dst (replicate n pad ++ src)
  = decode_loop fuel (dl + Z.of_nat n) len dst src.
Proof.
  induction n as [|n IH]; intros fuel dl len dst src Hd Hf; simpl app.
  - by rewrite Z.add_0_r.
  - rewrite decode_step_pad by (rewrite ?length_app, ?length_replicate; lia).
    rewrite IH by (rewrite ?length_app, ?length_replicate; lia).
    replace (dl + 1 + Z.of_nat n) with (dl + Z.of_nat (S n)) by lia.
    apply decode_loop_fuel; rewrite ?length_app; lia.
Qed.

(** ** Claims *)

Lemma decode_text data src dst_len :
  filter in_table src = encode_base64 data -> Z.of_nat (length data) <= dst_len ->
  decode_base64 dst_len src = (data, Z.of_nat (length data)).
Proof.
  intros Hsrc Hl. rewrite <-decode_noise, Hsrc.
  unfold decode_base64. by rewrite decode_encode_loop.
Qed.

(** The text is longer than what it encodes. *)
Lemma encode_length data : (length data <= length (encode_base64 data))%nat.
Proof. induction data as [| | |a b c data IH] using list_ind3; cbn [encode_base64 length]; lia. Qed.

(** C27: decoding what the RFC 4648 encoder makes of any data, with any
    characters outside the alphabet (line breaks, blanks) mixed in, stores
    exactly the data and returns its length, whenever the destination has room
    for it. *)
Theorem base64_roundtrip data src dst_len :
  filter in_table src = encode_base64 data -> Z.of_nat (length data) <= dst_len ->
  decode_base64 dst_len src = (data, Z.of_nat (length data)).
Proof. apply decode_text. Qed.

Lemma base64_roundtrip_witness :
  decode_base64 4 (cstr "Y mFy
ZQ==") = (cstr "bare", 4).
Proof. apply (base64_roundtrip (cstr "bare")); [vm_compute; reflexivity|vm_compute; discriminate]. Defined.

(** What the decoder stores is what it reports; it is at most
    [dst_len + 2] bytes and one more for every padding character, and never
    more than the characters of the source, so that the buffers of
    [keystore_get_secret], as long as their source, are large enough. *)
Theorem base64_bounds dst_len src out ret :
  decode_base64 dst_len src = (out, ret) ->
  ret = Z.of_nat (length out) /\
  Z.of_nat (length out) <= Z.max 0 dst_len + 2 + Z.of_nat (pads src) /\
  (length out <= length src)%nat.
Proof.
  intros H. pose proof (decode_loop_src _ _ _ _ _ _ _ H).
  apply decode_loop_bounds in H as [-> H]; [|done]. simpl in *. split; [done|lia].
Qed.

Lemma base64_bounds_witness : 3 = 3 /\ 3 <= Z.max 0 1 + 2 + Z.of_nat (pads (cstr "QUJD")) /\
  (3 <= 4)%nat.
Proof. apply (base64_bounds 1 (cstr "QUJD") (cstr "ABC") 3). vm_compute. reflexivity. Defined.

(** The padding bound is reached: a destination of one byte can be
    overrun by any amount. *)
Theorem base64_overrun n :
  exists src, (n < length (fst (decode_base64 1 src)))%nat.
Proof.
  exists (replicate n pad ++ encode_base64 (zeros (S n))). unfold decode_base64.
  rewrite decode_pads by (rewrite ?length_app, ?length_replicate; lia).
  rewrite decode_encode_loop by (rewrite ?length_zeros, ?length_app; lia).
  simpl. rewrite length_replicate. lia.
Qed.
