(* ===== verification/Sysfile.v ===== *)
(** * Files and flash devices (src/dt/common.h)

    The helpers of dt/common.h that the storage buckets use for their I/O:
    [read_full], [write_full], [flush], [erase] and [mtd_buf_all_ff], over a
    model of the system calls they make.

    A [file] is a fixed-size medium: plain (a block device, an EEPROM) or flash
    (an MTD device, where programming can only clear bits and erasing sets a
    block to 0xff). Its [f_script] says how each of the following system calls
    behaves: it succeeds, it fails with an errno, or it transfers at most a
    given number of bytes; an exhausted script means success. Every theorem
    that quantifies over the script therefore covers every pattern of errors
    and short transfers. *)

From S2P Require Import Prelude.

Inductive sysret : Type :=
| SysOk
| SysErr (e : Z)
| SysCap (n : nat).

Record file : Type := File {
  f_data : bytes;
  f_flash : bool;
  f_bad : list Z;          (* offsets of the eraseblocks marked bad *)
  f_script : list sysret
}.

(** An open file description: the medium and the position. *)
Record fd : Type := Fd { fd_file : file; fd_pos : Z }.

Definition set_data (d : bytes) (f : file) : file :=
  File d (f_flash f) (f_bad f) (f_script f).

(** The behaviour of the next system call. *)
Definition next_sys (f : file) : sysret * file :=
  match f_script f with
  | [] => (SysOk, f)
  | s :: r => (s, File (f_data f) (f_flash f) (f_bad f) r)
  end.

(** [open(path, flags)] of the device: 0 for a descriptor, or -1 and errno. *)
Definition sys_open (f : file) : (Z * Z) * file :=
  let (s, f') := next_sys f in
  match s with SysErr e => ((-1, e), f') | _ => ((0, 0), f') end.

(** A system call returns its value and, when that is -1, the errno. *)
Definition sys_lseek (off : Z) (d : fd) : (Z * Z) * fd :=
  let (s, f) := next_sys (fd_file d) in
  match s with
  | SysErr e => ((-1, e), Fd f (fd_pos d))
  | _ => if off <? 0 then ((-1, EINVAL), Fd f (fd_pos d)) else ((off, 0), Fd f off)
  end.

(** Bytes that a transfer of [n] bytes at the position can move. Linux moves at most
    0x7ffff000 bytes in one call, so that what a call returns fits an [int]. *)
Definition avail (d : fd) : nat := length (f_data (fd_file d)) - Z.to_nat (fd_pos d).
Definition MAX_RW_COUNT : Z := 0x7ffff000.
Definition sys_cap (s : sysret) (n : nat) : nat :=
  let n := if Z.of_nat n <=? MAX_RW_COUNT then n else Z.to_nat MAX_RW_COUNT in
  match s with SysCap k => Nat.min k n | _ => n end.

(** [read(fd, buf, n)]: the return value and the bytes stored into [buf]. *)
Definition sys_read (n : nat) (d : fd) : Z * bytes * fd :=
  let (s, f) := next_sys (fd_file d) in
  match s with
  | SysErr _ => (-1, [], Fd f (fd_pos d))
  | _ => let now := Nat.min (sys_cap s n) (avail d) in
         (Z.of_nat now, sub (Z.to_nat (fd_pos d)) now (f_data f),
          Fd f (fd_pos d + Z.of_nat now))
  end.

(** What programming [new] over [old] leaves on the medium. *)
Definition byte_and (a b : Byte.byte) : Byte.byte := byte_of (Z.land (bval a) (bval b)).
Definition program (flash : bool) (new old : bytes) : bytes :=
  if flash then zip_with byte_and new old else new.

(** [write(fd, buf, n)]; a full medium gives ENOSPC. *)
Definition sys_write (buf : bytes) (d : fd) : Z * fd :=
  let (s, f) := next_sys (fd_file d) in
  match s with
  | SysErr _ => (-1, Fd f (fd_pos d))
  | _ => if (0 <? Z.of_nat (length buf)) && (Z.of_nat (avail d) =? 0)
         then (-1, Fd f (fd_pos d))
         else
           let now := Nat.min (sys_cap s (length buf)) (avail d) in
           let pos := Z.to_nat (fd_pos d) in
           let new := program (f_flash f) (take now buf) (sub pos now (f_data f)) in
           (Z.of_nat now,
            Fd (set_data (splice pos new (f_data f)) f) (fd_pos d + Z.of_nat now))
  end.

(** [write(fd, buf, n)] on a descriptor opened [O_RDONLY]: EBADF. *)
Definition sys_write_rdonly (buf : bytes) (d : fd) : Z * fd :=
  let (_, f) := next_sys (fd_file d) in (-1, Fd f (fd_pos d)).

(** [fsync(fd)]. *)
Definition sys_fsync (d : fd) : (Z * Z) * fd :=
  let (s, f) := next_sys (fd_file d) in
  match s with
  | SysErr e => ((-1, e), Fd f (fd_pos d))
  | _ => ((0, 0), Fd f (fd_pos d))
  end.

(** [ioctl(fd, MEMERASE, {start, length})]. *)
Definition sys_memerase (start len : Z) (d : fd) : Z * fd :=
  let (s, f) := next_sys (fd_file d) in
  match s with
  | SysErr _ => (-1, Fd f (fd_pos d))
  | _ => if (0 <=? start) && (0 <=? len) && (start + len <=? Z.of_nat (length (f_data f)))
         then (0, Fd (set_data (splice (Z.to_nat start)
                                  (replicate (Z.to_nat len) Byte.xff) (f_data f)) f) (fd_pos d))
         else (-1, Fd f (fd_pos d))
  end.

(** [ioctl(fd, MEMGETBADBLOCK, &offs)]: 1 for a bad block, 0 for a good one. *)
Definition sys_memgetbadblock (offs : Z) (d : fd) : Z * fd :=
  let (s, f) := next_sys (fd_file d) in
  match s with
  | SysErr _ => (-1, Fd f (fd_pos d))
  | _ => ((if decide (offs ∈ f_bad f) then 1 else 0), Fd f (fd_pos d))
  end.

(** ** The helpers *)

(** The loop of [read_full]; [None] is fuel exhaustion, which [read_loop_total]
    excludes. [got] is what has been stored so far. Sizes are [size_t], but what is
    returned is an [int]; the [int total] is taken to wrap as compilers have it. *)
Fixpoint read_loop (fuel : nat) (insize size : nat) (got : bytes) (d : fd)
  : option (Z * bytes * fd) :=
  match size with
  | O => Some (s32 (Z.of_nat insize), got, d)
  | S _ =>
      match fuel with
      | O => None
      | S fuel' =>
          let '(now, data, d') := sys_read size d in
          if now =? 0 then Some (s32 (Z.of_nat (length got)), got, d')
          else if now <? 0 then Some (now, got, d')
          else read_loop fuel' insize (size - Z.to_nat now) (got ++ data) d'
      end
  end.

(** [read_full(fd, buf, size)]: [buf] is the previous content of the buffer, of
    length [size]; the result holds its content afterwards. *)
Definition read_full (buf : bytes) (d : fd) : Z * bytes * fd :=
  match read_loop (length buf) (length buf) (length buf) [] d with
  | Some (ret, got, d') => (ret, got ++ drop (length got) buf, d')
  | None => (-1, buf, d)
  end.

(** The loop of [write_full], over the [write] of the descriptor; the size it returns is
    an [int]. *)
Fixpoint write_loop (write : bytes -> fd -> Z * fd) (fuel : nat) (insize : nat) (buf : bytes) (d : fd) : option (Z * fd) :=
  match buf with
  | [] => Some (s32 (Z.of_nat insize), d)
  | _ =>
      match fuel with
      | O => None
      | S fuel' =>
          let (now, d') := write buf d in
          if now <=? 0 then Some (now, d')
          else write_loop write fuel' insize (drop (Z.to_nat now) buf) d'
      end
  end.

Definition write_full_with (write : bytes -> fd -> Z * fd) (buf : bytes) (d : fd) : Z * fd :=
  match write_loop write (length buf) (length buf) buf d with
  | Some r => r
  | None => (-1, d)
  end.

(** On a descriptor opened for writing. *)
Definition write_full : bytes -> fd -> Z * fd := write_full_with sys_write.

Definition flush (d : fd) : Z * fd :=
  let '((ret, errno), d') := sys_fsync d in
  if ret =? 0 then (0, d') else if errno =? EINVAL then (0, d') else (- errno, d').

(** The fields of [struct erase_info_user] have 32 bits. *)
Definition erase (count offset : Z) (d : fd) : Z * fd := sys_memerase (u32 offset) (u32 count) d.

(** [mtd_buf_all_ff]: the bytes up to a word boundary, the words, the rest.
    [addr] is the address of [buf]; [None] is a read past its end. *)
Fixpoint ff_tail (buf : bytes) : bool :=
  match buf with
  | [] => true
  | b :: buf' => if decide (b = Byte.xff) then ff_tail buf' else false
  end.

Fixpoint ff_words (buf : bytes) : bool :=
  match buf with
  | b0 :: b1 :: b2 :: b3 :: buf' =>
      if get_le [b0; b1; b2; b3] =? 0xffffffff
      then (match buf' with [] => true | _ => ff_words buf' end) else false
  | _ => ff_tail buf
  end.

Fixpoint ff_head (addr : Z) (buf : bytes) : option bool :=
  if Z.land addr 3 =? 0 then Some (ff_words buf)
  else match buf with
       | [] => None
       | b :: buf' =>
           if decide (b = Byte.xff) then
             (match buf' with [] => Some true | _ => ff_head (addr + 1) buf' end)
           else Some false
       end.

Definition mtd_buf_all_ff (addr : Z) (buf : bytes) : option bool := ff_head addr buf.

(** ** Lemmas *)

(** A script that only shortens transfers, never to nothing. *)
Definition benign (s : sysret) : Prop :=
  match s with SysOk => True | SysErr _ => False | SysCap k => (0 < k)%nat end.

Lemma sys_cap_le s n : (sys_cap s n <= n)%nat.
Proof. unfold sys_cap. destruct (Z.leb_spec (Z.of_nat n) MAX_RW_COUNT), s; lia. Qed.
Lemma sys_cap_some s n : benign s -> (0 < n)%nat -> (0 < sys_cap s n)%nat.
Proof.
  unfold sys_cap. assert (0 < MAX_RW_COUNT) by done.
  destruct (Z.leb_spec (Z.of_nat n) MAX_RW_COUNT), s; cbn [benign]; intros; try done; lia.
Qed.

Lemma next_sys_data f : f_data (snd (next_sys f)) = f_data f.
Proof. unfold next_sys. by destruct (f_script f). Qed.
Lemma next_sys_flash f : f_flash (snd (next_sys f)) = f_flash f.
Proof. unfold next_sys. by destruct (f_script f). Qed.

(** [sub] past the first part of a buffer continues in the second. *)
Lemma sub_snoc pos a b l : sub pos (a + b) l = sub pos a l ++ sub (pos + a) b l.
Proof. unfold sub. rewrite <-drop_drop. by rewrite take_take_drop. Qed.

(** *** Reading *)

Lemma sys_read_progress n d : 0 <= fst (fst (sys_read n d)) -> 
  (Z.to_nat (fst (fst (sys_read n d))) <= n)%nat.
Proof.
  unfold sys_read. pose proof (sys_cap_le (fst (next_sys (fd_file d))) n).
  destruct (next_sys (fd_file d)) as [[|e|k] f]; cbn [fst snd] in *; lia.
Qed.

Lemma read_loop_total fuel : forall insize size got d,
  (size <= fuel)%nat -> is_Some (read_loop fuel insize size got d).
Proof.
  induction fuel as [|fuel IH]; intros insize [|size] got d Hle; simpl; try some; [lia|].
  destruct (sys_read (S size) d) as [[now data] d'] eqn:E.
  destruct (Z.eqb_spec now 0); [some|]. destruct (Z.ltb_spec now 0); [some|].
  apply IH. lia.
Qed.

Lemma next_sys_benign f s f' : Forall benign (f_script f) -> next_sys f = (s, f') ->
  benign s /\ Forall benign (f_script f') /\ f_data f' = f_data f /\ f_flash f' = f_flash f
  /\ f_bad f' = f_bad f.
Proof.
  unfold next_sys. intros Hb. destruct (f_script f) eqn:E; intros; simplify_eq; simpl.
  - rewrite E. auto.
  - apply Forall_cons_1 in Hb as [??]. auto.
Qed.

Lemma read_loop_spec fuel : forall insize size got d,
  (size <= fuel)%nat -> Forall benign (f_script (fd_file d)) -> 0 <= fd_pos d ->
  (Z.to_nat (fd_pos d) + size <= length (f_data (fd_file d)))%nat ->
  exists s', Forall benign s' /\
  read_loop fuel insize size got d =
    Some (s32 (Z.of_nat insize), got ++ sub (Z.to_nat (fd_pos d)) size (f_data (fd_file d)),
          Fd (File (f_data (fd_file d)) (f_flash (fd_file d)) (f_bad (fd_file d)) s')
             (fd_pos d + Z.of_nat size)).
Proof.
  induction fuel as [|fuel IH]; intros insize [|size] got [[data fl bad scr] pos] Hle Hb Hp Hin;
    simpl in *; try lia;
    try (exists scr; split; [done|]; unfold sub; by rewrite take_0, app_nil_r, Z.add_0_r). unfold sys_read. simpl fd_file. simpl fd_pos.
  destruct (next_sys _) as [s f'] eqn:E.
  apply next_sys_benign in E as (Hs & Hb' & Hd & Hf & Hbad); [|done].
  destruct f' as [data' fl' bad' scr']; simpl in *; subst.
  set (now := Nat.min (sys_cap s (S size)) (avail _)).
  assert (0 < now <= S size)%nat as Hnow.
  { unfold now, avail. cbn [fd_file f_data fd_pos].
    pose proof (sys_cap_some s (S size) Hs). pose proof (sys_cap_le s (S size)). lia. }
  assert (match s with SysErr _ => (-1, [], Fd (File data fl bad scr') pos)
          | _ => (Z.of_nat now, sub (Z.to_nat pos) now data,
                  Fd (File data fl bad scr') (pos + Z.of_nat now)) end
          = (Z.of_nat now, sub (Z.to_nat pos) now data,
              Fd (File data fl bad scr') (pos + Z.of_nat now))) as ->.
  { destruct s; [done|done|done]. }
  destruct (Z.eqb_spec (Z.of_nat now) 0); [lia|].
  destruct (Z.ltb_spec (Z.of_nat now) 0); [lia|].
  destruct (IH insize (S size - Z.to_nat (Z.of_nat now))%nat (got ++ sub (Z.to_nat pos) now data)
              (Fd (File data fl bad scr') (pos + Z.of_nat now)))
    as (s' & Hs' & ->); simpl; try lia; [done|].
  exists s'. split; [done|]. rewrite Nat2Z.id.
  replace (pos + Z.of_nat now + Z.of_nat (S size - now)) with (pos + Z.of_nat (S size)) by lia.
  replace (Z.to_nat (pos + Z.of_nat now)) with (Z.to_nat pos + now)%nat by lia.
  rewrite <-app_assoc, <-sub_snoc. by replace (now + (S size - now))%nat with (S size) by lia.
Qed.

Lemma read_full_spec buf d :
  Forall benign (f_script (fd_file d)) -> 0 <= fd_pos d ->
  (Z.to_nat (fd_pos d) + length buf <= length (f_data (fd_file d)))%nat ->
  exists s', Forall benign s' /\
  read_full buf d =
    (s32 (Z.of_nat (length buf)), sub (Z.to_nat (fd_pos d)) (length buf) (f_data (fd_file d)),
     Fd (File (f_data (fd_file d)) (f_flash (fd_file d)) (f_bad (fd_file d)) s')
        (fd_pos d + Z.of_nat (length buf))).
Proof.
  intros Hb Hp Hin. unfold read_full.
  destruct (read_loop_spec (length buf) (length buf) (length buf) [] d) as (s' & Hs' & ->); try done.
  exists s'. split; [done|]. simpl. f_equal. f_equal.
  rewrite drop_ge by (rewrite length_sub; lia). apply app_nil_r.
Qed.

(** *** Writing *)

Definition all_ff (l : bytes) : Prop := l = replicate (length l) Byte.xff.

Lemma byte_and_ff b : byte_and b Byte.xff = b.
Proof. by destruct b. Qed.

Lemma zip_and_ff l : zip_with byte_and l (replicate (length l) Byte.xff) = l.
Proof. induction l as [|b l IH]; simpl; [done|]. by rewrite byte_and_ff, IH. Qed.

(** Programming a plain medium, or an erased region of flash, stores the data. *)
Lemma program_erased fl new old :
  length old = length new -> (fl = true -> all_ff old) -> program fl new old = new.
Proof.
  intros Hl Hff. destruct fl; simpl; [|done].
  rewrite (Hff eq_refl), Hl. apply zip_and_ff.
Qed.

Lemma length_program fl new old : length old = length new -> length (program fl new old) = length new.
Proof. intros. destruct fl; simpl; [|done]. rewrite length_zip_with. lia. Qed.

Lemma all_ff_sub o n l : all_ff l -> (o + n <= length l)%nat -> all_ff (sub o n l).
Proof.
  unfold all_ff. intros -> Hl. rewrite length_replicate in Hl. rewrite length_sub by len.
  unfold sub. rewrite drop_replicate, take_replicate. f_equal. lia.
Qed.

Lemma splice_splice pos a b l :
  (pos + length a + length b <= length l)%nat ->
  splice (pos + length a) b (splice pos a l) = splice pos (a ++ b) l.
Proof.
  intros Hl. unfold splice.
  assert (take (pos + length a) (take pos l ++ a ++ drop (pos + length a) l) = take pos l ++ a)
    as -> by (rewrite app_assoc; apply take_app_length'; len).
  assert (drop (pos + length a + length b) (take pos l ++ a ++ drop (pos + length a) l)
          = drop (pos + length (a ++ b)) l) as ->.
  { rewrite app_assoc, drop_app_ge by len. rewrite drop_drop. f_equal. len. }
  by rewrite <-!app_assoc.
Qed.

Lemma write_loop_total fuel : forall insize buf d,
  (length buf <= fuel)%nat -> is_Some (write_loop sys_write fuel insize buf d).
Proof.
  induction fuel as [|fuel IH]; intros insize [|b buf] d Hle; simpl in *; try some; [lia|].
  destruct (sys_write (b :: buf) d) as [now d'] eqn:E.
  destruct (Z.leb_spec now 0); [some|].
  apply IH. rewrite length_drop. simpl. lia.
Qed.

(** One call of [write] for bytes that fit, on memory that is erased there: it moves
    some of them. *)
Lemma write_step w data fl bad scr pos : (0 < length w)%nat -> Forall benign scr -> 0 <= pos ->
  (Z.to_nat pos + length w <= length data)%nat -> (fl = true -> all_ff (sub (Z.to_nat pos) (length w) data)) ->
  exists now scr', (0 < now <= length w)%nat /\ Forall benign scr' /\
    sys_write w (Fd (File data fl bad scr) pos)
    = (Z.of_nat now, Fd (File (splice (Z.to_nat pos) (take now w) data) fl bad scr') (pos + Z.of_nat now)).
Proof.
  intros Hl Hb Hp Hin Hff. unfold sys_write. cbn [fd_file fd_pos].
  destruct (next_sys _) as [s f'] eqn:E. apply next_sys_benign in E as (Hs & Hb' & Hd & Hf & Hbad); [|done].
  destruct f' as [data' fl' bad' scr']; cbn [f_data f_flash f_bad f_script] in *; subst.
  set (d0 := Fd (File data fl bad scr) pos). set (now := Nat.min (sys_cap s (length w)) (avail d0)).
  assert (Hav : (length w <= avail d0)%nat) by (unfold avail, d0; cbn [fd_file f_data fd_pos]; lia).
  assert (0 < now <= length w)%nat as Hnow.
  { unfold now. pose proof (sys_cap_some s (length w) Hs). pose proof (sys_cap_le s (length w)). lia. }
  assert (program fl (take now w) (sub (Z.to_nat pos) now data) = take now w) as Hpr.
  { apply program_erased; [rewrite length_sub, length_take by lia; lia|]. intros Hfl. specialize (Hff Hfl).
    replace (Z.to_nat pos) with (Z.to_nat pos + 0)%nat by lia.
    rewrite <-(sub_sub _ (length w)) by lia. apply all_ff_sub; [done|]. rewrite length_sub; lia. }
  exists now, scr'. split; [done|]. split; [done|]. destruct (Z.ltb_spec 0 (Z.of_nat (length w))); [|lia].
  destruct (Z.eqb_spec (Z.of_nat (avail d0)) 0); [lia|]. cbn [andb]. rewrite Hpr. by destruct s.
Qed.

Lemma write_loop_spec fuel : forall insize buf d,
  (length buf <= fuel)%nat -> Forall benign (f_script (fd_file d)) -> 0 <= fd_pos d ->
  (Z.to_nat (fd_pos d) + length buf <= length (f_data (fd_file d)))%nat ->
  (f_flash (fd_file d) = true ->
   all_ff (sub (Z.to_nat (fd_pos d)) (length buf) (f_data (fd_file d)))) ->
  exists s', Forall benign s' /\
  write_loop sys_write fuel insize buf d =
    Some (s32 (Z.of_nat insize),
          Fd (File (splice (Z.to_nat (fd_pos d)) buf (f_data (fd_file d)))
                   (f_flash (fd_file d)) (f_bad (fd_file d)) s')
             (fd_pos d + Z.of_nat (length buf))).
Proof.
  induction fuel as [|fuel IH]; intros insize [|b buf] [[data fl bad scr] pos] Hle Hb Hp Hin Hff;
    cbn [fd_file f_data fd_pos f_script f_flash f_bad length] in *; try lia;
    try (exists scr; split; [done|]; simpl; rewrite Z.add_0_r; do 3 f_equal;
         unfold splice; simpl; rewrite Nat.add_0_r; by rewrite take_drop).
  set (w := b :: buf) in *. assert (length w = S (length buf)) as Hw by done.
  destruct (write_step w data fl bad scr pos) as (now & scr' & Hnow & Hb' & E); [lia|done..|].
  change (write_loop sys_write (S fuel) insize w (Fd (File data fl bad scr) pos)) with
    (let (now, d') := sys_write w (Fd (File data fl bad scr) pos) in
     if now <=? 0 then Some (now, d')
     else write_loop sys_write fuel insize (drop (Z.to_nat now) w) d').
  rewrite E. destruct (Z.leb_spec (Z.of_nat now) 0); [lia|]. rewrite Nat2Z.id.
  assert (length (take now w) = now) as Htw by (rewrite length_take; lia).
  assert (Z.to_nat (pos + Z.of_nat now) = Z.to_nat pos + now)%nat as Hpos by lia.
  destruct (IH insize (drop now w) (Fd (File (splice (Z.to_nat pos) (take now w) data) fl bad scr') (pos + Z.of_nat now)))
    as (s' & Hs' & ->); cbn [fd_file f_data fd_pos f_script f_flash f_bad];
    rewrite ?length_drop, ?length_splice by lia; try lia; [done| |].
  { intros Hfl. rewrite sub_splice_disjoint by lia. specialize (Hff Hfl). rewrite Hpos.
    rewrite <-(sub_sub _ (length w)) by lia. apply all_ff_sub; [done|]. rewrite length_sub; lia. }
  exists s'. split; [done|]. rewrite Hpos. rewrite <-Htw at 1.
  rewrite splice_splice, take_drop by (rewrite Htw, length_drop; lia). do 3 f_equal. lia.
Qed.

Lemma write_full_spec buf d :
  Forall benign (f_script (fd_file d)) -> 0 <= fd_pos d ->
  (Z.to_nat (fd_pos d) + length buf <= length (f_data (fd_file d)))%nat ->
  (f_flash (fd_file d) = true ->
   all_ff (sub (Z.to_nat (fd_pos d)) (length buf) (f_data (fd_file d)))) ->
  exists s', Forall benign s' /\
  write_full buf d =
    (s32 (Z.of_nat (length buf)),
     Fd (File (splice (Z.to_nat (fd_pos d)) buf (f_data (fd_file d)))
              (f_flash (fd_file d)) (f_bad (fd_file d)) s')
        (fd_pos d + Z.of_nat (length buf))).
Proof.
  intros Hb Hp Hin Hff. unfold write_full, write_full_with.
  destruct (write_loop_spec (length buf) (length buf) buf d) as (s' & Hs' & ->); try done.
  by exists s'.
Qed.

(** Two media that differ at most in [len] bytes from [pos] on, in nothing else
    but what is left of the script. *)
Definition same_outside (pos len : nat) (f f' : file) : Prop :=
  f_flash f' = f_flash f /\ f_bad f' = f_bad f /\ length (f_data f') = length (f_data f) /\
  forall i, (i < pos \/ pos + len <= i)%nat -> f_data f' !! i = f_data f !! i.

Lemma same_outside_refl pos len f : same_outside pos len f f.
Proof. unfold same_outside. auto. Qed.

Lemma same_outside_trans pos len f g h :
  same_outside pos len f g -> same_outside pos len g h -> same_outside pos len f h.
Proof.
  intros (H1 & H2 & H3 & H4) (K1 & K2 & K3 & K4).
  split; [congruence|]. split; [congruence|]. split; [congruence|].
  intros i Hi. by rewrite K4, H4.
Qed.

Lemma same_outside_weaken pos len pos' len' f g :
  (pos <= pos')%nat -> (pos' + len' <= pos + len)%nat ->
  same_outside pos' len' f g -> same_outside pos len f g.
Proof.
  intros ?? (H1 & H2 & H3 & H4). split; [done|]. split; [done|]. split; [done|].
  intros i Hi. apply H4. lia.
Qed.

Lemma same_outside_sub pos len f g o n :
  same_outside pos len f g -> (o + n <= pos \/ pos + len <= o)%nat ->
  sub o n (f_data g) = sub o n (f_data f).
Proof.
  intros (_ & _ & _ & H) Ho. apply list_eq. intros i. destruct (decide (i < n)%nat).
  - rewrite !sub_lookup by done. apply H. lia.
  - unfold sub. by rewrite !lookup_take_ge by lia.
Qed.

Lemma next_sys_outside f s g pos len : next_sys f = (s, g) -> same_outside pos len f g.
Proof.
  unfold next_sys. destruct (f_script f); intros; simplify_eq; unfold same_outside; auto.
Qed.

Lemma splice_outside pos new f s :
  (pos + length new <= length (f_data f))%nat ->
  same_outside pos (length new) f (File (splice pos new (f_data f)) (f_flash f) (f_bad f) s).
Proof.
  intros Hl. split; [done|]. split; [done|]. split; [by apply length_splice|].
  intros i Hi. by apply splice_lookup_out.
Qed.

(** A write leaves every byte outside its range alone, whatever the system
    calls do. *)
Lemma sys_write_outside buf d n d' : 0 <= fd_pos d -> sys_write buf d = (n, d') ->
  same_outside (Z.to_nat (fd_pos d)) (length buf) (fd_file d) (fd_file d') /\
  (0 < n -> fd_pos d' = fd_pos d + n /\ (Z.to_nat n <= length buf)%nat).
Proof.
  intros Hp. unfold sys_write. destruct (next_sys (fd_file d)) as [s f] eqn:E.
  pose proof (next_sys_outside _ _ _ (Z.to_nat (fd_pos d)) (length buf) E) as Ho.
  assert (f_data f = f_data (fd_file d)) as Hd
    by (by rewrite <-(next_sys_data (fd_file d)), E).
  set (now := Nat.min (sys_cap s (length buf)) (avail d)).
  assert ((now <= length buf)%nat) as Hn
    by (unfold now; pose proof (sys_cap_le s (length buf)); lia).
  assert (forall r, (Z.of_nat now, Fd (set_data (splice (Z.to_nat (fd_pos d))
      (program (f_flash f) (take now buf) (sub (Z.to_nat (fd_pos d)) now (f_data f))) (f_data f)) f)
      (fd_pos d + Z.of_nat now)) = r -> 
      same_outside (Z.to_nat (fd_pos d)) (length buf) (fd_file d) (fd_file (snd r)) /\
      (0 < fst r -> fd_pos (snd r) = fd_pos d + fst r /\ (Z.to_nat (fst r) <= length buf)%nat))
    as Hgood.
  { intros r <-. cbn [fst snd fd_file fd_pos]. split; [|lia].
    eapply same_outside_trans; [apply Ho|].
    destruct (decide (now = 0%nat)) as [->|Hnz].
    - rewrite take_0. unfold sub. rewrite take_0.
      assert (program (f_flash f) [] [] = []) as -> by (by destruct (f_flash f)).
      unfold set_data, splice. rewrite app_nil_l, Nat.add_0_r, take_drop.
      destruct f; apply same_outside_refl.
    - assert (Z.to_nat (fd_pos d) + now <= length (f_data f))%nat as Hin.
      { rewrite Hd. unfold now, avail in *. lia. }
      assert (length (program (f_flash f) (take now buf)
                (sub (Z.to_nat (fd_pos d)) now (f_data f))) = now) as Hlp.
      { rewrite length_program; rewrite length_take; [lia|]. rewrite length_sub; lia. }
      eapply same_outside_weaken; [done| |apply splice_outside; lia]. lia. }
  destruct s as [|e|k]; [|intros; simplify_eq; split; [done|lia]|];
    (destruct ((0 <? Z.of_nat (length buf)) && (Z.of_nat (avail d) =? 0));
      [intros; simplify_eq; split; [done|lia]|intros Hr; destruct (Hgood _ Hr) as [? Hx];
       cbn [fst snd] in *; by split]).
Qed.

Lemma write_loop_outside fuel : forall insize buf d n d', 0 <= fd_pos d ->
  write_loop sys_write fuel insize buf d = Some (n, d') ->
  same_outside (Z.to_nat (fd_pos d)) (length buf) (fd_file d) (fd_file d').
Proof.
  induction fuel as [|fuel IH]; intros insize [|b buf] d n d' Hp; simpl; intros H;
    simplify_eq; try apply same_outside_refl.
  destruct (sys_write (b :: buf) d) as [now d1] eqn:E.
  apply sys_write_outside in E as [Ho Hpos]; [|done].
  destruct (Z.leb_spec now 0); [by simplify_eq|].
  destruct Hpos as [Hpos Hle]; [lia|].
  eapply same_outside_trans; [apply Ho|].
  apply IH in H; [|lia]. rewrite length_drop in H. simpl length in *.
  eapply same_outside_weaken; [| |apply H]; lia.
Qed.

Lemma write_full_outside buf d n d' : 0 <= fd_pos d -> write_full buf d = (n, d') ->
  same_outside (Z.to_nat (fd_pos d)) (length buf) (fd_file d) (fd_file d').
Proof.
  intros Hp. unfold write_full, write_full_with.
  destruct (write_loop_total (length buf) (length buf) buf d) as [[r d1] E]; [done|].
  rewrite E. intros; simplify_eq. by eapply write_loop_outside.
Qed.

Lemma sys_write_pos buf d n d' : sys_write buf d = (n, d') -> n <= 0 -> fd_pos d' = fd_pos d.
Proof.
  unfold sys_write. destruct (next_sys (fd_file d)) as [s f]. set (now := Nat.min _ _).
  destruct s as [|e|k]; [|by intros; simplify_eq|];
    (destruct ((0 <? Z.of_nat (length buf)) && (Z.of_nat (avail d) =? 0));
      intros; simplify_eq; simpl; [done|lia]).
Qed.

Lemma write_loop_pos fuel : forall insize buf d n d', 0 <= fd_pos d ->
  write_loop sys_write fuel insize buf d = Some (n, d') ->
  fd_pos d <= fd_pos d' <= fd_pos d + Z.of_nat (length buf).
Proof.
  induction fuel as [|fuel IH]; intros insize [|b buf] d n d' Hp; simpl; intros H;
    simplify_eq; try lia.
  destruct (sys_write (b :: buf) d) as [now d1] eqn:E.
  pose proof (sys_write_outside _ _ _ _ Hp E) as [_ Hpos].
  destruct (Z.leb_spec now 0); [simplify_eq; rewrite (sys_write_pos _ _ _ _ E) by done; lia|].
  destruct Hpos as [Hpos Hle]; [lia|].
  apply IH in H; [|lia]. rewrite length_drop in H. simpl length in *. lia.
Qed.

(** A write stays in its range and ends in it, whatever the system calls do. *)
Lemma write_full_inside buf d n d' : 0 <= fd_pos d -> write_full buf d = (n, d') ->
  same_outside (Z.to_nat (fd_pos d)) (length buf) (fd_file d) (fd_file d') /\
  fd_pos d <= fd_pos d' <= fd_pos d + Z.of_nat (length buf).
Proof.
  intros Hp H. split; [by eapply write_full_outside|]. revert H. unfold write_full, write_full_with.
  destruct (write_loop_total (length buf) (length buf) buf d) as [[r d1] E]; [done|].
  rewrite E. intros; simplify_eq. by eapply write_loop_pos.
Qed.

(** *** Reads, seeks and flushes change nothing but the script *)

Lemma sys_read_file n d r data d' : sys_read n d = (r, data, d') ->
  f_data (fd_file d') = f_data (fd_file d) /\ f_flash (fd_file d') = f_flash (fd_file d) /\
  f_bad (fd_file d') = f_bad (fd_file d).
Proof.
  unfold sys_read, next_sys. destruct (f_script (fd_file d)) as [|[] ?]; intros; by simplify_eq.
Qed.

Lemma read_loop_file fuel : forall insize size got d r g d',
  read_loop fuel insize size got d = Some (r, g, d') ->
  f_data (fd_file d') = f_data (fd_file d) /\ f_flash (fd_file d') = f_flash (fd_file d) /\
  f_bad (fd_file d') = f_bad (fd_file d).
Proof.
  induction fuel as [|fuel IH]; intros insize [|size] got d r g d'; simpl; intros H; simplify_eq;
    try done.
  destruct (sys_read (S size) d) as [[now data] d1] eqn:E. apply sys_read_file in E.
  destruct (now =? 0); [simplify_eq; naive_solver|].
  destruct (now <? 0); [simplify_eq; naive_solver|].
  apply IH in H. destruct E as (<- & <- & <-). done.
Qed.

Lemma read_full_file buf d r g d' : read_full buf d = (r, g, d') ->
  f_data (fd_file d') = f_data (fd_file d) /\ f_flash (fd_file d') = f_flash (fd_file d) /\
  f_bad (fd_file d') = f_bad (fd_file d).
Proof.
  unfold read_full. destruct (read_loop _ _ _ _ _) as [[[? ?] ?]|] eqn:E; intros; simplify_eq; [|done].
  by eapply read_loop_file.
Qed.

(** *** Media that behave *)

(** The system calls may shorten transfers but do not fail. *)
Definition healthy (f : file) : Prop := Forall benign (f_script f).

(** The same medium, up to what is left of the script. *)
Definition same_medium (f g : file) : Prop :=
  f_data g = f_data f /\ f_flash g = f_flash f /\ f_bad g = f_bad f.

#[global] Instance same_medium_equiv : Equivalence same_medium.
Proof.
  split.
  - intros f. done.
  - intros f g (?&?&?). by repeat split.
  - intros f g h (E1&E2&E3) (F1&F2&F3). repeat split; congruence.
Qed.

Lemma same_medium_outside f g pos len : same_medium f g -> same_outside pos len f g.
Proof. intros (E & ? & ?). unfold same_outside. rewrite E. auto. Qed.

Lemma next_sys_medium f s g : next_sys f = (s, g) -> same_medium f g.
Proof. unfold next_sys. destruct (f_script f); intros; by simplify_eq. Qed.

Lemma sys_lseek_medium off d r d' : sys_lseek off d = (r, d') -> same_medium (fd_file d) (fd_file d').
Proof.
  unfold sys_lseek. destruct (next_sys (fd_file d)) as [s f] eqn:E. apply next_sys_medium in E.
  destruct s; [|by intros; simplify_eq|]; destruct (off <? 0); intros; by simplify_eq.
Qed.

Lemma sys_lseek_ok off d errno d' : sys_lseek off d = ((off, errno), d') -> 0 <= off ->
  fd_pos d' = off.
Proof.
  unfold sys_lseek. destruct (next_sys (fd_file d)) as [s f].
  destruct s; intros; destruct (Z.ltb_spec off 0); simplify_eq; try lia; done.
Qed.

Lemma flush_medium d r d' : flush d = (r, d') -> same_medium (fd_file d) (fd_file d').
Proof.
  unfold flush, sys_fsync. destruct (next_sys (fd_file d)) as [s f] eqn:E. apply next_sys_medium in E.
  destruct s as [|e|]; simpl; try (intros; by simplify_eq).
  destruct (e =? EINVAL); intros; by simplify_eq.
Qed.

Lemma read_full_medium buf d r g d' :
  read_full buf d = (r, g, d') -> same_medium (fd_file d) (fd_file d').
Proof. intros H%read_full_file. destruct H as (?&?&?). by repeat split. Qed.

Lemma next_sys_healthy f : healthy f -> exists s g, next_sys f = (s, g) /\ benign s /\
  healthy g /\ same_medium f g.
Proof.
  intros H. destruct (next_sys f) as [s g] eqn:E. exists s, g.
  pose proof (next_sys_benign _ _ _ H E) as (?&?&?&?&?). by repeat split.
Qed.

Lemma sys_open_healthy f : healthy f -> exists g, sys_open f = ((0, 0), g) /\ healthy g /\
  same_medium f g.
Proof.
  intros H. unfold sys_open. destruct (next_sys_healthy f H) as (s & g & -> & Hs & Hg & Hm).
  exists g. destruct s; [done|destruct Hs|done].
Qed.

Lemma sys_lseek_healthy off f pos : healthy f -> 0 <= off ->
  exists g, sys_lseek off (Fd f pos) = ((off, 0), Fd g off) /\ healthy g /\ same_medium f g.
Proof.
  intros H Ho. unfold sys_lseek. simpl.
  destruct (next_sys_healthy f H) as (s & g & -> & Hs & Hg & Hm). exists g.
  destruct s; [|destruct Hs|]; (destruct (Z.ltb_spec off 0); [lia|done]).
Qed.

Lemma flush_healthy f pos : healthy f ->
  exists g, flush (Fd f pos) = (0, Fd g pos) /\ healthy g /\ same_medium f g.
Proof.
  intros H. unfold flush, sys_fsync. simpl.
  destruct (next_sys_healthy f H) as (s & g & -> & Hs & Hg & Hm). exists g.
  destruct s; [done|destruct Hs|done].
Qed.

Lemma read_full_healthy buf f pos : healthy f -> 0 <= pos -> Z.of_nat (length buf) < 2 ^ 31 ->
  (Z.to_nat pos + length buf <= length (f_data f))%nat ->
  exists g, read_full buf (Fd f pos) =
    (Z.of_nat (length buf), sub (Z.to_nat pos) (length buf) (f_data f),
     Fd g (pos + Z.of_nat (length buf))) /\ healthy g /\ same_medium f g.
Proof.
  intros H Hp Hn Hl. destruct (read_full_spec buf (Fd f pos)) as (s & Hs & E); try done.
  rewrite E, s32_small by lia. eexists. split; [reflexivity|]. split; [apply Hs|done].
Qed.

(** Nothing is written through a descriptor opened for reading. *)
Lemma write_rdonly buf d : buf <> [] -> exists g, write_full_with sys_write_rdonly buf d = (-1, Fd g (fd_pos d)) /\
  same_medium (fd_file d) g /\ (healthy (fd_file d) -> healthy g).
Proof.
  intros Hne. unfold write_full_with. destruct buf as [|b buf]; [done|]. cbn [length write_loop]. unfold sys_write_rdonly.
  destruct (next_sys (fd_file d)) as [s g] eqn:E. exists g. split; [done|]. split; [by eapply next_sys_medium|].
  intros Hb. by apply (next_sys_benign _ _ _ Hb) in E as (_ & ? & _).
Qed.

Lemma write_full_healthy buf f pos : healthy f -> 0 <= pos -> Z.of_nat (length buf) < 2 ^ 31 ->
  (Z.to_nat pos + length buf <= length (f_data f))%nat ->
  (f_flash f = true -> all_ff (sub (Z.to_nat pos) (length buf) (f_data f))) ->
  exists g, write_full buf (Fd f pos) =
    (Z.of_nat (length buf), Fd g (pos + Z.of_nat (length buf))) /\ healthy g /\
    f_data g = splice (Z.to_nat pos) buf (f_data f) /\ f_flash g = f_flash f /\ f_bad g = f_bad f.
Proof.
  intros H Hp Hn Hl Hff. destruct (write_full_spec buf (Fd f pos)) as (s & Hs & E); try done.
  rewrite E, s32_small by lia. eexists. split; [reflexivity|]. done.
Qed.

(** *** Blank flash *)

Lemma all_ff_cons b l : all_ff (b :: l) <-> b = Byte.xff /\ all_ff l.
Proof. unfold all_ff. simpl. split; [intros [= -> H]; by rewrite <-H|intros [-> H]; by f_equal]. Qed.

#[global] Instance all_ff_dec l : Decision (all_ff l).
Proof. unfold all_ff. apply _. Defined.

Lemma ff_tail_spec l : ff_tail l = bool_decide (all_ff l).
Proof.
  induction l as [|b l IH]; simpl; [done|].
  case_decide as Hb; [rewrite IH; apply bool_decide_ext; rewrite all_ff_cons; tauto|].
  symmetry. apply bool_decide_eq_false. rewrite all_ff_cons. tauto.
Qed.

(** A word is 0xffffffff when its four bytes are 0xff. *)
Lemma word_ff b0 b1 b2 b3 :
  get_le [b0; b1; b2; b3] = 0xffffffff <->
  b0 = Byte.xff /\ b1 = Byte.xff /\ b2 = Byte.xff /\ b3 = Byte.xff.
Proof.
  split.
  - change 0xffffffff with (get_le [Byte.xff; Byte.xff; Byte.xff; Byte.xff]).
    intros H. apply get_le_inj in H; [|done]. by simplify_eq.
  - by intros (-> & -> & -> & ->).
Qed.

Lemma ff_words_spec l : ff_words l = bool_decide (all_ff l).
Proof.
  induction l as [l IH] using list_length_ind.
  destruct l as [|b0 [|b1 [|b2 [|b3 l]]]]; try apply ff_tail_spec.
  cbn [ff_words].
  assert ((match l with [] => true | _ => ff_words l end) = bool_decide (all_ff l)) as ->.
  { destruct l; [done|]. apply IH. simpl. lia. }
  destruct (Z.eqb_spec (get_le [b0; b1; b2; b3]) 0xffffffff) as [E|E]; rewrite word_ff in E.
  - apply bool_decide_ext. rewrite !all_ff_cons. tauto.
  - symmetry. apply bool_decide_eq_false. rewrite !all_ff_cons. tauto.
Qed.

Lemma ff_head_spec l : forall addr, l <> [] -> ff_head addr l = Some (bool_decide (all_ff l)).
Proof.
  induction l as [|b l IH]; intros addr Hl; [done|]. unfold ff_head; fold ff_head.
  destruct (Z.land addr 3 =? 0); [by rewrite ff_words_spec|].
  case_decide as Hb.
  - assert ((match l with [] => Some true | _ => ff_head (addr + 1) l end)
            = Some (bool_decide (all_ff l))) as ->.
    { destruct l; [done|]. by apply IH. }
    f_equal. apply bool_decide_ext. rewrite all_ff_cons. tauto.
  - f_equal. symmetry. apply bool_decide_eq_false. rewrite all_ff_cons. tauto.
Qed.

(** ** Claims *)

(** [mtd_buf_all_ff] answers whether every byte of a non-empty buffer is
    0xff, at every alignment of the buffer: the byte, word and tail loops
    together look at each byte once. *)
Theorem mtd_buf_all_ff_correct addr buf :
  buf <> [] -> mtd_buf_all_ff addr buf = Some (forallb (fun b => bool_decide (b = Byte.xff)) buf).
Proof.
  intros Hb. unfold mtd_buf_all_ff. rewrite ff_head_spec by done. f_equal. clear.
  induction buf as [|b l IH]; [done|]. simpl. rewrite <-IH.
  destruct (decide (b = Byte.xff)) as [E|E].
  - rewrite (bool_decide_eq_true_2 _ E). apply bool_decide_ext. rewrite all_ff_cons. tauto.
  - rewrite (bool_decide_eq_false_2 _ E). apply bool_decide_eq_false. rewrite all_ff_cons. tauto.
Qed.

Lemma mtd_buf_all_ff_correct_witness :
  mtd_buf_all_ff 0x1001 [Byte.xff; Byte.xff; Byte.xff; Byte.xff; Byte.xff; Byte.x7f] = Some false.
Proof.
  apply (mtd_buf_all_ff_correct 0x1001
    [Byte.xff; Byte.xff; Byte.xff; Byte.xff; Byte.xff; Byte.x7f]). discriminate.
Defined.

(** Whatever pattern of short transfers the system delivers, as long as
    each one moves at least a byte, [write_full] stores the whole buffer at the
    position and a [read_full] from there returns it, each reporting its
    length; on flash the region must have been erased. The buffer is below 2 GiB. *)
Theorem full_io_roundtrip buf old d :
  Forall benign (f_script (fd_file d)) -> 0 <= fd_pos d -> length old = length buf ->
  Z.of_nat (length buf) < 2 ^ 31 -> (Z.to_nat (fd_pos d) + length buf <= length (f_data (fd_file d)))%nat ->
  (f_flash (fd_file d) = true ->
   all_ff (sub (Z.to_nat (fd_pos d)) (length buf) (f_data (fd_file d)))) ->
  exists d', write_full buf d = (Z.of_nat (length buf), d') /\
  fst (read_full old (Fd (fd_file d') (fd_pos d))) = (Z.of_nat (length buf), buf).
Proof.
  intros Hb Hp Ho Hn Hin Hff.
  destruct (write_full_spec buf d) as (s & Hs & E); try done.
  rewrite E, s32_small by lia. eexists. split; [done|].
  destruct (read_full_spec old (Fd (File (splice (Z.to_nat (fd_pos d)) buf (f_data (fd_file d)))
    (f_flash (fd_file d)) (f_bad (fd_file d)) s) (fd_pos d))) as (s' & _ & E'); simpl; try done.
  { rewrite length_splice; lia. }
  simpl in *. rewrite E', Ho, s32_small by lia. simpl. by rewrite sub_splice_same.
Qed.

Lemma full_io_roundtrip_witness :
  let d := Fd (File (zeros 6) false [] [SysCap 1; SysCap 2; SysOk; SysCap 1]) 2 in
  exists d', write_full (cstr "abcd") d = (4, d') /\
  fst (read_full (zeros 4) (Fd (fd_file d') 2)) = (4, cstr "abcd").
Proof.
  apply (full_io_roundtrip (cstr "abcd") (zeros 4)); simpl; [|lia|done|lia|lia|done].
  repeat constructor; simpl; lia.
Defined.

(** From 2 GiB on the size that [write_full] returns for a buffer it has written is
    negative, which its callers take for an error. *)
Theorem write_full_huge buf f pos : healthy f -> 0 <= pos -> (Z.to_nat pos + length buf <= length (f_data f))%nat ->
  f_flash f = false -> 2 ^ 31 <= Z.of_nat (length buf) < 2 ^ 32 ->
  exists d', write_full buf (Fd f pos) = (Z.of_nat (length buf) - 2 ^ 32, d') /\
    f_data (fd_file d') = splice (Z.to_nat pos) buf (f_data f).
Proof.
  intros Hf Hp Hl Hfl Hn. destruct (write_full_spec buf (Fd f pos)) as (s & Hs & E); try done; [cbn; by rewrite Hfl|].
  assert (Hs32 : s32 (Z.of_nat (length buf)) = Z.of_nat (length buf) - 2 ^ 32).
  { unfold s32. replace (Z.of_nat (length buf) + 2 ^ 31) with (Z.of_nat (length buf) - 2 ^ 31 + 1 * 2 ^ 32) by lia.
    rewrite Z.mod_add, Z.mod_small by lia. lia. }
  rewrite E, Hs32. eexists. split; [reflexivity|done].
Qed.

(** [write_full] takes a write that moves nothing for success: it returns 0,
    which no caller reads as an error, and leaves the medium as it was. *)
Theorem write_full_zero buf f s pos :
  buf <> [] -> f_script f = SysCap 0 :: s -> 0 <= pos < Z.of_nat (length (f_data f)) ->
  exists d', write_full buf (Fd f pos) = (0, d') /\ f_data (fd_file d') = f_data f.
Proof.
  intros Hb Hs Hp. destruct buf as [|b buf]; [done|].
  unfold write_full, write_full_with. cbn [length write_loop]. unfold sys_write, next_sys. cbn [fd_file fd_pos].
  rewrite Hs. unfold avail. cbn [fd_file fd_pos sys_cap f_data Nat.min length].
  destruct (Z.eqb_spec (Z.of_nat (length (f_data f) - Z.to_nat pos)) 0); [lia|].
  rewrite andb_false_r. change (Z.of_nat 0 <=? 0) with true.
  eexists. split; [reflexivity|]. cbn [fd_file set_data f_data f_flash take].
  assert (program (f_flash f) [] (sub (Z.to_nat pos) 0 (f_data f)) = []) as ->
    by (by destruct (f_flash f)).
  unfold splice. simpl. by rewrite Nat.add_0_r, take_drop.
Qed.

Lemma write_full_zero_witness :
  exists d', write_full (cstr "a") (Fd (File (zeros 2) false [] [SysCap 0]) 0) = (0, d') /\
  f_data (fd_file d') = zeros 2.
Proof. apply (write_full_zero (cstr "a") (File (zeros 2) false [] [SysCap 0]) [] 0); [discriminate|reflexivity|simpl; lia]. Defined.
