(* ===== verification/Bucket.v ===== *)
(** * The bucket interface (src/barebox-state/state.h)

    [struct state_backend_storage_bucket] is a table of function pointers that
    the two bucket implementations fill and the storage calls. [BucketOps] is
    that table; [BucketLaws] is what an implementation promises about it, and
    what the theorems on the storage are proved against. *)

From S2P Require Import Prelude Sysfile.

(** [bucket_open] is the part of a bucket's create function that looks at the
    medium, run when a process opens the storage. [bucket_read] returns its
    result and, when it stores one, the buffer it passes out. *)
Class BucketOps (B : Type) := {
  bucket_open : B -> file -> Z * B * file;
  bucket_write : B -> bytes -> file -> Z * B * file;
  bucket_read : B -> file -> (Z * option bytes) * B * file
}.

(** What a bucket shows of its region: some data, an error, or something that
    depends on more than the region. *)
Inductive shown : Type :=
| Shows (c : bytes)
| Fails
| Unknown.

(** The region of the medium a bucket occupies, what it takes to be in order on
    a medium, whether it is open for writing, the data it has room for, and the data
    that a newly opened bucket reads from the content of its region; [bk_sync] says
    that what a bucket remembers of the medium is up to date. *)
Class BucketView (B : Type) := {
  bk_pos : B -> nat;
  bk_size : B -> nat;
  bk_wf : B -> file -> Prop;
  bk_writable : B -> bool;
  bk_room : B -> bytes -> Prop;
  bk_content : B -> bytes -> shown;
  bk_sync : B -> file -> Prop
}.

Definition region {B} `{BucketView B} (b : B) (f : file) : bytes :=
  sub (bk_pos b) (bk_size b) (f_data f).

(** What a write to the bucket stores. *)
Definition bk_fits {B} `{BucketView B} (b : B) (d : bytes) : Prop := bk_writable b = true /\ bk_room b d.

(** The same place and parameters, opened for writing or not. *)
Definition same_region {B} `{BucketView B} (b b' : B) : Prop :=
  bk_pos b' = bk_pos b /\ bk_size b' = bk_size b /\
  (forall d, bk_room b' d <-> bk_room b d) /\ (forall c, bk_content b' c = bk_content b c).

(** The same bucket, whatever it remembers of the medium. *)
Definition same_place {B} `{BucketView B} (b b' : B) : Prop :=
  same_region b b' /\ bk_writable b' = bk_writable b.

Class BucketLaws (B : Type) `{BucketOps B, BucketView B} := {
  (* any write, with any errors, stays inside the region and leaves a bucket in order *)
  law_write_inside b d f r b' f' :
    bk_wf b f -> bk_room b d -> bucket_write b d f = (r, b', f') ->
    same_outside (bk_pos b) (bk_size b) f f' /\ same_place b b' /\ bk_wf b' f';
  (* a write with no errors succeeds, and the region then holds the data *)
  law_write_ok b d f :
    bk_wf b f -> bk_fits b d -> healthy f ->
    exists b' f' padding, bucket_write b d f = (0, b', f') /\ healthy f' /\
      bk_content b (region b f') = Shows (d ++ zeros padding);
  (* a write to a bucket that is open for reading changes nothing, and fails *)
  law_write_rdonly b d f r b' f' :
    bk_writable b = false -> bucket_write b d f = (r, b', f') ->
    same_medium f f' /\ same_place b b' /\ (bk_wf b f -> bk_wf b' f' /\ (healthy f -> r < 0 /\ healthy f'));
  (* a read changes nothing on the medium, whatever its outcome *)
  law_read_pure b f r b' f' :
    bucket_read b f = (r, b', f') ->
    same_medium f f' /\ same_place b b' /\ (bk_wf b f -> bk_wf b' f');
  (* opening brings the bucket up to date *)
  law_open b f :
    bk_wf b f -> healthy f ->
    exists b' f', bucket_open b f = (0, b', f') /\ healthy f' /\ same_medium f f' /\
      same_place b b' /\ bk_wf b' f' /\ bk_sync b' f';
  (* a bucket that is up to date reads what its region shows *)
  law_read b f c :
    bk_wf b f -> bk_sync b f -> healthy f -> bk_content b (region b f) = Shows c ->
    exists b' f', bucket_read b f = ((0, Some c), b', f') /\ healthy f';
  law_read_fails b f :
    bk_wf b f -> bk_sync b f -> healthy f -> bk_content b (region b f) = Fails ->
    exists e b' f', bucket_read b f = ((- e, None), b', f') /\ healthy f' /\
      0 < e /\ e <> EUCLEAN;
  (* what there is room for may be cut *)
  law_room_take b d n : bk_room b d -> bk_room b (take n d);
  (* being in order depends on the region only *)
  law_wf_outside b f g pos len :
    bk_wf b f -> same_outside pos len f g ->
    (bk_pos b + bk_size b <= pos \/ pos + len <= bk_pos b)%nat ->
    bk_wf b g /\ (bk_sync b f -> bk_sync b g)
}.

(** Two buckets whose regions do not overlap. *)
Definition apart {B} `{BucketView B} (a b : B) : Prop :=
  (bk_pos a + bk_size a <= bk_pos b \/ bk_pos b + bk_size b <= bk_pos a)%nat.

#[export] Instance same_region_equiv {B} `{BucketView B} : Equivalence same_region.
Proof.
  split.
  - by repeat split.
  - intros a b (E1&E2&E3&E4). split; [done|]. split; [done|]. split; intros; [by rewrite E3|by rewrite E4].
  - intros a b c (E1&E2&E3&E4) (F1&F2&F3&F4). split; [congruence|]. split; [congruence|].
    split; intros; [by rewrite F3|by rewrite F4].
Qed.

#[export] Instance same_place_equiv {B} `{BucketView B} : Equivalence same_place.
Proof.
  split.
  - by intros.
  - intros a b [E ?]. by split.
  - intros a b c [E ?] [F ?]. split; [by etrans|congruence].
Qed.

Lemma same_place_region {B} `{BucketView B} (a b : B) : same_place a b -> same_region a b.
Proof. by intros []. Qed.

Lemma same_place_fits {B} `{BucketView B} (a b : B) d : same_place a b -> bk_fits a d -> bk_fits b d.
Proof. intros ((_&_&E&_)&W) []. split; [by rewrite W|by apply E]. Qed.

Lemma bk_fits_room {B} `{BucketView B} (b : B) d : bk_fits b d -> bk_room b d.
Proof. by intros []. Qed.
#[export] Hint Resolve bk_fits_room same_place_region : core.

(** ** Histories of writes *)

Definition with_script (s : list sysret) (f : file) : file :=
  File (f_data f) (f_flash f) (f_bad f) s.

(** A series of writes, each under the system calls its script describes. *)
Fixpoint bucket_writes {B} `{BucketOps B} (b : B) (ws : list (list sysret * bytes)) (f : file)
  : B * file :=
  match ws with
  | [] => (b, f)
  | (s, d) :: ws' =>
      let '(_, b', f') := bucket_write b d (with_script s f) in bucket_writes b' ws' f'
  end.

Section Histories.
Context {B : Type} {HO : BucketOps B} {HV : BucketView B} {HL : BucketLaws B}.

Lemma wf_same_medium (b : B) f g : bk_wf b f -> same_medium f g -> bk_wf b g.
Proof.
  intros Hwf Hm.
  apply (law_wf_outside b f g (bk_pos b + bk_size b) 0); [done|by apply same_medium_outside|by left].
Qed.

Lemma wf_with_script (b : B) s f : bk_wf b f -> bk_wf b (with_script s f).
Proof. intros. by eapply wf_same_medium. Qed.

(** The same place on the same medium shows the same. *)
Lemma content_same (b b' : B) f g :
  same_region b b' -> same_medium f g -> bk_content b' (region b' g) = bk_content b (region b f).
Proof. intros (E1 & E2 & _ & E4) (M1 & _). unfold region. by rewrite E4, E1, E2, M1. Qed.

Lemma content_outside (b : B) f g pos len :
  same_outside pos len f g -> (bk_pos b + bk_size b <= pos \/ pos + len <= bk_pos b)%nat ->
  bk_content b (region b g) = bk_content b (region b f).
Proof. intros Ho Hd. unfold region. by rewrite (same_outside_sub _ _ _ _ _ _ Ho). Qed.

Lemma law_open_shows (b : B) f c :
  bk_wf b f -> healthy f -> bk_content b (region b f) = c ->
  exists b' f', bucket_open b f = (0, b', f') /\ healthy f' /\ same_medium f f' /\
    same_place b b' /\ bk_wf b' f' /\ bk_sync b' f' /\ bk_content b' (region b' f') = c.
Proof.
  intros Hwf Hf Hc. destruct (law_open b f Hwf Hf) as (b' & f' & Ho & Hf' & Hm & Hp & Hwf' & Hs).
  exists b', f'. repeat (split; [done|]). rewrite (content_same b b' f f'); auto.
Qed.

(** However the writes go, the bucket stays in order and in its region. *)
Lemma bucket_writes_wf (b : B) ws f :
  bk_wf b f -> Forall (bk_room b) ws.*2 ->
  same_outside (bk_pos b) (bk_size b) f (snd (bucket_writes b ws f)) /\
  same_place b (fst (bucket_writes b ws f)) /\
  bk_wf (fst (bucket_writes b ws f)) (snd (bucket_writes b ws f)).
Proof.
  revert b f. induction ws as [|[s d] ws IH]; intros b f Hwf Hfit; simpl.
  - split; [apply same_outside_refl|]. by split.
  - apply Forall_cons_1 in Hfit as [Hd Hfit]. simpl in Hd.
    destruct (bucket_write b d (with_script s f)) as [[r b1] f1] eqn:E.
    apply law_write_inside in E as (Ho & Hp & Hwf1); [|by apply wf_with_script|done].
    pose proof Hp as ((Ep & Es & Ef & _) & _).
    destruct (IH b1 f1 Hwf1) as (Ho2 & Hp2 & Hwf2).
    { eapply Forall_weaken; [done|]. intros x. apply Ef. }
    rewrite Ep, Es in Ho2. split; [|split; [by etrans|done]].
    eapply same_outside_trans; [apply Ho|apply Ho2].
Qed.

(** After any history, data written with no errors is what a newly opened
    bucket reads, with zeros behind it. *)
Lemma last_write_read (b : B) ws f s d :
  bk_wf b f -> Forall (bk_room b) ws.*2 -> bk_fits b d -> Forall benign s ->
  let (b1, f1) := bucket_writes b ws f in
  exists b2 f2 padding, bucket_write b1 d (with_script s f1) = (0, b2, f2) /\
  forall s', Forall benign s' ->
  exists b3 f3 b4 f4, bucket_open b2 (with_script s' f2) = (0, b3, f3) /\
    bucket_read b3 f3 = ((0, Some (d ++ zeros padding)), b4, f4).
Proof.
  intros Hwf Hfits Hd Hs. pose proof (bucket_writes_wf b ws f Hwf Hfits) as (_ & Hp & Hwf1).
  destruct (bucket_writes b ws f) as [b1 f1]; simpl in *.
  assert (bk_fits b1 d) as Hd1 by (by eapply same_place_fits).
  destruct (law_write_ok b1 d (with_script s f1)) as (b2 & f2 & p & Hw & Hf2 & Hc);
    [by apply wf_with_script|done|done|].
  exists b2, f2, p. split; [done|]. intros s' Hs'.
  destruct (law_write_inside _ _ _ _ _ _ (wf_with_script b1 s f1 Hwf1) (bk_fits_room _ _ Hd1) Hw) as (_ & ((Ep & Es & _ & Ec) & _) & Hwf2).
  assert (bk_content b2 (region b2 f2) = Shows (d ++ zeros p)) as Hc2.
  { unfold region. rewrite Ep, Es, Ec. exact Hc. }
  destruct (law_open_shows b2 (with_script s' f2) (Shows (d ++ zeros p)))
    as (b3 & f3 & Ho & Hf3 & _ & _ & Hwf3 & Hs3 & Hc3); [by apply wf_with_script|done|done|].
  destruct (law_read b3 f3 _ Hwf3 Hs3 Hf3 Hc3) as (b4 & f4 & Hr & _).
  by exists b3, f3, b4, f4.
Qed.

End Histories.
