(* ===== verification/DirectBucket.v ===== *)
(** * The direct bucket (src/barebox-state/backend_bucket_direct.c)

    A bucket on a medium that needs no erase: an 8-byte header of a magic
    number and the length, then the data, at a fixed offset. [ssize_t] and
    [size_t] are 64 bits wide. Every operation seeks before it transfers, so
    the position of the bucket's descriptor is not part of its state. *)

From S2P Require Import Prelude Sysfile Bucket.

Record direct : Type := Direct {
  d_offset : Z;
  d_max_size : Z;
  d_readonly : bool;     (* the mode of the descriptor *)
  d_wrong_magic : bool   (* of the embedded generic bucket *)
}.

Definition direct_magic : Z := 0x2354fdf3.

(** [struct state_backend_storage_bucket_direct_meta], packed. *)
Record direct_meta : Type := DirectMeta { dm_magic : Z; dm_written_length : Z }.
Definition sizeof_direct_meta : Z := 8.
Definition direct_meta_bytes (m : direct_meta) : bytes :=
  le32 (dm_magic m) ++ le32 (dm_written_length m).
Definition direct_meta_of (b : bytes) : direct_meta :=
  DirectMeta (get_le (sub 0 4 b)) (get_le (sub 4 4 b)).

(** [if (meta.magic != ~0 && !!meta.magic) bucket->wrong_magic = 1]. *)
Definition direct_note_magic (direct : direct) (magic : Z) : DirectBucket.direct :=
  if negb (magic =? u32 (-1)) && negb (magic =? 0)
  then Direct (d_offset direct) (d_max_size direct) (d_readonly direct) true else direct.

Section Direct.

(** [IS_ENABLED(CONFIG_STATE_BACKWARD_COMPATIBLE)], and what the stack holds
    where [meta] is put. *)
Context (compat : bool) (stack : bytes).

(** The allocation and the read of the data. *)
Definition direct_read_body (direct : direct) (read_len : Z) (h : fd)
  : (Z * option bytes) * DirectBucket.direct * file :=
  let '(ret, buf, h) := read_full (zeros (Z.to_nat read_len)) h in
  if ret <? 0 then ((ret, None), direct, fd_file h)
  else ((0, Some buf), direct, fd_file h).

Definition state_backend_bucket_direct_read (direct : direct) (f : file)
  : (Z * option bytes) * DirectBucket.direct * file :=
  let '((pos, errno), h) := sys_lseek (d_offset direct) (Fd f 0) in
  if negb (pos =? d_offset direct) then ((- errno, None), direct, fd_file h) else
  let '(ret, raw, h) := read_full stack h in
  if ret <? 0 then ((ret, None), direct, fd_file h) else
  let meta := direct_meta_of raw in
  if dm_magic meta =? direct_magic then
    if d_max_size direct <? dm_written_length meta
    then ((- EINVAL, None), direct, fd_file h)
    else direct_read_body direct (dm_written_length meta) h
  else
    let direct := direct_note_magic direct (dm_magic meta) in
    if negb compat then ((- EINVAL, None), direct, fd_file h) else
    let '((pos, errno), h) := sys_lseek (d_offset direct) h in
    if negb (pos =? d_offset direct) then ((- errno, None), direct, fd_file h) else
    direct_read_body direct (u32 (d_max_size direct)) h.

(** [write_full] on the descriptor of the bucket. *)
Definition direct_write_full (direct : direct) : bytes -> fd -> Z * fd :=
  write_full_with (if d_readonly direct then sys_write_rdonly else sys_write).

(** The write of the data, after the header. *)
Definition direct_write_body (direct : direct) (buf : bytes) (h : fd)
  : Z * DirectBucket.direct * file :=
  let '(ret, h) := direct_write_full direct buf h in
  if ret <? 0 then (ret, direct, fd_file h) else
  let '(ret, h) := flush h in
  if ret <? 0 then (ret, direct, fd_file h) else (0, direct, fd_file h).

(** [len <= max_size - sizeof(meta)] compares as [size_t]. *)
Definition direct_has_room (direct : direct) (len : Z) : bool :=
  u64 len <=? u64 (d_max_size direct - sizeof_direct_meta).

Definition state_backend_bucket_direct_write (direct : direct) (buf : bytes) (f : file)
  : Z * DirectBucket.direct * file :=
  let len := Z.of_nat (length buf) in
  let '((pos, errno), h) := sys_lseek (d_offset direct) (Fd f 0) in
  if negb (pos =? d_offset direct) then (- errno, direct, fd_file h) else
  if direct_has_room direct len then
    let '(ret, h) := direct_write_full direct (direct_meta_bytes (DirectMeta direct_magic (u32 len))) h in
    if ret <? 0 then (ret, direct, fd_file h) else direct_write_body direct buf h
  else if negb compat then (- EINVAL, direct, fd_file h)
  else direct_write_body direct buf h.

(** The descriptor is opened, [O_RDONLY] or [O_RDWR]; nothing is read. *)
Definition state_backend_bucket_direct_create (offset max_size : Z) (readonly : bool) (f : file)
  : Z * option direct * file :=
  let '((fd, errno), f) := sys_open f in
  if fd <? 0 then (- errno, None, f) else (0, Some (Direct offset max_size readonly false), f).

(** ** The interface *)

(** A process opens the descriptor of its bucket, in the same mode, and reads nothing. *)
Definition direct_open (direct : direct) (f : file) : Z * DirectBucket.direct * file :=
  match state_backend_bucket_direct_create (d_offset direct) (d_max_size direct) (d_readonly direct) f with
  | (ret, Some d, f) => (ret, d, f)
  | (ret, None, f) => (ret, direct, f)
  end.

#[export] Instance direct_ops : BucketOps direct := {
  bucket_open := direct_open;
  bucket_write := state_backend_bucket_direct_write;
  bucket_read := state_backend_bucket_direct_read
}.

(** What a region of the bucket reads as. *)
Definition direct_content (direct : direct) (c : bytes) : shown :=
  let m := direct_meta_of c in
  if dm_magic m =? direct_magic then
    if d_max_size direct <? dm_written_length m then Fails
    else if sizeof_direct_meta + dm_written_length m <=? d_max_size direct
    then Shows (sub 8 (Z.to_nat (dm_written_length m)) c) else Unknown
  else if compat then Shows c else Fails.

Definition direct_wf_size (d : direct) : Prop := sizeof_direct_meta <= d_max_size d < 2 ^ 31.

(** The stride holds the header, lies on the medium and its size fits an
    [int], in which [read_full] and [write_full] return it; the medium needs no erase. *)
Definition direct_wf (d : direct) (f : file) : Prop :=
  0 <= d_offset d /\ direct_wf_size d /\
  d_offset d + d_max_size d <= Z.of_nat (length (f_data f)) /\ f_flash f = false.

#[export] Instance direct_view : BucketView direct := {
  bk_pos d := Z.to_nat (d_offset d);
  bk_size d := Z.to_nat (d_max_size d);
  bk_wf := direct_wf;
  bk_writable d := negb (d_readonly d);
  bk_room d buf := Z.of_nat (length buf) + sizeof_direct_meta <= d_max_size d;
  bk_content := direct_content;
  bk_sync _ _ := True
}.

(** ** Lemmas *)

Lemma direct_meta_roundtrip m rest :
  0 <= dm_magic m < 2 ^ 32 -> 0 <= dm_written_length m < 2 ^ 32 ->
  direct_meta_of (direct_meta_bytes m ++ rest) = m.
Proof.
  intros Hm Hw. unfold direct_meta_of, direct_meta_bytes. destruct m as [ma wl].
  cbn [dm_magic dm_written_length] in *. by rewrite get_le32_fst, get_le32_snd.
Qed.

Lemma length_direct_meta m : length (direct_meta_bytes m) = 8%nat.
Proof. unfold direct_meta_bytes. len. Qed.

Lemma direct_has_room_spec d len :
  0 <= len -> sizeof_direct_meta <= d_max_size d < 2 ^ 32 -> len < 2 ^ 64 ->
  direct_has_room d len = (len + sizeof_direct_meta <=? d_max_size d).
Proof.
  unfold direct_has_room, sizeof_direct_meta. intros. rewrite !u64_small by lia.
  destruct (Z.leb_spec len (d_max_size d - 8)), (Z.leb_spec (len + 8) (d_max_size d)); lia.
Qed.

(** The region of a direct bucket after a write. *)
Definition direct_image (buf : bytes) : bytes :=
  direct_meta_bytes (DirectMeta direct_magic (u32 (Z.of_nat (length buf)))) ++ buf.

Lemma length_direct_image buf : length (direct_image buf) = (8 + length buf)%nat.
Proof. unfold direct_image. rewrite length_app, length_direct_meta. done. Qed.

Lemma direct_write_full_rw d : d_readonly d = false -> direct_write_full d = write_full.
Proof. unfold direct_write_full. by intros ->. Qed.

Lemma direct_write_body_healthy d buf f pos :
  d_readonly d = false -> healthy f -> 0 <= pos -> Z.of_nat (length buf) < 2 ^ 31 ->
  (Z.to_nat pos + length buf <= length (f_data f))%nat -> f_flash f = false ->
  exists g, direct_write_body d buf (Fd f pos) = (0, d, g) /\ healthy g /\
    f_data g = splice (Z.to_nat pos) buf (f_data f) /\ f_flash g = f_flash f /\ f_bad g = f_bad f.
Proof.
  intros Hrw Hf Hp Hn Hl Hfl. unfold direct_write_body. rewrite direct_write_full_rw by done.
  destruct (write_full_healthy buf f pos) as (g & -> & Hg & Hd & Hgf & Hgb); try done; [congruence|].
  destruct (Z.ltb_spec (Z.of_nat (length buf)) 0); [lia|].
  destruct (flush_healthy g (pos + Z.of_nat (length buf)) Hg) as (k & -> & Hk & Hm1 & Hm2 & Hm3).
  exists k. simpl. repeat split; congruence.
Qed.

Lemma direct_write_room d buf f :
  d_readonly d = false -> direct_has_room d (Z.of_nat (length buf)) = true -> 0 <= d_offset d -> f_flash f = false ->
  Z.of_nat (length buf) < 2 ^ 31 -> (Z.to_nat (d_offset d) + length (direct_image buf) <= length (f_data f))%nat -> healthy f ->
  exists g, state_backend_bucket_direct_write d buf f = (0, d, g) /\ healthy g /\
    f_data g = splice (Z.to_nat (d_offset d)) (direct_image buf) (f_data f) /\
    f_flash g = f_flash f /\ f_bad g = f_bad f.
Proof.
  intros Hrw Hr Ho Hfl Hn Hl Hf. unfold state_backend_bucket_direct_write. rewrite direct_write_full_rw by done.
  rewrite length_direct_image in Hl.
  destruct (sys_lseek_healthy (d_offset d) f 0) as (f1 & -> & Hf1 & E1 & E2 & E3); [done..|].
  rewrite Z.eqb_refl. cbn [negb]. rewrite Hr.
  set (m := direct_meta_bytes _). assert (length m = 8%nat) as Hm by apply length_direct_meta.
  destruct (write_full_healthy m f1 (d_offset d)) as (f2 & -> & Hf2 & G1 & G2 & G3);
    [done..|lia|rewrite E1; lia|congruence|].
  rewrite Hm. destruct (Z.ltb_spec (Z.of_nat 8) 0); [lia|].
  destruct (direct_write_body_healthy d buf f2 (d_offset d + Z.of_nat 8))
    as (g & -> & Hg & K1 & K2 & K3); [done|done|lia|done| |congruence|].
  { rewrite G1, length_splice; rewrite E1; lia. }
  exists g. split; [done|]. split; [done|]. split; [|split; congruence].
  rewrite K1, G1, E1. unfold direct_image. fold m.
  rewrite <-splice_splice by lia. f_equal. lia.
Qed.

Lemma direct_write_healthy d buf f :
  direct_wf d f -> d_readonly d = false -> Z.of_nat (length buf) + sizeof_direct_meta <= d_max_size d -> healthy f ->
  exists g, state_backend_bucket_direct_write d buf f = (0, d, g) /\ healthy g /\
    f_data g = splice (Z.to_nat (d_offset d)) (direct_image buf) (f_data f) /\
    f_flash g = f_flash f /\ f_bad g = f_bad f.
Proof.
  intros (Ho & Hs & Hl & Hfl) Hrw Hb Hf. unfold direct_wf_size, sizeof_direct_meta in *.
  apply direct_write_room; try done.
  - rewrite direct_has_room_spec by (unfold sizeof_direct_meta; lia). unfold sizeof_direct_meta. lia.
  - lia.
  - rewrite length_direct_image. lia.
Qed.

Lemma direct_content_image d buf rest :
  direct_wf_size d -> Z.of_nat (length buf) + sizeof_direct_meta <= d_max_size d ->
  direct_content d (direct_image buf ++ rest) = Shows buf.
Proof.
  intros Hs Hb. unfold direct_content, direct_image, direct_wf_size, sizeof_direct_meta in *.
  rewrite <-app_assoc, direct_meta_roundtrip; cbn [dm_magic dm_written_length];
    [|unfold direct_magic; lia|apply u32_range].
  rewrite Z.eqb_refl, u32_small by lia.
  destruct (Z.ltb_spec (d_max_size d) (Z.of_nat (length buf))); [lia|].
  destruct (Z.leb_spec (8 + Z.of_nat (length buf)) (d_max_size d)); [|lia].
  f_equal. rewrite Nat2Z.id. rewrite <-(length_direct_meta (DirectMeta direct_magic (Z.of_nat (length buf)))) at 1.
  rewrite sub_app_skip. by rewrite take_app_length.
Qed.

(** The same stride, in the same mode. *)
Definition direct_place (d d' : direct) : Prop :=
  d_offset d' = d_offset d /\ d_max_size d' = d_max_size d /\ d_readonly d' = d_readonly d.

Lemma direct_note_magic_place d ma : direct_place d (direct_note_magic d ma).
Proof. unfold direct_note_magic. by destruct (negb (ma =? u32 (-1)) && negb (ma =? 0)). Qed.

Lemma direct_meta_of_sub o n l : (8 <= n)%nat ->
  direct_meta_of (sub o n l) = DirectMeta (get_le (sub o 4 l)) (get_le (sub (o + 4) 4 l)).
Proof.
  intros. unfold direct_meta_of. rewrite !sub_sub by lia. by rewrite Nat.add_0_r.
Qed.

Lemma direct_read_body_healthy d n f pos :
  healthy f -> 0 <= pos -> 0 <= n < 2 ^ 31 -> (Z.to_nat pos + Z.to_nat n <= length (f_data f))%nat ->
  exists g, direct_read_body d n (Fd f pos)
    = ((0, Some (sub (Z.to_nat pos) (Z.to_nat n) (f_data f))), d, g) /\ healthy g /\ same_medium f g.
Proof.
  intros Hf Hp Hn Hl. unfold direct_read_body.
  destruct (read_full_healthy (zeros (Z.to_nat n)) f pos) as (g & -> & Hg & Hm);
    [done..|rewrite length_zeros; lia|rewrite length_zeros; lia|].
  rewrite length_zeros. destruct (Z.ltb_spec (Z.of_nat (Z.to_nat n)) 0); [lia|].
  exists g. done.
Qed.

Lemma direct_read_healthy d f c :
  length stack = 8%nat -> direct_wf d f -> healthy f ->
  direct_content d (sub (Z.to_nat (d_offset d)) (Z.to_nat (d_max_size d)) (f_data f)) = Shows c ->
  exists d' g, state_backend_bucket_direct_read d f = ((0, Some c), d', g) /\ healthy g /\
    same_medium f g.
Proof.
  intros Hst (Ho & Hs & Hl & _) Hf. unfold direct_content, state_backend_bucket_direct_read.
  unfold direct_wf_size, sizeof_direct_meta in *. rewrite direct_meta_of_sub by lia.
  destruct (sys_lseek_healthy (d_offset d) f 0) as (f1 & -> & Hf1 & Hm1); [done..|].
  rewrite Z.eqb_refl. cbn [negb].
  destruct (read_full_healthy stack f1 (d_offset d)) as (f2 & -> & Hf2 & Hm2); [done..|lia| |].
  { destruct Hm1 as [-> _]. lia. }
  rewrite Hst. destruct (Z.ltb_spec (Z.of_nat 8) 0); [lia|].
  rewrite direct_meta_of_sub by lia. destruct Hm1 as (E1 & E2 & E3). rewrite E1.
  cbn [dm_magic dm_written_length].
  set (ma := get_le (sub (Z.to_nat (d_offset d)) 4 (f_data f))).
  set (wl := get_le (sub (Z.to_nat (d_offset d) + 4) 4 (f_data f))).
  assert (0 <= wl) by apply get_le_range.
  destruct (Z.eqb_spec ma direct_magic) as [Em|Em].
  - destruct (Z.ltb_spec (d_max_size d) wl); [done|].
    destruct (Z.leb_spec (8 + wl) (d_max_size d)); [|done]. intros [= <-].
    destruct (direct_read_body_healthy d wl f2 (d_offset d + Z.of_nat 8)) as (g & -> & Hg & Hm3);
      [done|lia|lia|pose proof (proj1 Hm2) as E4; rewrite E4, E1; lia|].
    exists d, g. split; [|split; [done|]].
    + rewrite (proj1 Hm2), E1, sub_sub by lia.
      by replace (Z.to_nat (d_offset d + Z.of_nat 8)) with (Z.to_nat (d_offset d) + 8)%nat by lia.
    + etrans; [|apply Hm3]. etrans; [|apply Hm2]. done.
  - destruct compat; [|done]. intros [= <-]. cbn [negb].
    destruct (direct_note_magic_place d ma) as (Ed1 & Ed2 & _). set (d1 := direct_note_magic d ma) in *.
    rewrite Ed1, Ed2.
    destruct (sys_lseek_healthy (d_offset d) f2 (d_offset d + Z.of_nat 8))
      as (f3 & -> & Hf3 & Hm3); [done..|].
    rewrite Z.eqb_refl. cbn [negb]. rewrite u32_small by lia.
    assert (f_data f3 = f_data f) as Ed by (destruct Hm3 as [-> _], Hm2 as [-> _]; done).
    destruct (direct_read_body_healthy d1 (d_max_size d) f3 (d_offset d)) as (g & -> & Hg & Hm4);
      [done|lia|lia|rewrite Ed; lia|].
    exists d1, g. rewrite Ed. split; [done|]. split; [done|].
    etrans; [|apply Hm4]. etrans; [|apply Hm3]. etrans; [|apply Hm2]. done.
Qed.

Lemma direct_read_fails d f :
  length stack = 8%nat -> direct_wf d f -> healthy f ->
  direct_content d (sub (Z.to_nat (d_offset d)) (Z.to_nat (d_max_size d)) (f_data f)) = Fails ->
  exists d' g, state_backend_bucket_direct_read d f = ((- EINVAL, None), d', g) /\ healthy g.
Proof.
  intros Hst (Ho & Hs & Hl & _) Hf. unfold direct_content, state_backend_bucket_direct_read.
  unfold direct_wf_size, sizeof_direct_meta in *. rewrite direct_meta_of_sub by lia.
  destruct (sys_lseek_healthy (d_offset d) f 0) as (f1 & -> & Hf1 & Hm1); [done..|].
  rewrite Z.eqb_refl. cbn [negb].
  destruct (read_full_healthy stack f1 (d_offset d)) as (f2 & -> & Hf2 & Hm2); [done..|lia| |].
  { rewrite (proj1 Hm1). lia. }
  rewrite Hst. destruct (Z.ltb_spec (Z.of_nat 8) 0); [lia|].
  rewrite direct_meta_of_sub by lia. rewrite (proj1 Hm1). cbn [dm_magic dm_written_length].
  destruct (_ =? direct_magic).
  - destruct (d_max_size d <? _); [|by destruct (_ <=? _)]. intros _. by eexists _, _.
  - destruct compat; [done|]. intros _. by eexists _, _.
Qed.

(** *** What holds whatever the system calls do *)

Lemma direct_write_full_inside d buf h n h' : 0 <= fd_pos h -> direct_write_full d buf h = (n, h') ->
  same_outside (Z.to_nat (fd_pos h)) (length buf) (fd_file h) (fd_file h') /\
  fd_pos h <= fd_pos h' <= fd_pos h + Z.of_nat (length buf).
Proof.
  intros Hp. unfold direct_write_full. destruct (d_readonly d); [|by apply write_full_inside].
  destruct buf as [|b buf]; [intros [= <- <-]; split; [apply same_outside_refl|cbn; lia]|].
  destruct (write_rdonly (b :: buf) h) as (g & -> & Hm & _); [done|]. intros [= <- <-]. cbn.
  split; [by apply same_medium_outside|lia].
Qed.

Lemma direct_write_body_inside d buf h r d' g pos n :
  0 <= fd_pos h -> direct_write_body d buf h = (r, d', g) ->
  (pos <= Z.to_nat (fd_pos h))%nat -> (Z.to_nat (fd_pos h) + length buf <= pos + n)%nat ->
  d' = d /\ same_outside pos n (fd_file h) g.
Proof.
  intros Hp. unfold direct_write_body.
  destruct (direct_write_full d buf h) as [r1 h1] eqn:E1. intros H Hlo Hhi.
  apply direct_write_full_inside in E1 as [E1 _]; [|done].
  apply (same_outside_weaken pos n) in E1; [|done..].
  destruct (r1 <? 0); [by simplify_eq|].
  destruct (flush h1) as [r2 h2] eqn:E2. apply flush_medium, (same_medium_outside _ _ pos n) in E2.
  pose proof (same_outside_trans _ _ _ _ _ E1 E2). by destruct (r2 <? 0); simplify_eq.
Qed.

Lemma direct_write_inside d buf f r d' g :
  direct_wf d f -> Z.of_nat (length buf) + sizeof_direct_meta <= d_max_size d ->
  state_backend_bucket_direct_write d buf f = (r, d', g) ->
  d' = d /\ same_outside (Z.to_nat (d_offset d)) (Z.to_nat (d_max_size d)) f g.
Proof.
  intros (Ho & Hs & Hl & Hfl) Hb. unfold state_backend_bucket_direct_write.
  unfold direct_wf_size, sizeof_direct_meta in *.
  destruct (sys_lseek (d_offset d) (Fd f 0)) as [[p e] h] eqn:E1.
  pose proof (sys_lseek_medium _ _ _ _ E1) as Hm.
  apply (same_medium_outside _ _ (Z.to_nat (d_offset d)) (Z.to_nat (d_max_size d))) in Hm.
  destruct (Z.eqb_spec p (d_offset d)) as [->|]; cbn [negb]; [|by intros; simplify_eq].
  apply sys_lseek_ok in E1; [|done]. rewrite direct_has_room_spec by (unfold sizeof_direct_meta; lia).
  unfold sizeof_direct_meta. destruct (Z.leb_spec (Z.of_nat (length buf) + 8) (d_max_size d)); [|lia].
  set (m := direct_meta_bytes _). assert (length m = 8%nat) as Hml by apply length_direct_meta.
  destruct (direct_write_full d m h) as [r1 h1] eqn:E2. apply direct_write_full_inside in E2 as [E2 Hpos]; [|lia].
  apply (same_outside_weaken (Z.to_nat (d_offset d)) (Z.to_nat (d_max_size d))) in E2; [|lia..].
  pose proof (same_outside_trans _ _ _ _ _ Hm E2) as H2. simpl fd_file in H2.
  destruct (r1 <? 0); [by intros; simplify_eq|]. intros E3.
  apply (direct_write_body_inside _ _ _ _ _ _ (Z.to_nat (d_offset d)) (Z.to_nat (d_max_size d)))
    in E3 as [-> E3]; [|lia..].
  split; [done|]. eapply same_outside_trans; [apply H2|apply E3].
Qed.

(** With a descriptor opened for reading a write fails before it has written. *)
Lemma direct_write_rdonly d buf f r d' g :
  d_readonly d = true -> state_backend_bucket_direct_write d buf f = (r, d', g) ->
  d' = d /\ same_medium f g /\ (direct_wf d f -> healthy f -> r < 0 /\ healthy g).
Proof.
  intros Hro. unfold state_backend_bucket_direct_write, direct_write_body, direct_write_full. rewrite Hro.
  destruct (sys_lseek (d_offset d) (Fd f 0)) as [[p e] h] eqn:E1. pose proof (sys_lseek_medium _ _ _ _ E1) as Hm.
  assert (Hh : 0 <= d_offset d -> healthy f -> p = d_offset d /\ healthy (fd_file h)).
  { intros Ho Hf. destruct (sys_lseek_healthy (d_offset d) f 0 Hf Ho) as (f1 & E & ? & _). rewrite E in E1. by injection E1 as <- _ <-. }
  destruct (Z.eqb_spec p (d_offset d)) as [->|Hne]; cbn [negb].
  2:{ intros [= <- <- <-]. split; [done|]. split; [done|]. intros [Ho _] Hf. by apply (Hh Ho) in Hf as [? _]. }
  assert (Hw : forall buf', exists k, write_full_with sys_write_rdonly buf' h = ((if decide (buf' = []) then 0 else -1), Fd k (fd_pos h)) /\
    same_medium f k /\ (0 <= d_offset d -> healthy f -> healthy k)).
  { intros buf'. destruct (decide (buf' = [])) as [->|Hb].
    - exists (fd_file h). split; [by destruct h|]. split; [done|]. intros Ho Hf. by apply Hh.
    - destruct (write_rdonly buf' h Hb) as (k & E & Hmk & Hhk). exists k. split; [done|].
      split; [by etrans|]. intros Ho Hf. by apply Hhk, Hh. }
  destruct (direct_has_room d (Z.of_nat (length buf))) eqn:Er.
  - destruct (Hw (direct_meta_bytes (DirectMeta direct_magic (u32 (Z.of_nat (length buf)))))) as (k & -> & Hmk & Hhk).
    rewrite decide_False by done. cbn. intros [= <- <- <-]. split; [done|]. split; [done|].
    intros [Ho _] Hf. split; [lia|by apply Hhk].
  - destruct compat; cbn [negb].
    + destruct (Hw buf) as (k & -> & Hmk & Hhk). case_decide as Eb; cbn.
      * destruct (flush (Fd k (fd_pos h))) as [r2 h2] eqn:Ef. apply flush_medium in Ef. cbn in Ef.
        assert (Hm2 : same_medium f (fd_file h2)) by (by etrans).
        destruct (r2 <? 0); intros [= <- <- <-]; (split; [done|]); (split; [done|]); intros (Ho & Hs & _) Hf; subst buf;
          unfold direct_wf_size in Hs; rewrite direct_has_room_spec in Er by (cbn; lia); unfold sizeof_direct_meta in *;
          apply Z.leb_gt in Er; cbn in Er; lia.
      * intros [= <- <- <-]. split; [done|]. split; [done|]. intros [Ho _] Hf. split; [lia|by apply Hhk].
    + intros [= <- <- <-]. split; [done|]. split; [done|]. intros [Ho _] Hf. split; [unfold EINVAL; lia|by apply Hh].
Qed.

Lemma direct_read_body_medium d n h r d' g :
  direct_read_body d n h = (r, d', g) -> d' = d /\ same_medium (fd_file h) g.
Proof.
  unfold direct_read_body. destruct (read_full _ h) as [[r1 b1] h1] eqn:E. apply read_full_medium in E.
  destruct (r1 <? 0); intros; by simplify_eq.
Qed.

Lemma direct_read_medium d f r d' g :
  state_backend_bucket_direct_read d f = (r, d', g) ->
  direct_place d d' /\ same_medium f g.
Proof.
  unfold state_backend_bucket_direct_read.
  destruct (sys_lseek (d_offset d) (Fd f 0)) as [[p e] h] eqn:E1. apply sys_lseek_medium in E1.
  simpl fd_file in E1. destruct (negb (p =? d_offset d)); [by intros; simplify_eq|].
  destruct (read_full stack h) as [[r1 raw] h1] eqn:E2. apply read_full_medium in E2.
  pose proof (transitivity E1 E2) as H2.
  destruct (r1 <? 0); [by intros; simplify_eq|].
  destruct (dm_magic (direct_meta_of raw) =? direct_magic).
  - destruct (d_max_size d <? dm_written_length (direct_meta_of raw)); [by intros; simplify_eq|].
    intros [-> H]%direct_read_body_medium. split; [done|]. by etrans.
  - set (d1 := direct_note_magic d (dm_magic (direct_meta_of raw))).
    assert (direct_place d d1) as Hd1 by apply direct_note_magic_place.
    destruct compat; cbn [negb]; [|by intros; simplify_eq].
    destruct (sys_lseek (d_offset d1) h1) as [[p' e'] h2] eqn:E3. apply sys_lseek_medium in E3.
    destruct (negb (p' =? d_offset d1)); [intros; simplify_eq; split; [done|by etrans]|].
    intros [-> H]%direct_read_body_medium. split; [done|]. etrans; [apply H2|]. by etrans.
Qed.

Lemma direct_same_place d d' : direct_place d d' -> same_place d d'.
Proof. destruct d, d'. unfold direct_place. cbn. by intros (-> & -> & ->). Qed.

Lemma direct_wf_outside d f g pos len : direct_wf d f -> same_outside pos len f g -> direct_wf d g.
Proof. intros (?&?&?&?) (E1&_&E2&_). unfold direct_wf. rewrite E1, E2. done. Qed.

Lemma direct_wf_place d d' f : direct_place d d' -> direct_wf d f -> direct_wf d' f.
Proof. unfold direct_wf, direct_wf_size. by intros (-> & -> & _). Qed.

#[export] Instance direct_laws (Hstack : length stack = 8%nat) : BucketLaws direct.
Proof.
  split.
  - intros b d f r b' f' Hwf Hfit H. simpl in *.
    destruct (direct_write_inside _ _ _ _ _ _ Hwf Hfit H) as [-> Ho].
    split; [done|]. split; [done|]. by eapply direct_wf_outside.
  - intros b d f Hwf [Hrw Hfit] Hf. simpl in *. apply negb_true_iff in Hrw.
    destruct (direct_write_healthy b d f Hwf Hrw Hfit Hf) as (g & Hw & Hg & Hd & _).
    destruct Hwf as (Ho & Hs & Hl & _). unfold direct_wf_size, sizeof_direct_meta in *.
    exists b, g, 0%nat. split; [done|]. split; [done|].
    unfold region. simpl. rewrite Hd.
    assert (Z.to_nat (d_max_size b) = length (direct_image d) +
      (Z.to_nat (d_max_size b) - length (direct_image d)))%nat as ->
      by (rewrite length_direct_image; lia).
    rewrite sub_snoc, sub_splice_same by (rewrite length_direct_image; lia).
    rewrite app_nil_r. by apply direct_content_image.
  - intros b d f r b' f' Hro H. simpl in *. apply negb_false_iff in Hro.
    destruct (direct_write_rdonly _ _ _ _ _ _ Hro H) as (-> & Hm & Hh).
    split; [done|]. split; [done|]. intros Hwf. split; [|auto]. eapply direct_wf_outside; [done|]. by apply (same_medium_outside _ _ 0 0).
  - intros b f r b' f' H. simpl in *. apply direct_read_medium in H as [E Hm].
    split; [done|]. split; [by apply direct_same_place|]. intros Hwf.
    apply (direct_wf_place b); [done..|]. eapply direct_wf_outside; [done|].
    by apply (same_medium_outside _ _ 0 0).
  - intros b f Hwf Hf. simpl in *.
    destruct (sys_open_healthy f Hf) as (f1 & Ho & Hf1 & Hm).
    exists (Direct (d_offset b) (d_max_size b) (d_readonly b) false), f1.
    split; [unfold direct_open, state_backend_bucket_direct_create; by rewrite Ho|].
    split; [done|]. split; [done|]. split; [by apply direct_same_place|]. split; [|done].
    apply (direct_wf_place b); [done..|]. eapply direct_wf_outside; [done|].
    by apply (same_medium_outside _ _ 0 0).
  - intros b f c Hwf _ Hf Hc. simpl in *.
    destruct (direct_read_healthy b f c Hstack Hwf Hf Hc) as (b' & f' & Hr & Hf' & _). by exists b', f'.
  - intros b f Hwf _ Hf Hc. simpl in *.
    destruct (direct_read_fails b f Hstack Hwf Hf Hc) as (b' & f' & Hr & Hf'). by exists EINVAL, b', f'.
  - intros b d n. simpl. rewrite length_take. lia.
  - intros b f g pos len Hwf Ho _. simpl in *. split; [by eapply direct_wf_outside|done].
Qed.

End Direct.

(** ** Claims *)

(** C14: data that fits its stride beside the header is written by a direct bucket with a
    stride below 2 GiB that was opened for writing, with result 0 under every pattern of
    short transfers, nothing outside the stride changes, and a read returns exactly that
    data. *)
Theorem direct_roundtrip compat stack d buf f :
  length stack = 8%nat -> direct_wf d f -> d_readonly d = false ->
  Z.of_nat (length buf) + sizeof_direct_meta <= d_max_size d -> healthy f ->
  exists g, state_backend_bucket_direct_write compat d buf f = (0, d, g) /\
    same_outside (Z.to_nat (d_offset d)) (Z.to_nat (d_max_size d)) f g /\
    fst (fst (state_backend_bucket_direct_read compat stack d g)) = (0, Some buf).
Proof.
  intros Hst Hwf Hrw Hb Hf.
  destruct (direct_write_healthy compat d buf f Hwf Hrw Hb Hf) as (g & Hw & Hg & Hd & Hfl & _).
  destruct (direct_write_inside compat d buf f _ _ _ Hwf Hb Hw) as [_ Hout].
  exists g. split; [done|]. split; [done|].
  destruct (direct_read_healthy compat stack d g buf) as (d' & k & -> & _); try done.
  - by eapply direct_wf_outside.
  - destruct Hwf as (Ho & Hs & Hl & _). unfold direct_wf_size, sizeof_direct_meta in *.
    rewrite Hd. replace (Z.to_nat (d_max_size d)) with (length (direct_image buf) +
      (Z.to_nat (d_max_size d) - length (direct_image buf)))%nat
      by (rewrite length_direct_image; lia).
    rewrite sub_snoc, sub_splice_same by (rewrite length_direct_image; lia).
    by apply direct_content_image.
Qed.

Lemma direct_roundtrip_witness :
  let f := File (zeros 64) false [] [SysOk; SysCap 3; SysCap 1] in
  exists g, state_backend_bucket_direct_write false (Direct 16 32 false false) (cstr "state") f
    = (0, Direct 16 32 false false, g) /\ same_outside 16 32 f g /\
    fst (fst (state_backend_bucket_direct_read false (zeros 8) (Direct 16 32 false false) g))
    = (0, Some (cstr "state")).
Proof.
  apply (direct_roundtrip false (zeros 8) (Direct 16 32 false false) (cstr "state")
    (File (zeros 64) false [] [SysOk; SysCap 3; SysCap 1])).
  - reflexivity.
  - vm_compute. intuition congruence.
  - reflexivity.
  - vm_compute. discriminate.
  - repeat constructor.
Defined.

(** The room check of the direct bucket subtracts as [size_t], so for a
    stride smaller than its header it lets any data pass: the write succeeds
    and stores header and data over the following bytes, past its stride. *)
Theorem direct_small_stride compat d buf f :
  d_readonly d = false -> 0 <= d_max_size d < sizeof_direct_meta -> Z.of_nat (length buf) < 2 ^ 31 -> 0 <= d_offset d ->
  d_offset d + 8 + Z.of_nat (length buf) <= Z.of_nat (length (f_data f)) ->
  f_flash f = false -> healthy f ->
  exists g, state_backend_bucket_direct_write compat d buf f = (0, d, g) /\
    f_data g = splice (Z.to_nat (d_offset d)) (direct_image buf) (f_data f) /\
    d_max_size d < Z.of_nat (length (direct_image buf)).
Proof.
  unfold sizeof_direct_meta. intros Hrw Hs Hb Ho Hl Hfl Hf.
  destruct (direct_write_room compat d buf f) as (g & Hw & _ & Hd & _); try done.
  - unfold direct_has_room, u64, sizeof_direct_meta. rewrite Z.mod_small by lia.
    rewrite <-(Z_mod_plus_full (d_max_size d - 8) 1), Z.mod_small; lia.
  - rewrite length_direct_image. lia.
  - exists g. rewrite length_direct_image. split; [done|]. split; [done|lia].
Qed.

Lemma direct_small_stride_witness :
  let f := File (zeros 32) false [] [] in
  exists g, state_backend_bucket_direct_write false (Direct 8 4 false false) (cstr "abc") f
    = (0, Direct 8 4 false false, g) /\
    f_data g = splice 8 (direct_image (cstr "abc")) (zeros 32) /\ 4 < 11.
Proof.
  apply (direct_small_stride false (Direct 8 4 false false) (cstr "abc") (File (zeros 32) false [] []));
    vm_compute; intuition (try congruence). constructor.
Defined.
