(* ===== verification/CircularBucket.v ===== *)
(** * The circular bucket (src/barebox-state/backend_bucket_circular.c)

    A bucket is one eraseblock of a flash device. Each write appends a record
    of whole write units, data first and an 8-byte trailer of a magic number
    and the record's length last, behind the previous ones; the block is erased
    only when the next record would not fit. Opening the bucket searches the
    block backwards for the last record. Modelled is the code for Linux
    ([__BAREBOX__] undefined) with an [off_t] of 64 bits. *)

From S2P Require Import Prelude Sysfile Bucket.

Record circular : Type := Circular {
  c_eraseblock : Z;            (* unsigned int *)
  c_writesize : Z;
  c_max_size : Z;
  c_write_area : Z;
  c_last_written_length : Z;   (* uint32_t *)
  c_erasesize : Z;             (* mtd->erasesize, uint32_t *)
  c_wrong_magic : bool         (* of the embedded generic bucket *)
}.

Definition set_write_area (wa : Z) (c : circular) : circular :=
  Circular (c_eraseblock c) (c_writesize c) (c_max_size c) wa (c_last_written_length c)
           (c_erasesize c) (c_wrong_magic c).

Definition circular_magic : Z := 0x14fa2d02.

(** [struct state_backend_storage_bucket_circular_meta], packed. *)
Record circular_meta : Type := CircularMeta { cm_magic : Z; cm_written_length : Z }.
Definition sizeof_circular_meta : Z := 8.
Definition circular_meta_bytes (m : circular_meta) : bytes :=
  le32 (cm_magic m) ++ le32 (cm_written_length m).
Definition circular_meta_of (b : bytes) : circular_meta :=
  CircularMeta (get_le (sub 0 4 b)) (get_le (sub 4 4 b)).

(** [(off_t)eraseblock * erasesize] is computed in 64 bits,
    [eraseblock * erasesize] in 32. *)
Definition peb_offset64 (c : circular) : Z := s64 (c_eraseblock c * c_erasesize c).
Definition peb_offset32 (c : circular) : Z := u32 (c_eraseblock c * c_erasesize c).

(** The result and the buffer, whose content was [buf]. *)
Definition state_mtd_peb_read (c : circular) (buf : bytes) (suboffset : Z) (f : file)
  : Z * bytes * file :=
  let offset := suboffset + peb_offset64 c in
  let '((pos, errno), h) := sys_lseek offset (Fd f 0) in
  if negb (pos =? offset) then (- errno, buf, fd_file h) else
  let '(ret, buf, h) := read_full buf h in
  if ret <? 0 then (ret, buf, fd_file h) else (0, buf, fd_file h).

Definition state_mtd_peb_write (c : circular) (buf : bytes) (suboffset : Z) (f : file)
  : Z * file :=
  let offset := suboffset + peb_offset32 c in
  let '((pos, errno), h) := sys_lseek offset (Fd f 0) in
  if negb (pos =? offset) then (- errno, fd_file h) else
  let (ret, h) := write_full buf h in
  if ret <? 0 then (ret, fd_file h) else
  let (_, h) := flush h in (0, fd_file h).

Definition state_mtd_peb_erase (c : circular) (f : file) : Z * file :=
  let (ret, h) := erase (c_erasesize c) (peb_offset64 c) (Fd f 0) in (ret, fd_file h).

(** The buffer passed out is shown up to the length passed out with it. *)
Definition circular_read_at (c : circular) (offset read_len : Z) (f : file)
  : (Z * option bytes) * circular * file :=
  let '(ret, buf, f) := state_mtd_peb_read c (zeros (Z.to_nat read_len)) (s32 offset) f in
  if (ret <? 0) && negb (ret =? - EUCLEAN) then ((ret, None), c, f) else
  let read_len := if c_last_written_length c =? 0 then read_len
                  else read_len - sizeof_circular_meta in
  ((ret, Some (take (Z.to_nat read_len) buf)), c, f).

Definition state_backend_bucket_circular_read (c : circular) (f : file)
  : (Z * option bytes) * circular * file :=
  if c_write_area c =? 0 then ((- ENODATA, None), c, f) else
  if c_last_written_length c =? 0 then
    let read_len := Z.min (c_write_area c) (c_max_size c - sizeof_circular_meta) in
    circular_read_at (set_write_area 0 c) 0 read_len f
  else if (c_write_area c <? c_last_written_length c)
          || negb (Z.rem (c_last_written_length c) (c_writesize c) =? 0) then
    ((- EINVAL, None), set_write_area 0 c, f)
  else
    let read_len := c_last_written_length c in
    circular_read_at c (c_write_area c - read_len) read_len f.

(** [roundup(x, y)] of sys/param.h, in [size_t]. *)
Definition roundup (x y : Z) : Z := u64 (u64 (x + (y - 1)) / y * y).

(** The record a write stores: the data, zeros and the trailer. *)
Definition circular_record (buf : bytes) (written_length : Z) : bytes :=
  let write_buf := splice 0 buf (zeros (Z.to_nat written_length)) in
  splice (Z.to_nat (written_length - sizeof_circular_meta))
         (circular_meta_bytes (CircularMeta circular_magic written_length)) write_buf.

Definition state_backend_bucket_circular_write (c : circular) (buf : bytes) (f : file)
  : Z * circular * file :=
  let len := Z.of_nat (length buf) in
  let written_length := u32 (roundup (len + sizeof_circular_meta) (c_writesize c)) in
  if c_max_size c <? written_length then (- E2BIG, c, f) else
  let write_buf := circular_record buf written_length in
  let c := if c_max_size c <=? c_write_area c + written_length then set_write_area 0 c else c in
  let '(ret, f) := if c_write_area c =? 0 then state_mtd_peb_erase c f else (0, f) in
  if negb (ret =? 0) then (ret, c, f) else
  let offset := c_write_area c in
  let c := set_write_area (offset + written_length) c in
  let (ret, f) := state_mtd_peb_write c write_buf (s32 offset) f in
  (ret, c, f).

(** The search of [init], downwards from [sub_offset]: where it stops and the
    trailer found there. [fuel] bounds the steps; the buffer is aligned. *)
Fixpoint circular_scan (fuel : nat) (buf : bytes) (writesize sub_offset : Z)
  : Z * option circular_meta :=
  match fuel with
  | O => (sub_offset, None)
  | S fuel' =>
      if sub_offset <? 0 then (sub_offset, None) else
      match mtd_buf_all_ff sub_offset (sub (Z.to_nat sub_offset) (Z.to_nat writesize) buf) with
      | Some true => circular_scan fuel' buf writesize (sub_offset - writesize)
      | _ => (sub_offset, Some (circular_meta_of
                (drop (Z.to_nat (sub_offset + writesize - sizeof_circular_meta)) buf)))
      end
  end.

(** What the trailer says: [written_length], and whether its magic is wrong. *)
Definition circular_trailer (m : option circular_meta) : Z * bool :=
  match m with
  | None => (0, false)
  | Some m =>
      if negb (cm_magic m =? circular_magic)
      then (0, negb (cm_magic m =? u32 (-1)) && negb (cm_magic m =? 0))
      else (cm_written_length m, false)
  end.

Definition state_backend_bucket_circular_init (c : circular) (f : file) : Z * circular * file :=
  let '(ret, buf, f) := state_mtd_peb_read c (zeros (Z.to_nat (c_max_size c))) 0 f in
  if negb (ret =? 0) && negb (ret =? - EUCLEAN) then (ret, c, f) else
  let (sub_offset, m) := circular_scan (S (length buf)) buf (c_writesize c)
                           (s32 (c_max_size c - c_writesize c)) in
  let (written_length, wrong) := circular_trailer m in
  (0, Circular (c_eraseblock c) (c_writesize c) (c_max_size c) (sub_offset + c_writesize c)
        written_length (c_erasesize c) (c_wrong_magic c || wrong), f).

Definition bucket_circular_is_block_bad (c : circular) (f : file) : Z * file :=
  let (ret, h) := sys_memgetbadblock (peb_offset32 c) (Fd f 0) in (ret, fd_file h).

Definition state_backend_bucket_circular_create (eraseblock writesize erasesize : Z) (f : file)
  : Z * option circular * file :=
  let writesize := if writesize <? 8 then 8 else writesize in
  let c := Circular eraseblock writesize erasesize 0 0 erasesize false in
  let '((fd, errno), f) := sys_open f in
  if fd <? 0 then (- errno, None, f) else
  let '(ret, f) := bucket_circular_is_block_bad c f in
  if negb (ret =? 0) then (- EIO, None, f) else
  let '(ret, c, f) := state_backend_bucket_circular_init c f in
  if negb (ret =? 0) then (ret, None, f) else (0, Some c, f).

(** ** The interface *)

Definition circular_open (c : circular) (f : file) : Z * circular * file :=
  match state_backend_bucket_circular_create (c_eraseblock c) (c_writesize c) (c_erasesize c) f with
  | (ret, Some c', f') => (ret, c', f')
  | (ret, None, f') => (ret, c, f')
  end.

#[export] Instance circular_ops : BucketOps circular := {
  bucket_open := circular_open;
  bucket_write := state_backend_bucket_circular_write;
  bucket_read := state_backend_bucket_circular_read
}.

(** What a bucket that knows [wa] and [lwl] shows of a block with content [r]. *)
Definition circular_shown (c : circular) (wa lwl : Z) (r : bytes) : shown :=
  if wa =? 0 then Fails
  else if lwl =? 0 then
    Shows (sub 0 (Z.to_nat (Z.min wa (c_max_size c - sizeof_circular_meta))) r)
  else if (wa <? lwl) || negb (Z.rem lwl (c_writesize c) =? 0) then Fails
  else Shows (sub (Z.to_nat (wa - lwl)) (Z.to_nat (lwl - sizeof_circular_meta)) r).

(** What a freshly opened bucket reads from a block with content [r]. *)
Definition circular_content (c : circular) (r : bytes) : shown :=
  let (sub_offset, m) := circular_scan (S (length r)) r (c_writesize c)
                           (c_max_size c - c_writesize c) in
  circular_shown c (sub_offset + c_writesize c) (fst (circular_trailer m)) r.

(** Whole write units of at least a trailer, in a block whose byte offset is a
    32-bit number. *)
Definition circular_geometry (c : circular) : Prop :=
  sizeof_circular_meta <= c_writesize c /\ (c_writesize c | c_max_size c) /\
  0 < c_max_size c < 2 ^ 31 /\ c_erasesize c = c_max_size c /\
  0 <= c_eraseblock c /\ c_eraseblock c * c_max_size c < 2 ^ 32.

Definition peb_base (c : circular) : nat := Z.to_nat (c_eraseblock c * c_max_size c).

(** The block lies on the medium and is good; behind the write area it is blank. *)
Definition circular_wf (c : circular) (f : file) : Prop :=
  circular_geometry c /\
  (peb_base c + Z.to_nat (c_max_size c) <= length (f_data f))%nat /\
  c_eraseblock c * c_max_size c ∉ f_bad f /\
  0 <= c_write_area c <= c_max_size c /\ (c_writesize c | c_write_area c) /\
  (c_write_area c <> 0 ->
   all_ff (sub (peb_base c + Z.to_nat (c_write_area c))
               (Z.to_nat (c_max_size c - c_write_area c)) (f_data f))).

(** The bucket knows where the last record of the block ends and its length. *)
Definition circular_sync (c : circular) (f : file) : Prop :=
  let r := sub (peb_base c) (Z.to_nat (c_max_size c)) (f_data f) in
  let (sub_offset, m) := circular_scan (S (length r)) r (c_writesize c)
                           (c_max_size c - c_writesize c) in
  c_write_area c = sub_offset + c_writesize c /\ c_last_written_length c = fst (circular_trailer m).

(** A record fits in the block. *)
Definition circular_fits (c : circular) (d : bytes) : Prop :=
  Z.of_nat (length d) + sizeof_circular_meta <= c_max_size c.

#[export] Instance circular_view : BucketView circular := {
  bk_pos := peb_base;
  bk_size c := Z.to_nat (c_max_size c);
  bk_wf := circular_wf;
  bk_writable _ := true;   (* the descriptor is always opened [O_RDWR] *)
  bk_room := circular_fits;
  bk_content := circular_content;
  bk_sync := circular_sync
}.

(** ** Lemmas *)

Lemma peb_offsets c : circular_geometry c ->
  peb_offset64 c = Z.of_nat (peb_base c) /\ peb_offset32 c = Z.of_nat (peb_base c).
Proof.
  intros (_ & _ & Hm & He & Hb & Hp). unfold peb_offset64, peb_offset32, peb_base.
  rewrite He, Z2Nat.id by lia. split; [|apply u32_small; lia].
  unfold s64. rewrite Z.mod_small; lia.
Qed.

Lemma peb_read_healthy c buf so f :
  circular_geometry c -> healthy f -> 0 <= so -> Z.of_nat (length buf) < 2 ^ 31 ->
  (peb_base c + Z.to_nat so + length buf <= length (f_data f))%nat ->
  exists g, state_mtd_peb_read c buf so f
    = (0, sub (peb_base c + Z.to_nat so) (length buf) (f_data f), g) /\ healthy g /\ same_medium f g.
Proof.
  intros Hc Hf Hso Hn Hl. unfold state_mtd_peb_read. destruct (peb_offsets c Hc) as [-> _].
  destruct (sys_lseek_healthy (so + Z.of_nat (peb_base c)) f 0) as (f1 & -> & Hf1 & Hm1); [done|lia|].
  rewrite Z.eqb_refl. cbn [negb].
  destruct (read_full_healthy buf f1 (so + Z.of_nat (peb_base c))) as (g & -> & Hg & Hm2);
    [done|lia|done|rewrite (proj1 Hm1); lia|].
  destruct (Z.ltb_spec (Z.of_nat (length buf)) 0); [lia|].
  exists g. rewrite (proj1 Hm1).
  replace (Z.to_nat (so + Z.of_nat (peb_base c))) with (peb_base c + Z.to_nat so)%nat by lia.
  split; [done|]. split; [done|]. by etrans.
Qed.

Lemma peb_read_medium c buf so f r b g :
  state_mtd_peb_read c buf so f = (r, b, g) -> same_medium f g.
Proof.
  unfold state_mtd_peb_read.
  destruct (sys_lseek _ (Fd f 0)) as [[p e] h] eqn:E1. apply sys_lseek_medium in E1. simpl in E1.
  destruct (negb _); [by intros; simplify_eq|].
  destruct (read_full buf h) as [[r1 b1] h1] eqn:E2. apply read_full_medium in E2.
  destruct (r1 <? 0); intros; simplify_eq; by etrans.
Qed.

Lemma peb_write_healthy c buf so f :
  circular_geometry c -> healthy f -> 0 <= so -> Z.of_nat (length buf) < 2 ^ 31 ->
  (peb_base c + Z.to_nat so + length buf <= length (f_data f))%nat ->
  all_ff (sub (peb_base c + Z.to_nat so) (length buf) (f_data f)) ->
  exists g, state_mtd_peb_write c buf so f = (0, g) /\ healthy g /\
    f_data g = splice (peb_base c + Z.to_nat so) buf (f_data f) /\
    f_flash g = f_flash f /\ f_bad g = f_bad f.
Proof.
  intros Hc Hf Hso Hn Hl Hff. unfold state_mtd_peb_write. destruct (peb_offsets c Hc) as [_ ->].
  destruct (sys_lseek_healthy (so + Z.of_nat (peb_base c)) f 0) as (f1 & -> & Hf1 & E1 & E2 & E3);
    [done|lia|].
  rewrite Z.eqb_refl. cbn [negb].
  assert (Z.to_nat (so + Z.of_nat (peb_base c)) = peb_base c + Z.to_nat so)%nat as Hpos by lia.
  destruct (write_full_healthy buf f1 (so + Z.of_nat (peb_base c))) as (g & -> & Hg & G1 & G2 & G3);
    rewrite ?Hpos, ?E1; try done; [lia|].
  destruct (Z.ltb_spec (Z.of_nat (length buf)) 0); [lia|].
  destruct (flush_healthy g (so + Z.of_nat (peb_base c) + Z.of_nat (length buf)) Hg)
    as (k & -> & Hk & K1 & K2 & K3).
  exists k. split; [done|]. split; [done|]. simpl. rewrite K1, K2, K3, G1, G2, G3, Hpos, E1. done.
Qed.

Lemma peb_write_inside c buf so f r g :
  circular_geometry c -> 0 <= so -> state_mtd_peb_write c buf so f = (r, g) ->
  same_outside (peb_base c + Z.to_nat so) (length buf) f g.
Proof.
  intros Hc Hso. unfold state_mtd_peb_write. destruct (peb_offsets c Hc) as [_ ->].
  set (o := so + Z.of_nat (peb_base c)).
  assert (Z.to_nat o = peb_base c + Z.to_nat so)%nat as <- by lia. 
  destruct (sys_lseek o (Fd f 0)) as [[p e] h] eqn:E1.
  pose proof (sys_lseek_medium _ _ _ _ E1) as Hm.
  apply (same_medium_outside _ _ (Z.to_nat o) (length buf)) in Hm.
  destruct (Z.eqb_spec p o) as [->|]; cbn [negb]; [|by intros; simplify_eq].
  apply sys_lseek_ok in E1; [|lia].
  destruct (write_full buf h) as [r1 h1] eqn:E2. apply write_full_inside in E2 as [E2 _]; [|lia].
  rewrite E1 in E2. pose proof (same_outside_trans _ _ _ _ _ Hm E2).
  destruct (r1 <? 0); [by intros; simplify_eq|].
  destruct (flush h1) as [r2 h2] eqn:E3. apply flush_medium in E3.
  intros; simplify_eq. eapply same_outside_trans; [done|]. by apply same_medium_outside.
Qed.

Lemma peb_erase_args c : circular_geometry c ->
  u32 (peb_offset64 c) = Z.of_nat (peb_base c) /\ u32 (c_erasesize c) = c_max_size c.
Proof.
  intros Hc. destruct (peb_offsets c Hc) as [-> _]. destruct Hc as (_ & _ & Hm & -> & Hb & Hp). unfold peb_base.
  rewrite !u32_small by lia. done.
Qed.

(** Erasing either blanks the block or leaves the medium alone. *)
Lemma peb_erase_any c f r g :
  circular_geometry c -> (peb_base c + Z.to_nat (c_max_size c) <= length (f_data f))%nat ->
  state_mtd_peb_erase c f = (r, g) ->
  (r <> 0 /\ same_medium f g) \/
  (r = 0 /\ f_data g = splice (peb_base c) (replicate (Z.to_nat (c_max_size c)) Byte.xff) (f_data f)
   /\ f_flash g = f_flash f /\ f_bad g = f_bad f).
Proof.
  intros Hc Hl. unfold state_mtd_peb_erase, erase, sys_memerase. destruct (peb_erase_args c Hc) as [-> ->].
  destruct (next_sys _) as [s f1] eqn:E. apply next_sys_medium in E as (E1 & E2 & E3). simpl in *.
  rewrite E1, Nat2Z.id. destruct s; [|intros; simplify_eq; by left|];
    (destruct ((0 <=? Z.of_nat (peb_base c)) && (0 <=? c_max_size c) &&
       (Z.of_nat (peb_base c) + c_max_size c <=? Z.of_nat (length (f_data f))));
      intros; simplify_eq; [right|left]; done).
Qed.

Lemma peb_erase_healthy c f :
  circular_geometry c -> (peb_base c + Z.to_nat (c_max_size c) <= length (f_data f))%nat ->
  healthy f ->
  exists g, state_mtd_peb_erase c f = (0, g) /\ healthy g /\
  f_data g = splice (peb_base c) (replicate (Z.to_nat (c_max_size c)) Byte.xff) (f_data f)
   /\ f_flash g = f_flash f /\ f_bad g = f_bad f.
Proof.
  intros Hc Hl Hf. unfold state_mtd_peb_erase, erase, sys_memerase. destruct (peb_erase_args c Hc) as [-> ->].
  destruct Hc as (_ & _ & Hm & _).
  destruct (next_sys_healthy f Hf) as (s & f1 & E & Hs & Hf1 & E1 & E2 & E3). simpl fd_file.
  rewrite E, E1, Nat2Z.id.
  assert ((0 <=? Z.of_nat (peb_base c)) && (0 <=? c_max_size c) &&
       (Z.of_nat (peb_base c) + c_max_size c <=? Z.of_nat (length (f_data f))) = true) as ->.
  { rewrite !andb_true_iff, !Z.leb_le. lia. }
  destruct s; [|destruct Hs|]; (eexists; split; [reflexivity|]; split; [apply Hf1|]; done).
Qed.

(** *** Records *)

Lemma roundup_spec x y : 0 <= x -> 0 < y -> x + y <= 2 ^ 64 ->
  (y | roundup x y) /\ x <= roundup x y < x + y.
Proof.
  intros Hx Hy Hm. unfold roundup. rewrite (u64_small (x + (y - 1))) by lia.
  pose proof (Z.div_mod (x + (y - 1)) y ltac:(lia)).
  pose proof (Z.mod_pos_bound (x + (y - 1)) y ltac:(lia)).
  rewrite u64_small by nia. split; [exists ((x + (y - 1)) / y); lia|nia].
Qed.

(** The length of the record for [d]. *)
Definition record_length (c : circular) (d : bytes) : Z :=
  u32 (roundup (Z.of_nat (length d) + sizeof_circular_meta) (c_writesize c)).

Lemma record_length_spec c d : circular_geometry c -> circular_fits c d ->
  (c_writesize c | record_length c d) /\
  Z.of_nat (length d) + sizeof_circular_meta <= record_length c d <= c_max_size c.
Proof.
  unfold circular_fits, record_length, sizeof_circular_meta.
  intros (Hw & Hd & Hm & _) Hf. unfold sizeof_circular_meta in Hw.
  assert (c_writesize c <= c_max_size c) by (apply Z.divide_pos_le; [lia|done]).
  destruct (roundup_spec (Z.of_nat (length d) + 8) (c_writesize c)) as [Hr Hb]; [lia..|].
  assert (roundup (Z.of_nat (length d) + 8) (c_writesize c) <= c_max_size c).
  { destruct Hr as [q Eq], Hd as [k Ek]. rewrite Eq, Ek in *.
    assert (q < k + 1) by nia. nia. }
  rewrite u32_small by lia. split; [done|lia].
Qed.

Lemma length_circular_meta m : length (circular_meta_bytes m) = 8%nat.
Proof. unfold circular_meta_bytes. len. Qed.

Lemma circular_record_eq d wl : Z.of_nat (length d) + sizeof_circular_meta <= wl ->
  circular_record d wl =
  d ++ zeros (Z.to_nat (wl - sizeof_circular_meta) - length d)
    ++ circular_meta_bytes (CircularMeta circular_magic wl).
Proof.
  intros Hl. unfold circular_record, sizeof_circular_meta in *.
  set (n := Z.to_nat (wl - 8)). assert (Z.to_nat wl = n + 8)%nat as -> by lia.
  assert (splice 0 d (zeros (n + 8)) = (d ++ zeros (n - length d)) ++ zeros 8) as ->.
  { unfold splice, zeros. rewrite take_0, drop_replicate, <-app_assoc, <-replicate_add.
    cbn [app]. do 2 f_equal. lia. }
  unfold splice. rewrite length_circular_meta, take_app_length' by len.
  rewrite (drop_ge (_ ++ _)) by len. by rewrite app_nil_r, <-app_assoc.
Qed.

Lemma length_circular_record d wl : Z.of_nat (length d) + sizeof_circular_meta <= wl ->
  length (circular_record d wl) = Z.to_nat wl.
Proof.
  intros Hl. rewrite circular_record_eq by done. unfold sizeof_circular_meta in *.
  rewrite !length_app, length_zeros, length_circular_meta. lia.
Qed.

(** *** The write keeps the rest of the block blank *)

Definition blank_from (c : circular) (wa : Z) (f : file) : Prop :=
  all_ff (sub (peb_base c + Z.to_nat wa) (Z.to_nat (c_max_size c - wa)) (f_data f)).

Lemma blank_after c wa n f g :
  0 <= wa -> 0 <= n -> wa + n <= c_max_size c ->
  (peb_base c + Z.to_nat (c_max_size c) <= length (f_data f))%nat ->
  blank_from c wa f -> same_outside (peb_base c + Z.to_nat wa) (Z.to_nat n) f g ->
  blank_from c (wa + n) g.
Proof.
  intros Hwa Hn Hm Hl Hb Ho. unfold blank_from in *.
  rewrite (same_outside_sub _ _ _ _ _ _ Ho) by lia.
  replace (peb_base c + Z.to_nat (wa + n))%nat with (peb_base c + Z.to_nat wa + Z.to_nat n)%nat by lia.
  rewrite <-(sub_sub _ (Z.to_nat (c_max_size c - wa))) by lia.
  apply all_ff_sub; [done|]. rewrite length_sub by lia. lia.
Qed.

Lemma blank_erased c f g :
  0 <= c_max_size c -> (peb_base c + Z.to_nat (c_max_size c) <= length (f_data f))%nat ->
  f_data g = splice (peb_base c) (replicate (Z.to_nat (c_max_size c)) Byte.xff) (f_data f) ->
  blank_from c 0 g.
Proof.
  intros Hm Hl E. unfold blank_from. rewrite E, Z.sub_0_r, Nat.add_0_r.
  rewrite <-(length_replicate (Z.to_nat (c_max_size c)) Byte.xff) at 1.
  rewrite sub_splice_same by (rewrite length_replicate; lia).
  unfold all_ff. by rewrite length_replicate.
Qed.

Lemma peb_erase_outside c f g :
  (peb_base c + Z.to_nat (c_max_size c) <= length (f_data f))%nat ->
  f_data g = splice (peb_base c) (replicate (Z.to_nat (c_max_size c)) Byte.xff) (f_data f) ->
  f_flash g = f_flash f -> f_bad g = f_bad f ->
  same_outside (peb_base c) (Z.to_nat (c_max_size c)) f g.
Proof.
  intros Hl E1 E2 E3. unfold same_outside. rewrite E1. split; [done|]. split; [done|].
  rewrite length_splice by (rewrite length_replicate; done). split; [done|].
  intros i Hi. apply splice_lookup_out; rewrite length_replicate; done.
Qed.

Lemma same_outside_weaken_peb c wa n f g :
  0 <= wa -> 0 <= n -> wa + n <= c_max_size c ->
  same_outside (peb_base c + Z.to_nat wa) (Z.to_nat n) f g ->
  same_outside (peb_base c) (Z.to_nat (c_max_size c)) f g.
Proof. intros ???. apply same_outside_weaken; lia. Qed.

(** A bucket at some place of the block, whatever its write area. *)
Definition circular_placed (c : circular) (f : file) : Prop :=
  circular_geometry c /\
  (peb_base c + Z.to_nat (c_max_size c) <= length (f_data f))%nat /\
  c_eraseblock c * c_max_size c ∉ f_bad f.

Lemma circular_placed_outside c pos len f g :
  circular_placed c f -> same_outside pos len f g -> circular_placed c g.
Proof. intros (?&?&?) (_&E1&E2&_). unfold circular_placed. by rewrite E1, E2. Qed.

Lemma circular_wf_set c wa f :
  circular_placed c f -> 0 <= wa <= c_max_size c -> (c_writesize c | wa) ->
  (wa <> 0 -> blank_from c wa f) -> circular_wf (set_write_area wa c) f.
Proof. intros (?&?&?) ???. split; [done|]. split; [done|]. split; [done|]. done. Qed.

Lemma circular_wf_placed c f : circular_wf c f -> circular_placed c f.
Proof. by intros (?&?&?&_). Qed.

Lemma circular_place c wa : same_place c (set_write_area wa c).
Proof. by repeat split. Qed.

(** The write behind a blank write area [wa], with any errors. *)
Lemma circular_write_at c wa wl d f r g :
  circular_placed c f -> 0 <= wa -> (c_writesize c | wa) -> blank_from c wa f ->
  (c_writesize c | wl) -> Z.of_nat (length d) + sizeof_circular_meta <= wl ->
  wa + wl <= c_max_size c ->
  state_mtd_peb_write (set_write_area (wa + wl) c) (circular_record d wl) (s32 wa) f = (r, g) ->
  same_outside (peb_base c) (Z.to_nat (c_max_size c)) f g /\
  circular_wf (set_write_area (wa + wl) c) g.
Proof.
  intros Hp Hwa Hd1 Hbl Hd2 Hwl Hm H. unfold sizeof_circular_meta in Hwl.
  pose proof Hp as (Hg & Hl & _). pose proof Hg as (_ & _ & Hmax & _).
  rewrite s32_small in H by lia.
  apply peb_write_inside in H; [|done..]. rewrite length_circular_record in H by (unfold sizeof_circular_meta; lia).
  change (peb_base (set_write_area (wa + wl) c)) with (peb_base c) in H.
  split; [by eapply same_outside_weaken_peb, H; lia|].
  apply circular_wf_set; [by eapply circular_placed_outside|lia|by apply Z.divide_add_r|].
  intros _. apply (blank_after c wa wl f); try done; lia.
Qed.

Lemma set_write_area_if (b : bool) c :
  (if b then set_write_area 0 c else c) = set_write_area (if b then 0 else c_write_area c) c.
Proof. by destruct c, b. Qed.

Lemma circular_write_inside c d f r c' f' :
  circular_wf c f -> circular_fits c d ->
  state_backend_bucket_circular_write c d f = (r, c', f') ->
  same_outside (peb_base c) (Z.to_nat (c_max_size c)) f f' /\ same_place c c' /\ circular_wf c' f'.
Proof.
  intros Hwf Hfit. unfold state_backend_bucket_circular_write. fold (record_length c d).
  pose proof Hwf as (Hg & Hl & Hbad & Hwa & Hdwa & Hbl).
  destruct (record_length_spec c d Hg Hfit) as [Hdwl Hwl]. set (wl := record_length c d) in *.
  destruct (Z.ltb_spec (c_max_size c) wl); [lia|].
  assert (0 < wl) by (unfold sizeof_circular_meta in Hwl; lia). destruct Hwl as [Hwl _].
  rewrite set_write_area_if.
  set (wa := if c_max_size c <=? c_write_area c + wl then 0 else c_write_area c).
  cbn [c_write_area set_write_area].
  assert (0 <= wa /\ wa + wl <= c_max_size c /\ (c_writesize c | wa)) as (Hwa0 & Hwam & Hwad).
  { unfold wa. destruct (Z.leb_spec (c_max_size c) (c_write_area c + wl)).
    - split; [done|]. split; [lia|]. apply Z.divide_0_r.
    - split; [lia|]. split; [lia|done]. }
  assert (wa <> 0 -> blank_from c wa f) as Hblank.
  { unfold wa. destruct (_ <=? _); [done|]. apply Hbl. }
  clearbody wa.
  change (set_write_area (wa + wl) (set_write_area wa c)) with (set_write_area (wa + wl) c).
  destruct (Z.eqb_spec wa 0) as [->|Hnz].
  - destruct (state_mtd_peb_erase (set_write_area 0 c) f) as [r1 f1] eqn:E.
    destruct (peb_erase_any (set_write_area 0 c) f r1 f1 Hg Hl E)
      as [[Hr Hm]|(-> & E1 & E2 & E3)].
    + destruct (Z.eqb_spec r1 0); [done|]. cbn [negb]. intros; simplify_eq.
      apply (same_medium_outside _ _ (peb_base c) (Z.to_nat (c_max_size c))) in Hm.
      split; [done|]. split; [apply circular_place|].
      apply circular_wf_set; [by eapply circular_placed_outside|lia|done|done].
    + cbn [Z.eqb negb]. destruct (state_mtd_peb_write _ _ _ _) as [r2 f2] eqn:Ew.
      change (peb_base (set_write_area 0 c)) with (peb_base c) in E1.
      pose proof (peb_erase_outside c f f1 Hl E1 E2 E3) as Ho.
      apply circular_write_at in Ew as [Ho2 Hwf2]; try done.
      * intros; simplify_eq. split; [by eapply same_outside_trans|].
        split; [apply circular_place|done].
      * by eapply circular_placed_outside.
      * apply (blank_erased c f); [lia|done|done].
  - cbn [Z.eqb negb]. destruct (state_mtd_peb_write _ _ _ _) as [r2 f2] eqn:Ew.
    apply circular_write_at in Ew as [Ho2 Hwf2]; try done; [|by apply Hblank].
    intros; simplify_eq. split; [done|]. split; [apply circular_place|done].
Qed.

Lemma circular_write_size c d f r c' f' :
  state_backend_bucket_circular_write c d f = (r, c', f') -> c_max_size c' = c_max_size c.
Proof.
  unfold state_backend_bucket_circular_write. destruct (c_max_size c <? _); [intros; by simplify_eq|].
  rewrite set_write_area_if. destruct (if _ =? _ then _ else _) as [r1 f1].
  destruct (negb (r1 =? 0)); [intros; by simplify_eq|].
  destruct (state_mtd_peb_write _ _ _ _); intros; by simplify_eq.
Qed.

(** *** The search for the last record *)

Lemma mtd_all_ff addr l : l <> [] -> mtd_buf_all_ff addr l = Some (bool_decide (all_ff l)).
Proof. apply ff_head_spec. Qed.

(** One step of the search over a unit inside the buffer. *)
Lemma circular_scan_step fuel r ws so :
  0 < ws -> 0 <= so -> so + ws <= Z.of_nat (length r) ->
  circular_scan (S fuel) r ws so =
  if decide (all_ff (sub (Z.to_nat so) (Z.to_nat ws) r)) then circular_scan fuel r ws (so - ws)
  else (so, Some (circular_meta_of (drop (Z.to_nat (so + ws - sizeof_circular_meta)) r))).
Proof.
  intros Hw Hso Hl. cbn [circular_scan]. destruct (Z.ltb_spec so 0); [lia|].
  rewrite mtd_all_ff; [by case_bool_decide; case_decide|].
  intros E%(f_equal length). rewrite length_sub in E; simpl in E; lia.
Qed.

Lemma circular_scan_blank n : forall fuel r ws lo,
  0 < ws -> 0 <= lo + ws -> lo + ws + Z.of_nat n * ws <= Z.of_nat (length r) ->
  all_ff (sub (Z.to_nat (lo + ws)) (n * Z.to_nat ws) r) ->
  circular_scan (n + fuel) r ws (lo + Z.of_nat n * ws) = circular_scan fuel r ws lo.
Proof.
  induction n as [|n IH]; intros fuel r ws lo Hw Hlo Hl Hff.
  - by rewrite Z.mul_0_l, Z.add_0_r.
  - change (S n + fuel)%nat with (S (n + fuel)). rewrite circular_scan_step by lia.
    rewrite decide_True.
    + replace (lo + Z.of_nat (S n) * ws - ws) with (lo + Z.of_nat n * ws) by lia.
      apply IH; [done..|lia|].
      replace (n * Z.to_nat ws)%nat with (n * Z.to_nat ws + 0)%nat by lia.
      apply (all_ff_sub 0 (n * Z.to_nat ws)) in Hff; [|rewrite length_sub; nia].
      rewrite sub_sub in Hff by lia. by rewrite !Nat.add_0_r in *.
    + apply (all_ff_sub (n * Z.to_nat ws) (Z.to_nat ws)) in Hff; [|rewrite length_sub; nia].
      rewrite sub_sub in Hff by lia.
      replace (Z.to_nat (lo + Z.of_nat (S n) * ws))
        with (Z.to_nat (lo + ws) + n * Z.to_nat ws)%nat by nia. done.
Qed.

(** Where the search stops, everything behind is blank. *)
Lemma circular_scan_sound fuel : forall r ws so so' m,
  0 < ws -> - ws <= so -> (ws | so) -> so + ws <= Z.of_nat (length r) -> so < Z.of_nat fuel ->
  all_ff (drop (Z.to_nat (so + ws)) r) -> circular_scan fuel r ws so = (so', m) ->
  - ws <= so' <= so /\ (ws | so') /\ all_ff (drop (Z.to_nat (so' + ws)) r).
Proof.
  induction fuel as [|fuel IH]; intros r ws so so' m Hw Hso Hd Hl Hf Hff; [intros; simpl in *; simplify_eq|].
  { done. }
  destruct (decide (so < 0)).
  { simpl. destruct (Z.ltb_spec so 0); [|lia]. intros; simplify_eq. done. }
  rewrite circular_scan_step by lia. case_decide as Hc; [|intros; simplify_eq; done].
  intros H. apply IH in H; [destruct H as (?&?&?); split; [lia|done]|done|lia| |lia|lia| ].
  - apply Z.divide_sub_r; [done|]. apply Z.divide_refl.
  - replace (so - ws + ws) with so by lia. unfold all_ff in *.
    rewrite <-(take_drop (Z.to_nat ws) (drop (Z.to_nat so) r)).
    change (take (Z.to_nat ws) (drop (Z.to_nat so) r)) with (sub (Z.to_nat so) (Z.to_nat ws) r).
    rewrite drop_drop. replace (Z.to_nat so + Z.to_nat ws)%nat with (Z.to_nat (so + ws)) by lia.
    rewrite length_app, replicate_add. by rewrite <-Hc, <-Hff.
Qed.

Lemma circular_meta_roundtrip m rest :
  0 <= cm_magic m < 2 ^ 32 -> 0 <= cm_written_length m < 2 ^ 32 ->
  circular_meta_of (circular_meta_bytes m ++ rest) = m.
Proof.
  intros Hm Hw. unfold circular_meta_of, circular_meta_bytes. destruct m as [ma wl].
  cbn [cm_magic cm_written_length] in *. by rewrite get_le32_fst, get_le32_snd.
Qed.

(** A record's last unit is not blank: its trailer is not. *)
Lemma circular_meta_not_blank l wl n rest : (8 <= n <= length l + 8)%nat ->
  ~ all_ff (sub (length l + 8 - n) n (l ++ circular_meta_bytes (CircularMeta circular_magic wl) ++ rest)).
Proof.
  intros Hn Hff. set (m := circular_meta_bytes _) in *.
  assert (length m = 8%nat) as Hm by apply length_circular_meta.
  apply (all_ff_sub (n - 8) 4) in Hff; [|rewrite length_sub; [lia|rewrite !length_app; lia]].
  rewrite sub_sub in Hff by lia.
  replace (length l + 8 - n + (n - 8))%nat with (length l) in Hff by lia.
  rewrite sub_app_skip in Hff. unfold m, circular_meta_bytes in Hff. rewrite <-app_assoc in Hff.
  rewrite take_app_le, take_ge in Hff by len. unfold all_ff in Hff. rewrite length_le32 in Hff.
  by vm_compute in Hff.
Qed.

(** A block whose last record is [record d], at [wa], reads as [d] and zeros. *)
Lemma circular_content_record c d wa A B :
  circular_geometry c -> circular_fits c d -> (c_writesize c | wa) ->
  let wl := record_length c d in
  Z.of_nat (length A) = wa -> Z.of_nat (length B) = c_max_size c - wa - wl -> all_ff B ->
  circular_content c (A ++ circular_record d wl ++ B)
  = Shows (d ++ zeros (Z.to_nat (wl - sizeof_circular_meta) - length d)).
Proof.
  intros Hg Hfit Hdwa wl HA HB Hff. destruct (record_length_spec c d Hg Hfit) as [Hdwl [Hwl Hwlm]].
  fold wl in Hdwl, Hwl, Hwlm. destruct Hg as (Hws & Hdm & Hmax & _).
  unfold circular_content, sizeof_circular_meta in *.
  set (rec := circular_record d wl).
  assert (length rec = Z.to_nat wl) as Hrl
    by (apply length_circular_record; unfold sizeof_circular_meta; lia).
  set (body := d ++ zeros (Z.to_nat (wl - 8) - length d)).
  set (meta := circular_meta_bytes (CircularMeta circular_magic wl)).
  assert (rec = body ++ meta) as Er.
  { unfold rec. rewrite circular_record_eq by (unfold sizeof_circular_meta; lia).
    unfold body, meta, sizeof_circular_meta. by rewrite <-app_assoc. }
  assert (Z.of_nat (length body) = wl - 8) as Hbl by (unfold body; rewrite length_app, length_zeros; lia).
  set (r := A ++ rec ++ B).
  assert (Z.of_nat (length r) = c_max_size c) as Hlr by (unfold r; rewrite !length_app; lia).
  assert (c_writesize c <= wl) by (apply Z.divide_pos_le; [lia|done]).
  assert (exists n, c_max_size c - wa - wl = Z.of_nat n * c_writesize c) as [n Hn].
  { destruct Hdm as [k Hk], Hdwl as [k1 Hk1], Hdwa as [k2 Hk2].
    exists (Z.to_nat (k - k2 - k1)). rewrite Z2Nat.id; [|nia]. rewrite Hk. nia. }
  replace (c_max_size c - c_writesize c)
    with (wa + wl - c_writesize c + Z.of_nat n * c_writesize c) by lia.
  replace (S (length r)) with (n + S (length r - n))%nat by nia.
  rewrite circular_scan_blank; [|lia|lia|lia|].
  2: { replace (wa + wl - c_writesize c + c_writesize c) with (wa + wl) by lia.
       unfold r. rewrite app_assoc.
       replace (Z.to_nat (wa + wl)) with (length (A ++ rec)) by (rewrite length_app; lia).
       rewrite sub_app_skip, take_ge by nia. done. }
  rewrite circular_scan_step by lia. rewrite decide_False.
  2: { unfold r. rewrite Er, <-app_assoc, app_assoc.
       replace (Z.to_nat (wa + wl - c_writesize c))
         with (length (A ++ body) + 8 - Z.to_nat (c_writesize c))%nat by (rewrite length_app; lia).
       apply circular_meta_not_blank. rewrite length_app. lia. }
  replace (wa + wl - c_writesize c + c_writesize c) with (wa + wl) by lia.
  unfold sizeof_circular_meta.
  assert (drop (Z.to_nat (wa + wl - 8)) r = meta ++ B) as ->.
  { unfold r. rewrite Er, <-app_assoc, app_assoc. apply drop_app_length'. rewrite length_app. lia. }
  unfold meta. rewrite circular_meta_roundtrip; cbn [cm_magic cm_written_length];
    [|unfold circular_magic; lia|lia].
  cbn [circular_trailer cm_magic cm_written_length]. rewrite Z.eqb_refl. cbn [negb fst].
  unfold circular_shown, sizeof_circular_meta.
  destruct (Z.eqb_spec (wa + wl) 0); [lia|]. destruct (Z.eqb_spec wl 0); [lia|].
  destruct (Z.ltb_spec (wa + wl) wl); [lia|].
  assert (Z.rem wl (c_writesize c) = 0) as -> by (apply Z.rem_divide; [lia|done]).
  cbn [Z.eqb negb orb]. f_equal. unfold r.
  replace (Z.to_nat (wa + wl - wl)) with (length A) by lia.
  rewrite sub_app_skip, Er, <-app_assoc, take_app_le by lia. apply take_ge. lia.
Qed.

(** A slice of a buffer in three parts. *)
Lemma sub_parts pos a b n l : (a + b <= n)%nat ->
  sub pos n l = sub pos a l ++ sub (pos + a) b l ++ sub (pos + (a + b)) (n - (a + b)) l.
Proof.
  intros. replace n with (a + (b + (n - (a + b))))%nat at 1 by lia.
  rewrite !sub_snoc. by rewrite Nat.add_assoc.
Qed.

(** A successful write at a blank write area. *)
Lemma circular_write_at_healthy c wa d f :
  let wl := record_length c d in
  circular_placed c f -> circular_fits c d -> 0 <= wa -> (c_writesize c | wa) -> blank_from c wa f ->
  wa + wl <= c_max_size c -> healthy f ->
  exists g, state_mtd_peb_write (set_write_area (wa + wl) c) (circular_record d wl) (s32 wa) f
    = (0, g) /\ healthy g /\
    circular_content c (sub (peb_base c) (Z.to_nat (c_max_size c)) (f_data g))
    = Shows (d ++ zeros (Z.to_nat (wl - sizeof_circular_meta) - length d)).
Proof.
  intros wl (Hg & Hl & Hbad) Hfit Hwa Hd Hbl Hm Hf.
  destruct (record_length_spec c d Hg Hfit) as [Hdwl [Hwl Hwlm]]. fold wl in Hdwl, Hwl, Hwlm.
  pose proof (length_circular_record d wl ltac:(lia)) as Hrl.
  pose proof Hg as (_ & _ & Hmax & _). unfold sizeof_circular_meta in Hwl.
  rewrite s32_small by lia.
  destruct (peb_write_healthy (set_write_area (wa + wl) c) (circular_record d wl) wa f)
    as (g & Hw & Hgh & Hd2 & _); [done|done|done|rewrite Hrl; lia|rewrite Hrl; change (peb_base _) with (peb_base c); lia| |].
  { change (peb_base _) with (peb_base c). rewrite Hrl. unfold blank_from in Hbl.
    apply (all_ff_sub 0 (Z.to_nat wl)) in Hbl; [|rewrite length_sub; lia].
    by rewrite sub_sub, Nat.add_0_r in Hbl by lia. }
  exists g. split; [done|]. split; [done|].
  change (peb_base (set_write_area (wa + wl) c)) with (peb_base c) in Hd2.
  rewrite (sub_parts _ (Z.to_nat wa) (Z.to_nat wl)) by lia.
  assert (sub (peb_base c + Z.to_nat wa) (Z.to_nat wl) (f_data g) = circular_record d wl) as ->.
  { rewrite Hd2, <-Hrl. apply sub_splice_same. lia. }
  assert (length (f_data g) = length (f_data f)) by (rewrite Hd2; apply length_splice; lia).
  apply (circular_content_record c d wa); [done..| | |].
  - rewrite length_sub by lia. lia.
  - rewrite length_sub by lia. fold wl. lia.
  - rewrite Hd2, sub_splice_disjoint by lia.
    replace (peb_base c + (Z.to_nat wa + Z.to_nat wl))%nat
      with (peb_base c + Z.to_nat wa + Z.to_nat wl)%nat by lia.
    rewrite <-(sub_sub _ (Z.to_nat (c_max_size c - wa))) by lia.
    apply all_ff_sub; [done|]. rewrite length_sub; lia.
Qed.

Lemma circular_write_healthy c d f :
  circular_wf c f -> circular_fits c d -> healthy f ->
  exists c' g padding, state_backend_bucket_circular_write c d f = (0, c', g) /\ healthy g /\
    circular_content c (sub (peb_base c) (Z.to_nat (c_max_size c)) (f_data g))
    = Shows (d ++ zeros padding).
Proof.
  intros Hwf Hfit Hf. unfold state_backend_bucket_circular_write. fold (record_length c d).
  pose proof Hwf as (Hg & Hl & Hbad & Hwa & Hdwa & Hbl).
  destruct (record_length_spec c d Hg Hfit) as [Hdwl [Hwl Hwlm]]. set (wl := record_length c d) in *.
  destruct (Z.ltb_spec (c_max_size c) wl); [lia|].
  assert (0 < wl) by (unfold sizeof_circular_meta in Hwl; lia).
  rewrite set_write_area_if.
  destruct (Z.leb_spec (c_max_size c) (c_write_area c + wl)) as [Hfull|Hfree].
  - cbn [c_write_area set_write_area Z.eqb].
    destruct (peb_erase_healthy (set_write_area 0 c) f Hg Hl Hf) as (f1 & -> & Hf1 & E1 & E2 & E3).
    change (peb_base (set_write_area 0 c)) with (peb_base c) in E1. cbn [negb].
    destruct (circular_write_at_healthy c 0 d f1) as (g & Hw & Hgh & Hc); try done.
    + eapply circular_placed_outside; [by apply circular_wf_placed|].
      by apply (peb_erase_outside c f f1 Hl E1 E2 E3).
    + apply Z.divide_0_r.
    + apply (blank_erased c f); [lia|done|done].
    + fold wl in Hw. change (set_write_area (0 + wl) (set_write_area 0 c)) with (set_write_area (0 + wl) c).
      rewrite Hw. by eexists _, g, _.
  - cbn [c_write_area set_write_area].
    assert (exists f1, (if c_write_area c =? 0
        then state_mtd_peb_erase (set_write_area (c_write_area c) c) f else (0, f)) = (0, f1) /\
        healthy f1 /\ circular_placed c f1 /\ blank_from c (c_write_area c) f1) as (f1 & -> & Hf1 & Hp1 & Hbl1).
    { destruct (Z.eqb_spec (c_write_area c) 0) as [Hz|Hnz].
      - destruct (peb_erase_healthy (set_write_area (c_write_area c) c) f Hg Hl Hf)
          as (f1 & -> & Hf1 & E1 & E2 & E3). exists f1. split; [done|]. split; [done|]. split.
        + eapply circular_placed_outside; [by apply circular_wf_placed|].
          by apply (peb_erase_outside c f f1 Hl E1 E2 E3).
        + rewrite Hz. apply (blank_erased c f); [lia|done|done].
      - exists f. split; [done|]. split; [done|]. split; [by apply circular_wf_placed|]. by apply Hbl. }
    cbn [negb Z.eqb].
    destruct (circular_write_at_healthy c (c_write_area c) d f1) as (g & Hw & Hgh & Hc); try done; [lia|lia|].
    fold wl in Hw.
    change (set_write_area (c_write_area c + wl) (set_write_area (c_write_area c) c))
      with (set_write_area (c_write_area c + wl) c).
    rewrite Hw. by eexists _, g, _.
Qed.

(** *** Opening and reading *)

Lemma circular_read_at_pure c offset n f r c' g :
  circular_read_at c offset n f = (r, c', g) -> c' = c /\ same_medium f g.
Proof.
  unfold circular_read_at. destruct (state_mtd_peb_read _ _ _ _) as [[r1 b] f1] eqn:E.
  apply peb_read_medium in E. destruct (_ && _); intros; by simplify_eq.
Qed.

(** A read leaves the medium alone and at most resets the write area. *)
Lemma circular_read_pure c f r c' g :
  state_backend_bucket_circular_read c f = (r, c', g) ->
  (c' = c \/ c' = set_write_area 0 c) /\ same_medium f g.
Proof.
  unfold state_backend_bucket_circular_read.
  destruct (c_write_area c =? 0); [intros; simplify_eq; split; [auto|done]|].
  destruct (c_last_written_length c =? 0).
  { intros H%circular_read_at_pure. destruct H as [-> ?]. auto. }
  destruct (_ || _); [intros; simplify_eq; split; [auto|done]|].
  intros H%circular_read_at_pure. destruct H as [-> ?]. auto.
Qed.

Lemma all_ff_drop_sub n l : all_ff (drop n l) <-> all_ff (sub n (length l - n) l).
Proof. unfold sub. by rewrite take_ge by (rewrite length_drop; lia). Qed.

(** What [init] makes of the block. *)
Lemma circular_init_healthy c f :
  circular_placed c f -> healthy f ->
  let r := sub (peb_base c) (Z.to_nat (c_max_size c)) (f_data f) in
  exists so m g, circular_scan (S (length r)) r (c_writesize c) (c_max_size c - c_writesize c) = (so, m) /\
    state_backend_bucket_circular_init c f =
      (0, Circular (c_eraseblock c) (c_writesize c) (c_max_size c) (so + c_writesize c)
            (fst (circular_trailer m)) (c_erasesize c) (c_wrong_magic c || snd (circular_trailer m)), g) /\
    healthy g /\ same_medium f g /\
    (forall lwl wrong, circular_wf (Circular (c_eraseblock c) (c_writesize c) (c_max_size c)
       (so + c_writesize c) lwl (c_erasesize c) wrong) g).
Proof.
  intros (Hg & Hl & Hbad) Hf r. pose proof Hg as (Hws & Hdm & Hmax & _).
  unfold sizeof_circular_meta in Hws.
  assert (c_writesize c <= c_max_size c) by (apply Z.divide_pos_le; [lia|done]).
  unfold state_backend_bucket_circular_init.
  destruct (peb_read_healthy c (zeros (Z.to_nat (c_max_size c))) 0 f)
    as (g & -> & Hgh & Hm); [done|done|done|rewrite length_zeros; lia..|].
  rewrite length_zeros. cbn [Z.eqb negb andb]. rewrite Nat.add_0_r. fold r.
  rewrite s32_small by lia.
  assert (length r = Z.to_nat (c_max_size c)) as Hlr by (apply length_sub; lia).
  destruct (circular_scan (S (length r)) r (c_writesize c) (c_max_size c - c_writesize c))
    as [so m] eqn:E.
  destruct (circular_scan_sound (S (length r)) r (c_writesize c) (c_max_size c - c_writesize c) so m)
    as (Hso & Hdso & Hff); [lia|lia| |lia|lia| |done|].
  { apply Z.divide_sub_r; [done|apply Z.divide_refl]. }
  { by rewrite drop_ge by lia. }
  exists so, m, g. split; [done|]. split; [by destruct (circular_trailer m)|].
  split; [done|]. split; [done|]. intros lwl wrong.
  destruct Hm as (M1 & M2 & M3).
  split; [done|]. split; [rewrite M1; done|]. split; [rewrite M3; done|]. cbn [c_write_area c_max_size c_writesize].
  split; [lia|]. split; [apply Z.divide_add_r; [done|apply Z.divide_refl]|].
  intros _. rewrite M1. apply all_ff_drop_sub in Hff. rewrite Hlr in Hff. unfold r in Hff.
  rewrite sub_sub in Hff by lia.
  replace (Z.to_nat (c_max_size c) - Z.to_nat (so + c_writesize c))%nat
    with (Z.to_nat (c_max_size c - (so + c_writesize c))) in Hff by lia. exact Hff.
Qed.

Lemma is_block_bad_healthy c f :
  circular_placed c f -> healthy f ->
  exists g, bucket_circular_is_block_bad c f = (0, g) /\ healthy g /\ same_medium f g.
Proof.
  intros (Hg & Hl & Hbad) Hf. unfold bucket_circular_is_block_bad, sys_memgetbadblock.
  destruct (peb_offsets c Hg) as [_ ->]. simpl.
  destruct (next_sys_healthy f Hf) as (s & g & -> & Hs & Hgh & Hm).
  rewrite decide_False.
  2: { destruct Hm as (_&_&->). unfold peb_base. destruct Hg as (_&_&?&_&?&_).
       rewrite Z2Nat.id by lia. done. }
  exists g. destruct s; [done|destruct Hs|done].
Qed.

Lemma circular_placed_medium c f g : circular_placed c f -> same_medium f g -> circular_placed c g.
Proof. intros H Hm. eapply circular_placed_outside; [done|]. by apply (same_medium_outside _ _ 0 0). Qed.

(** The bucket that create starts from. *)
Definition circular_blank (c : circular) : circular :=
  Circular (c_eraseblock c) (c_writesize c) (c_max_size c) 0 0 (c_max_size c) false.

Lemma circular_blank_placed c f : circular_placed c f -> circular_placed (circular_blank c) f.
Proof.
  intros ((?&?&?&?&?)&?&?). split; [|done]. unfold circular_geometry, circular_blank. simpl. done.
Qed.

Lemma circular_create_healthy c f :
  circular_placed c f -> healthy f ->
  exists c1 g, state_backend_bucket_circular_create (c_eraseblock c) (c_writesize c) (c_max_size c) f
      = (0, Some c1, g) /\ healthy g /\ same_medium f g /\ same_place c c1 /\
    circular_wf c1 g /\ circular_sync c1 g.
Proof.
  intros Hp Hf. pose proof (circular_blank_placed c f Hp) as Hp0.
  pose proof Hp as ((Hws & _) & _). unfold sizeof_circular_meta in Hws.
  unfold state_backend_bucket_circular_create.
  destruct (sys_open_healthy f Hf) as (f1 & -> & Hf1 & Hm1). cbn [Z.ltb Z.compare].
  destruct (Z.ltb_spec (c_writesize c) 8); [lia|]. fold (circular_blank c).
  destruct (is_block_bad_healthy (circular_blank c) f1) as (f2 & -> & Hf2 & Hm2);
    [by eapply circular_placed_medium|done|]. cbn [Z.eqb negb].
  assert (same_medium f f2) as Hm by (by etrans).
  destruct (circular_init_healthy (circular_blank c) f2) as (so & m & g & Hs & -> & Hg & Hm3 & Hwf1);
    [by eapply circular_placed_medium|done|].
  cbn [Z.eqb negb circular_blank c_eraseblock c_writesize c_max_size c_erasesize] in *.
  set (c1 := Circular _ _ _ _ _ _ _). exists c1, g. split; [done|]. split; [done|].
  split; [by etrans|]. split; [by repeat split|]. split; [apply Hwf1|].
  unfold circular_sync. change (peb_base c1) with (peb_base c). cbn [c_max_size c_writesize c1].
  change (peb_base (circular_blank c)) with (peb_base c) in Hs. rewrite (proj1 Hm3), Hs. done.
Qed.

Lemma circular_create_bad c f :
  circular_geometry c -> c_eraseblock c * c_max_size c ∈ f_bad f -> healthy f ->
  exists g, state_backend_bucket_circular_create (c_eraseblock c) (c_writesize c) (c_max_size c) f
      = (- EIO, None, g) /\ healthy g /\ same_medium f g.
Proof.
  intros Hg Hbad Hf. pose proof Hg as (Hws & _ & Hm0 & _ & ? & _). unfold sizeof_circular_meta in Hws.
  unfold state_backend_bucket_circular_create.
  destruct (sys_open_healthy f Hf) as (f1 & -> & Hf1 & Hm1). cbn [Z.ltb Z.compare].
  destruct (Z.ltb_spec (c_writesize c) 8); [lia|]. fold (circular_blank c).
  unfold bucket_circular_is_block_bad, sys_memgetbadblock. cbn [fd_file].
  assert (circular_geometry (circular_blank c)) as Hg0.
  { destruct Hg as (?&?&?&?&?). unfold circular_geometry, circular_blank. simpl. done. }
  destruct (peb_offsets _ Hg0) as [_ ->]. unfold peb_base. cbn [circular_blank c_eraseblock c_max_size].
  rewrite Z2Nat.id by lia.
  destruct (next_sys_healthy f1 Hf1) as (s & g & -> & Hs & Hgh & Hm2).
  assert (f_bad g = f_bad f) as Eb by (destruct Hm1 as (_&_&<-), Hm2 as (_&_&<-); done).
  rewrite decide_True by (by rewrite Eb).
  exists g. destruct s; [|destruct Hs|]; (split; [done|]; split; [done|]; by etrans).
Qed.

Lemma circular_scan_length fuel : forall r ws so so' m,
  circular_scan fuel r ws so = (so', m) -> 0 <= fst (circular_trailer m).
Proof.
  induction fuel as [|fuel IH]; intros r ws so so' m; simpl; [intros; by simplify_eq|].
  destruct (so <? 0); [intros; by simplify_eq|].
  assert (forall b, (so, Some (circular_meta_of b)) = (so', m) -> 0 <= fst (circular_trailer m)) as Hm.
  { intros b [= <- <-]. unfold circular_trailer. destruct (negb _); [done|].
    unfold circular_meta_of. cbn [cm_written_length fst]. apply get_le_range. }
  destruct (mtd_buf_all_ff _ _) as [[|]|]; eauto.
Qed.

(** Reading shows what the bucket knows of. *)
Lemma circular_read_healthy c f x :
  circular_wf c f -> 0 <= c_last_written_length c -> healthy f ->
  circular_shown c (c_write_area c) (c_last_written_length c)
    (sub (peb_base c) (Z.to_nat (c_max_size c)) (f_data f)) = Shows x ->
  exists c' g, state_backend_bucket_circular_read c f = ((0, Some x), c', g) /\ healthy g.
Proof.
  intros (Hg & Hl & Hbad & Hwa & _) Hlwl Hf. pose proof Hg as (Hws & Hdm & Hmax & _).
  unfold circular_shown, state_backend_bucket_circular_read.
  destruct (Z.eqb_spec (c_write_area c) 0) as [|Hnz]; [done|].
  assert (c_writesize c <= c_max_size c)
    by (apply Z.divide_pos_le; [lia|done]).
  unfold sizeof_circular_meta in *.
  destruct (Z.eqb_spec (c_last_written_length c) 0) as [Hz|Hlz].
  - intros [= <-]. unfold circular_read_at. rewrite s32_small by lia.
    set (n := Z.min _ _).
    destruct (peb_read_healthy (set_write_area 0 c) (zeros (Z.to_nat n)) 0 f)
      as (g & -> & Hgh & _); [done|done|done|rewrite length_zeros; lia| |].
    { change (peb_base (set_write_area 0 c)) with (peb_base c). rewrite length_zeros. lia. }
    cbn [Z.ltb Z.compare andb c_last_written_length set_write_area]. rewrite Hz.
    change (peb_base (set_write_area 0 c)) with (peb_base c). cbn [Z.eqb].
    eexists _, g. split; [|done]. rewrite length_zeros, take_ge.
    + rewrite sub_sub by lia. by rewrite !Nat.add_0_r.
    + unfold sub. rewrite length_take. lia.
  - destruct (Z.ltb_spec (c_write_area c) (c_last_written_length c)); [done|].
    destruct (Z.eqb_spec (Z.rem (c_last_written_length c) (c_writesize c)) 0) as [Hr|]; [|done].
    cbn [orb negb]. intros [= <-].
    apply Z.rem_divide in Hr; [|lia].
    assert (c_writesize c <= c_last_written_length c) by (apply Z.divide_pos_le; [lia|done]).
    set (wa := c_write_area c) in *. set (lwl := c_last_written_length c) in *.
    unfold circular_read_at. rewrite s32_small by lia.
    destruct (peb_read_healthy c (zeros (Z.to_nat lwl)) (wa - lwl) f)
      as (g & -> & Hgh & _); [done|done|lia|rewrite length_zeros; lia..|].
    cbn [Z.ltb Z.compare andb]. fold lwl. destruct (Z.eqb_spec lwl 0); [done|].
    unfold sizeof_circular_meta. eexists _, g. split; [|done]. rewrite length_zeros.
    by rewrite sub_sub, take_sub by lia.
Qed.

Lemma circular_read_fails c f :
  healthy f -> circular_shown c (c_write_area c) (c_last_written_length c)
    (sub (peb_base c) (Z.to_nat (c_max_size c)) (f_data f)) = Fails ->
  exists e c' g, state_backend_bucket_circular_read c f = ((- e, None), c', g) /\ healthy g /\
    0 < e /\ e <> EUCLEAN.
Proof.
  intros Hf. unfold circular_shown, state_backend_bucket_circular_read.
  destruct (c_write_area c =? 0); [by exists ENODATA, c, f|].
  destruct (c_last_written_length c =? 0); [done|].
  destruct (_ || _); [|done]. by eexists EINVAL, _, f.
Qed.

(** What is shown to a bucket that is up to date. *)
Lemma circular_sync_shown c f : circular_sync c f ->
  circular_content c (sub (peb_base c) (Z.to_nat (c_max_size c)) (f_data f)) =
  circular_shown c (c_write_area c) (c_last_written_length c)
    (sub (peb_base c) (Z.to_nat (c_max_size c)) (f_data f)) /\ 0 <= c_last_written_length c.
Proof.
  unfold circular_sync, circular_content. destruct (circular_scan _ _ _ _) as [so m] eqn:E.
  intros [-> ->]. split; [done|]. eapply circular_scan_length, E.
Qed.

#[export] Instance circular_laws : BucketLaws circular.
Proof.
  split.
  - intros b d f r b' f' Hwf Hfit H. by apply (circular_write_inside b d f r).
  - intros b d f Hwf [_ Hfit] Hf.
    destruct (circular_write_healthy b d f Hwf Hfit Hf) as (c' & g & p & H). by exists c', g, p.
  - done.
  - intros b f r b' f' H. apply circular_read_pure in H as [Hb Hm]. split; [done|].
    split; [by destruct Hb as [->| ->]; [|apply circular_place]|]. intros Hwf.
    assert (circular_wf b f') as Hwf'.
    { destruct Hwf as (?&?&?&?&?&?), Hm as (M1&M2&M3). unfold circular_wf.
      rewrite M1, M3. split; [done|]. split; [done|]. split; [done|]. split; [done|]. done. }
    destruct Hb as [->| ->]; [done|]. apply circular_wf_set; [by apply circular_wf_placed| | |done].
    + destruct Hwf as ((_&_&?&_)&_). lia.
    + apply Z.divide_0_r.
  - intros b f Hwf Hf.
    destruct (circular_create_healthy b f) as (c1 & g & Hc & Hg & Hm & Hp & Hw & Hs);
      [by apply circular_wf_placed|done|].
    exists c1, g. split; [|done]. simpl. unfold circular_open.
    assert (c_erasesize b = c_max_size b) as -> by (by destruct Hwf as ((_&_&_&?&_)&_)).
    by rewrite Hc.
  - intros b f c Hwf Hs Hf Hc. simpl in *. apply circular_sync_shown in Hs as [E Hlwl].
    change (circular_content b (sub (peb_base b) (Z.to_nat (c_max_size b)) (f_data f)) = Shows c) in Hc.
    rewrite E in Hc. by apply circular_read_healthy.
  - intros b f Hwf Hs Hf Hc. simpl in *. apply circular_sync_shown in Hs as [E Hlwl].
    change (circular_content b (sub (peb_base b) (Z.to_nat (c_max_size b)) (f_data f)) = Fails) in Hc.
    rewrite E in Hc. by apply circular_read_fails.
  - intros b d n. simpl. unfold circular_fits. rewrite length_take. lia.
  - intros b f g pos len (H1&H2&H3&H4&H5&H6) Ho Hap. simpl in Hap.
    pose proof Ho as (O1&O2&O3&_). split.
    + split; [done|]. rewrite O2, O3. split; [done|]. split; [done|].
      split; [done|]. split; [done|]. intros Hnz. rewrite (same_outside_sub _ _ _ _ _ _ Ho) by lia.
      by apply H6.
    + simpl. unfold circular_sync. by rewrite (same_outside_sub _ _ _ _ _ _ Ho) by lia.
Qed.

(** ** Claims *)

(** C5: after any series of writes to the circular bucket, under any errors and
    short transfers and through any number of wrap-arounds and erases, a write
    without errors succeeds and a process that then opens the bucket anew reads
    exactly the data of that write, with the zeros that fill its last unit. *)
Theorem circular_last_write c ws f s d :
  circular_wf c f -> Forall (circular_fits c) ws.*2 -> circular_fits c d -> Forall benign s ->
  let (c1, f1) := bucket_writes c ws f in
  exists c2 f2 padding,
    state_backend_bucket_circular_write c1 d (with_script s f1) = (0, c2, f2) /\
  forall s', Forall benign s' ->
  exists c3 f3 c4 f4, circular_open c2 (with_script s' f2) = (0, c3, f3) /\
    state_backend_bucket_circular_read c3 f3 = ((0, Some (d ++ zeros padding)), c4, f4).
Proof. intros Hw Hr Hd. exact (last_write_read (B := circular) c ws f s d Hw Hr (conj eq_refl Hd)). Qed.

(** A blank block of 64 bytes with units of 16, behind another block. *)
Definition blank_circular : circular := Circular 1 16 64 0 0 64 false.
Definition blank_flash : file := File (zeros 64 ++ replicate 64 Byte.xff) true [] [].

Lemma blank_circular_wf : circular_wf blank_circular blank_flash.
Proof.
  split; [split; [vm_compute; discriminate|]; split; [by exists 4|]; vm_compute; intuition congruence|].
  split; [vm_compute; lia|]. split; [vm_compute; set_solver|]. split; [simpl; lia|].
  split; [by exists 0|]. done.
Qed.

Lemma circular_last_write_witness :
  let ws := [([], cstr "one"); ([SysOk; SysCap 5; SysErr EIO], cstr "second record"); ([], cstr "3rd")] in
  let (c1, f1) := bucket_writes blank_circular ws blank_flash in
  exists c2 f2 padding,
    state_backend_bucket_circular_write c1 (cstr "last") (with_script [SysOk; SysCap 1] f1) = (0, c2, f2) /\
  forall s', Forall benign s' ->
  exists c3 f3 c4 f4, circular_open c2 (with_script s' f2) = (0, c3, f3) /\
    state_backend_bucket_circular_read c3 f3 = ((0, Some (cstr "last" ++ zeros padding)), c4, f4).
Proof.
  apply (circular_last_write blank_circular
    [([], cstr "one"); ([SysOk; SysCap 5; SysErr EIO], cstr "second record"); ([], cstr "3rd")]
    blank_flash [SysOk; SysCap 1] (cstr "last") blank_circular_wf).
  - repeat constructor; vm_compute; discriminate.
  - vm_compute; discriminate.
  - repeat constructor.
Defined.

(** C8: whatever the system calls do, a write of the circular bucket changes
    nothing outside its eraseblock, and what lies behind the new write area is
    still erased, so that no later write programs a byte twice. *)
Theorem circular_write_discipline c d f r c' f' :
  circular_wf c f -> circular_fits c d ->
  state_backend_bucket_circular_write c d f = (r, c', f') ->
  same_outside (peb_base c) (Z.to_nat (c_max_size c)) f f' /\
  (c_write_area c' <> 0 ->
   all_ff (sub (peb_base c + Z.to_nat (c_write_area c'))
               (Z.to_nat (c_max_size c - c_write_area c')) (f_data f'))).
Proof.
  intros Hwf Hfit H. destruct (circular_write_inside _ _ _ _ _ _ Hwf Hfit H) as (Ho & Hp & Hwf').
  split; [done|]. destruct Hwf' as (_&_&_&_&_&Hb). destruct Hp as ((E1 & E2 & _) & _).
  simpl in E1, E2. destruct Hwf as ((_&_&Hm&_)&_).
  pose proof (circular_write_size _ _ _ _ _ _ H) as E3. rewrite E1, E3 in Hb. exact Hb.
Qed.

Lemma circular_write_discipline_witness :
  let f := with_script [SysOk; SysOk; SysCap 5; SysErr EIO] blank_flash in
  let w := state_backend_bucket_circular_write blank_circular (cstr "torn record") f in
  same_outside 64 64 f (snd w) /\
  (c_write_area (snd (fst w)) <> 0 ->
   all_ff (sub (64 + Z.to_nat (c_write_area (snd (fst w))))
               (Z.to_nat (64 - c_write_area (snd (fst w)))) (f_data (snd w)))).
Proof.
  intros f w.
  apply (circular_write_discipline blank_circular (cstr "torn record") f (fst (fst w)) (snd (fst w)) (snd w)).
  - exact blank_circular_wf.
  - vm_compute; discriminate.
  - vm_compute; reflexivity.
Defined.

(** The byte offset a block is written at is computed in 32 bits, the one
    it is read and erased at in 64: from 4 GiB on the data of a write lands
    modulo 2^32, in another block. *)
Theorem circular_write_wraps c buf so f :
  2 ^ 32 <= c_eraseblock c * c_erasesize c -> healthy f -> 0 <= so -> Z.of_nat (length buf) < 2 ^ 31 ->
  let pos := Z.to_nat (so + (c_eraseblock c * c_erasesize c) mod 2 ^ 32) in
  (pos + length buf <= length (f_data f))%nat ->
  (f_flash f = true -> all_ff (sub pos (length buf) (f_data f))) ->
  exists g, state_mtd_peb_write c buf so f = (0, g) /\ f_data g = splice pos buf (f_data f) /\
    so + (c_eraseblock c * c_erasesize c) mod 2 ^ 32 < so + c_eraseblock c * c_erasesize c.
Proof.
  intros Hbig Hf Hso Hn pos Hl Hff. unfold state_mtd_peb_write, peb_offset32.
  pose proof (u32_range (c_eraseblock c * c_erasesize c)). unfold u32 in *.
  set (o := so + _ mod _) in *.
  destruct (sys_lseek_healthy o f 0) as (f1 & -> & Hf1 & E1 & E2 & E3); [done|lia|].
  rewrite Z.eqb_refl. cbn [negb].
  destruct (write_full_healthy buf f1 o) as (g & -> & Hg & G1 & _); rewrite ?E1, ?E2; try done; [lia|].
  destruct (Z.ltb_spec (Z.of_nat (length buf)) 0); [lia|].
  destruct (flush_healthy g (o + Z.of_nat (length buf)) Hg) as (k & -> & Hk & K1 & _).
  exists k. split; [done|]. split; [|lia]. simpl. by rewrite K1, G1, E1.
Qed.

Lemma circular_write_wraps_witness :
  let f := File (zeros 16) false [] [] in
  exists g, state_mtd_peb_write (Circular 2 16 (2 ^ 31) 0 0 (2 ^ 31) false) (cstr "abc") 4 f = (0, g) /\
    f_data g = splice 4 (cstr "abc") (zeros 16) /\
    4 + (2 * 2 ^ 31) mod 2 ^ 32 < 4 + 2 * 2 ^ 31.
Proof.
  apply (circular_write_wraps (Circular 2 16 (2 ^ 31) 0 0 (2 ^ 31) false) (cstr "abc") 4
    (File (zeros 16) false [] [])); [vm_compute; discriminate|constructor|lia|reflexivity|vm_compute; lia|discriminate].
Defined.

(** A write does not record its length, so the same process that reads again
    after a write sees the length found when the bucket was opened: here the
    tail of the new record. *)
Example circular_stale_length :
  let f := blank_flash in
  let '(_, c1, f1) := state_backend_bucket_circular_write blank_circular (cstr "old") f in
  let '(_, c2, f2) := circular_open c1 f1 in
  let '(_, c3, f3) := state_backend_bucket_circular_write c2 (cstr "a longer new state") f2 in
  fst (fst (state_backend_bucket_circular_read c3 f3)) = (0, Some (cstr "te" ++ zeros 6)).
Proof. vm_compute. reflexivity. Qed.
