(* ===== verification/Storage.v ===== *)
(** * The redundant storage (src/barebox-state/backend_storage.c)

    Several buckets on one device hold copies of the same data. Writing stores
    the data in every bucket; reading uses the first bucket that the format
    verifies and rewrites the others that differ from it. The code reaches
    buckets and format through function pointers, so the model and its theorems
    are over the classes [BucketOps] and [FormatVerify]; the two ways of making
    the buckets, which call the concrete create functions, follow. *)

From S2P Require Import Prelude Sysfile Bucket DirectBucket CircularBucket.

(** [struct state_backend_format], as far as the storage calls it:
    [verify(format, magic, buf, &len, flags)] returns its result, the new [len] and
    the format after it; [None] is undefined behaviour. *)
Class FormatVerify (F : Type) := {
  format_verify : F -> Z -> bytes -> Z -> Z -> option (Z * Z * F)
}.

(** What a format promises: in every phase, verifying a copy that is safe to look at
    gives a verdict that does not depend on what was verified before, the length
    that is accepted. *)
Class FormatLaws (F : Type) `{FormatVerify F} := {
  fmt_ok : F -> Prop;
  fmt_safe : F -> Z -> bytes -> Z -> Prop;
  fmt_accepts : F -> Z -> bytes -> Z -> option Z;
  law_accepts_safe fmt magic c flags : is_Some (fmt_accepts fmt magic c flags) -> fmt_safe fmt magic c flags;
  law_verify fmt magic c flags :
    fmt_ok fmt -> fmt_safe fmt magic c flags ->
    exists ret len fmt', format_verify fmt magic c (Z.of_nat (length c)) flags = Some (ret, len, fmt') /\
      match fmt_accepts fmt magic c flags with Some l => ret = 0 /\ len = l | None => ret <> 0 end /\
      fmt_ok fmt' /\ forall magic c flags, fmt_accepts fmt' magic c flags = fmt_accepts fmt magic c flags /\
        (fmt_safe fmt' magic c flags <-> fmt_safe fmt magic c flags)
}.

(** [struct state_backend_storage_bucket]; [impl] is the structure it is
    embedded in. *)
Record bucket (B : Type) : Type := Bucket {
  b_impl : B;
  b_num : Z;
  b_offset : Z;
  b_buf : option bytes;
  b_len : Z;
  b_needs_refresh : bool
}.
Arguments Bucket {B}. Arguments b_impl {B}. Arguments b_num {B}. Arguments b_offset {B}.
Arguments b_buf {B}. Arguments b_len {B}. Arguments b_needs_refresh {B}.

(** [struct state_backend_storage]. *)
Record storage (B : Type) : Type := Storage {
  st_buckets : list (bucket B);
  st_name : option bytes;
  st_stridesize : Z;
  st_offset : Z;
  st_max_size : Z;
  st_readonly : bool
}.
Arguments Storage {B}. Arguments st_buckets {B}. Arguments st_name {B}.
Arguments st_stridesize {B}. Arguments st_offset {B}. Arguments st_max_size {B}.
Arguments st_readonly {B}.

Definition min_buckets_written : Z := 1.
Definition desired_buckets : Z := 3.

Section Ops.
Context {B F : Type} `{BucketOps B} `{FormatVerify F}.

Definition set_buckets (bs : list (bucket B)) (st : storage B) : storage B :=
  Storage bs (st_name st) (st_stridesize st) (st_offset st) (st_max_size st) (st_readonly st).
Definition set_impl (i : B) (b : bucket B) : bucket B :=
  Bucket i (b_num b) (b_offset b) (b_buf b) (b_len b) (b_needs_refresh b).
Definition set_buf (buf : option bytes) (len : Z) (b : bucket B) : bucket B :=
  Bucket (b_impl b) (b_num b) (b_offset b) buf len (b_needs_refresh b).
Definition set_needs_refresh (r : bool) (b : bucket B) : bucket B :=
  Bucket (b_impl b) (b_num b) (b_offset b) (b_buf b) (b_len b) r.

(** The loop of [state_storage_write]: how many writes did not fail. *)
Fixpoint write_buckets (bs : list (bucket B)) (buf : bytes) (f : file)
  : Z * list (bucket B) * file :=
  match bs with
  | [] => (0, [], f)
  | b :: bs' =>
      let '(ret, i, f) := bucket_write (b_impl b) buf f in
      let '(n, bs', f) := write_buckets bs' buf f in
      ((if ret <? 0 then n else n + 1), set_impl i b :: bs', f)
  end.

Definition state_storage_write (st : storage B) (buf : bytes) (f : file)
  : Z * storage B * file :=
  if st_readonly st then (0, st, f) else
  let '(buckets_written, bs, f) := write_buckets (st_buckets st) buf f in
  ((if min_buckets_written <=? buckets_written then 0 else - EIO), set_buckets bs st, f).

(** [memcmp(a, b, n)] different from 0. *)
Definition memcmp (a b : bytes) (n : Z) : bool :=
  negb (bool_decide (take (Z.to_nat n) a = take (Z.to_nat n) b)).

Definition bucket_refresh (b : bucket B) (buf : bytes) (len : Z) (f : file)
  : Z * bucket B * file :=
  if b_needs_refresh b || negb (b_len b =? len) || memcmp (default [] (b_buf b)) buf len then
    let '(ret, i, f) := bucket_write (b_impl b) (take (Z.to_nat len) buf) f in
    let b := set_impl i b in
    (ret, (if ret =? 0 then set_needs_refresh false b else b), f)
  else (0, b, f).

(** The first loop of [state_storage_read] on one bucket: the bucket after it,
    and whether its data is valid. *)
Definition read_bucket (format : F) (magic flags : Z) (b : bucket B) (f : file)
  : option (bool * bucket B * F * file) :=
  let '((ret, out), i, f) := bucket_read (b_impl b) f in
  let b := set_impl i b in
  let b := match out with
           | Some buf => set_buf (Some buf) (Z.of_nat (length buf)) b
           | None => b
           end in
  let b := if ret =? - EUCLEAN then set_needs_refresh true b else b in
  if negb (ret =? - EUCLEAN) && negb (ret =? 0) then Some (false, b, format, f) else
  match format_verify format magic (default [] (b_buf b)) (b_len b) flags with
  | None => None
  | Some (ret, len, format) => Some (ret =? 0, set_buf (b_buf b) len b, format, f)
  end.

(** The first loop: [used] is the position of [bucket_used]. *)
Fixpoint read_buckets (format : F) (magic flags : Z) (pos : nat) (used : option nat)
    (bs : list (bucket B)) (f : file) : option (option nat * list (bucket B) * F * file) :=
  match bs with
  | [] => Some (used, [], format, f)
  | b :: bs' =>
      match read_bucket format magic flags b f with
      | None => None
      | Some (valid, b, format, f) =>
          let used := match used with
                      | Some u => Some u
                      | None => if valid then Some pos else None
                      end in
          match read_buckets format magic flags (S pos) used bs' f with
          | None => None
          | Some (used, bs', format, f) => Some (used, b :: bs', format, f)
          end
      end
  end.

(** The second loop, over every bucket but the one at [used]. *)
Fixpoint refresh_buckets (pos used : nat) (buf : bytes) (len : Z) (bs : list (bucket B)) (f : file)
  : list (bucket B) * file :=
  match bs with
  | [] => ([], f)
  | b :: bs' =>
      let '(b, f) := if (pos =? used)%nat then (b, f) else
                     let '(_, b, f) := bucket_refresh b buf len f in
                     (set_buf None 0 b, f) in
      let (bs', f) := refresh_buckets (S pos) used buf len bs' f in
      (b :: bs', f)
  end.

Definition state_storage_read (st : storage B) (format : F) (magic flags : Z) (f : file)
  : option ((Z * option (bytes * Z)) * storage B * F * file) :=
  match read_buckets format magic flags 0 None (st_buckets st) f with
  | None => None
  | Some (used, bs, format, f) =>
      match used ≫= fun u => (fun b => (u, b)) <$> bs !! u with
      | None => Some ((- ENOENT, None), set_buckets bs st, format, f)
      | Some (u, bucket_used) =>
          let buf := default [] (b_buf bucket_used) in
          let len := b_len bucket_used in
          let (bs, f) := refresh_buckets 0 u buf len bs f in
          let '(_, bucket_used, f) := bucket_refresh bucket_used buf len f in
          Some ((0, Some (buf, len)),
                set_buckets (<[u := set_buf None 0 bucket_used]> bs) st, format, f)
      end
  end.

(** Opening every bucket anew, as the next process does. *)
Fixpoint open_buckets (bs : list (bucket B)) (f : file) : list (bucket B) * file :=
  match bs with
  | [] => ([], f)
  | b :: bs' =>
      let '(_, i, f) := bucket_open (b_impl b) f in
      let (bs', f) := open_buckets bs' f in
      (Bucket i (b_num b) (b_offset b) None 0 false :: bs', f)
  end.

Definition state_storage_set_readonly (st : storage B) : storage B :=
  Storage (st_buckets st) (st_name st) (st_stridesize st) (st_offset st) (st_max_size st) true.

End Ops.

(** ** Making the buckets *)

(** The part of [struct mtd_info_user] that is used. *)
Record mtd_info : Type := MtdInfo {
  mtd_size : Z;
  mtd_erasesize : Z;
  mtd_writesize : Z;
  mtd_no_erase : bool
}.

(** [IS_ALIGNED(x, a)] on an [off_t]. *)
Definition is_aligned (x a : Z) : bool := Z.land x (s64 (a - 1)) =? 0.

(** The loop of [state_storage_mtd_buckets_init]: at most one bucket per
    eraseblock, as many as wanted. [fuel] bounds the eraseblocks. *)
Fixpoint mtd_buckets_loop (fuel : nat) (meminfo : mtd_info) (writesize offset end_ : Z)
    (acc : list (bucket circular)) (f : file) : list (bucket circular) * file :=
  match fuel with
  | O => (acc, f)
  | S fuel' =>
      if offset <? end_ then
        let eraseblock := u32 (offset / mtd_erasesize meminfo) in
        let '(ret, c, f) := state_backend_bucket_circular_create eraseblock writesize
                              (mtd_erasesize meminfo) f in
        match c with
        | None => mtd_buckets_loop fuel' meminfo writesize (offset + mtd_erasesize meminfo) end_ acc f
        | Some c =>
            let n_buckets := Z.of_nat (length acc) in
            let acc := acc ++ [Bucket c n_buckets offset None 0 false] in
            if desired_buckets <=? n_buckets + 1 then (acc, f)
            else mtd_buckets_loop fuel' meminfo writesize (offset + mtd_erasesize meminfo) end_ acc f
        end
      else (acc, f)
  end.

Definition mtd_end (st_offset st_max_size : Z) (meminfo : mtd_info) : Z :=
  let end_ := s64 (st_offset + st_max_size) in
  if (end_ =? 0) || (mtd_size meminfo <? end_) then mtd_size meminfo else end_.

Definition state_storage_mtd_buckets_init (st : storage circular) (meminfo : mtd_info)
    (circular : bool) (f : file) : Z * storage CircularBucket.circular * file :=
  let end_ := mtd_end (st_offset st) (st_max_size st) meminfo in
  if negb (is_aligned (st_offset st) (mtd_erasesize meminfo)) then (- EINVAL, st, f) else
  let writesize := if circular then mtd_writesize meminfo else mtd_erasesize meminfo in
  let (bs, f) := mtd_buckets_loop (S (Z.to_nat ((end_ - st_offset st) / mtd_erasesize meminfo))) meminfo writesize
                   (st_offset st) end_ [] f in
  ((if (length bs =? 0)%nat then - EIO else 0), set_buckets bs st, f).

(** The loop of [state_storage_file_buckets_init], from copy [n] on. *)
Fixpoint file_buckets_loop (todo : nat) (n stridesize st_offset : Z) (readonly : bool) (acc : list (bucket direct))
    (f : file) : list (bucket direct) * file :=
  match todo with
  | O => (acc, f)
  | S todo' =>
      let offset := st_offset + u32 (n * stridesize) in
      let '(ret, d, f) := state_backend_bucket_direct_create offset stridesize readonly f in
      let acc := match d with
                 | None => acc
                 | Some d => acc ++ [Bucket d (Z.of_nat (length acc)) offset None 0 false]
                 end in
      file_buckets_loop todo' (n + 1) stridesize st_offset readonly acc f
  end.

Definition state_storage_file_buckets_init (st : storage direct) (f : file)
  : Z * storage direct * file :=
  if st_stridesize st =? 0 then (- EINVAL, st, f) else
  if negb (st_max_size st =? 0) && (st_max_size st <? u32 (desired_buckets * st_stridesize st))
  then (- EINVAL, st, f) else
  let (bs, f) := file_buckets_loop (Z.to_nat desired_buckets) 0 (st_stridesize st) (st_offset st) (st_readonly st) [] f in
  ((if (length bs =? 0)%nat then - EIO else 0), set_buckets bs st, f).

(** [meminfo] is what [mtd_get_meminfo] found, [None] when the device is not an
    MTD or MTD support is not configured; [readonly] is set before the call. *)
Definition state_storage_init (meminfo : option mtd_info) (readonly : bool) (offset max_size stridesize : Z)
    (storagetype : option bytes) (f : file) : Z * (storage circular + storage direct) * file :=
  match meminfo with
  | Some m =>
      if negb (mtd_no_erase m) then
        let mtd (circular : bool) (name : option bytes) :=
          let '(ret, st, f) := state_storage_mtd_buckets_init
            (Storage [] name stridesize offset max_size readonly) m circular f in (ret, inl st, f) in
        match storagetype with
        | None => mtd true (Some (cstr "circular"))
        | Some t =>
            if decide (t = cstr "circular") then mtd true (Some (cstr "circular"))
            else if decide (t = cstr "noncircular") then mtd false storagetype
            else (- EINVAL, inl (Storage [] storagetype stridesize offset max_size readonly), f)
        end
      else
        let '(ret, st, f) := state_storage_file_buckets_init
          (Storage [] storagetype stridesize offset max_size readonly) f in (ret, inr st, f)
  | None =>
      let '(ret, st, f) := state_storage_file_buckets_init
        (Storage [] storagetype stridesize offset max_size readonly) f in (ret, inr st, f)
  end.

(** A bucket just made: in order, up to date and with no data read yet. *)
Definition made {B} `{BucketView B} (f : file) (b : bucket B) : Prop :=
  bk_wf (b_impl b) f /\ bk_sync (b_impl b) f /\
  b_buf b = None /\ b_len b = 0 /\ b_needs_refresh b = false.

(** ** The storage over lawful buckets *)

(** The same device, whatever its content. *)
Definition same_device (f g : file) : Prop :=
  f_flash g = f_flash f /\ f_bad g = f_bad f /\ length (f_data g) = length (f_data f).

#[export] Instance same_device_equiv : Equivalence same_device.
Proof.
  split; [done| |].
  - intros f g (H1 & H2 & H3). by repeat split.
  - intros f g h (H1 & H2 & H3) (K1 & K2 & K3). split; [congruence|]. split; congruence.
Qed.

Lemma same_device_after f g f1 g1 : same_device f g -> same_device f f1 -> same_device g g1 -> same_device f1 g1.
Proof. intros H1 H2 H3. etrans; [symmetry; exact H2|]. etrans; [exact H1|exact H3]. Qed.

Lemma same_medium_device f g : same_medium f g -> same_device f g.
Proof. intros (E & ? & ?). split; [done|]. split; [done|]. by rewrite E. Qed.
Lemma same_outside_device pos len f g : same_outside pos len f g -> same_device f g.
Proof. intros (? & ? & ? & _). by repeat split. Qed.

Section Apart.
Context {B : Type} {HV : BucketView B}.

(** The buckets of a storage: in order on the medium and apart. *)
Fixpoint all_apart (bs : list (bucket B)) : Prop :=
  match bs with
  | [] => True
  | b :: bs' => Forall (fun x => apart (b_impl b) (b_impl x)) bs' /\ all_apart bs'
  end.

Lemma all_apart_app xs ys :
  all_apart xs -> all_apart ys ->
  (forall x y, x ∈ xs -> y ∈ ys -> apart (b_impl x) (b_impl y)) -> all_apart (xs ++ ys).
Proof.
  intros Hx Hy Hxy. induction xs as [|x xs IH]; [done|]. destruct Hx as [Hx Hxs]. split.
  - apply Forall_app. split; [done|]. apply Forall_forall. intros y Hin%list_elem_of_In. apply Hxy; set_solver.
  - apply IH; [done|]. set_solver.
Qed.

End Apart.

Section Laws.
Context {B F : Type} {HO : BucketOps B} {HV : BucketView B} {HL : BucketLaws B}
        {HF : FormatVerify F} {HFL : FormatLaws F}.

(** What a step may do to a bucket that is not its own: nothing. *)
Definition keeps (x : B) (f g : file) : Prop :=
  bk_wf x f -> bk_wf x g /\ (bk_sync x f -> bk_sync x g) /\
  bk_content x (region x g) = bk_content x (region x f).

Lemma keeps_refl x f : keeps x f f.
Proof. by intros ?. Qed.

Lemma keeps_trans x f g h : keeps x f g -> keeps x g h -> keeps x f h.
Proof. intros Hfg Hgh Hf. destruct (Hfg Hf) as (Hg & ? & <-). destruct (Hgh Hg) as (? & ? & ->). auto. Qed.

Lemma keeps_outside x f g pos len :
  same_outside pos len f g -> (bk_pos x + bk_size x <= pos \/ pos + len <= bk_pos x)%nat -> keeps x f g.
Proof.
  intros Ho Hd Hf. destruct (law_wf_outside x f g pos len Hf Ho Hd) as [? ?].
  split; [done|]. split; [done|]. by eapply content_outside.
Qed.

Lemma keeps_medium x f g : same_medium f g -> keeps x f g.
Proof.
  intros Hm. apply (keeps_outside x f g (bk_pos x + bk_size x) 0); [by apply same_medium_outside|by left].
Qed.

Lemma same_place_both (a b c : B) : same_place a b -> same_place a c -> same_place b c.
Proof. intros H1 H2. by etrans; [symmetry|]. Qed.

Lemma apart_sym (a b : B) : apart a b -> apart b a.
Proof. unfold apart. lia. Qed.

Lemma apart_place (a b b' : B) : apart a b -> same_region b b' -> apart a b'.
Proof. unfold apart. intros ? (-> & -> & _). done. Qed.

Lemma apart_place_l (a a' b : B) : apart a b -> same_region a a' -> apart a' b.
Proof. unfold apart. intros ? (-> & -> & _). done. Qed.

Definition buckets_wf (bs : list (bucket B)) (f : file) : Prop :=
  Forall (fun b => bk_wf (b_impl b) f) bs.
Definition buckets_fit (bs : list (bucket B)) (d : bytes) : Prop :=
  Forall (fun b => bk_fits (b_impl b) d) bs.
Definition buckets_room (bs : list (bucket B)) (d : bytes) : Prop :=
  Forall (fun b => bk_room (b_impl b) d) bs.
Definition same_places : list (bucket B) -> list (bucket B) -> Prop :=
  Forall2 (fun b b' => same_place (b_impl b) (b_impl b')).
Definition same_regions : list (bucket B) -> list (bucket B) -> Prop :=
  Forall2 (fun b b' => same_region (b_impl b) (b_impl b')).
Definition apart_from (x : B) (bs : list (bucket B)) : Prop :=
  Forall (fun b => apart x (b_impl b)) bs.

#[export] Instance same_places_equiv : Equivalence same_places.
Proof.
  unfold same_places. split.
  - intros bs. by apply Forall2_same_length_lookup_2; [|intros; simplify_eq].
  - intros xs ys. induction 1; constructor; [by symmetry|done].
  - intros xs ys zs H. revert zs. induction H as [|x y xs ys Hxy H IH]; intros zs Hz; inversion Hz; [constructor|].
    constructor; [by etrans|by apply IH].
Qed.

#[export] Instance same_regions_equiv : Equivalence same_regions.
Proof.
  unfold same_regions. split.
  - intros bs. by apply Forall2_same_length_lookup_2; [|intros; simplify_eq].
  - intros xs ys. induction 1; constructor; [by symmetry|done].
  - intros xs ys zs H. revert zs. induction H as [|x y xs ys Hxy H IH]; intros zs Hz; inversion Hz; [constructor|].
    constructor; [by etrans|by apply IH].
Qed.

Lemma same_places_regions xs ys : same_places xs ys -> same_regions xs ys.
Proof. apply Forall2_impl. intros x y. apply same_place_region. Qed.
#[local] Hint Resolve same_places_regions : core.

Lemma apart_from_places x bs bs' : apart_from x bs -> same_regions bs bs' -> apart_from x bs'.
Proof.
  intros Ha Hs. induction Hs as [|b b' bs bs' Hb Hs IH]; [done|].
  apply Forall_cons_1 in Ha as [? ?]. constructor; [by eapply apart_place|by apply IH].
Qed.

Lemma all_apart_places bs bs' : all_apart bs -> same_regions bs bs' -> all_apart bs'.
Proof.
  intros Ha Hs. induction Hs as [|b b' bs bs' Hb Hs IH]; [done|].
  destruct Ha as [Hx Ha]. split; [|by apply IH].
  eapply apart_from_places; [|done]. eapply Forall_weaken; [apply Hx|]. intros x Hbx.
  eapply apart_place_l; [apply Hbx|done].
Qed.

Lemma buckets_wf_keeps bs f g :
  buckets_wf bs f -> Forall (fun b => keeps (b_impl b) f g) bs -> buckets_wf bs g.
Proof.
  intros Hw Hk. induction bs as [|b bs IH]; [constructor|].
  apply Forall_cons_1 in Hw as [? ?], Hk as [Hk ?]. constructor; [by apply Hk|by apply IH].
Qed.

Lemma buckets_fit_places bs bs' d : buckets_fit bs d -> same_places bs bs' -> buckets_fit bs' d.
Proof.
  intros Hf Hs. induction Hs as [|b b' bs bs' Hb Hs IH]; [done|].
  apply Forall_cons_1 in Hf as [? ?]. constructor; [by eapply same_place_fits|by apply IH].
Qed.

Lemma buckets_room_places bs bs' d : buckets_room bs d -> same_regions bs bs' -> buckets_room bs' d.
Proof.
  intros Hf Hs. induction Hs as [|b b' bs bs' Hb Hs IH]; [done|].
  apply Forall_cons_1 in Hf as [? ?]. constructor; [by apply Hb|by apply IH].
Qed.

Lemma buckets_fit_room bs d : buckets_fit bs d -> buckets_room bs d.
Proof. intros H. eapply Forall_weaken; [apply H|]. intros b. apply bk_fits_room. Qed.

(** A write to one bucket, with any errors, keeps all that are apart from it. *)
Lemma write_keeps b d f r b' g x :
  bk_wf b f -> bk_room b d -> bucket_write b d f = (r, b', g) -> apart x b -> keeps x f g.
Proof.
  intros Hwf Hfit Hw Ha. destruct (law_write_inside _ _ _ _ _ _ Hwf Hfit Hw) as (Ho & _ & _).
  eapply keeps_outside; [done|]. unfold apart in Ha. lia.
Qed.

Definition holds (d : bytes) (f : file) (b : bucket B) : Prop :=
  exists padding, bk_content (b_impl b) (region (b_impl b) f) = Shows (d ++ zeros padding).

(** *** Writing every bucket *)

(** With any errors, the buckets stay in order and the rest of the medium is kept. *)
Lemma write_buckets_any bs d f n bs' g :
  buckets_wf bs f -> all_apart bs -> buckets_room bs d -> write_buckets bs d f = (n, bs', g) ->
  same_places bs bs' /\ buckets_wf bs' g /\ 0 <= n /\ (forall x, apart_from x bs -> keeps x f g) /\ same_device f g.
Proof.
  revert f n bs' g. induction bs as [|b bs IH]; intros f n bs' g Hwf Ha Hfit; simpl.
  { intros; simplify_eq. split; [constructor|]. split; [constructor|]. split; [lia|]. split; [intros; apply keeps_refl|reflexivity]. }
  apply Forall_cons_1 in Hwf as [Hb Hbs], Hfit as [Hd Hds]. destruct Ha as [Hba Ha].
  destruct (bucket_write (b_impl b) d f) as [[r i] f1] eqn:Ew.
  destruct (law_write_inside _ _ _ _ _ _ Hb Hd Ew) as (Hdev & Hp & Hi). apply same_outside_device in Hdev.
  assert (buckets_wf bs f1) as Hbs1.
  { eapply buckets_wf_keeps; [done|]. eapply Forall_weaken; [apply Hba|]. intros x Hbx.
    eapply write_keeps; [apply Hb|apply Hd|done|]. by apply apart_sym, Hbx. }
  destruct (write_buckets bs d f1) as [[n1 bs1] f2] eqn:Eb.
  destruct (IH f1 n1 bs1 f2 Hbs1 Ha Hds Eb) as (Hp1 & Hw1 & Hn & Hk & Hdev2).
  assert (keeps i f1 f2) as Hki.
  { apply Hk. eapply Forall_weaken; [apply Hba|]. intros x Hbx.
    eapply apart_place_l; [apply Hbx|auto]. }
  intros; simplify_eq. split; [by constructor|]. split.
  { constructor; [by apply Hki|done]. }
  split; [destruct (r <? 0); lia|]. split; [|by etrans].
  intros x Hx. apply Forall_cons_1 in Hx as [? ?].
  eapply keeps_trans; [eapply write_keeps; [apply Hb|apply Hd|apply Ew|done]|]. by apply Hk.
Qed.

(** Without errors every bucket ends up with the data. *)
Lemma write_buckets_healthy bs d f :
  buckets_wf bs f -> all_apart bs -> buckets_fit bs d -> healthy f ->
  exists bs' g, write_buckets bs d f = (Z.of_nat (length bs), bs', g) /\ healthy g /\
    same_places bs bs' /\ buckets_wf bs' g /\ Forall (holds d g) bs'.
Proof.
  revert f. induction bs as [|b bs IH]; intros f Hwf Ha Hfit Hf; simpl.
  { exists [], f. by repeat (split; [done || constructor|]). }
  apply Forall_cons_1 in Hwf as [Hb Hbs], Hfit as [Hd Hds]. destruct Ha as [Hba Ha].
  destruct (law_write_ok (b_impl b) d f Hb Hd Hf) as (i & f1 & p & Ew & Hf1 & Hc).
  pose proof (bk_fits_room _ _ Hd) as Hr. pose proof (buckets_fit_room _ _ Hds) as Hrs.
  destruct (law_write_inside _ _ _ _ _ _ Hb Hr Ew) as (_ & Hp & Hi). rewrite Ew.
  assert (buckets_wf bs f1) as Hbs1.
  { eapply buckets_wf_keeps; [done|]. eapply Forall_weaken; [apply Hba|]. intros x Hbx.
    eapply write_keeps; [apply Hb|apply Hr|done|]. by apply apart_sym, Hbx. }
  destruct (IH f1 Hbs1 Ha Hds Hf1) as (bs1 & g & Eb & Hg & Hp1 & Hw1 & Hh).
  destruct (write_buckets_any _ _ _ _ _ _ Hbs1 Ha Hrs Eb) as (_ & _ & _ & Hk & _). rewrite Eb.
  assert (keeps i f1 g) as Hki.
  { apply Hk. eapply Forall_weaken; [apply Hba|]. intros x Hbx.
    eapply apart_place_l; [apply Hbx|auto]. }
  destruct (Hki Hi) as (Hi2 & _ & Hc2).
  eexists _, g. split; [simpl; f_equal; f_equal; lia|]. split; [done|]. split; [by constructor|].
  split; [by constructor|]. constructor; [|done]. exists p. simpl. rewrite Hc2.
  destruct Hp as ((E1 & E2 & _ & E4) & _). unfold region. by rewrite E4, E1, E2.
Qed.

(** *** Reading *)

Context (format : F) (magic flags : Z).

(** The format in a phase of its own, with the same verdicts. *)
Definition phase_of (fmt : F) : Prop :=
  fmt_ok fmt /\ forall magic c flags, fmt_accepts fmt magic c flags = fmt_accepts format magic c flags /\
    (fmt_safe fmt magic c flags <-> fmt_safe format magic c flags).

(** The length that is accepted of a whole copy. *)
Definition verify (c : bytes) : option Z := fmt_accepts format magic c flags.

(** The abstract outcome of reading: the first copy that verifies, with its
    position and the length that [verify] found. *)
Fixpoint first_copy (bs : list (bucket B)) (f : file) : option (nat * bytes * Z) :=
  match bs with
  | [] => None
  | b :: bs' =>
      let next := (fun '(i, c, len) => (S i, c, len)) <$> first_copy bs' f in
      match bk_content (b_impl b) (region (b_impl b) f) with
      | Shows c => match verify c with Some len => Some (0%nat, c, len) | None => next end
      | _ => next
      end
  end.

(** A bucket whose content is known and, if it shows a copy, safe to verify. *)
Definition known (f : file) (b : bucket B) : Prop :=
  match bk_content (b_impl b) (region (b_impl b) f) with
  | Shows c => fmt_safe format magic c flags
  | Fails => True
  | Unknown => False
  end.

(** A bucket nothing has been read from yet, up to date, with a known content. *)
Definition ready (f : file) (b : bucket B) : Prop :=
  bk_wf (b_impl b) f /\ bk_sync (b_impl b) f /\
  known f b /\
  b_buf b = None /\ b_len b = 0 /\ b_needs_refresh b = false.

(** A bucket after the first loop of the read. *)
Definition loaded (f : file) (b : bucket B) : Prop :=
  bk_wf (b_impl b) f /\ b_needs_refresh b = false /\
  match bk_content (b_impl b) (region (b_impl b) f) with
  | Shows c => b_buf b = Some c /\ match verify c with Some len => b_len b = len | None => True end
  | _ => b_buf b = None /\ b_len b = 0
  end.

Lemma ready_medium f g b : same_medium f g -> ready f b -> ready g b.
Proof.
  intros Hm (Hw & Hs & Hc & ?). destruct (keeps_medium (b_impl b) f g Hm Hw) as (? & Hs' & Hc').
  split; [done|]. split; [by apply Hs'|]. unfold known. by rewrite Hc'.
Qed.

Lemma loaded_keeps f g b : keeps (b_impl b) f g -> loaded f b -> loaded g b.
Proof.
  intros Hk (Hw & Hn & Hc). destruct (Hk Hw) as (? & _ & Hc'). split; [done|]. by rewrite Hc'.
Qed.

Lemma read_bucket_healthy fmt b f :
  phase_of fmt -> ready f b -> healthy f ->
  exists b' fmt' g, read_bucket fmt magic flags b f =
      Some (match bk_content (b_impl b) (region (b_impl b) f) with
            | Shows c => bool_decide (is_Some (verify c)) | _ => false end, b', fmt', g) /\
    phase_of fmt' /\ healthy g /\ same_medium f g /\ same_place (b_impl b) (b_impl b') /\ loaded g b'.
Proof.
  intros [Hok Hal] (Hw & Hs & Hk & Hb & Hl & Hn) Hf. unfold read_bucket. unfold known in Hk.
  destruct (bk_content (b_impl b) (region (b_impl b) f)) as [c| |] eqn:Hc; [| |done].
  - destruct (law_read _ _ _ Hw Hs Hf Hc) as (i & g & Er & Hg). rewrite Er.
    destruct (law_read_pure _ _ _ _ _ Er) as (Hm & Hp & Hwi). specialize (Hwi Hw).
    change (0 =? - EUCLEAN) with false. cbn [negb andb Z.eqb b_buf b_len set_buf set_impl default].
    change (id c) with c. destruct (law_verify fmt magic c flags Hok) as (ret & len & fmt' & -> & Hv & Hok' & Hal'); [by apply Hal|].
    rewrite (proj1 (Hal magic c flags)) in Hv. fold (verify c) in Hv.
    assert (ret =? 0 = bool_decide (is_Some (verify c))) as ->.
    { destruct (verify c); [by destruct Hv as [-> _]|]. by apply Z.eqb_neq. }
    eexists _, fmt', g. split; [done|]. split; [split; [done|]; intros m x fl; by destruct (Hal' m x fl) as [-> ->]|].
    split; [done|]. split; [done|]. split; [done|].
    split; [done|]. split; [done|]. cbn [b_impl set_buf set_impl].
    rewrite (content_same (b_impl b) i f g (same_place_region _ _ Hp) Hm), Hc. split; [done|]. destruct (verify c); [tauto|done].
  - destruct (law_read_fails _ _ Hw Hs Hf Hc) as (e & i & g & Er & Hg & He1 & He2). rewrite Er.
    destruct (law_read_pure _ _ _ _ _ Er) as (Hm & Hp & Hwi). specialize (Hwi Hw).
    destruct (Z.eqb_spec (- e) (- EUCLEAN)); [lia|]. destruct (Z.eqb_spec (- e) 0); [lia|].
    cbn [negb andb]. eexists _, fmt, g. split; [done|]. split; [done|]. split; [done|]. split; [done|]. split; [done|].
    split; [done|]. split; [done|]. cbn [b_impl set_impl b_buf b_len].
    by rewrite (content_same (b_impl b) i f g (same_place_region _ _ Hp) Hm), Hc.
Qed.

(** The first loop finds the first valid copy and changes nothing. *)
Lemma read_buckets_healthy bs : forall fmt pos used f,
  phase_of fmt -> Forall (ready f) bs -> healthy f ->
  exists bs' fmt' g, read_buckets fmt magic flags pos used bs f =
      Some (match used with
            | Some u => Some u
            | None => (fun '(i, _, _) => (pos + i)%nat) <$> first_copy bs f
            end, bs', fmt', g) /\
    phase_of fmt' /\ healthy g /\ same_medium f g /\ same_places bs bs' /\ Forall (loaded g) bs'.
Proof.
  induction bs as [|b bs IH]; intros fmt pos used f Hal Hr Hf; simpl.
  { exists [], fmt, f. split; [by destruct used|]. split; [done|]. split; [done|]. split; [done|]. by split; constructor. }
  apply Forall_cons_1 in Hr as [Hb Hbs].
  destruct (read_bucket_healthy fmt b f Hal Hb Hf) as (b' & fmt1 & f1 & -> & Hal1 & Hf1 & Hm1 & Hp & Hl).
  assert (first_copy bs f1 = first_copy bs f) as Efc.
  { clear -Hm1. induction bs as [|x bs IH]; [done|]. simpl. rewrite IH. unfold region.
    by rewrite (proj1 Hm1). }
  set (valid := match bk_content _ _ with Shows c => bool_decide (is_Some (verify c)) | _ => false end).
  destruct (IH fmt1 (S pos) (match used with Some u => Some u | None => if valid then Some pos else None end) f1)
    as (bs' & fmt' & g & -> & Hal' & Hg & Hm2 & Hps & Hls);
    [done|eapply Forall_weaken; [done|]; intros x; by apply ready_medium|done|].
  rewrite Efc. eexists _, fmt', g. split; [|split; [done|split; [done|split; [by etrans|split; [by constructor|]]]]].
  - do 4 f_equal. unfold valid. destruct used as [u|]; [done|].
    destruct (bk_content _ _) as [c| |]; [destruct (verify c)| |];
      try (destruct (first_copy bs f) as [[[i ?] ?]|]; simpl; [f_equal; lia|done]).
    simpl. f_equal. lia.
  - constructor; [|done]. eapply loaded_keeps; [|done]. by apply keeps_medium.
Qed.

(** *** Restoring consistency *)

(** The copy of a bucket starts with the [len] bytes of [buf]. *)
Definition agrees (buf : bytes) (len : Z) (f : file) (b : bucket B) : Prop :=
  exists c, bk_content (b_impl b) (region (b_impl b) f) = Shows c /\
    take (Z.to_nat len) c = take (Z.to_nat len) buf.

Lemma agrees_keeps buf len f g b :
  bk_wf (b_impl b) f -> keeps (b_impl b) f g -> agrees buf len f b -> agrees buf len g b.
Proof. intros Hw Hk (c & Hc & E). exists c. destruct (Hk Hw) as (_ & _ & ->). done. Qed.

Lemma bucket_refresh_healthy b buf len f :
  loaded f b -> bk_room (b_impl b) (take (Z.to_nat len) buf) -> healthy f ->
  0 < len <= Z.of_nat (length buf) ->
  exists r b' g, bucket_refresh b buf len f = (r, b', g) /\ healthy g /\
    same_place (b_impl b) (b_impl b') /\ bk_wf (b_impl b') g /\
    (bk_writable (b_impl b) = true -> agrees buf len g b') /\
    (forall x, apart x (b_impl b) -> keeps x f g) /\ same_device f g.
Proof.
  intros (Hw & Hn & Hc) Hroom Hf Hlen. unfold bucket_refresh. rewrite Hn. cbn [orb].
  destruct (negb (b_len b =? len) || memcmp (default [] (b_buf b)) buf len) eqn:Et.
  - destruct (bucket_write (b_impl b) (take (Z.to_nat len) buf) f) as [[r i] g] eqn:Ew.
    destruct (law_write_inside _ _ _ _ _ _ Hw Hroom Ew) as (Hdev & Hp & Hi). apply same_outside_device in Hdev.
    assert (Hkp : forall x, apart x (b_impl b) -> keeps x f g) by (intros x; by eapply write_keeps).
    exists r. eexists _, g. split; [reflexivity|].
    assert (Hb : healthy g /\ (bk_writable (b_impl b) = true ->
      exists p, bk_content (b_impl b) (region (b_impl b) g) = Shows (take (Z.to_nat len) buf ++ zeros p))).
    { destruct (bk_writable (b_impl b)) eqn:Ewr.
      - destruct (law_write_ok _ _ _ Hw (conj Ewr Hroom) Hf) as (i' & g' & p & Ew' & Hg & Hcg).
        rewrite Ew in Ew'. injection Ew' as -> -> ->. split; [done|]. by exists p.
      - destruct (law_write_rdonly _ _ _ _ _ _ Ewr Ew) as (_ & _ & Hh). split; [by apply Hh|done]. }
    destruct Hb as [Hg Hcg]. split; [done|]. destruct (r =? 0); cbn [b_impl set_needs_refresh set_impl].
    all: split; [done|]; split; [done|]; split; [|done].
    all: intros Hwr; destruct (Hcg Hwr) as [p E]; eexists; cbn [b_impl set_needs_refresh set_impl].
    all: split; [rewrite (content_same (b_impl b) i g g (same_place_region _ _ Hp) (reflexivity g)); exact E|].
    all: apply take_app_length'; rewrite length_take; lia.
  - apply orb_false_iff in Et as [El Em].
    destruct (Z.eqb_spec (b_len b) len) as [El'|]; [|done].
    unfold memcmp in Em. apply negb_false_iff, bool_decide_eq_true_1 in Em.
    eexists 0, b, f. split; [done|]. split; [done|]. split; [done|]. split; [done|].
    split; [|split; [intros; apply keeps_refl|reflexivity]]. intros _.
    destruct (bk_content (b_impl b) (region (b_impl b) f)) as [c| |] eqn:Ec;
      destruct Hc as [Eb Eln]; [|lia|lia].
    exists c. split; [done|]. by rewrite Eb in Em.
Qed.

Lemma refresh_buckets_healthy used buf len bs : forall pos f,
  Forall (loaded f) bs -> all_apart bs -> buckets_room bs (take (Z.to_nat len) buf) -> healthy f ->
  0 < len <= Z.of_nat (length buf) ->
  exists bs' g, refresh_buckets pos used buf len bs f = (bs', g) /\ healthy g /\
    same_places bs bs' /\ buckets_wf bs' g /\
    (forall i b', bs' !! i = Some b' -> (pos + i)%nat <> used -> bk_writable (b_impl b') = true -> agrees buf len g b') /\
    (forall i b, bs !! i = Some b -> (pos + i)%nat = used -> bs' !! i = Some b /\ loaded g b) /\
    (forall x, apart_from x bs -> keeps x f g) /\ same_device f g.
Proof.
  induction bs as [|b bs IH]; intros pos f Hl Ha Hfit Hf Hlen; simpl.
  { exists [], f. split; [done|]. split; [done|]. split; [constructor|]. split; [constructor|].
    split; [done|]. split; [done|]. split; [intros; apply keeps_refl|reflexivity]. }
  apply Forall_cons_1 in Hl as [Hb Hbs], Hfit as [Hd Hds]. destruct Ha as [Hba Ha].
  assert (exists b' f1, (if (pos =? used)%nat then (b, f) else
      let '(_, b, f) := bucket_refresh b buf len f in (set_buf None 0 b, f)) = (b', f1) /\
      healthy f1 /\ same_place (b_impl b) (b_impl b') /\ bk_wf (b_impl b') f1 /\
      (pos <> used -> bk_writable (b_impl b') = true -> agrees buf len f1 b') /\ (pos = used -> b' = b /\ loaded f1 b) /\
      (forall x, apart x (b_impl b) -> keeps x f f1) /\ same_device f f1)
    as (b' & f1 & -> & Hf1 & Hp & Hw & Hag & Hus & Hk & Hdev).
  { destruct (Nat.eqb_spec pos used) as [|Hne].
    - exists b, f. split; [done|]. split; [done|]. split; [done|].
      split; [apply Hb|]. split; [done|]. split; [done|]. split; [intros; apply keeps_refl|reflexivity].
    - destruct (bucket_refresh_healthy b buf len f Hb Hd Hf Hlen)
        as (r & b1 & g & -> & Hg & Hp & Hw & Hag & Hk & Hdev).
      eexists _, g. split; [done|]. do 3 (split; [done|]). split; [|done]. intros _ Hwr. apply Hag. by rewrite <-(proj2 Hp). }
  assert (Forall (fun x => keeps (b_impl x) f f1) bs) as Hkb.
  { eapply Forall_weaken; [apply Hba|]. intros x Hbx. apply Hk, apart_sym, Hbx. }
  destruct (IH (S pos) f1) as (bs' & g & -> & Hg & Hps & Hws & Hags & Huss & Hks & Hdev2); try done.
  { clear -Hbs Hkb. induction Hkb; [done|]. apply Forall_cons_1 in Hbs as [? ?].
    constructor; [by eapply loaded_keeps|auto]. }
  assert (keeps (b_impl b') f1 g) as Hk1.
  { apply Hks. eapply Forall_weaken; [apply Hba|]. intros x Hbx.
    eapply apart_place_l; [apply Hbx|auto]. }
  eexists _, g. split; [done|]. split; [done|]. split; [by constructor|].
  split; [constructor; [by apply Hk1|done]|]. split; [|split; [|split; [|by etrans]]].
  - intros [|i] b1; simpl; intros Hi Hne Hwr; simplify_eq.
    + eapply agrees_keeps; [apply Hw|done|]. apply Hag; [lia|done].
    + apply (Hags i b1 Hi); [lia|done].
  - intros [|i] b1; simpl; intros Hi He; simplify_eq.
    + destruct Hus as [-> Hl1]; [lia|]. split; [done|]. eapply loaded_keeps; [|done]. done.
    + apply (Huss i b1 Hi). lia.
  - intros x Hx. apply Forall_cons_1 in Hx as [? ?]. eapply keeps_trans; [by apply Hk|by apply Hks].
Qed.

Lemma first_copy_lookup bs f i c len : first_copy bs f = Some (i, c, len) ->
  exists b, bs !! i = Some b /\ bk_content (b_impl b) (region (b_impl b) f) = Shows c /\
    verify c = Some len.
Proof.
  revert i. induction bs as [|b bs IH]; intros i; simpl; [done|].
  assert ((fun '(i, c, len) => (S i, c, len)) <$> first_copy bs f = Some (i, c, len) ->
    exists b0, (b :: bs) !! i = Some b0 /\ bk_content (b_impl b0) (region (b_impl b0) f) = Shows c /\
    verify c = Some len) as Hnext.
  { destruct (first_copy bs f) as [[[j ?] ?]|]; [|done]. simpl. intros; simplify_eq. by apply IH. }
  destruct (bk_content _ _) as [c1| |] eqn:Ec; [|exact Hnext|exact Hnext].
  destruct (verify c1) as [l|] eqn:Ev; [|exact Hnext].
  intros; simplify_eq. exists b. split; [done|]. by split.
Qed.

(** *** The operations *)

Definition storage_ok (st : storage B) (f : file) : Prop :=
  buckets_wf (st_buckets st) f /\ all_apart (st_buckets st).

Definition storage_open (st : storage B) (f : file) : storage B * file :=
  let (bs, f) := open_buckets (st_buckets st) f in (set_buckets bs st, f).

Lemma open_buckets_made bs f :
  buckets_wf bs f -> healthy f ->
  exists bs' g, open_buckets bs f = (bs', g) /\ healthy g /\ same_medium f g /\
    same_places bs bs' /\ Forall (made g) bs'.
Proof.
  revert f. induction bs as [|b bs IH]; intros f Hw Hf; simpl.
  { exists [], f. split; [done|]. split; [done|]. split; [done|]. split; constructor. }
  apply Forall_cons_1 in Hw as [Hb Hbs].
  destruct (law_open (b_impl b) f Hb Hf) as (i & f1 & -> & Hf1 & Hm1 & Hp & Hwi & Hsi).
  destruct (IH f1) as (bs' & g & -> & Hg & Hm2 & Hps & Hr).
  { eapply Forall_weaken; [apply Hbs|]. intros x Hx. eapply wf_same_medium; [apply Hx|done]. }
  { done. }
  destruct (keeps_medium i f1 g Hm2 Hwi) as (Hwi2 & Hsi2 & _).
  eexists _, g. split; [done|]. split; [done|]. split; [by etrans|]. split; [by constructor|].
  constructor; [|done]. split; [done|]. split; [by apply Hsi2|done].
Qed.

(** Buckets made anew where known ones are. *)
Lemma places_ready bs bs' f g : same_regions bs bs' -> same_medium f g -> Forall (known f) bs -> Forall (made g) bs' ->
  Forall (ready g) bs'.
Proof.
  intros Hp Hm. induction Hp as [|x y l k Hxy _ IH]; intros Hk Hmd; [constructor|].
  apply Forall_cons_1 in Hmd as [(H1 & H2 & H3) Hmd], Hk as [Hx Hk]. constructor; [|by apply IH].
  split; [done|]. split; [done|]. split; [|done]. unfold known in *. by rewrite (content_same (b_impl x) (b_impl y) f g Hxy Hm).
Qed.

Lemma open_buckets_healthy bs f :
  buckets_wf bs f -> Forall (known f) bs -> healthy f ->
  exists bs' g, open_buckets bs f = (bs', g) /\ healthy g /\ same_medium f g /\
    same_places bs bs' /\ Forall (ready g) bs'.
Proof.
  intros Hw Hk Hf. destruct (open_buckets_made bs f Hw Hf) as (bs' & g & E & Hg & Hm & Hp & Hmd).
  exists bs', g. do 4 (split; [done|]). by eapply places_ready; [apply same_places_regions|..].
Qed.

Lemma first_copy_same bs bs' f g :
  same_regions bs bs' -> same_medium f g -> first_copy bs' g = first_copy bs f.
Proof.
  intros Hp Hm. induction Hp as [|b b' bs bs' Hb Hp IH]; [done|]. simpl.
  by rewrite IH, (content_same (b_impl b) (b_impl b') f g Hb Hm).
Qed.

Lemma storage_read_keeps st fmt f r st' fmt' g :
  state_storage_read st fmt magic flags f = Some (r, st', fmt', g) -> st' = set_buckets (st_buckets st') st.
Proof.
  unfold state_storage_read. destruct (read_buckets _ _ _ _ _ _ _) as [[[[u bs] fm] h]|]; [|done].
  destruct (u ≫= _) as [[i b]|]; [|by intros [= _ <- _ _]].
  destruct (refresh_buckets _ _ _ _ _ _) as [bs' k]. destruct (bucket_refresh _ _ _ _) as [[? b'] l]. by intros [= _ <- _ _].
Qed.

(** *** Reading through descriptors that are open for reading *)

(** The first loop changes nothing on any medium, whatever buckets and errors. *)
Lemma read_buckets_pure bs : forall fmt pos used f u bs' fmt' g,
  read_buckets fmt magic flags pos used bs f = Some (u, bs', fmt', g) -> same_medium f g /\ same_places bs bs'.
Proof.
  induction bs as [|b bs IH]; intros fmt pos used f u bs' fmt' g; cbn [read_buckets]; [by intros [= _ <- _ <-]|].
  destruct (read_bucket fmt magic flags b f) as [[[[v b1] fmt1] f1]|] eqn:E; [|done].
  assert (same_medium f f1 /\ same_place (b_impl b) (b_impl b1)) as (Hm & Hp).
  { revert E. unfold read_bucket. destruct (bucket_read (b_impl b) f) as [[[ret out] i] h] eqn:Er.
    apply law_read_pure in Er as (Hm & Hp & _).
    set (b0 := if ret =? - EUCLEAN then _ else _). assert (Hi0 : b_impl b0 = i) by (unfold b0; by destruct (_ =? _), out).
    destruct (_ && _); [intros [= _ <- _ <-]; by rewrite Hi0|].
    destruct (format_verify _ _ _ _ _) as [[[r l] fm]|]; [|done]. intros [= _ <- _ <-]. cbn. by rewrite Hi0. }
  destruct (read_buckets _ _ _ _ _ bs f1) as [[[[u2 bs2] fmt2] f2]|] eqn:E2; [|done]. intros [= _ <- _ <-].
  apply IH in E2 as (Hm2 & Hp2). split; [by etrans|by constructor].
Qed.

Definition rdonly (b : bucket B) : Prop := bk_writable (b_impl b) = false.

Lemma bucket_refresh_rdonly b buf len f r b' g :
  rdonly b -> bucket_refresh b buf len f = (r, b', g) -> same_medium f g /\ same_place (b_impl b) (b_impl b').
Proof.
  intros Hro. unfold bucket_refresh. destruct (_ || _); [|by intros [= _ <- <-]].
  destruct (bucket_write _ _ _) as [[r1 i] h] eqn:E. apply law_write_rdonly in E as (Hm & Hp & _); [|done].
  by destruct (r1 =? 0); intros [= _ <- <-].
Qed.

Lemma refresh_buckets_rdonly used buf len bs : forall pos f bs' g,
  Forall rdonly bs -> refresh_buckets pos used buf len bs f = (bs', g) -> same_medium f g /\ same_places bs bs'.
Proof.
  induction bs as [|b bs IH]; intros pos f bs' g Hro; cbn [refresh_buckets]; [by intros [= <- <-]|].
  apply Forall_cons_1 in Hro as [Hrb Hro].
  match goal with |- context [if ?c then (b, f) else ?e] => set (step := if c then (b, f) else e) end. destruct step as [b1 f1] eqn:E.
  assert (same_medium f f1 /\ same_place (b_impl b) (b_impl b1)) as (Hm & Hp).
  { revert E. unfold step. destruct (pos =? used)%nat; [by intros [= <- <-]|].
    destruct (bucket_refresh b buf len f) as [[r b2] f2] eqn:E2. apply bucket_refresh_rdonly in E2; [|done]. by intros [= <- <-]. }
  destruct (refresh_buckets _ _ _ _ bs f1) as [bs2 f2] eqn:E2. intros [= <- <-].
  apply IH in E2 as (Hm2 & Hp2); [|done]. split; [by etrans|by constructor].
Qed.

Lemma rdonly_places bs bs' : same_places bs bs' -> Forall rdonly bs -> Forall rdonly bs'.
Proof.
  induction 1 as [|x y l k [_ E] _ IH]; intros Hr; [done|]. apply Forall_cons_1 in Hr as [? ?].
  constructor; [unfold rdonly; congruence|auto].
Qed.

(** A read through such buckets leaves the medium as it is, whatever it finds and
    whatever errors there are. *)
Lemma storage_read_rdonly st fmt f r st' fmt' g :
  Forall rdonly (st_buckets st) -> state_storage_read st fmt magic flags f = Some (r, st', fmt', g) ->
  same_medium f g /\ same_places (st_buckets st) (st_buckets st').
Proof.
  intros Hro. unfold state_storage_read.
  destruct (read_buckets _ _ _ _ _ _ _) as [[[[u bs] fm] h]|] eqn:E; [|done].
  apply read_buckets_pure in E as (Hm & Hp). pose proof (rdonly_places _ _ Hp Hro) as Hrb.
  destruct (u ≫= _) as [[i b]|] eqn:Eb; [|by intros [= _ <- _ <-]].
  assert (Hi : bs !! i = Some b).
  { destruct u as [u|]; [|done]. cbn in Eb. destruct (bs !! u) as [b0|] eqn:El; [|done]. by injection Eb as <- <-. }
  destruct (refresh_buckets _ _ _ _ _ _) as [bs' k] eqn:E2. apply refresh_buckets_rdonly in E2 as (Hm2 & Hp2); [|done].
  destruct (bucket_refresh _ _ _ _) as [[? b'] l] eqn:E3.
  apply bucket_refresh_rdonly in E3 as (Hm3 & Hp3); [|exact (proj1 (Forall_lookup _ _) Hrb i b Hi)].
  intros [= _ <- _ <-]. cbn [st_buckets set_buckets]. split; [by etrans; [|etrans]|].
  etrans; [exact Hp|]. apply Forall2_same_length_lookup_2; [rewrite length_insert; by eapply Forall2_length|].
  intros j x y Hx Hy. destruct (decide (j = i)) as [->|Hne].
  - rewrite list_lookup_insert_eq in Hy by (rewrite <-(list.Forall2_length _ _ _ Hp2); by eapply lookup_lt_Some). by simplify_eq.
  - rewrite list_lookup_insert_ne in Hy by done. exact (Forall2_lookup_lr _ _ _ _ _ _ Hp2 Hx Hy).
Qed.

Lemma storage_read_none fmt st f : phase_of fmt ->
  storage_ok st f -> Forall (ready f) (st_buckets st) -> healthy f ->
  first_copy (st_buckets st) f = None ->
  exists st' fmt' g, state_storage_read st fmt magic flags f = Some ((- ENOENT, None), st', fmt', g) /\
    phase_of fmt' /\ healthy g /\ same_medium f g /\ same_places (st_buckets st) (st_buckets st') /\ storage_ok st' g.
Proof.
  intros Hal (Hw & Ha) Hr Hf Hn. unfold state_storage_read.
  destruct (read_buckets_healthy (st_buckets st) fmt 0 None f Hal Hr Hf) as (bs1 & fmt1 & f1 & -> & Hal1 & Hf1 & Hm & Hp & Hl).
  rewrite Hn. simpl. eexists _, fmt1, f1. do 5 (split; [done|]). split; [|by eauto using all_apart_places].
  eapply Forall_weaken; [apply Hl|]. by intros x [? _].
Qed.

Lemma storage_read_some fmt st f i c len : phase_of fmt ->
  storage_ok st f -> Forall (ready f) (st_buckets st) -> healthy f ->
  first_copy (st_buckets st) f = Some (i, c, len) -> 0 < len <= Z.of_nat (length c) ->
  buckets_room (st_buckets st) (take (Z.to_nat len) c) ->
  exists st' fmt' g, state_storage_read st fmt magic flags f = Some ((0, Some (c, len)), st', fmt', g) /\
    phase_of fmt' /\ healthy g /\ same_places (st_buckets st) (st_buckets st') /\ storage_ok st' g /\
    Forall (fun b => bk_writable (b_impl b) = true -> agrees c len g b) (st_buckets st') /\ same_device f g.
Proof.
  intros Hal (Hw & Ha) Hr Hf Hfc Hlen Hfit. unfold state_storage_read.
  destruct (read_buckets_healthy (st_buckets st) fmt 0 None f Hal Hr Hf) as (bs1 & fmt1 & f1 & -> & Hal1 & Hf1 & Hm & Hp & Hl).
  rewrite Hfc. simpl.
  assert (first_copy bs1 f1 = Some (i, c, len)) as Hfc1 by (by rewrite (first_copy_same _ _ _ _ (same_places_regions _ _ Hp) Hm)).
  destruct (first_copy_lookup bs1 f1 i c len Hfc1) as (bu & Hi & Hcu & Hvu). rewrite Hi. simpl.
  assert (b_needs_refresh bu = false /\ b_buf bu = Some c /\ b_len bu = len) as (Enr & Eb & El).
  { rewrite Forall_lookup in Hl. destruct (Hl i bu Hi) as (_ & Hn & Hc). rewrite Hcu, Hvu in Hc. tauto. }
  rewrite Eb, El. change (default [] (Some c)) with c.
  destruct (refresh_buckets_healthy i c len bs1 0 f1) as (bs2 & g & -> & Hg & Hp2 & Hw2 & Hag & Hus & _ & Hdev);
    [done|by eauto using all_apart_places|by eauto using buckets_room_places|done|done|].
  destruct (Hus i bu Hi eq_refl) as [Hi2 Hlu].
  assert (bucket_refresh bu c len g = (0, bu, g)) as ->.
  { unfold bucket_refresh. rewrite Enr, Eb, El, Z.eqb_refl. cbn [negb orb].
    unfold memcmp. by rewrite bool_decide_eq_true_2. }
  assert (same_places bs2 (<[i:=set_buf None 0 bu]> bs2)) as Hp3.
  { apply Forall2_same_length_lookup_2; [by rewrite length_insert|].
    intros j x y Hx Hy. destruct (decide (j = i)) as [->|].
    - rewrite list_lookup_insert_eq in Hy by (eapply lookup_lt_Some, Hi2). simplify_eq. done.
    - rewrite list_lookup_insert_ne in Hy by done. by simplify_eq. }
  assert (same_places (st_buckets st) (<[i:=set_buf None 0 bu]> bs2)) as Hp4 by (by etrans; [|etrans]).
  eexists _, fmt1, g. split; [done|]. split; [done|]. split; [done|]. unfold storage_ok. cbn [st_buckets set_buckets].
  split; [done|]. split; [split|split; [|by etrans; [apply same_medium_device|]]].
  - apply Forall_lookup. intros j y Hy. unfold buckets_wf in Hw2. rewrite Forall_lookup in Hw2. destruct (decide (j = i)) as [->|].
    + rewrite list_lookup_insert_eq in Hy by (eapply lookup_lt_Some, Hi2). simplify_eq. simpl. by apply (Hw2 i).
    + rewrite list_lookup_insert_ne in Hy by done. by apply (Hw2 j).
  - by eauto using all_apart_places.
  - apply Forall_lookup. intros j y Hy. destruct (decide (j = i)) as [->|].
    + rewrite list_lookup_insert_eq in Hy by (eapply lookup_lt_Some, Hi2). simplify_eq.
      intros _. exists c. split; [|done]. simpl. destruct Hlu as (_ & _ & Hc).
      destruct (bk_content (b_impl bu) (region (b_impl bu) g)) as [c'| |]; destruct Hc as [Hc _]; congruence.
    + rewrite list_lookup_insert_ne in Hy by done. by apply (Hag j y Hy).
Qed.

(** *** Buckets that agree *)

(** Nothing is refreshed when every bucket shows the data. *)
Definition shows_same (buf : bytes) (len : Z) (f : file) (b : bucket B) : Prop :=
  exists c, bk_content (b_impl b) (region (b_impl b) f) = Shows c /\ verify c = Some len /\
    take (Z.to_nat len) c = take (Z.to_nat len) buf.

Lemma bucket_refresh_same b buf len f : loaded f b -> shows_same buf len f b -> bucket_refresh b buf len f = (0, b, f).
Proof.
  intros (_ & Hn & Hl) (c & Hc & Hv & Ht). rewrite Hc, Hv in Hl. destruct Hl as [Hb Hl].
  unfold bucket_refresh, memcmp. rewrite Hn, Hl, Z.eqb_refl, Hb. cbn [negb orb default]. change (id c) with c. by rewrite Ht, bool_decide_eq_true_2.
Qed.

Lemma refresh_buckets_same used buf len f bs : forall pos, Forall (loaded f) bs -> Forall (shows_same buf len f) bs ->
  exists bs', refresh_buckets pos used buf len bs f = (bs', f).
Proof.
  induction bs as [|b bs IH]; intros pos Hl Hs; cbn [refresh_buckets]; [by exists []|].
  apply Forall_cons_1 in Hl as [Hb Hl], Hs as [Hsb Hs]. rewrite (bucket_refresh_same b) by done.
  destruct (IH (S pos) Hl Hs) as [bs' E]. destruct (pos =? used)%nat; rewrite E; by eexists.
Qed.

(** A copy of [d], with what fills its last unit. *)
Definition is_copy (d c : bytes) : Prop := exists padding, c = d ++ zeros padding.

Lemma first_copy_prop (P : bytes -> Prop) bs f :
  Forall (fun b => forall c, bk_content (b_impl b) (region (b_impl b) f) = Shows c ->
    is_Some (verify c) -> P c) bs ->
  Exists (fun b => exists c, bk_content (b_impl b) (region (b_impl b) f) = Shows c /\
    is_Some (verify c)) bs ->
  exists i c len, first_copy bs f = Some (i, c, len) /\ P c /\ verify c = Some len.
Proof.
  induction bs as [|b bs IH]; intros Hall Hex; [by inversion Hex|].
  apply Forall_cons_1 in Hall as [Hb Hall]. simpl.
  assert (Exists (fun b => exists c, bk_content (b_impl b) (region (b_impl b) f) = Shows c /\
      is_Some (verify c)) bs ->
    exists i c len, (fun '(i, c, len) => (S i, c, len)) <$> first_copy bs f = Some (i, c, len) /\
      P c /\ verify c = Some len) as Hnext.
  { intros He. destruct (IH Hall He) as (i & c & len & -> & HP & Hv). by exists (S i), c, len. }
  destruct (bk_content _ _) as [c| |] eqn:Ec.
  - destruct (verify c) as [l|] eqn:Ev.
    + exists 0%nat, c, l. split; [done|]. split; [by apply Hb|done].
    + apply Hnext. inversion Hex as [? ? (c' & ? & [? ?])|]; [congruence|done].
  - apply Hnext. inversion Hex as [? ? (c' & ? & ?)|]; [congruence|done].
  - apply Hnext. inversion Hex as [? ? (c' & ? & ?)|]; [congruence|done].
Qed.

Lemma buckets_room_take bs d n : buckets_room bs d -> buckets_room bs (take n d).
Proof. intros H. eapply Forall_weaken; [apply H|]. intros b. apply law_room_take. Qed.

Lemma take_copy d c len : is_copy d c -> 0 < len <= Z.of_nat (length d) ->
  take (Z.to_nat len) c = take (Z.to_nat len) d /\ 0 < len <= Z.of_nat (length c).
Proof. intros [p ->] ?. rewrite length_app. split; [apply take_app_le; lia|lia]. Qed.

(** Opening and reading buckets of which every valid copy is one of [ds]. *)
Lemma storage_open_read st f (ds : list (bytes * Z)) : fmt_ok format ->
  storage_ok st f -> Forall (known f) (st_buckets st) -> healthy f ->
  Forall (fun '(d, len) => buckets_room (st_buckets st) d /\ 0 < len <= Z.of_nat (length d) /\
    forall c, is_copy d c -> verify c = Some len) ds ->
  Forall (fun b => forall c, bk_content (b_impl b) (region (b_impl b) f) = Shows c ->
    is_Some (verify c) -> Exists (fun dl => is_copy (fst dl) c) ds) (st_buckets st) ->
  Exists (fun b => exists c, bk_content (b_impl b) (region (b_impl b) f) = Shows c /\
    is_Some (verify c)) (st_buckets st) ->
  exists st1 f1 i c len st2 fmt' f2, storage_open st f = (st1, f1) /\
    first_copy (st_buckets st) f = Some (i, c, len) /\
    Exists (fun dl => is_copy (fst dl) c /\ snd dl = len) ds /\
    state_storage_read st1 format magic flags f1 = Some ((0, Some (c, len)), st2, fmt', f2) /\
    phase_of fmt' /\ healthy f2 /\ same_places (st_buckets st) (st_buckets st2) /\ storage_ok st2 f2.
Proof.
  intros Hfmt [Hw Ha] Hk Hf Hds Hall Hex. unfold storage_open.
  destruct (open_buckets_healthy _ f Hw Hk Hf) as (bs1 & f1 & -> & Hf1 & Hm & Hp & Hr).
  destruct (first_copy_prop _ _ _ Hall Hex) as (i & c & len & Hfc & Hc & Hv).
  apply Exists_exists in Hc as ([d l] & Hin & Hc). simpl in Hc.
  rewrite Forall_forall in Hds. pose proof (Hds _ Hin) as (Hfit & Hl & Hvd).
  rewrite (Hvd c Hc) in Hv. simplify_eq. destruct (take_copy d c len Hc Hl) as [Et Hlc].
  destruct (storage_read_some format (set_buckets bs1 st) f1 i c len) as (st2 & fmt' & f2 & Hrd & Hal & Hf2 & Hp2 & Hok & _).
  - done.
  - split; simpl; [|by eauto using all_apart_places]. eapply Forall_weaken; [apply Hr|]. by intros x [? _].
  - done.
  - done.
  - simpl. by rewrite (first_copy_same _ _ _ _ (same_places_regions _ _ Hp) Hm).
  - done.
  - simpl. rewrite Et. eapply buckets_room_places; [|by apply same_places_regions]. by apply buckets_room_take.
  - eexists _, f1, i, c, len, st2, fmt', f2. split; [done|]. split; [done|].
    split; [apply Exists_exists; exists (d, len); done|]. split; [done|]. split; [done|]. split; [done|].
    split; [by etrans|]. done.
Qed.

Lemma with_script_medium s (f : file) : same_medium f (with_script s f).
Proof. done. Qed.

Lemma holds_keeps d bs f g :
  buckets_wf bs f -> Forall (fun b => keeps (b_impl b) f g) bs -> Forall (holds d f) bs ->
  Forall (holds d g) bs.
Proof.
  intros Hw Hk Hh. induction bs as [|b bs IH]; [constructor|].
  apply Forall_cons_1 in Hw as [? ?], Hk as [Hk ?], Hh as [[p E] ?].
  constructor; [|by apply IH]. exists p. destruct (Hk ltac:(done)) as (_ & _ & ->). done.
Qed.

(** The medium when a write stops inside bucket [b]. *)
Lemma crash_contents pre b post old new f n pre' f1 s r i f2 :
  buckets_wf (pre ++ b :: post) f -> all_apart (pre ++ b :: post) ->
  Forall (holds old f) (pre ++ b :: post) ->
  buckets_fit (pre ++ b :: post) new -> healthy f ->
  write_buckets pre new f = (n, pre', f1) ->
  bucket_write (b_impl b) new (with_script s f1) = (r, i, f2) ->
  same_places (pre ++ b :: post) (pre' ++ set_impl i b :: post) /\
  buckets_wf (pre' ++ set_impl i b :: post) f2 /\
  Forall (holds new f2) pre' /\ Forall (holds old f2) post /\
  forall x, apart_from x (pre ++ b :: post) -> keeps x f f2.
Proof.
  revert f n pre'. induction pre as [|a pre IH]; intros f n pre' Hw Ha Hold Hfit Hf; simpl.
  - intros [= <- <- <-] Eb. apply Forall_cons_1 in Hw as [Hwb Hw], Hold as [_ Hold], Hfit as [Hfb Hfit].
    destruct Ha as [Hba Ha]. apply (wf_with_script _ s) in Hwb.
    destruct (law_write_inside _ _ _ _ _ _ Hwb (bk_fits_room _ _ Hfb) Eb) as (_ & Hp & Hi).
    assert (forall x, apart x (b_impl b) -> keeps x f f2) as Hk.
    { intros x Hx. eapply keeps_trans; [by apply keeps_medium, with_script_medium|].
      eapply write_keeps; [apply Hwb|apply bk_fits_room, Hfb|apply Eb|done]. }
    assert (Forall (fun x => keeps (b_impl x) f f2) post) as Hkp.
    { eapply Forall_weaken; [apply Hba|]. intros x Hx. apply Hk, apart_sym, Hx. }
    split; [constructor; [done|reflexivity]|].
    split; [constructor; [done|by eapply buckets_wf_keeps]|]. split; [constructor|].
    split; [by eapply holds_keeps|]. intros x Hx. apply Forall_cons_1 in Hx as [? _]. by apply Hk.
  - apply Forall_cons_1 in Hw as [Hwa Hw], Hold as [_ Hold], Hfit as [Hfa Hfit]. destruct Ha as [Haa Ha].
    destruct (law_write_ok _ _ _ Hwa Hfa Hf) as (ia & fa & p & Ea & Hfa' & Hca). rewrite Ea.
    destruct (law_write_inside _ _ _ _ _ _ Hwa (bk_fits_room _ _ Hfa) Ea) as (_ & Hpa & Hia).
    assert (forall x, apart x (b_impl a) -> keeps x f fa) as Hk.
    { intros x Hx. eapply write_keeps; [apply Hwa|apply bk_fits_room, Hfa|apply Ea|done]. }
    assert (Forall (fun x => keeps (b_impl x) f fa) (pre ++ b :: post)) as Hkp.
    { eapply Forall_weaken; [apply Haa|]. intros x Hx. apply Hk, apart_sym, Hx. }
    destruct (write_buckets pre new fa) as [[n1 pre1] g1] eqn:Ep. intros [= <- <- <-] Eb.
    destruct (IH fa n1 pre1) as (Hps & Hw2 & Hn2 & Ho2 & Hk2); try done.
    { by eapply buckets_wf_keeps. }
    { eapply holds_keeps; [apply Hw|apply Hkp|apply Hold]. }
    assert (keeps ia fa f2) as Hki.
    { apply Hk2. eapply Forall_weaken; [apply Haa|]. intros x Hbx.
      eapply apart_place_l; [apply Hbx|auto]. }
    destruct (Hki Hia) as (Hia2 & _ & Hca2).
    split; [by constructor|]. split; [by constructor|]. split; [constructor; [|done]|split; [done|]].
    + exists p. simpl. rewrite Hca2. destruct Hpa as ((E1 & E2 & _ & E4) & _). unfold region. by rewrite E4, E1, E2.
    + intros x Hx. apply Forall_cons_1 in Hx as [? ?]. eapply keeps_trans; [by apply Hk|by apply Hk2].
Qed.

(** ** Claims *)

Lemma holds_known d f b : (forall c, is_copy d c -> is_Some (verify c)) -> holds d f b -> known f b.
Proof. intros Hv [p E]. unfold known. rewrite E. apply law_accepts_safe, Hv. by exists p. Qed.

Lemma storage_ok_script st s f : storage_ok st f -> storage_ok st (with_script s f).
Proof. intros [Hw Ha]. split; [|done]. eapply Forall_weaken; [apply Hw|]. intros x. apply wf_with_script. Qed.

(** The storage as another process finds it, opened for writing or not: the same places
    on the same medium, up to date and with nothing read. *)
Definition reopened (st1 : storage B) (f1 : file) (st2 : storage B) (f2 : file) : Prop :=
  healthy f2 /\ same_medium f1 f2 /\ same_regions (st_buckets st1) (st_buckets st2) /\
  Forall (made f2) (st_buckets st2).

Lemma reopened_from st1 f1 st1' f1' st2 f2 :
  same_regions (st_buckets st1) (st_buckets st1') -> same_medium f1 f1' -> reopened st1' f1' st2 f2 -> reopened st1 f1 st2 f2.
Proof. intros Hp Hm (Hf & Hm2 & Hp2 & Hmd). split; [done|]. split; [by etrans|]. split; [by etrans|done]. Qed.

Lemma open_reopened st f s : storage_ok st f -> Forall benign s ->
  exists st2 f2, storage_open st (with_script s f) = (st2, f2) /\ reopened st f st2 f2.
Proof.
  intros [Hw Ha] Hs. unfold storage_open.
  destruct (open_buckets_made (st_buckets st) (with_script s f)) as (bs & g & -> & Hg & Hm & Hp & Hr).
  { eapply Forall_weaken; [apply Hw|]. intros x. apply wf_with_script. }
  { done. }
  exists (set_buckets bs st), g. split; [done|]. split; [done|]. split; [done|]. split; [by apply same_places_regions|done].
Qed.

(** Writing leaves the data in every bucket. *)
Lemma write_spec st d f :
  storage_ok st f -> st_buckets st <> [] -> st_readonly st = false -> buckets_fit (st_buckets st) d -> healthy f ->
  exists bs1 f1, state_storage_write st d f = (0, set_buckets bs1 st, f1) /\ healthy f1 /\
    storage_ok (set_buckets bs1 st) f1 /\ same_places (st_buckets st) bs1 /\ Forall (holds d f1) bs1 /\ same_device f f1.
Proof.
  intros [Hw Ha] Hne Hro Hfit Hf. unfold state_storage_write. rewrite Hro.
  destruct (write_buckets_healthy _ d f Hw Ha Hfit Hf) as (bs1 & f1 & E & Hf1 & Hp & Hw1 & Hh).
  destruct (write_buckets_any _ _ _ _ _ _ Hw Ha (buckets_fit_room _ _ Hfit) E) as (_ & _ & _ & _ & Hdev). rewrite E.
  destruct (Z.leb_spec min_buckets_written (Z.of_nat (length (st_buckets st)))) as [_|Hlt];
    [|unfold min_buckets_written in Hlt; destruct (st_buckets st); [done|simpl in *; lia]].
  exists bs1, f1. split; [done|]. split; [done|]. split; [|done]. split; [done|]. by eauto using all_apart_places.
Qed.

Lemma holds_regions d bs bs' f g :
  same_regions bs bs' -> same_medium f g -> Forall (holds d f) bs -> Forall (holds d g) bs'.
Proof.
  intros Hp Hm. induction Hp as [|x y l k Hxy _ IH]; intros Hh; [constructor|]. apply Forall_cons_1 in Hh as [[p E] Hh].
  constructor; [|by apply IH]. exists p. by rewrite (content_same (b_impl x) (b_impl y) f g).
Qed.

(** A read that finds the data in every bucket leaves the medium as it is. *)
Lemma storage_read_same st fmt f d len r st' fmt' g : phase_of fmt ->
  Forall (ready f) (st_buckets st) -> healthy f -> Forall (holds d f) (st_buckets st) ->
  0 < len <= Z.of_nat (length d) -> (forall c, is_copy d c -> verify c = Some len) ->
  state_storage_read st fmt magic flags f = Some (r, st', fmt', g) -> same_medium f g.
Proof.
  intros Hal Hr Hf Hh Hlen Hv. unfold state_storage_read.
  destruct (read_buckets_healthy (st_buckets st) fmt 0 None f Hal Hr Hf) as (bs1 & fmt1 & f1 & -> & _ & Hf1 & Hm & Hp & Hl).
  destruct (_ ≫= _) as [[i b]|] eqn:Eb; [|by intros [= _ _ _ <-]].
  pose proof (holds_regions d _ _ f f1 (same_places_regions _ _ Hp) Hm Hh) as Hsame.
  assert (Hi : bs1 !! i = Some b).
  { destruct (_ <$> first_copy _ _) as [u|]; [|done]. cbn in Eb.
    destruct (bs1 !! u) as [b0|] eqn:El; [|done]. by injection Eb as <- <-. }
  pose proof (proj1 (Forall_lookup _ _) Hsame i b Hi) as [pb Hcb].
  set (cb := d ++ zeros pb) in *. assert (Hcopy : is_copy d cb) by (by exists pb).
  pose proof (proj1 (Forall_lookup _ _) Hl i b Hi) as (_ & _ & Hlb). rewrite Hcb, (Hv cb Hcopy) in Hlb. destruct Hlb as [-> ->].
  change (default [] (Some cb)) with cb.
  assert (Hall : Forall (shows_same cb len f1) bs1).
  { eapply Forall_weaken; [apply Hsame|]. intros x [p Hc]. assert (Hcc : is_copy d (d ++ zeros p)) by (by exists p). exists (d ++ zeros p). split; [done|]. split; [by apply Hv|].
    by rewrite (proj1 (take_copy d _ len Hcc Hlen)), (proj1 (take_copy d cb len Hcopy Hlen)). }
  destruct (refresh_buckets_same i cb len f1 bs1 0 Hl Hall) as [bs2 ->].
  rewrite (bucket_refresh_same b) by (by eapply (proj1 (Forall_lookup _ _)); [|exact Hi]).
  by intros [= _ _ _ <-].
Qed.

(** A storage that is found again with the data in every bucket is read. *)
Lemma reopened_read st1 f1 st2 f2 d len : fmt_ok format ->
  storage_ok st1 f1 -> st_buckets st1 <> [] -> Forall (holds d f1) (st_buckets st1) ->
  buckets_room (st_buckets st1) d -> 0 < len <= Z.of_nat (length d) ->
  (forall c, is_copy d c -> verify c = Some len) -> reopened st1 f1 st2 f2 ->
  exists c st3 fmt' f3, is_copy d c /\
    state_storage_read st2 format magic flags f2 = Some ((0, Some (c, len)), st3, fmt', f3) /\ fmt_ok fmt' /\
    same_medium f2 f3.
Proof.
  intros Hfmt [Hw Ha] Hne Hh Hfit Hlen Hv (Hf2 & Hm & Hp & Hmd).
  assert (Hknown : Forall (known f1) (st_buckets st1)).
  { eapply Forall_weaken; [apply Hh|]. intros x. apply holds_known. intros c Hc. by rewrite Hv. }
  assert (Hready : Forall (ready f2) (st_buckets st2)) by (by eapply places_ready).
  assert (exists i c, first_copy (st_buckets st2) f2 = Some (i, c, len) /\ is_copy d c) as (i & c & Hfc & Hc).
  { rewrite (first_copy_same _ _ _ _ Hp Hm). destruct (st_buckets st1) as [|b bs]; [done|].
    apply Forall_cons_1 in Hh as [[p E] _]. exists 0%nat, (d ++ zeros p). cbn [first_copy]. rewrite E, Hv; [|by exists p].
    split; [done|]. by exists p. }
  destruct (take_copy d c len Hc Hlen) as [Et Hlc].
  destruct (storage_read_some format st2 f2 i c len) as (st3 & fmt' & f3 & Er & [Hok _] & _); try done.
  - split; [|by eapply all_apart_places]. eapply Forall_weaken; [apply Hmd|]. by intros x (? & _).
  - rewrite Et. eapply buckets_room_places; [|done]. by apply buckets_room_take.
  - exists c, st3, fmt', f3. do 3 (split; [done|]).
    eapply (storage_read_same st2 format f2 d len); [done..| |done|done|exact Er].
    by eapply holds_regions.
Qed.

(** C7: data written to a storage of at least one bucket without errors is
    reported written, and a process that then opens the storage reads exactly
    that data back from the first bucket, whatever kind of bucket it is. *)
Theorem storage_write_read st d len f : fmt_ok format ->
  storage_ok st f -> st_buckets st <> [] -> st_readonly st = false ->
  buckets_fit (st_buckets st) d -> healthy f -> 0 < len <= Z.of_nat (length d) ->
  (forall c, is_copy d c -> verify c = Some len) ->
  exists st1 f1, state_storage_write st d f = (0, st1, f1) /\
  forall s, Forall benign s ->
  exists st2 f2 c st3 fmt' f3, storage_open st1 (with_script s f1) = (st2, f2) /\ is_copy d c /\
    state_storage_read st2 format magic flags f2 = Some ((0, Some (c, len)), st3, fmt', f3).
Proof.
  intros Hfmt Hst Hne Hro Hfit Hf Hlen Hv.
  destruct (write_spec st d f Hst Hne Hro Hfit Hf) as (bs1 & f1 & E & Hf1 & Hok1 & Hp & Hh & _).
  exists (set_buckets bs1 st), f1. split; [done|]. intros s Hs.
  destruct (open_reopened _ f1 s Hok1 Hs) as (st2 & f2 & Ho & Hre).
  destruct (reopened_read _ f1 st2 f2 d len Hfmt Hok1) as (c & st3 & fmt' & f3 & Hc & Er & _); try done.
  - cbn. intros ->. apply Forall2_length in Hp. by destruct (st_buckets st).
  - by eapply buckets_fit_room, buckets_fit_places.
  - by exists st2, f2, c, st3, fmt', f3.
Qed.

(** C25: reading a storage returns the first copy, in the order of the buckets,
    that the format verifies, and afterwards every bucket that is open for writing holds
    that data: each of them alone, read later, verifies and gives the same. *)
Theorem storage_read_restores st f i c len : fmt_ok format ->
  storage_ok st f -> Forall (ready f) (st_buckets st) -> healthy f ->
  first_copy (st_buckets st) f = Some (i, c, len) -> 0 < len <= Z.of_nat (length c) ->
  buckets_room (st_buckets st) (take (Z.to_nat len) c) ->
  (forall c', take (Z.to_nat len) c' = take (Z.to_nat len) c -> verify c' = Some len) ->
  exists st' fmt' g, state_storage_read st format magic flags f = Some ((0, Some (c, len)), st', fmt', g) /\
    same_places (st_buckets st) (st_buckets st') /\
    Forall (fun b => bk_writable (b_impl b) = true -> exists c', bk_content (b_impl b) (region (b_impl b) g) = Shows c' /\
      verify c' = Some len /\ take (Z.to_nat len) c' = take (Z.to_nat len) c) (st_buckets st').
Proof.
  intros Hfmt Hok Hr Hf Hfc Hlen Hfit Hv.
  destruct (storage_read_some format st f i c len) as (st' & fmt' & g & E & _ & _ & Hp & _ & Hag & _); try done.
  exists st', fmt', g. split; [done|]. split; [done|].
  eapply Forall_weaken; [apply Hag|]. intros x Hx Hwr. destruct (Hx Hwr) as (c' & Ec & Et). exists c'. auto.
Qed.

(** When no bucket has a copy that verifies, reading a storage fails with
    -ENOENT and changes nothing on the medium. *)
Theorem storage_read_enoent st f : fmt_ok format ->
  storage_ok st f -> Forall (ready f) (st_buckets st) -> healthy f ->
  first_copy (st_buckets st) f = None ->
  exists st' fmt' g, state_storage_read st format magic flags f = Some ((- ENOENT, None), st', fmt', g) /\
    same_medium f g.
Proof.
  intros Hfmt Hok Hr Hf Hn. destruct (storage_read_none format st f) as (st' & fmt' & g & E & _ & _ & Hm & _); try done.
  by exists st', fmt', g.
Qed.

(** C4: power may fail during a write. When every bucket holds the old data,
    the buckets [pre] have been written, the write of the next bucket stops
    anywhere ([s] is any pattern of errors) and the buckets [post] have not been
    reached, the next process still reads the old data or the new, as long as
    the format does not take the torn copy for valid data. *)
Theorem storage_crash_safe st pre b post old new lold lnew f n pre' f1 s r i f2 s' : fmt_ok format ->
  st_buckets st = pre ++ b :: post -> storage_ok st f -> pre ++ post <> [] ->
  Forall (holds old f) (st_buckets st) ->
  buckets_fit (st_buckets st) old -> buckets_fit (st_buckets st) new ->
  0 < lold <= Z.of_nat (length old) -> 0 < lnew <= Z.of_nat (length new) ->
  (forall c, is_copy old c -> verify c = Some lold) ->
  (forall c, is_copy new c -> verify c = Some lnew) ->
  healthy f -> write_buckets pre new f = (n, pre', f1) ->
  bucket_write (b_impl b) new (with_script s f1) = (r, i, f2) ->
  known f2 (set_impl i b) ->
  (forall c, bk_content i (region i f2) = Shows c -> is_Some (verify c) ->
    is_copy old c \/ is_copy new c) ->
  Forall benign s' ->
  let st1 := set_buckets (pre' ++ set_impl i b :: post) st in
  exists st2 f3 c len st3 fmt' f4, storage_open st1 (with_script s' f2) = (st2, f3) /\
    state_storage_read st2 format magic flags f3 = Some ((0, Some (c, len)), st3, fmt', f4) /\
    (is_copy old c \/ is_copy new c).
Proof.
  intros Hfmt Hbs [Hw Ha] Hne Hold Hfo Hfn Hlo Hln Hvo Hvn Hf Hpre Hb Hku Htorn Hs' st1.
  rewrite Hbs in *.
  destruct (crash_contents pre b post old new f n pre' f1 s r i f2) as (Hps & Hw2 & Hn2 & Ho2 & _); try done.
  assert (storage_ok st1 (with_script s' f2)) as Hok1.
  { apply storage_ok_script. split; [done|]. by eauto using all_apart_places. }
  assert (Forall (fun x => forall c, bk_content (b_impl x) (region (b_impl x) f2) = Shows c ->
    is_Some (verify c) -> is_copy old c \/ is_copy new c) (st_buckets st1)) as Hall.
  { apply Forall_app. split; [|constructor].
    - eapply Forall_weaken; [apply Hn2|]. intros x [p E] c Ec _. right. exists p. congruence.
    - exact Htorn.
    - eapply Forall_weaken; [apply Ho2|]. intros x [p E] c Ec _. left. exists p. congruence. }
  destruct (storage_open_read st1 (with_script s' f2) [(old, lold); (new, lnew)])
    as (st2 & f3 & j & c & len & st3 & fmt' & f4 & Ho & _ & Hc & Hr & _); try done.
  - apply Forall_app. split; [|constructor; [done|]].
    + eapply Forall_weaken; [apply Hn2|]. intros x. apply holds_known. intros c Hc. by rewrite Hvn.
    + eapply Forall_weaken; [apply Ho2|]. intros x. apply holds_known. intros c Hc. by rewrite Hvo.
  - constructor; [|constructor; [|constructor]].
    + split; [by eapply buckets_fit_room, buckets_fit_places|done].
    + split; [by eapply buckets_fit_room, buckets_fit_places|done].
  - eapply Forall_weaken; [apply Hall|]. intros x Hx c Ec Ev. apply Exists_cons.
    destruct (Hx c Ec Ev); [by left|right; apply Exists_cons; by left].
  - apply Exists_exists. simpl. destruct pre' as [|x pre'].
    + destruct post as [|x post].
      { apply Forall2_length in Hps. rewrite !length_app in Hps. simpl in Hps.
        destruct pre; [done|simpl in *; lia]. }
      apply Forall_cons_1 in Ho2 as [[p E] _]. exists x. split; [set_solver|].
      exists (old ++ zeros p). split; [done|]. rewrite Hvo; [by eexists|by exists p].
    + apply Forall_cons_1 in Hn2 as [[p E] _]. exists x. split; [set_solver|].
      exists (new ++ zeros p). split; [done|]. rewrite Hvn; [by eexists|by exists p].
  - exists st2, f3, c, len, st3, fmt', f4. split; [done|]. split; [done|].
    rewrite !Exists_cons in Hc. rewrite Exists_nil in Hc. simpl in Hc. tauto.
Qed.

End Laws.

(** ** What making the buckets establishes *)

Section MakeDirect.
Context (compat : bool).
#[local] Instance the_view : BucketView direct := direct_view compat.

Lemma file_buckets_loop_healthy ro todo : forall n s o acc f,
  0 <= n -> sizeof_direct_meta <= s < 2 ^ 31 -> (n + Z.of_nat todo) * s < 2 ^ 32 -> 0 <= o ->
  o + (n + Z.of_nat todo) * s <= Z.of_nat (length (f_data f)) -> f_flash f = false -> healthy f ->
  Forall (fun b => d_offset (b_impl b) + s <= o + n * s /\ d_max_size (b_impl b) = s /\ d_readonly (b_impl b) = ro) acc ->
  Forall (made f) acc -> all_apart acc ->
  exists bs g, file_buckets_loop todo n s o ro acc f = (bs, g) /\ healthy g /\ same_medium f g /\
    length bs = (length acc + todo)%nat /\ Forall (made g) bs /\ all_apart bs /\
    Forall (fun b => d_max_size (b_impl b) = s /\ d_readonly (b_impl b) = ro) bs.
Proof.
  induction todo as [|todo IH]; intros n s o acc f Hn Hs Hov Ho Hl Hfl Hf Hacc Hmade Hap; simpl.
  { exists acc, f. split; [done|]. split; [done|]. split; [done|]. split; [lia|].
    split; [done|]. split; [done|]. eapply Forall_weaken; [apply Hacc|]. by intros x [_ ?]. }
  unfold sizeof_direct_meta in Hs.
  unfold state_backend_bucket_direct_create.
  destruct (sys_open_healthy f Hf) as (f1 & -> & Hf1 & Hm). cbn [Z.ltb Z.compare].
  rewrite u32_small by nia.
  set (b := Bucket (Direct (o + n * s) s ro false) _ _ None 0 false).
  assert (f_data f1 = f_data f /\ f_flash f1 = f_flash f) as [E1 E2] by (destruct Hm as (?&?&?); done).
  destruct (IH (n + 1) s o (acc ++ [b]) f1) as (bs & g & -> & Hg & Hm2 & Hlen & Hmd & Ha & Hsz);
    try done; try lia.
  - rewrite E1. lia.
  - congruence.
  - apply Forall_app. split.
    + eapply Forall_weaken; [apply Hacc|]. intros x (? & ?). split; [lia|done].
    + constructor; [|constructor]. simpl. split; [lia|done].
  - apply Forall_app. split.
    + eapply Forall_weaken; [apply Hmade|]. intros x (?&_&?). split; [|done].
      eapply direct_wf_outside; [done|]. by apply (same_medium_outside _ _ 0 0).
    + constructor; [|constructor]. split; [|done]. simpl. unfold direct_wf, direct_wf_size. simpl.
      unfold sizeof_direct_meta. rewrite E1, E2. split; [nia|]. split; [nia|]. split; [nia|done].
  - apply all_apart_app; [done|by split|]. intros x y Hx Hy.
    apply list_elem_of_singleton in Hy as ->. unfold apart, b. simpl.
    apply list_elem_of_In in Hx. rewrite Forall_forall in Hacc, Hmade.
    destruct (Hacc x Hx) as (H1 & -> & _), (Hmade x Hx) as [[H2 _] _]. lia.
  - exists bs, g. split; [done|]. split; [done|]. split; [by etrans|].
    rewrite length_app in Hlen. simpl in Hlen. split; [lia|done].
Qed.

(** Buckets made for reading are open for reading, whatever errors there are. *)
Lemma file_buckets_loop_rdonly todo : forall n s o acc f bs g,
  Forall rdonly acc -> file_buckets_loop todo n s o true acc f = (bs, g) -> same_medium f g /\ Forall rdonly bs.
Proof.
  induction todo as [|todo IH]; intros n s o acc f bs g Hacc; cbn [file_buckets_loop]; [by intros [= <- <-]|].
  unfold state_backend_bucket_direct_create. destruct (sys_open f) as [[r e] f1] eqn:E.
  assert (Hm : same_medium f f1).
  { revert E. unfold sys_open. destruct (next_sys f) as [x h] eqn:En. apply next_sys_medium in En. by destruct x; intros [= _ _ <-]. }
  destruct (r <? 0); intros H; apply IH in H as [Hm2 Hr].
  - split; [by etrans|done].
  - done.
  - split; [by etrans|done].
  - apply Forall_app. split; [done|]. by constructor; [|constructor].
Qed.

Lemma file_buckets_init_rdonly st f r st' g : st_readonly st = true -> Forall rdonly (st_buckets st) ->
  state_storage_file_buckets_init st f = (r, st', g) ->
  same_medium f g /\ Forall rdonly (st_buckets st') /\ st_readonly st' = true.
Proof.
  intros Hro Hb. unfold state_storage_file_buckets_init. rewrite Hro.
  destruct (_ =? 0); [by intros [= _ <- <-]|]. destruct (_ && _); [by intros [= _ <- <-]|].
  destruct (file_buckets_loop _ _ _ _ _ _ f) as [bs h] eqn:E. apply file_buckets_loop_rdonly in E as [Hm Hr]; [|constructor].
  by intros [= _ <- <-].
Qed.

(** A direct storage of the wanted three copies. *)
Lemma file_buckets_init_healthy st f :
  sizeof_direct_meta <= st_stridesize st -> desired_buckets * st_stridesize st < 2 ^ 32 ->
  0 <= st_offset st ->
  st_offset st + desired_buckets * st_stridesize st <= Z.of_nat (length (f_data f)) ->
  st_max_size st = 0 \/ desired_buckets * st_stridesize st <= st_max_size st ->
  f_flash f = false -> healthy f ->
  exists st' g, state_storage_file_buckets_init st f = (0, st', g) /\ healthy g /\ same_medium f g /\
    length (st_buckets st') = 3%nat /\ storage_ok st' g /\ Forall (made g) (st_buckets st') /\
    Forall (fun b => d_max_size (b_impl b) = st_stridesize st /\ d_readonly (b_impl b) = st_readonly st) (st_buckets st') /\
    st' = set_buckets (st_buckets st') st.
Proof.
  unfold desired_buckets, sizeof_direct_meta. intros Hs Hov Ho Hl Hmax Hfl Hf.
  unfold state_storage_file_buckets_init.
  destruct (Z.eqb_spec (st_stridesize st) 0); [lia|]. unfold desired_buckets.
  rewrite u32_small by lia.
  assert (negb (st_max_size st =? 0) && (st_max_size st <? 3 * st_stridesize st) = false) as ->.
  { destruct Hmax as [-> | H]; [done|]. destruct (Z.ltb_spec (st_max_size st) (3 * st_stridesize st)); [lia|].
    by rewrite andb_false_r. }
  destruct (file_buckets_loop_healthy (st_readonly st) 3 0 (st_stridesize st) (st_offset st) [] f)
    as (bs & g & E & Hg & Hm & Hlen & Hmd & Ha & Hsz); try (done || lia || (unfold sizeof_direct_meta; lia) || constructor).
  change (Z.to_nat 3) with 3%nat. rewrite E. simpl in Hlen.
  exists (set_buckets bs st), g. split; [by rewrite Hlen|]. split; [done|]. split; [done|].
  split; [done|]. split; [|done]. split; [|done]. eapply Forall_weaken; [apply Hmd|]. by intros x [? _].
Qed.

(** On a device of the same kind the copies are at the same places, whatever the mode. *)
Lemma file_buckets_loop_again ro ro2 todo : forall n s o acc acc2 f f2 bs g bs2 g2,
  healthy f -> healthy f2 -> same_regions acc acc2 ->
  file_buckets_loop todo n s o ro acc f = (bs, g) -> file_buckets_loop todo n s o ro2 acc2 f2 = (bs2, g2) -> same_regions bs bs2.
Proof.
  induction todo as [|todo IH]; intros n s o acc acc2 f f2 bs g bs2 g2 Hf Hf2 Hacc; simpl; [by intros [= <- _] [= <- _]|].
  unfold state_backend_bucket_direct_create.
  destruct (sys_open_healthy f Hf) as (f1 & -> & Hf1 & _), (sys_open_healthy f2 Hf2) as (f3 & -> & Hf3 & _). cbn [Z.ltb Z.compare].
  apply IH; [done|done|]. apply Forall2_app; [done|]. constructor; [by repeat split|constructor].
Qed.

Lemma file_buckets_init_again ty stride offset size ro ro2 f f2 st g r2 st2 g2 : healthy f -> healthy f2 ->
  state_storage_file_buckets_init (Storage [] ty stride offset size ro) f = (0, st, g) ->
  state_storage_file_buckets_init (Storage [] ty stride offset size ro2) f2 = (r2, st2, g2) ->
  r2 = 0 /\ same_regions (st_buckets st) (st_buckets st2).
Proof.
  intros Hf Hf2. unfold state_storage_file_buckets_init. cbn [st_stridesize st_max_size st_offset st_readonly].
  destruct (stride =? 0); [done|]. destruct (_ && _); [done|].
  destruct (file_buckets_loop _ _ _ _ _ _ f) as [bs h] eqn:E, (file_buckets_loop _ _ _ _ _ _ f2) as [bs2 h2] eqn:E2.
  pose proof (file_buckets_loop_again _ _ _ _ _ _ [] [] _ _ _ _ _ _ Hf Hf2 ltac:(constructor) E E2) as Hp.
  intros [= Hr <- _] [= <- <- _]. by rewrite <-(list.Forall2_length _ _ _ Hp).
Qed.

End MakeDirect.

Section MakeCircular.
Context (es ws : Z) (m : mtd_info).
Hypothesis (Hm : mtd_erasesize m = es) (Hes : 0 < es < 2 ^ 31) (Hws : (Z.max 8 ws | es)).

(** The bucket at eraseblock [k]. *)
Definition block_at (k : Z) : circular := Circular k (Z.max 8 ws) es 0 0 es false.

Lemma block_geometry k : 0 <= k -> k * es < 2 ^ 32 -> circular_geometry (block_at k).
Proof.
  intros. unfold circular_geometry, block_at, sizeof_circular_meta. simpl.
  split; [lia|]. split; [done|]. split; [lia|]. done.
Qed.

Lemma circular_create_max k f :
  state_backend_bucket_circular_create k ws es f
  = state_backend_bucket_circular_create k (Z.max 8 ws) es f.
Proof.
  unfold state_backend_bucket_circular_create.
  destruct (Z.ltb_spec (Z.max 8 ws) 8); [lia|].
  replace (if ws <? 8 then 8 else ws) with (Z.max 8 ws); [done|].
  destruct (Z.ltb_spec ws 8); lia.
Qed.

(** A record fits when it fits an eraseblock. *)
Definition takes_block (b : bucket circular) : Prop :=
  forall d, bk_room (b_impl b) d <-> Z.of_nat (length d) + sizeof_circular_meta <= es.

(** Only blocks below [offset] have been used. *)
Definition below (offset : Z) (b : bucket circular) : Prop :=
  Z.of_nat (bk_pos (b_impl b) + bk_size (b_impl b)) <= offset.

Lemma made_kept f f1 acc : same_medium f f1 -> Forall (made f) acc -> Forall (made f1) acc.
Proof.
  intros Hm1 Hmd. eapply Forall_weaken; [apply Hmd|]. intros x (?&?&?). unfold made.
  split; [by eapply wf_same_medium|]. split; [|done].
  eapply (law_wf_outside (b_impl x) f f1 (bk_pos (b_impl x) + bk_size (b_impl x)) 0); [done| |by left|done].
  by apply same_medium_outside.
Qed.

Lemma mtd_buckets_loop_healthy end_ fuel : forall k acc f,
  0 <= k -> (es | Z.of_nat (length (f_data f))) -> end_ <= Z.of_nat (length (f_data f)) ->
  end_ <= 2 ^ 32 -> healthy f -> (length acc < 3)%nat ->
  Forall (below (k * es)) acc -> Forall (made f) acc -> all_apart acc -> Forall takes_block acc ->
  exists bs g, mtd_buckets_loop fuel m ws (k * es) end_ acc f = (bs, g) /\ healthy g /\
    same_medium f g /\ (length acc <= length bs <= 3)%nat /\ Forall (made g) bs /\ all_apart bs /\
    Forall takes_block bs.
Proof.
  induction fuel as [|fuel IH]; intros k acc f Hk Hd Hend He Hf Hlen Hb Hmd Ha Htb; simpl.
  { exists acc, f. split; [done|]. split; [done|]. split; [done|]. split; [lia|done]. }
  rewrite Hm. destruct (Z.ltb_spec (k * es) end_) as [Hlt|].
  2: { exists acc, f. split; [done|]. split; [done|]. split; [done|]. split; [lia|done]. }
  rewrite Z.div_mul, u32_small by nia. rewrite circular_create_max.
  assert (k * es + es <= Z.of_nat (length (f_data f))) as Hin by (destruct Hd as [q Hq]; assert (k < q) by nia; nia).
  replace (k * es + es) with ((k + 1) * es) in * by lia.
  assert (circular_geometry (block_at k)) as Hg by (apply block_geometry; lia).
  assert (Forall (below ((k + 1) * es)) acc) as Hb'.
  { eapply Forall_weaken; [apply Hb|]. unfold below. intros x ?. lia. }
  destruct (decide (k * es ∈ f_bad f)) as [Hbad|Hgood].
  - destruct (circular_create_bad (block_at k) f Hg Hbad Hf) as (f1 & E & Hf1 & Hm1).
    cbn [block_at c_eraseblock c_writesize c_max_size] in E. rewrite E.
    pose proof Hm1 as (E1 & _).
    destruct (IH (k + 1) acc f1) as (bs & g & Eb & Hg' & Hm2 & Hl2 & Hmd2 & Ha2); try (rewrite E1; done); try done; [lia|by apply (made_kept f)|].
    exists bs, g. split; [done|]. split; [done|]. split; [by etrans|]. done.
  - destruct (circular_create_healthy (block_at k) f) as (c1 & f1 & E & Hf1 & Hm1 & Hp & Hw & Hs); [|done|].
    { split; [done|]. split; [|done]. unfold peb_base. simpl. lia. }
    cbn [block_at c_eraseblock c_writesize c_max_size] in E. rewrite E.
    set (b := Bucket c1 _ _ None 0 false).
    pose proof Hm1 as (E1 & _). destruct Hp as ((Ep & Esz & Efit & _) & _).
    assert (Forall (made f1) (acc ++ [b])) as Hmd1.
    { apply Forall_app. split; [by apply (made_kept f)|by constructor; [|constructor]]. }
    assert (all_apart (acc ++ [b])) as Ha1.
    { apply all_apart_app; [done|by split|]. intros x y Hx Hy%list_elem_of_singleton. subst y.
      rewrite Forall_forall in Hb. apply list_elem_of_In, Hb in Hx. unfold below in Hx.
      unfold apart. left. change (b_impl b) with c1. rewrite Ep.
      change (bk_pos (block_at k)) with (Z.to_nat (k * es)). lia. }
    assert (Forall takes_block (acc ++ [b])) as Htb1 by (apply Forall_app; split; [done|by constructor; [|constructor]]).
    destruct (Z.leb_spec desired_buckets (Z.of_nat (length acc) + 1)).
    + exists (acc ++ [b]), f1. split; [done|]. split; [done|]. split; [done|].
      rewrite length_app. simpl. split; [lia|]. done.
    + unfold desired_buckets in *.
      destruct (IH (k + 1) (acc ++ [b]) f1) as (bs & g & Eb & Hg' & Hm2 & Hl2 & Hmd2 & Ha2);
        try (rewrite E1; done); try done; [lia|rewrite length_app; simpl; lia| |].
      { apply Forall_app. split; [done|]. constructor; [|constructor].
        unfold below. change (b_impl b) with c1. rewrite Ep, Esz.
        change (bk_pos (block_at k)) with (Z.to_nat (k * es)).
        change (bk_size (block_at k)) with (Z.to_nat es). nia. }
      exists bs, g. split; [done|]. split; [done|]. split; [by etrans|]. split; [|done].
      rewrite length_app in Hl2. simpl in Hl2. lia.
Qed.

Lemma mtd_buckets_loop_again end_ fuel : forall k acc acc2 f f2 bs g bs2 g2,
  0 <= k -> (es | Z.of_nat (length (f_data f))) -> end_ <= Z.of_nat (length (f_data f)) -> end_ <= 2 ^ 32 ->
  healthy f -> healthy f2 -> same_device f f2 -> same_places acc acc2 ->
  mtd_buckets_loop fuel m ws (k * es) end_ acc f = (bs, g) -> mtd_buckets_loop fuel m ws (k * es) end_ acc2 f2 = (bs2, g2) ->
  same_places bs bs2.
Proof.
  induction fuel as [|fuel IH]; intros k acc acc2 f f2 bs g bs2 g2 Hk Hd Hend He Hf Hf2 Hdev Hacc; simpl; [by intros [= <- _] [= <- _]|].
  rewrite Hm. destruct (Z.ltb_spec (k * es) end_) as [Hlt|]; [|by intros [= <- _] [= <- _]].
  rewrite Z.div_mul, u32_small by nia. rewrite !(circular_create_max k).
  assert (k * es + es <= Z.of_nat (length (f_data f))) as Hin by (destruct Hd as [q Hq]; assert (k < q) by nia; nia).
  pose proof Hdev as (D1 & D2 & D3). replace (k * es + es) with ((k + 1) * es) in * by lia.
  assert (circular_geometry (block_at k)) as Hg by (apply block_geometry; lia).
  destruct (decide (k * es ∈ f_bad f)) as [Hbad|Hgood].
  - destruct (circular_create_bad (block_at k) f Hg Hbad Hf) as (f1 & E & Hf1 & Hm1).
    destruct (circular_create_bad (block_at k) f2 Hg ltac:(by rewrite D2) Hf2) as (f3 & E2 & Hf3 & Hm3).
    cbn [block_at c_eraseblock c_writesize c_max_size] in E, E2. rewrite E, E2. apply same_medium_device in Hm1, Hm3.
    apply IH; try done; try (rewrite (proj2 (proj2 Hm1)); done); [lia|by eapply same_device_after; [exact Hdev| |]].
  - assert (forall f, k * es ∉ f_bad f -> (k + 1) * es <= Z.of_nat (length (f_data f)) -> circular_placed (block_at k) f) as Hpl.
    { intros h ??. split; [done|]. split; [|done]. unfold peb_base. simpl. lia. }
    destruct (circular_create_healthy (block_at k) f) as (c1 & f1 & E & Hf1 & Hm1 & Hp & _); [by apply Hpl|done|].
    destruct (circular_create_healthy (block_at k) f2) as (c2 & f3 & E2 & Hf3 & Hm3 & Hp2 & _); [apply Hpl; [by rewrite D2|by rewrite D3]|done|].
    cbn [block_at c_eraseblock c_writesize c_max_size] in E, E2. rewrite E, E2. apply same_medium_device in Hm1, Hm3.
    rewrite (list.Forall2_length _ _ _ Hacc).
    assert (Hacc2 : forall n o, same_places (acc ++ [Bucket c1 n o None 0 false]) (acc2 ++ [Bucket c2 n o None 0 false])).
    { intros n o. apply Forall2_app; [done|]. constructor; [by eapply same_place_both|constructor]. }
    destruct (Z.leb_spec desired_buckets (Z.of_nat (length acc2) + 1)); [intros [= <- _] [= <- _]; apply Hacc2|].
    apply IH; try done; try (rewrite (proj2 (proj2 Hm1)); done); [lia|by eapply same_device_after; [exact Hdev| |]].
Qed.

(** The offsets of the good eraseblocks among [n] of them from eraseblock [k] on. *)
Definition good_blocks (bad : list Z) (k n : Z) : list Z := filter (fun o => o ∉ bad) ((fun i => i * es) <$> seqZ k n).

Lemma good_blocks_cons bad k n : 0 < n ->
  good_blocks bad k n = (if decide (k * es ∈ bad) then [] else [k * es]) ++ good_blocks bad (k + 1) (n - 1).
Proof.
  intros Hn. unfold good_blocks. rewrite seqZ_cons by done. cbn [fmap list_fmap]. rewrite filter_cons.
  replace (Z.succ k) with (k + 1) by lia. replace (Z.pred n) with (n - 1) by lia. repeat case_decide; done.
Qed.

(** The eraseblocks that begin below [end_]. *)
Definition blocks_below (k end_ : Z) : Z := (end_ - k * es + (es - 1)) / es.
Lemma blocks_below_step k end_ : blocks_below (k + 1) end_ = blocks_below k end_ - 1.
Proof. unfold blocks_below. replace (end_ - (k + 1) * es + (es - 1)) with (end_ - k * es + (es - 1) + (-1) * es) by lia. rewrite Z.div_add; lia. Qed.
Lemma blocks_below_pos k end_ : 0 < blocks_below k end_ <-> k * es < end_.
Proof.
  unfold blocks_below. split; intros H.
  - destruct (Z.lt_ge_cases (k * es) end_) as [|Hge]; [done|].
    assert ((end_ - k * es + (es - 1)) / es < 1) by (apply Z.div_lt_upper_bound; lia). lia.
  - assert (1 <= (end_ - k * es + (es - 1)) / es) by (apply Z.div_le_lower_bound; lia). lia.
Qed.

(** The bucket is where its offset says. *)
Definition at_offset (b : bucket circular) : Prop := bk_pos (b_impl b) = Z.to_nat (b_offset b).

(** The buckets made are those of the first good blocks. *)
Lemma mtd_buckets_loop_blocks end_ fuel : forall k acc f bs g,
  0 <= k -> (es | Z.of_nat (length (f_data f))) -> end_ <= Z.of_nat (length (f_data f)) -> end_ <= 2 ^ 32 ->
  healthy f -> blocks_below k end_ <= Z.of_nat fuel -> (length acc < 3)%nat -> Forall at_offset acc ->
  mtd_buckets_loop fuel m ws (k * es) end_ acc f = (bs, g) ->
  b_offset <$> bs = (b_offset <$> acc) ++ take (3 - length acc) (good_blocks (f_bad f) k (blocks_below k end_)) /\ Forall at_offset bs.
Proof.
  induction fuel as [|fuel IH]; intros k acc f bs g Hk Hd Hend He Hf Hfuel Hlen Hacc; cbn [mtd_buckets_loop].
  { intros [= <- _]. unfold good_blocks. rewrite seqZ_nil by lia. cbn. by rewrite take_nil, app_nil_r. }
  pose proof (blocks_below_pos k end_) as Hpos. rewrite Hm. destruct (Z.ltb_spec (k * es) end_) as [Hlt|].
  2: { intros [= <- _]. unfold good_blocks. rewrite seqZ_nil by lia. cbn. by rewrite take_nil, app_nil_r. }
  rewrite Z.div_mul, u32_small by nia. rewrite (circular_create_max k).
  assert (k * es + es <= Z.of_nat (length (f_data f))) as Hin by (destruct Hd as [q Hq]; assert (k < q) by nia; nia).
  replace (k * es + es) with ((k + 1) * es) in * by lia. pose proof (blocks_below_step k end_) as Hstep.
  rewrite good_blocks_cons, <-Hstep by lia. assert (circular_geometry (block_at k)) as Hg by (apply block_geometry; lia).
  case_decide as Hbad.
  - destruct (circular_create_bad (block_at k) f Hg Hbad Hf) as (f1 & E & Hf1 & E1 & E2 & E3).
    cbn [block_at c_eraseblock c_writesize c_max_size] in E. rewrite E. cbn [app]. rewrite <-E3.
    apply IH; try done; rewrite ?E1; lia || done.
  - destruct (circular_create_healthy (block_at k) f) as (c1 & f1 & E & Hf1 & (E1 & E2 & E3) & Hp & _); [|done|].
    { split; [done|]. split; [|done]. unfold peb_base. cbn. lia. }
    cbn [block_at c_eraseblock c_writesize c_max_size] in E. rewrite E. destruct Hp as ((Ep & _) & _).
    set (b := Bucket c1 _ _ None 0 false). assert (Hb : Forall at_offset (acc ++ [b])).
    { apply Forall_app. split; [done|]. constructor; [|constructor]. exact Ep. }
    destruct (Z.leb_spec desired_buckets (Z.of_nat (length acc) + 1)) as [H3|H3]; unfold desired_buckets in H3.
    + intros [= <- _]. split; [|done]. rewrite fmap_app. f_equal. assert (3 - length acc = 1)%nat as -> by lia. done.
    + intros H. apply IH in H as [Ho Ha]; try done; rewrite ?E1, ?length_app; cbn [length]; try (lia || done).
      split; [|done]. rewrite Ho, fmap_app, <-app_assoc, E3, length_app. f_equal. cbn [length fmap list_fmap app b_offset b].
      replace (3 - length acc)%nat with (S (3 - (length acc + 1))) by lia. done.
Qed.

End MakeCircular.

Lemma mtd_end_below offset size m : mtd_end offset size m <= mtd_size m.
Proof.
  unfold mtd_end. destruct (Z.eqb_spec (s64 (offset + size)) 0); [done|].
  destruct (Z.ltb_spec (mtd_size m) (s64 (offset + size))); simpl; lia.
Qed.

Lemma mtd_buckets_init_healthy st m (is_circular : bool) f k :
  0 < mtd_erasesize m < 2 ^ 31 ->
  (Z.max 8 (if is_circular then mtd_writesize m else mtd_erasesize m) | mtd_erasesize m) ->
  0 <= k -> st_offset st = k * mtd_erasesize m ->
  is_aligned (st_offset st) (mtd_erasesize m) = true ->
  mtd_size m = Z.of_nat (length (f_data f)) -> (mtd_erasesize m | mtd_size m) -> mtd_size m < 2 ^ 32 ->
  healthy f ->
  exists ret st' g, state_storage_mtd_buckets_init st m is_circular f = (ret, st', g) /\
    same_medium f g /\ (ret = 0 \/ ret = - EIO /\ st_buckets st' = []) /\
    (length (st_buckets st') <= 3)%nat /\ storage_ok st' g /\ Forall (made g) (st_buckets st') /\
    healthy g /\ Forall (takes_block (mtd_erasesize m)) (st_buckets st') /\
    st' = set_buckets (st_buckets st') st.
Proof.
  intros Hes Hws Hk Ho Hal Hsz Hd Hmax Hf. unfold state_storage_mtd_buckets_init. rewrite Hal.
  cbn [negb]. set (ws := if is_circular then mtd_writesize m else mtd_erasesize m) in *. rewrite Ho.
  set (end_ := mtd_end _ _ _).
  assert (end_ <= mtd_size m) as Hend by apply mtd_end_below.
  destruct (mtd_buckets_loop_healthy (mtd_erasesize m) ws m eq_refl Hes Hws end_
    (S (Z.to_nat ((end_ - k * mtd_erasesize m) / mtd_erasesize m))) k [] f)
    as (bs & g & -> & Hg & Hm & Hlen & Hmd & Ha & Htb); try done; try (simpl; lia); try constructor;
    [by rewrite <-Hsz|].
  exists (if (length bs =? 0)%nat then - EIO else 0), (set_buckets bs st), g.
  split; [done|]. split; [done|]. split; [|split; [simpl; lia|split; [|done]]].
  - destruct bs as [|b bs]; [by right|by left].
  - split; [|done]. eapply Forall_weaken; [apply Hmd|]. by intros x [? _].
Qed.

Lemma mtd_buckets_init_blocks st m (is_circular : bool) f k ret st' g :
  0 < mtd_erasesize m < 2 ^ 31 ->
  (Z.max 8 (if is_circular then mtd_writesize m else mtd_erasesize m) | mtd_erasesize m) ->
  0 <= k -> st_offset st = k * mtd_erasesize m -> is_aligned (st_offset st) (mtd_erasesize m) = true ->
  mtd_size m = Z.of_nat (length (f_data f)) -> (mtd_erasesize m | mtd_size m) -> mtd_size m < 2 ^ 32 -> healthy f ->
  let good := good_blocks (mtd_erasesize m) (f_bad f) k
                (blocks_below (mtd_erasesize m) k (mtd_end (st_offset st) (st_max_size st) m)) in
  state_storage_mtd_buckets_init st m is_circular f = (ret, st', g) ->
  ret = (if decide (good = []) then - EIO else 0) /\ b_offset <$> st_buckets st' = take 3 good /\ Forall at_offset (st_buckets st').
Proof.
  intros Hes Hws Hk Ho Hal Hsz Hd Hmax Hf good. unfold state_storage_mtd_buckets_init. rewrite Hal. cbn [negb].
  pose proof (mtd_end_below (st_offset st) (st_max_size st) m) as Hend. set (end_ := mtd_end _ _ _) in *. rewrite Ho.
  destruct (mtd_buckets_loop _ _ _ _ _ _ f) as [bs h] eqn:E.
  eapply (mtd_buckets_loop_blocks (mtd_erasesize m) _ m eq_refl Hes Hws) in E as [Hb Ha];
    [|done|by rewrite <-Hsz|lia|lia|done| |cbn; lia|constructor].
  2: { unfold blocks_below. destruct (Z.le_gt_cases (end_ - k * mtd_erasesize m) 0) as [Hle|Hgt].
       - assert ((end_ - k * mtd_erasesize m + (mtd_erasesize m - 1)) / mtd_erasesize m < 1) by (apply Z.div_lt_upper_bound; lia). lia.
       - assert (0 <= (end_ - k * mtd_erasesize m) / mtd_erasesize m) by (apply Z.div_pos; lia).
         assert ((end_ - k * mtd_erasesize m + (mtd_erasesize m - 1)) / mtd_erasesize m
           < (end_ - k * mtd_erasesize m) / mtd_erasesize m + 2); [|lia].
         apply Z.div_lt_upper_bound; [lia|]. pose proof (Z.mul_succ_div_gt (end_ - k * mtd_erasesize m) (mtd_erasesize m) ltac:(lia)). lia. }
  cbn [fmap list_fmap app length Nat.sub] in Hb. fold good in Hb. intros [= <- <- _]. cbn [set_buckets st_buckets].
  split; [|done]. apply (f_equal length) in Hb. rewrite length_fmap, length_take in Hb.
  destruct good as [|o l]; case_decide; try done; destruct (Nat.eqb_spec (length bs) 0); cbn [length] in Hb; try done; lia.
Qed.

Lemma mtd_buckets_init_again m name stride offset size ro ro2 (is_circular : bool) f f2 k st g r2 st2 g2 :
  0 < mtd_erasesize m < 2 ^ 31 ->
  (Z.max 8 (if is_circular then mtd_writesize m else mtd_erasesize m) | mtd_erasesize m) ->
  0 <= k -> offset = k * mtd_erasesize m ->
  mtd_size m = Z.of_nat (length (f_data f)) -> (mtd_erasesize m | mtd_size m) -> mtd_size m < 2 ^ 32 ->
  healthy f -> healthy f2 -> same_device f f2 ->
  state_storage_mtd_buckets_init (Storage [] name stride offset size ro) m is_circular f = (0, st, g) ->
  state_storage_mtd_buckets_init (Storage [] name stride offset size ro2) m is_circular f2 = (r2, st2, g2) ->
  r2 = 0 /\ same_places (st_buckets st) (st_buckets st2).
Proof.
  intros Hes Hws Hk Ho Hsz Hd Hmax Hf Hf2 Hdev. unfold state_storage_mtd_buckets_init. cbn [st_offset st_max_size].
  destruct (negb _); [done|]. pose proof (mtd_end_below offset size m) as Hend. rewrite Ho in *.
  destruct (mtd_buckets_loop _ _ _ _ _ _ f) as [bs h] eqn:E, (mtd_buckets_loop _ _ _ _ _ _ f2) as [bs2 h2] eqn:E2.
  assert (Hp : same_places bs bs2).
  { eapply (mtd_buckets_loop_again (mtd_erasesize m) _ m eq_refl Hes Hws); [exact Hk| | | |exact Hf|exact Hf2|exact Hdev|constructor|exact E|exact E2];
      [by rewrite <-Hsz|lia|lia]. }
  intros [= Hr <- _] [= <- <- _]. by rewrite <-(list.Forall2_length _ _ _ Hp).
Qed.

(** ** Claims on making the buckets *)

(** On a medium that needs no erase and has room for three strides of at
    least the header's size, [state_storage_file_buckets_init] makes three
    direct buckets that do not overlap and that are ready for use. *)
Theorem file_buckets_init_ready compat st f :
  sizeof_direct_meta <= st_stridesize st -> desired_buckets * st_stridesize st < 2 ^ 32 ->
  0 <= st_offset st ->
  st_offset st + desired_buckets * st_stridesize st <= Z.of_nat (length (f_data f)) ->
  st_max_size st = 0 \/ desired_buckets * st_stridesize st <= st_max_size st ->
  f_flash f = false -> healthy f ->
  let _ : BucketView direct := direct_view compat in
  exists st' g, state_storage_file_buckets_init st f = (0, st', g) /\ same_medium f g /\
    length (st_buckets st') = 3%nat /\ storage_ok st' g /\ Forall (made g) (st_buckets st').
Proof.
  intros Hs Hov Ho Hl Hmax Hfl Hf.
  destruct (file_buckets_init_healthy compat st f) as (st' & g & E & _ & Hm & H3 & Hok & Hmd & _); try done.
  by exists st', g.
Qed.

Lemma file_buckets_init_ready_witness :
  let st := Storage [] None 32 16 0 false in let f := File (zeros 128) false [] [] in
  let _ : BucketView direct := direct_view false in
  exists st' g, state_storage_file_buckets_init st f = (0, st', g) /\ same_medium f g /\
    length (st_buckets st') = 3%nat /\ storage_ok st' g /\ Forall (made g) (st_buckets st').
Proof.
  apply (file_buckets_init_ready false (Storage [] None 32 16 0 false) (File (zeros 128) false [] []));
    try (vm_compute; congruence). - by left. - constructor.
Defined.

(** C28: on a flash device [state_storage_mtd_buckets_init] makes one circular bucket on each
    of the first three good eraseblocks between the offset and the end of the storage,
    or on all of them if there are fewer, in their order; the buckets do not overlap and
    know where the last record of their block is. It returns -EIO if there is no good
    block there, and 0 if there is one. *)
Theorem mtd_buckets_init_ready st m (is_circular : bool) f k :
  0 < mtd_erasesize m < 2 ^ 31 ->
  (Z.max 8 (if is_circular then mtd_writesize m else mtd_erasesize m) | mtd_erasesize m) ->
  0 <= k -> st_offset st = k * mtd_erasesize m ->
  is_aligned (st_offset st) (mtd_erasesize m) = true ->
  mtd_size m = Z.of_nat (length (f_data f)) -> (mtd_erasesize m | mtd_size m) -> mtd_size m < 2 ^ 32 ->
  healthy f ->
  let good := good_blocks (mtd_erasesize m) (f_bad f) k
                (blocks_below (mtd_erasesize m) k (mtd_end (st_offset st) (st_max_size st) m)) in
  exists st' g, state_storage_mtd_buckets_init st m is_circular f = ((if decide (good = []) then - EIO else 0), st', g) /\
    same_medium f g /\ b_offset <$> st_buckets st' = take 3 good /\ Forall at_offset (st_buckets st') /\
    storage_ok st' g /\ Forall (made g) (st_buckets st').
Proof.
  intros Hes Hws Hk Ho Hal Hsz Hd Hmax Hf good.
  destruct (mtd_buckets_init_healthy st m is_circular f k) as (ret & st' & g & E & Hm & Hr & Hl & Hok & Hmd & _); try done.
  destruct (mtd_buckets_init_blocks st m is_circular f k ret st' g) as (-> & Hb & Ha); try done. by exists st', g.
Qed.

Lemma mtd_buckets_init_ready_witness :
  let st := Storage [] None 0 32 96 false in let f := File (zeros 128) true [64] [] in
  exists st' g, state_storage_mtd_buckets_init st (MtdInfo 128 32 16 false) true f = (0, st', g) /\
    same_medium f g /\ b_offset <$> st_buckets st' = [32; 96] /\ Forall at_offset (st_buckets st') /\
    storage_ok st' g /\ Forall (made g) (st_buckets st').
Proof.
  apply (mtd_buckets_init_ready (Storage [] None 0 32 96 false) (MtdInfo 128 32 16 false) true
    (File (zeros 128) true [64] []) 1).
  - split; reflexivity.
  - by exists 2.
  - lia.
  - reflexivity.
  - reflexivity.
  - reflexivity.
  - by exists 4.
  - reflexivity.
  - constructor.
Defined.

(** The documentation of [state_storage_init] gives size 0 the meaning
    "infinite", but on a flash device it leaves no room behind any offset other
    than 0: no bucket is made and the result is -EIO. *)
Theorem mtd_infinite_size_fails st m is_circular f :
  0 < st_offset st <= mtd_size m -> mtd_size m < 2 ^ 32 -> st_max_size st = 0 ->
  is_aligned (st_offset st) (mtd_erasesize m) = true ->
  state_storage_mtd_buckets_init st m is_circular f = (- EIO, set_buckets [] st, f).
Proof.
  intros Ho Hm Hz Hal. unfold state_storage_mtd_buckets_init, mtd_end. rewrite Hal, Hz, Z.add_0_r.
  assert (s64 (st_offset st) = st_offset st) as -> by (unfold s64; rewrite Z.mod_small; lia).
  destruct (Z.eqb_spec (st_offset st) 0); [lia|]. destruct (Z.ltb_spec (mtd_size m) (st_offset st)); [lia|].
  cbn [orb negb]. cbn [mtd_buckets_loop]. by rewrite Z.ltb_irrefl.
Qed.

Lemma mtd_infinite_size_fails_witness :
  state_storage_mtd_buckets_init (Storage [] None 0 32 0 false) (MtdInfo 128 32 16 false) true
    (File (zeros 128) true [] []) = (- EIO, set_buckets [] (Storage [] None 0 32 0 false),
    File (zeros 128) true [] []).
Proof.
  apply (mtd_infinite_size_fails (Storage [] None 0 32 0 false) (MtdInfo 128 32 16 false) true
    (File (zeros 128) true [] [])); vm_compute; intuition congruence.
Defined.
