(* ===== verification/HashStream.v ===== *)
(** * Block hashes over a stream (src/crypto/sha1.c, src/crypto/sha2.c)

    [sha1_update] and [sha256_update], and the final functions up to the output
    of the state, are the same code over different compression functions. They
    are modelled here over any compression function [transform] and the condition
    [again] of the loop over the blocks; Sha1.v and Sha256.v give theirs. The counter
    [done] of the code is 32 bits wide and the length of a chunk 64: an update with
    less than 2^32 - 64 bytes returns, one with 2^32 bytes or more never does.

    The specification is the message padded to whole blocks and compressed block
    by block; the theorems say that any series of updates with chunks that are short
    enough and a final give that. *)

From S2P Require Import Prelude.

(** [struct sha1_state], [struct sha256_state]: the bytes hashed so far, the
    chaining state and the bytes that do not fill a block yet. *)
Record sha_ctx : Type := ShaCtx {
  sc_count : Z;
  sc_state : list Z;
  sc_buf : bytes
}.

Definition SHA_BLOCK_SIZE : nat := 64.

(** [get_unaligned_be32] at word [i], and its inverse on the way out. *)
Definition be_word (data : bytes) (i : nat) : Z := get_be (sub (4 * i) 4 data).
Definition be_words (st : list Z) : bytes := mjoin (be32 <$> st).
Definition be64 (v : Z) : bytes := rev (le_split 8 v).

(** [rol32] and [ror32]. *)
Definition rol32 (word shift : Z) : Z :=
  Z.lor (u32 (Z.shiftl word shift)) (Z.shiftr word (32 - shift)).
Definition ror32 (word shift : Z) : Z :=
  Z.lor (Z.shiftr word shift) (u32 (Z.shiftl word (32 - shift))).

Section Stream.
Context (transform : list Z -> bytes -> list Z) (again : Z -> Z -> bool).

(** The [do ... while] loop from [src] on, which is the buffer in its first round and
    then [data + done]: the state, the rest of the data and [done]. [None] when the loop
    takes more rounds than [fuel]. *)
Fixpoint sha_rounds (fuel : nat) (data : bytes) (st : list Z) (src : bytes) (done : Z) : option (list Z * bytes * Z) :=
  match fuel with
  | O => None
  | S fuel' =>
      let st := transform st (take SHA_BLOCK_SIZE src) in
      let done := u32 (done + 64) in
      let src := drop (Z.to_nat done) data in
      if again done (Z.of_nat (length data)) then sha_rounds fuel' data st src done else Some (st, src, done)
  end.

(** [None] for a call that does not return: without a wrap-around of [done] the loop
    takes at most as many rounds as there are bytes. *)
Definition sha_update (sctx : sha_ctx) (data : bytes) : option sha_ctx :=
  let len := Z.of_nat (length data) in
  let partial := Z.land (sc_count sctx) 0x3f in
  let count := u64 (sc_count sctx + len) in
  if 63 <? partial + len then
    let done := if partial =? 0 then 0 else u32 (- partial) in
    let buf := if partial =? 0 then sc_buf sctx
               else splice (Z.to_nat partial) (take (Z.to_nat (u32 (done + 64))) data) (sc_buf sctx) in
    let src := if partial =? 0 then data else buf in
    match sha_rounds (S (length data)) data (sc_state sctx) src done with
    | Some (st, src, done) => Some (ShaCtx count st (splice 0 (take (Z.to_nat (len - done)) src) buf))
    | None => None
    end
  else Some (ShaCtx count (sc_state sctx) (splice (Z.to_nat partial) data (sc_buf sctx))).

(** The context after an update that returns. *)
Definition sha_fed (sctx : sha_ctx) (data : bytes) : sha_ctx := default sctx (sha_update sctx data).

(** [padding], and the number of its bytes that are used. *)
Definition sha_padding : bytes := Byte.x80 :: zeros 63.
Definition sha_padlen (count : Z) : nat :=
  let index := Z.land count 0x3f in
  Z.to_nat (if index <? 56 then 56 - index else (64 + 56) - index).

(** The final function up to the output: the chaining state. *)
Definition sha_finish (sctx : sha_ctx) : list Z :=
  let bits := be64 (u64 (Z.shiftl (sc_count sctx) 3)) in
  let sctx' := sha_fed sctx (take (sha_padlen (sc_count sctx)) sha_padding) in
  sc_state (sha_fed sctx' bits).

(** ** Specification *)

(** The whole blocks of a message, one by one: the state and what is left. *)
Fixpoint sha_blocks (fuel : nat) (st : list Z) (rest : bytes) : list Z * bytes :=
  match fuel with
  | O => (st, rest)
  | S fuel' =>
      if (SHA_BLOCK_SIZE <=? length rest)%nat
      then sha_blocks fuel' (transform st (take SHA_BLOCK_SIZE rest)) (drop SHA_BLOCK_SIZE rest)
      else (st, rest)
  end.

(** An update of any length, without the counter of 32 bits. *)
Definition sha_absorb (sctx : sha_ctx) (data : bytes) : sha_ctx :=
  let partial := Z.to_nat (Z.land (sc_count sctx) 0x3f) in
  let count := u64 (sc_count sctx + Z.of_nat (length data)) in
  if (63 <? partial + length data)%nat then
    let first := (SHA_BLOCK_SIZE - partial)%nat in
    let buf := if (partial =? 0)%nat then sc_buf sctx
               else splice partial (take first data) (sc_buf sctx) in
    let src := if (partial =? 0)%nat then take SHA_BLOCK_SIZE data else buf in
    let (st, rest) := sha_blocks (length data) (transform (sc_state sctx) src) (drop first data) in
    ShaCtx count st (splice 0 rest buf)
  else ShaCtx count (sc_state sctx) (splice partial data (sc_buf sctx)).

(** Compress a message block by block; a last part of less than a block is ignored. *)
Definition sha_fold (st : list Z) (msg : bytes) : list Z := fst (sha_blocks (length msg) st msg).

Definition sha_pad (msg : bytes) : bytes :=
  msg ++ take (sha_padlen (Z.of_nat (length msg))) sha_padding
      ++ be64 (u64 (8 * Z.of_nat (length msg))).

(** ** Lemmas *)

Lemma sha_blocks_fuel f1 : forall f2 st msg,
  (length msg <= f1)%nat -> (length msg <= f2)%nat -> sha_blocks f1 st msg = sha_blocks f2 st msg.
Proof.
  assert (forall f st, sha_blocks f st [] = (st, [])) as Hnil by (by intros []).
  induction f1 as [|f1 IH]; intros f2 st msg H1 H2.
  { destruct msg; [by rewrite !Hnil|simpl in *; lia]. }
  destruct f2 as [|f2].
  { destruct msg; [by rewrite !Hnil|simpl in *; lia]. }
  cbn [sha_blocks].
  destruct (Nat.leb_spec SHA_BLOCK_SIZE (length msg)); [|done].
  unfold SHA_BLOCK_SIZE in *. apply IH; rewrite length_drop; lia.
Qed.

Lemma sha_blocks_app n : forall f st a b,
  length a = (n * SHA_BLOCK_SIZE)%nat -> (length (a ++ b) <= f)%nat ->
  sha_blocks f st (a ++ b) = sha_blocks (length b) (sha_fold st a) b.
Proof.
  unfold sha_fold. induction n as [|n IH]; intros f st a b Ha Hf.
  - destruct a; [|done]. simpl in *. apply sha_blocks_fuel; lia.
  - unfold SHA_BLOCK_SIZE in *. rewrite length_app in Hf.
    destruct f as [|f]; [lia|]. destruct (length a) as [|la] eqn:El; [lia|]. cbn [sha_blocks].
    rewrite length_app, El. unfold SHA_BLOCK_SIZE.
    destruct (Nat.leb_spec 64 (S la + length b)); [|lia]. destruct (Nat.leb_spec 64 (S la)); [|lia].
    rewrite take_app_le, drop_app_le by lia.
    rewrite (IH f _ (drop 64 a)) by (rewrite ?length_app, ?length_drop; lia).
    do 2 f_equal. apply sha_blocks_fuel; rewrite length_drop; lia.
Qed.

Lemma sha_fold_app n st a b : length a = (n * SHA_BLOCK_SIZE)%nat ->
  sha_fold st (a ++ b) = sha_fold (sha_fold st a) b.
Proof. intros H. unfold sha_fold at 1. by rewrite (sha_blocks_app n). Qed.

Lemma sha_fold_block st b : length b = SHA_BLOCK_SIZE -> sha_fold st b = transform st b.
Proof.
  intros Hb. unfold sha_fold. rewrite Hb. unfold SHA_BLOCK_SIZE at 1. cbn [sha_blocks].
  rewrite Hb, Nat.leb_refl. rewrite take_ge, drop_ge by lia. done.
Qed.

Lemma sha_fold_short st b : (length b < SHA_BLOCK_SIZE)%nat -> sha_fold st b = st.
Proof.
  intros Hb. unfold sha_fold. destruct (length b) as [|n] eqn:E; [done|]. cbn [sha_blocks].
  rewrite E. by destruct (Nat.leb_spec SHA_BLOCK_SIZE (S n)); [lia|].
Qed.

(** The invariant of the context: it stands for the message [msg]. *)
Definition sha_inv (init : list Z) (sctx : sha_ctx) (msg : bytes) : Prop :=
  let n := (length msg / SHA_BLOCK_SIZE)%nat in
  sc_count sctx = u64 (Z.of_nat (length msg)) /\ length (sc_buf sctx) = SHA_BLOCK_SIZE /\
  sc_state sctx = sha_fold init (take (n * SHA_BLOCK_SIZE) msg) /\
  take (length msg mod SHA_BLOCK_SIZE) (sc_buf sctx) = drop (n * SHA_BLOCK_SIZE) msg.

Lemma land_63 z : Z.land z 0x3f = z mod 64.
Proof. change 0x3f with (Z.ones 6). by rewrite Z.land_ones by lia. Qed.

Lemma sha_partial (msg : bytes) :
  Z.to_nat (Z.land (u64 (Z.of_nat (length msg))) 0x3f) = (length msg mod SHA_BLOCK_SIZE)%nat.
Proof.
  rewrite land_63. unfold u64, SHA_BLOCK_SIZE.
  rewrite <-(Znumtheory.Zmod_div_mod 64 (2 ^ 64)) by (try lia; by exists (2 ^ 58)).
  change 64 with (Z.of_nat 64). rewrite <-Nat2Z.inj_mod. apply Nat2Z.id.
Qed.

Lemma sha_init_inv init buf : length buf = SHA_BLOCK_SIZE -> sha_inv init (ShaCtx 0 init buf) [].
Proof. intros Hb. split; [done|]. split; [done|]. split; [|done]. done. Qed.

Lemma u64_add_len a b : u64 (u64 a + b) = u64 (a + b).
Proof. unfold u64. by rewrite Zplus_mod_idemp_l. Qed.

(** A message in whole blocks and a rest, and the invariant for it. *)
Lemma message_parts (msg : bytes) : exists n full rem, msg = full ++ rem /\ length full = (n * SHA_BLOCK_SIZE)%nat /\ (length rem < SHA_BLOCK_SIZE)%nat.
Proof.
  set (n := (length msg / SHA_BLOCK_SIZE)%nat). pose proof (Nat.div_mod_eq (length msg) SHA_BLOCK_SIZE) as Hd. fold n in Hd.
  pose proof (Nat.mod_upper_bound (length msg) SHA_BLOCK_SIZE ltac:(done)) as Hm.
  exists n, (take (n * SHA_BLOCK_SIZE) msg), (drop (n * SHA_BLOCK_SIZE) msg). rewrite take_drop, length_take, length_drop. split; [done|lia].
Qed.
Lemma sha_inv_parts init sctx n (full rem : bytes) : length full = (n * SHA_BLOCK_SIZE)%nat -> (length rem < SHA_BLOCK_SIZE)%nat ->
  sha_inv init sctx (full ++ rem) <->
  sc_count sctx = u64 (Z.of_nat (length (full ++ rem))) /\ length (sc_buf sctx) = SHA_BLOCK_SIZE /\
  sc_state sctx = sha_fold init full /\ take (length rem) (sc_buf sctx) = rem.
Proof.
  intros Hf Hr. unfold sha_inv.
  assert (length (full ++ rem) / SHA_BLOCK_SIZE = n)%nat as ->.
  { rewrite length_app, Hf. symmetry. apply (Nat.div_unique _ _ _ (length rem)); lia. }
  assert (length (full ++ rem) mod SHA_BLOCK_SIZE = length rem)%nat as ->.
  { rewrite length_app, Hf. symmetry. apply (Nat.mod_unique _ _ n); lia. }
  by rewrite <-Hf, take_app_length, drop_app_length.
Qed.

(** The first block that an update completes, and where it is. *)
Lemma first_block (buf rem data : bytes) (first := (SHA_BLOCK_SIZE - length rem)%nat)
    (buf' := if (length rem =? 0)%nat then buf else splice (length rem) (take first data) buf) :
  length buf = SHA_BLOCK_SIZE -> take (length rem) buf = rem -> (length rem < SHA_BLOCK_SIZE <= length rem + length data)%nat ->
  length buf' = SHA_BLOCK_SIZE /\ (if (length rem =? 0)%nat then take SHA_BLOCK_SIZE data else buf') = rem ++ take first data.
Proof.
  intros Hb Ht Hl. unfold buf', first. destruct (Nat.eqb_spec (length rem) 0) as [Hz|Hnz].
  - split; [done|]. destruct rem; [done|done].
  - split; [rewrite length_splice; rewrite ?length_take; lia|]. unfold splice. rewrite Ht, (drop_ge buf), app_nil_r; [done|].
    rewrite length_take. lia.
Qed.

Lemma sha_blocks_rest st f n (full rem : bytes) : length full = (n * SHA_BLOCK_SIZE)%nat -> (length rem < SHA_BLOCK_SIZE)%nat ->
  (length (full ++ rem) <= f)%nat -> sha_blocks f st (full ++ rem) = (sha_fold st full, rem).
Proof.
  intros Hf Hr Hl. rewrite (sha_blocks_app n) by done. destruct (length rem) as [|k] eqn:E; cbn [sha_blocks]; [done|].
  rewrite E. destruct (Nat.leb_spec SHA_BLOCK_SIZE (S k)); [lia|done].
Qed.

Lemma sha_absorb_inv init sctx msg data :
  sha_inv init sctx msg -> sha_inv init (sha_absorb sctx data) (msg ++ data).
Proof.
  destruct (message_parts msg) as (n & full & rem & -> & Hf & Hr). intros (Hc & Hb & Hs & Ht)%(sha_inv_parts _ _ n); [|done..].
  unfold sha_absorb. rewrite Hc, sha_partial, u64_add_len, <-Nat2Z.inj_add, <-length_app.
  assert (length (full ++ rem) mod SHA_BLOCK_SIZE = length rem)%nat as ->.
  { rewrite length_app, Hf. symmetry. apply (Nat.mod_unique _ _ n); lia. }
  unfold SHA_BLOCK_SIZE in *. destruct (Nat.ltb_spec 63 (length rem + length data)) as [Hbig|Hsmall].
  - destruct (first_block (sc_buf sctx) rem data Hb Ht) as [Hbl Hsrc]; [unfold SHA_BLOCK_SIZE; lia|]. unfold SHA_BLOCK_SIZE in *.
    rewrite Hsrc, Hs. set (buf := if (length rem =? 0)%nat then _ else _) in *. set (d1 := take (64 - length rem) data) in *.
    assert (Hl1 : length (rem ++ d1) = 64%nat) by (unfold d1; rewrite length_app, length_take; lia).
    rewrite <-(sha_fold_block _ (rem ++ d1) Hl1), <-(sha_fold_app n) by done.
    destruct (message_parts (drop (64 - length rem) data)) as (k & mid & rest & Hd & Hk & Hrest). unfold SHA_BLOCK_SIZE in *.
    assert (Hdl : length (mid ++ rest) = (length data - (64 - length rem))%nat) by (rewrite <-Hd; apply length_drop).
    rewrite Hd, (sha_blocks_rest _ _ k) by (done || lia).
    assert (E : (full ++ rem) ++ data = ((full ++ rem ++ d1) ++ mid) ++ rest).
    { rewrite <-(take_drop (64 - length rem) data), Hd. fold d1. by rewrite <-!app_assoc. }
    rewrite E. assert (Hfl : length ((full ++ rem ++ d1) ++ mid) = ((n + 1 + k) * 64)%nat) by (rewrite !length_app in *; lia).
    apply (sha_inv_parts _ _ (n + 1 + k)); [done..|]. cbn [sc_count sc_buf sc_state]. split; [done|].
    rewrite length_splice by lia. split; [done|]. split.
    + rewrite <-(sha_fold_app (n + 1)); [done|]. rewrite length_app, Hf, Hl1. unfold SHA_BLOCK_SIZE. lia.
    + unfold splice. by rewrite take_0, app_nil_l, take_app_length.
  - rewrite <-app_assoc. apply (sha_inv_parts _ _ n); [done|rewrite length_app; unfold SHA_BLOCK_SIZE; lia|].
    cbn [sc_count sc_buf sc_state]. split; [done|]. split; [rewrite length_splice; [done|lia]|]. split; [done|].
    unfold splice. rewrite Ht, app_assoc. by rewrite take_app_length.
Qed.

(** *** The counter *)

(** What makes the condition of the loop the one without a wrap-around. *)
Definition short_chunk (len : Z) : Prop := len + 64 < 2 ^ 32.
Context (Hagain : forall done len, 0 <= done <= len -> short_chunk len -> again done len = (done + 64 <=? len)).

Lemma sha_rounds_blocks f : forall data st src done k, short_chunk (Z.of_nat (length data)) ->
  u32 (done + 64) = Z.of_nat k -> (k <= length data <= k + f)%nat ->
  exists st' rest, sha_blocks f (transform st (take SHA_BLOCK_SIZE src)) (drop k data) = (st', rest) /\
    rest = drop (length data - length rest) data /\ (length rest <= length data)%nat /\
    sha_rounds (S f) data st src done = Some (st', rest, Z.of_nat (length data - length rest)).
Proof.
  induction f as [|f IH]; intros data st src done k Hd Hk Hf;
    assert (Hle : 0 <= Z.of_nat k <= Z.of_nat (length data)) by (clear -Hf; lia);
    change (sha_rounds (S ?f) data st src done) with
      (let st := transform st (take SHA_BLOCK_SIZE src) in let done := u32 (done + 64) in
       let src := drop (Z.to_nat done) data in
       if again done (Z.of_nat (length data)) then sha_rounds f data st src done else Some (st, src, done));
    cbv zeta; rewrite Hk, Nat2Z.id, (Hagain _ _ Hle Hd); cbn [sha_blocks].
  - exists (transform st (take SHA_BLOCK_SIZE src)), (drop k data). split; [done|]. rewrite length_drop.
    destruct (Z.leb_spec (Z.of_nat k + 64) (Z.of_nat (length data))); [lia|].
    replace (length data - (length data - k))%nat with k by lia. split; [done|]. split; [lia|done].
  - rewrite length_drop. unfold SHA_BLOCK_SIZE at 1.
    destruct (Nat.leb_spec 64 (length data - k)); destruct (Z.leb_spec (Z.of_nat k + 64) (Z.of_nat (length data))); try lia.
    + rewrite drop_drop. unfold SHA_BLOCK_SIZE at 3. apply (IH data _ _ (Z.of_nat k) (k + 64)%nat); [done| |lia].
      unfold short_chunk in Hd. rewrite u32_small by lia. lia.
    + exists (transform st (take SHA_BLOCK_SIZE src)), (drop k data). split; [done|]. rewrite length_drop.
      replace (length data - (length data - k))%nat with k by lia. split; [done|]. split; [lia|done].
Qed.

(** An update with a chunk that is short enough returns. *)
Lemma sha_update_absorb sctx data : length (sc_buf sctx) = SHA_BLOCK_SIZE -> short_chunk (Z.of_nat (length data)) ->
  sha_update sctx data = Some (sha_absorb sctx data).
Proof.
  intros Hb Hd. unfold sha_update, sha_absorb, SHA_BLOCK_SIZE in *. rewrite land_63. pose proof (Z.mod_pos_bound (sc_count sctx) 64 ltac:(lia)) as Hp.
  set (p := sc_count sctx mod 64) in *.
  destruct (Z.ltb_spec 63 (p + Z.of_nat (length data))); destruct (Nat.ltb_spec 63 (Z.to_nat p + length data)); try lia; [|done].
  set (done := if p =? 0 then 0 else u32 (- p)).
  assert (Hu : u32 (done + 64) = Z.of_nat (64 - Z.to_nat p)).
  { unfold done. destruct (Z.eqb_spec p 0) as [->|]; [done|]. unfold u32.
    replace (- p) with (2 ^ 32 - p + (-1) * 2 ^ 32) by lia. rewrite Z.mod_add, (Z.mod_small (2 ^ 32 - p)) by lia.
    replace (2 ^ 32 - p + 64) with (64 - p + 1 * 2 ^ 32) by lia. rewrite Z.mod_add, Z.mod_small by lia. lia. }
  rewrite Hu, Nat2Z.id. replace (Z.to_nat p =? 0)%nat with (p =? 0) by (destruct (Z.eqb_spec p 0), (Nat.eqb_spec (Z.to_nat p) 0); lia).
  set (buf := if p =? 0 then _ else splice _ _ _).
  destruct (sha_rounds_blocks (length data) data (sc_state sctx) (if p =? 0 then data else buf) done (64 - Z.to_nat p) Hd Hu)
    as (st & rest & Hs & Hrest & Hl & ->); [lia|]. unfold SHA_BLOCK_SIZE in Hs.
  assert (Hsrc : take 64 (if p =? 0 then data else buf) = if p =? 0 then take 64 data else buf).
  { unfold buf. destruct (Z.eqb_spec p 0) as [E|E]; [done|]. apply take_ge. rewrite length_splice; rewrite ?length_take; lia. }
  rewrite Hsrc in Hs. rewrite Hs. do 3 f_equal. apply take_ge. lia.
Qed.

(** A chunk of 2^32 bytes or more is never done with, however long one waits, when the
    condition holds for every value of [done]. *)
Lemma sha_rounds_endless data : (forall done, 0 <= done < 2 ^ 32 -> again done (Z.of_nat (length data)) = true) ->
  forall fuel st src done, sha_rounds fuel data st src done = None.
Proof.
  intros H fuel. induction fuel as [|fuel IH]; intros st src n; [done|]. cbn [sha_rounds].
  rewrite H by apply u32_range. apply IH.
Qed.

(** One update extends the message. *)
Lemma sha_update_inv init sctx msg data : sha_inv init sctx msg -> short_chunk (Z.of_nat (length data)) ->
  exists sctx', sha_update sctx data = Some sctx' /\ sha_inv init sctx' (msg ++ data).
Proof.
  intros Hi Hd. pose proof Hi as (_ & Hb & _). rewrite sha_update_absorb by done. eexists. split; [done|]. by apply sha_absorb_inv.
Qed.
Lemma sha_fed_inv init sctx msg data : sha_inv init sctx msg -> short_chunk (Z.of_nat (length data)) ->
  sha_inv init (sha_fed sctx data) (msg ++ data).
Proof. intros Hi Hd. unfold sha_fed. by destruct (sha_update_inv init sctx msg data Hi Hd) as (c & -> & ?). Qed.

(** A series of updates. *)
Definition sha_updates (sctx : sha_ctx) (ds : list bytes) : option sha_ctx :=
  foldl (fun c d => c ≫= fun c => sha_update c d) (Some sctx) ds.

(** Any series of updates stands for the concatenation. *)
Lemma sha_updates_inv init ds : Forall (fun d => short_chunk (Z.of_nat (length d))) ds -> forall sctx msg,
  sha_inv init sctx msg -> exists sctx', sha_updates sctx ds = Some sctx' /\ sha_inv init sctx' (msg ++ mjoin ds).
Proof.
  unfold sha_updates. induction 1 as [|d ds Hd _ IH]; intros sctx msg H; cbn [foldl].
  { exists sctx. cbn [mjoin list_join]. by rewrite app_nil_r. }
  destruct (sha_update_inv init sctx msg d H Hd) as (c & E & Hc). cbn [mbind option_bind]. rewrite E.
  destruct (IH c _ Hc) as (c' & E' & Hc'). exists c'. split; [exact E'|]. change (mjoin (d :: ds)) with (d ++ mjoin ds). by rewrite app_assoc.
Qed.

Lemma sha_padlen_range c : (1 <= sha_padlen c <= 64)%nat.
Proof.
  unfold sha_padlen. rewrite land_63. pose proof (Z.mod_pos_bound c 64 ltac:(lia)).
  destruct (Z.ltb_spec (c mod 64) 56); lia.
Qed.

Lemma length_sha_padding n : (n <= 64)%nat -> length (take n sha_padding) = n.
Proof. intros. rewrite length_take. unfold sha_padding. simpl. lia. Qed.

Lemma length_be64 v : length (be64 v) = 8%nat.
Proof. unfold be64. rewrite length_rev. apply length_le_split. Qed.

(** The padded message is a whole number of blocks. *)
Lemma length_sha_pad msg : exists n, length (sha_pad msg) = (n * SHA_BLOCK_SIZE)%nat.
Proof.
  unfold sha_pad. rewrite !length_app, length_be64.
  rewrite length_sha_padding by apply sha_padlen_range. unfold sha_padlen, SHA_BLOCK_SIZE.
  rewrite land_63. pose proof (Z.mod_pos_bound (Z.of_nat (length msg)) 64 ltac:(lia)).
  pose proof (Z.div_mod (Z.of_nat (length msg)) 64 ltac:(lia)).
  set (q := Z.of_nat (length msg) / 64) in *. set (r := Z.of_nat (length msg) mod 64) in *.
  assert (0 <= q) by (unfold q; apply Z.div_pos; lia).
  destruct (Z.ltb_spec r 56); [exists (Z.to_nat (q + 1))|exists (Z.to_nat (q + 2))]; lia.
Qed.

Lemma sha_padlen_u64 z : sha_padlen (u64 z) = sha_padlen z.
Proof.
  unfold sha_padlen. rewrite !land_63. unfold u64.
  by rewrite <-(Znumtheory.Zmod_div_mod 64 (2 ^ 64)) by (try lia; by exists (2 ^ 58)).
Qed.

(** The final function compresses the padded message. *)
Lemma sha_finish_spec init sctx msg :
  sha_inv init sctx msg -> sha_finish sctx = sha_fold init (sha_pad msg).
Proof.
  intros Hi. pose proof Hi as (Hc & _). unfold sha_finish. rewrite Hc, sha_padlen_u64.
  assert (u64 (Z.shiftl (u64 (Z.of_nat (length msg))) 3) = u64 (8 * Z.of_nat (length msg))) as ->.
  { rewrite Z.shiftl_mul_pow2 by lia. unfold u64. rewrite Zmult_mod_idemp_l. f_equal. lia. }
  apply (sha_fed_inv _ _ _ (take (sha_padlen (Z.of_nat (length msg))) sha_padding)) in Hi;
    [|pose proof (sha_padlen_range (Z.of_nat (length msg))); unfold short_chunk; rewrite length_sha_padding; lia].
  apply (sha_fed_inv _ _ _ (be64 (u64 (8 * Z.of_nat (length msg))))) in Hi; [|unfold short_chunk; by rewrite length_be64].
  rewrite <-app_assoc in Hi. fold (sha_pad msg) in Hi. destruct Hi as (_ & _ & -> & _).
  destruct (length_sha_pad msg) as [n Hn]. rewrite Hn, Nat.div_mul by done.
  f_equal. apply take_ge. lia.
Qed.
End Stream.

(** Only the values of the compression function matter. *)
Lemma sha_blocks_ext (t1 t2 : list Z -> bytes -> list Z) :
  (forall st b, t1 st b = t2 st b) ->
  forall fuel st msg, sha_blocks t1 fuel st msg = sha_blocks t2 fuel st msg.
Proof.
  intros H fuel. induction fuel as [|fuel IH]; intros st msg; [done|]. cbn [sha_blocks].
  destruct (_ <=? _)%nat; [|done]. by rewrite H, IH.
Qed.

Lemma sha_fold_ext t1 t2 st msg :
  (forall st b, t1 st b = t2 st b) -> sha_fold t1 st msg = sha_fold t2 st msg.
Proof. intros H. unfold sha_fold. by rewrite (sha_blocks_ext t1 t2 H). Qed.

(** What the compression function keeps, hashing keeps. *)
Lemma sha_fold_ind (transform : list Z -> bytes -> list Z) (P : list Z -> Prop) st msg :
  (forall st b, P st -> P (transform st b)) -> P st -> P (sha_fold transform st msg).
Proof.
  intros H. unfold sha_fold. generalize (length msg) as fuel. intros fuel. revert st msg.
  induction fuel as [|fuel IH]; intros st msg Hst; [done|]. cbn [sha_blocks].
  destruct (_ <=? _)%nat; [|done]. apply IH, H, Hst.
Qed.
