(* ===== verification/Sha1.v ===== *)
(** * SHA-1 (src/crypto/sha1.c)

    The compression function with its rolling array of 16 words and its rounds
    over renamed registers, the init, update and final functions, and the
    rounds of FIPS 180 as the specification. The 80 rounds of [sha_transform]
    are written with the five registers renamed from line to line and repeat
    after five lines; [sha1_rounds5] is that text. *)

From S2P Require Import Prelude HashStream.

Definition SHA1_H : list Z := [0x67452301; 0xefcdab89; 0x98badcfe; 0x10325476; 0xc3d2e1f0].
Definition SHA1_DIGEST_SIZE : nat := 20.

Definition sha1_init (ctx : sha_ctx) : sha_ctx := ShaCtx 0 SHA1_H (sc_buf ctx).

(** [W(x)], [SHA_SRC] and [SHA_MIX]. *)
Definition W (array : list Z) (x : nat) : Z := nth (x mod 16) array 0.
Definition SHA_SRC (data : bytes) (t : nat) : Z := be_word data t.
Definition SHA_MIX (array : list Z) (t : nat) : Z :=
  rol32 (Z.lxor (Z.lxor (Z.lxor (W array (t + 13)) (W array (t + 8))) (W array (t + 2))) (W array t)) 1.

(** The new values of [B], [E] and the array. *)
Definition SHA_ROUND (t : nat) (TEMP fn constant A B C D E : Z) (array : list Z) : Z * Z * list Z :=
  (ror32 B 2, E +32 (TEMP +32 rol32 A 5 +32 fn +32 constant), <[(t mod 16)%nat := TEMP]> array).

Definition T_0_15 (data : bytes) (t : nat) (A B C D E : Z) (array : list Z) :=
  SHA_ROUND t (SHA_SRC data t) (Z.lxor (Z.land (Z.lxor C D) B) D) 0x5a827999 A B C D E array.
Definition T_16_19 (t : nat) (A B C D E : Z) (array : list Z) :=
  SHA_ROUND t (SHA_MIX array t) (Z.lxor (Z.land (Z.lxor C D) B) D) 0x5a827999 A B C D E array.
Definition T_20_39 (t : nat) (A B C D E : Z) (array : list Z) :=
  SHA_ROUND t (SHA_MIX array t) (Z.lxor (Z.lxor B C) D) 0x6ed9eba1 A B C D E array.
Definition T_40_59 (t : nat) (A B C D E : Z) (array : list Z) :=
  SHA_ROUND t (SHA_MIX array t) (Z.land B C +32 Z.land D (Z.lxor B C)) 0x8f1bbcdc A B C D E array.
Definition T_60_79 (t : nat) (A B C D E : Z) (array : list Z) :=
  SHA_ROUND t (SHA_MIX array t) (Z.lxor (Z.lxor B C) D) 0xca62c1d6 A B C D E array.

(** The macro used for round [t]. *)
Definition sha1_T (data : bytes) (t : nat) : Z -> Z -> Z -> Z -> Z -> list Z -> Z * Z * list Z :=
  if (t <? 16)%nat then T_0_15 data t
  else if (t <? 20)%nat then T_16_19 t
  else if (t <? 40)%nat then T_20_39 t
  else if (t <? 60)%nat then T_40_59 t
  else T_60_79 t.

Definition sha1_rounds5 (data : bytes) (t : nat) (r : Z * Z * Z * Z * Z * list Z)
  : Z * Z * Z * Z * Z * list Z :=
  let '(A, B, C, D, E, array) := r in
  let '(B, E, array) := sha1_T data t A B C D E array in
  let '(A, D, array) := sha1_T data (t + 1) E A B C D array in
  let '(E, C, array) := sha1_T data (t + 2) D E A B C array in
  let '(D, B, array) := sha1_T data (t + 3) C D E A B array in
  let '(C, A, array) := sha1_T data (t + 4) B C D E A array in
  (A, B, C, D, E, array).

Definition sha_transform (array : list Z) (digest : list Z) (data : bytes) : list Z :=
  let d n := nth n digest 0 in
  let '(A, B, C, D, E, _) :=
    fold_left (fun r i => sha1_rounds5 data (5 * i) r) (seq 0 16)
      (d 0%nat, d 1%nat, d 2%nat, d 3%nat, d 4%nat, array) in
  [d 0%nat +32 A; d 1%nat +32 B; d 2%nat +32 C; d 3%nat +32 D; d 4%nat +32 E].

(** The condition of the loop over the blocks. *)
Definition sha1_again (done len : Z) : bool := u32 (done + 64) <=? len.

(** [temp], whatever it holds, is the work space; [None] for a call that does not return. *)
Definition sha1_update (temp : list Z) : sha_ctx -> bytes -> option sha_ctx := sha_update (sha_transform temp) sha1_again.

Definition sha1_final (temp : list Z) (sctx : sha_ctx) : bytes * sha_ctx :=
  (be_words (take 5 (sha_finish (sha_transform temp) sha1_again sctx)), ShaCtx 0 (replicate 5 0) (zeros 64)).

(** ** Specification: FIPS 180-4, section 6.1 *)

Definition fips1_f (t : nat) (x y z : Z) : Z :=
  if (t <? 20)%nat then Z.lxor (Z.land x y) (Z.land (Z.lnot x) z)
  else if (t <? 40)%nat then Z.lxor (Z.lxor x y) z
  else if (t <? 60)%nat then Z.lxor (Z.lxor (Z.land x y) (Z.land x z)) (Z.land y z)
  else Z.lxor (Z.lxor x y) z.
Definition fips1_K (t : nat) : Z :=
  if (t <? 20)%nat then 0x5a827999 else if (t <? 40)%nat then 0x6ed9eba1
  else if (t <? 60)%nat then 0x8f1bbcdc else 0xca62c1d6.

Fixpoint fips1_W (fuel : nat) (input : bytes) (t : nat) : Z :=
  match fuel with
  | O => 0
  | S fuel' =>
      if (t <? 16)%nat then be_word input t else
      let W n := fips1_W fuel' input (t - n) in
      rol32 (Z.lxor (Z.lxor (Z.lxor (W 3%nat) (W 8%nat)) (W 14%nat)) (W 16%nat)) 1
  end.

Definition fips1_round (input : bytes) (r : Z * Z * Z * Z * Z) (t : nat) : Z * Z * Z * Z * Z :=
  let '(a, b, c, d, e) := r in
  let T := u32 (rol32 a 5 + fips1_f t b c d + e + fips1_K t + fips1_W (S t) input t) in
  (T, a, rol32 b 30, c, d).

Definition fips1_compress (digest : list Z) (input : bytes) : list Z :=
  let h n := nth n digest 0 in
  let '(a, b, c, d, e) :=
    fold_left (fips1_round input) (seq 0 80) (h 0%nat, h 1%nat, h 2%nat, h 3%nat, h 4%nat) in
  [u32 (h 0%nat + a); u32 (h 1%nat + b); u32 (h 2%nat + c); u32 (h 3%nat + d); u32 (h 4%nat + e)].

Definition sha1 (msg : bytes) : bytes := be_words (sha_fold fips1_compress SHA1_H (sha_pad msg)).

Example sha1_abc :
  (fun c => bval <$> fst (sha1_final (replicate 16 0) c)) <$> sha1_update (replicate 16 0)
    (sha1_init (ShaCtx 0 [] (zeros 64))) (cstr "abc") =
  Some [0xa9;0x99;0x3e;0x36;0x47;0x06;0x81;0x6a;0xba;0x3e;0x25;0x71;0x78;0x50;0xc2;0x6c;0x9c;0xd0;0xd8;0x9d].
Proof. vm_compute. reflexivity. Qed.

(** ** Lemmas *)

Lemma fips1_W_fuel f1 : forall f2 input t, (t < f1)%nat -> (t < f2)%nat ->
  fips1_W f1 input t = fips1_W f2 input t.
Proof.
  induction f1 as [|f1 IH]; intros [|f2] input t H1 H2; try lia. cbn [fips1_W].
  destruct (Nat.ltb_spec t 16); [done|]. cbv zeta.
  by rewrite !(IH f2 input (t - _)%nat) by lia.
Qed.

(** The word of round [t]. *)
Abbreviation word input t := (fips1_W (S t) input t).

Lemma word_mix input t : (16 <= t)%nat -> word input t =
  rol32 (Z.lxor (Z.lxor (Z.lxor (word input (t - 3)) (word input (t - 8))) (word input (t - 14)))
    (word input (t - 16))) 1.
Proof.
  intros Ht. change (word input t) with
    (if (t <? 16)%nat then be_word input t else
      rol32 (Z.lxor (Z.lxor (Z.lxor (fips1_W t input (t - 3)) (fips1_W t input (t - 8)))
        (fips1_W t input (t - 14))) (fips1_W t input (t - 16))) 1).
  destruct (Nat.ltb_spec t 16); [lia|].
  by rewrite (fips1_W_fuel t (S (t - 3))), (fips1_W_fuel t (S (t - 8))),
    (fips1_W_fuel t (S (t - 14))), (fips1_W_fuel t (S (t - 16))) by lia.
Qed.

(** The array holds the last 16 words before round [t]. *)
Definition rolling (input : bytes) (t : nat) (array : list Z) : Prop :=
  length array = 16%nat /\
  forall j, (j < t)%nat -> (t <= j + 16)%nat -> W array j = word input j.

Lemma rolling_W input t array j k : rolling input t array ->
  (j < t)%nat -> (t <= j + 16)%nat -> k = (j + 16)%nat -> W array k = word input j.
Proof.
  intros [_ H] H1 H2 ->. rewrite <-H by done. unfold W.
  replace (j + 16)%nat with (j + 1 * 16)%nat by lia. by rewrite Nat.Div0.mod_add.
Qed.

Lemma rolling_step input t array : rolling input t array ->
  rolling input (t + 1) (<[(t mod 16)%nat := word input t]> array).
Proof.
  intros [Hl H]. split; [by rewrite length_insert|]. intros j H1 H2. unfold W.
  pose proof (Nat.mod_upper_bound t 16 ltac:(lia)).
  rewrite nth_lookup. destruct (decide (j = t)) as [->|].
  - by rewrite list_lookup_insert_eq by lia.
  - rewrite list_lookup_insert_ne.
    + rewrite <-H by lia. unfold W. by rewrite nth_lookup.
    + intros E. pose proof (Nat.div_mod_eq t 16). pose proof (Nat.div_mod_eq j 16). lia.
Qed.

Lemma u32_add_l a b : u32 (u32 a + b) = u32 (a + b).
Proof. unfold u32. by rewrite Zplus_mod_idemp_l. Qed.
Lemma u32_add_r a b : u32 (a + u32 b) = u32 (a + b).
Proof. unfold u32. by rewrite Zplus_mod_idemp_r. Qed.

Lemma rol30_ror2 b : rol32 b 30 = ror32 b 2.
Proof. unfold rol32, ror32. by rewrite Z.lor_comm. Qed.

Lemma ch_fips x y z : Z.lxor (Z.land (Z.lxor y z) x) z = Z.lxor (Z.land x y) (Z.land (Z.lnot x) z).
Proof.
  apply Z.bits_inj'. intros n Hn.
  rewrite !Z.lxor_spec, !Z.land_spec, !Z.lxor_spec, Z.lnot_spec by done.
  by destruct (Z.testbit x n), (Z.testbit y n), (Z.testbit z n).
Qed.

(** The sum of [T_40_59] adds disjoint bits. *)
Lemma maj_fips x y z : Z.land x y + Z.land z (Z.lxor x y)
  = Z.lxor (Z.lxor (Z.land x y) (Z.land x z)) (Z.land y z).
Proof.
  rewrite Z.add_nocarry_lxor.
  - apply Z.bits_inj'. intros n Hn. rewrite !Z.lxor_spec, !Z.land_spec, !Z.lxor_spec.
    by destruct (Z.testbit x n), (Z.testbit y n), (Z.testbit z n).
  - apply Z.bits_inj'. intros n Hn. rewrite !Z.land_spec, !Z.lxor_spec, Z.bits_0.
    by destruct (Z.testbit x n), (Z.testbit y n), (Z.testbit z n).
Qed.

(** The order of the additions does not matter. *)
Lemma sha1_sum E T r f f' k : f' = f \/ f' = u32 f ->
  E +32 (T +32 r +32 f' +32 k) = u32 (r + f + E + k + T).
Proof.
  intros Hf. assert (u32 (u32 (T + r) + f') = u32 (T + r + f)) as ->.
  { destruct Hf as [-> | ->]; by rewrite ?u32_add_r, u32_add_l. }
  rewrite u32_add_l, u32_add_r. f_equal. ring.
Qed.

(** One round of the code computes the one of the standard. *)
Lemma sha1_T_fips data t A B C D E array : (t < 80)%nat -> rolling data t array ->
  exists array', sha1_T data t A B C D E array =
    (rol32 B 30,
     u32 (rol32 A 5 + fips1_f t B C D + E + fips1_K t + word data t), array') /\
    rolling data (t + 1) array'.
Proof.
  intros Ht Hr. exists (<[(t mod 16)%nat := word data t]> array).
  split; [|by apply rolling_step]. rewrite rol30_ror2.
  assert (forall temp fn k, temp = word data t -> fn = fips1_f t B C D \/ fn = u32 (fips1_f t B C D) ->
    k = fips1_K t -> SHA_ROUND t temp fn k A B C D E array =
    (ror32 B 2, u32 (rol32 A 5 + fips1_f t B C D + E + fips1_K t + word data t),
     <[(t mod 16)%nat := word data t]> array)) as Hround.
  { intros temp fn k -> Hfn ->. unfold SHA_ROUND. by rewrite (sha1_sum _ _ _ _ _ _ Hfn). }
  assert ((16 <= t)%nat -> SHA_MIX array t = word data t) as Hmix.
  { intros H. rewrite word_mix by done. unfold SHA_MIX.
    rewrite (rolling_W data t array (t - 3)), (rolling_W data t array (t - 8)),
      (rolling_W data t array (t - 14)), (rolling_W data t array (t - 16)) by (done || lia). done. }
  unfold sha1_T, T_0_15, T_16_19, T_20_39, T_40_59, T_60_79.
  unfold fips1_f, fips1_K in *.
  destruct (Nat.ltb_spec t 16) as [H16|H16].
  { destruct (Nat.ltb_spec t 20); [|lia]. apply Hround; [|left; apply ch_fips|done].
    unfold SHA_SRC. cbn [fips1_W]. by destruct (Nat.ltb_spec t 16); [|lia]. }
  specialize (Hmix H16).
  destruct (Nat.ltb_spec t 20) as [H20|H20]; [apply Hround; [done|left; apply ch_fips|done]|].
  destruct (Nat.ltb_spec t 40) as [H40|H40]; [apply Hround; [done|by left|done]|].
  destruct (Nat.ltb_spec t 60) as [H60|H60]; apply Hround; try done; [right|by left].
  by rewrite maj_fips.
Qed.

Lemma sha1_rounds5_fips data t A B C D E array : (t + 4 < 80)%nat -> rolling data t array ->
  exists array', sha1_rounds5 data t (A, B, C, D, E, array) =
    (fold_left (fips1_round data) (seq t 5) (A, B, C, D, E), array') /\
    rolling data (t + 5) array'.
Proof.
  intros Ht Hr. unfold sha1_rounds5.
  replace (t + 1)%nat with (S t) by lia. replace (t + 2)%nat with (S (S t)) by lia.
  replace (t + 3)%nat with (S (S (S t))) by lia. replace (t + 4)%nat with (S (S (S (S t)))) by lia.
  destruct (sha1_T_fips data t A B C D E array ltac:(lia) Hr) as (a1 & -> & H1).
  rewrite Nat.add_1_r in H1. set (T0 := u32 _).
  destruct (sha1_T_fips data (S t) T0 A (rol32 B 30) C D a1 ltac:(lia) H1) as (a2 & -> & H2).
  rewrite Nat.add_1_r in H2. set (T1 := u32 _).
  destruct (sha1_T_fips data (S (S t)) T1 T0 (rol32 A 30) (rol32 B 30) C a2 ltac:(lia) H2) as (a3 & -> & H3).
  rewrite Nat.add_1_r in H3. set (T2 := u32 _).
  destruct (sha1_T_fips data (S (S (S t))) T2 T1 (rol32 T0 30) (rol32 A 30) (rol32 B 30) a3 ltac:(lia) H3)
    as (a4 & -> & H4).
  rewrite Nat.add_1_r in H4. set (T3 := u32 _).
  destruct (sha1_T_fips data (S (S (S (S t)))) T3 T2 (rol32 T1 30) (rol32 T0 30) (rol32 A 30) a4 ltac:(lia) H4)
    as (a5 & -> & H5).
  exists a5. split; [reflexivity|]. by replace (t + 5)%nat with (S (S (S (S t))) + 1)%nat by lia.
Qed.

Lemma sha1_rounds_fips data array r n : (n <= 16)%nat -> length array = 16%nat ->
  exists array', fold_left (fun r i => sha1_rounds5 data (5 * i) r) (seq 0 n) (r, array) =
    (fold_left (fips1_round data) (seq 0 (5 * n)) r, array') /\ rolling data (5 * n) array'.
Proof.
  intros Hn Hl. induction n as [|n IH].
  { exists array. split; [done|]. split; [done|]. lia. }
  destruct IH as (a1 & E & H1); [lia|]. rewrite seq_S, fold_left_app, E. cbn [fold_left].
  destruct (fold_left (fips1_round data) (seq 0 (5 * n)) r) as [[[[A B] C] D] Ev] eqn:Er.
  destruct (sha1_rounds5_fips data (5 * n) A B C D Ev a1 ltac:(lia) H1) as (a2 & E2 & H2).
  exists a2. simpl Nat.add in E2 |- *. rewrite E2.
  replace (5 * S n)%nat with (5 * n + 5)%nat by lia. split; [|done].
  by rewrite seq_app, fold_left_app, Er.
Qed.

(** The rolling, renamed rounds are the ones of the standard. *)
Lemma sha_transform_fips array st data : length array = 16%nat ->
  sha_transform array st data = fips1_compress st data.
Proof.
  intros Hl. unfold sha_transform, fips1_compress.
  destruct (sha1_rounds_fips data array
    (nth 0 st 0, nth 1 st 0, nth 2 st 0, nth 3 st 0, nth 4 st 0) 16 ltac:(lia) Hl) as (a & E & _).
  rewrite E. change (5 * 16)%nat with 80%nat.
  by destruct (fold_left (fips1_round data) (seq 0 80) _) as [[[[? ?] ?] ?] ?].
Qed.

Lemma length_fold1 init msg : length init = 5%nat -> length (sha_fold fips1_compress init msg) = 5%nat.
Proof.
  apply (sha_fold_ind fips1_compress (fun st => length st = 5%nat)).
  intros st b _. unfold fips1_compress.
  by destruct (fold_left (fips1_round b) (seq 0 80) _) as [[[[? ?] ?] ?] ?].
Qed.

Lemma sha1_again_short dn len : 0 <= dn <= len -> short_chunk len -> sha1_again dn len = (dn + 64 <=? len).
Proof. unfold short_chunk, sha1_again. intros. by rewrite u32_small by lia. Qed.

(** A chunk of 2^32 bytes or more: the call does not return. *)
Lemma sha1_update_endless temp sctx data : 2 ^ 32 <= Z.of_nat (length data) -> sha1_update temp sctx data = None.
Proof.
  intros Hd. unfold sha1_update, sha_update. rewrite land_63. pose proof (Z.mod_pos_bound (sc_count sctx) 64 ltac:(lia)).
  rewrite (proj2 (Z.ltb_lt _ _)) by lia. rewrite sha_rounds_endless; [done|].
  intros dn Hdn. unfold sha1_again. pose proof (u32_range (dn + 64)). lia.
Qed.

(** Finishing a context that stands for [msg]. *)
Lemma sha1_finish_inv temp sctx msg :
  length temp = 16%nat -> sha_inv (sha_transform temp) SHA1_H sctx msg ->
  take 5 (sha_finish (sha_transform temp) sha1_again sctx) = sha_fold fips1_compress SHA1_H (sha_pad msg).
Proof.
  intros Ht H. rewrite (sha_finish_spec _ _ sha1_again_short _ _ _ H).
  rewrite (sha_fold_ext _ fips1_compress) by (intros; by apply sha_transform_fips).
  by apply take_ge, Nat.eq_le_incl, length_fold1.
Qed.

(** ** Claims *)

(** Hashing a message in any number of pieces, each short of 2^32 - 64 bytes, returns and
    gives the SHA-1 digest of the whole message as FIPS 180-4 defines it (with the length field
    modulo 2^64), whatever the work space held, and the context is wiped. *)
Theorem sha1_streaming temp sctx ds :
  length temp = 16%nat -> length (sc_buf sctx) = SHA_BLOCK_SIZE -> Forall (fun d => short_chunk (Z.of_nat (length d))) ds ->
  sha1_final temp <$> foldl (fun c d => c ≫= fun c => sha1_update temp c d) (Some (sha1_init sctx)) ds
  = Some (sha1 (mjoin ds), ShaCtx 0 (replicate 5 0) (zeros 64)).
Proof.
  intros Ht Hb Hds. destruct (sha_updates_inv (sha_transform temp) _ sha1_again_short SHA1_H ds Hds (sha1_init sctx) [])
    as (c & E & Hc); [by apply sha_init_inv|]. change (foldl _ _ ds) with (sha_updates (sha_transform temp) sha1_again (sha1_init sctx) ds).
  rewrite E. cbn [fmap option_fmap option_map]. unfold sha1_final, sha1. by rewrite (sha1_finish_inv temp c (mjoin ds) Ht Hc).
Qed.

Lemma sha1_streaming_witness :
  let c := ShaCtx 7 [] (zeros 64) in let temp := replicate 16 5 in
  sha1_final temp <$> (sha1_update temp (sha1_init c) (cstr "ab") ≫= fun c => sha1_update temp c (cstr "c"))
  = Some (sha1 (cstr "abc"), ShaCtx 0 (replicate 5 0) (zeros 64)).
Proof. apply (sha1_streaming (replicate 16 5) (ShaCtx 7 [] (zeros 64)) [cstr "ab"; cstr "c"]); repeat constructor. Defined.
