(* ===== verification/Sha256.v ===== *)
(** * SHA-256 and SHA-224 (src/crypto/sha2.c)

    The compression function with its eight-fold unrolled rounds, the init,
    update and final functions, and the FIPS 180 rounds as the specification.
    The 64 rounds of [sha256_transform] are eight times the same text with other
    constants; [sha256_rounds8] is that text. *)

From S2P Require Import Prelude HashStream.

Definition Ch (x y z : Z) : Z := Z.lxor z (Z.land x (Z.lxor y z)).
Definition Maj (x y z : Z) : Z := Z.lor (Z.land x y) (Z.land z (Z.lor x y)).
Definition e0 (x : Z) : Z := Z.lxor (Z.lxor (ror32 x 2) (ror32 x 13)) (ror32 x 22).
Definition e1 (x : Z) : Z := Z.lxor (Z.lxor (ror32 x 6) (ror32 x 11)) (ror32 x 25).
Definition s0 (x : Z) : Z := Z.lxor (Z.lxor (ror32 x 7) (ror32 x 18)) (Z.shiftr x 3).
Definition s1 (x : Z) : Z := Z.lxor (Z.lxor (ror32 x 17) (ror32 x 19)) (Z.shiftr x 10).

(** [LOAD_OP] for the first 16 words. *)
Definition load_words (input : bytes) : list Z := (fun i => be_word input i) <$> seq 0 16.

(** [BLEND_OP(I, W)] where [W] has [I] words so far. *)
Definition BLEND_OP (W : list Z) : list Z :=
  let I := length W in
  let w n := nth (I - n) W 0 in
  W ++ [s1 (w 2%nat) +32 w 7%nat +32 s0 (w 15%nat) +32 w 16%nat].

(** The constant each round adds, with the number of the word of [W] it adds
    next to it. *)
Definition sha256_steps : list (Z * nat) :=
  [(0x428a2f98, 0%nat); (0x71374491, 1%nat); (0xb5c0fbcf, 2%nat); (0xe9b5dba5, 3%nat);
   (0x3956c25b, 4%nat); (0x59f111f1, 5%nat); (0x923f82a4, 6%nat); (0xab1c5ed5, 7%nat);
   (0xd807aa98, 8%nat); (0x12835b01, 9%nat); (0x243185be, 10%nat); (0x550c7dc3, 11%nat);
   (0x72be5d74, 12%nat); (0x80deb1fe, 13%nat); (0x9bdc06a7, 14%nat); (0xc19bf174, 15%nat);
   (0xe49b69c1, 16%nat); (0xefbe4786, 17%nat); (0x0fc19dc6, 18%nat); (0x240ca1cc, 19%nat);
   (0x2de92c6f, 20%nat); (0x4a7484aa, 21%nat); (0x5cb0a9dc, 22%nat); (0x76f988da, 23%nat);
   (0x983e5152, 24%nat); (0xa831c66d, 25%nat); (0xb00327c8, 26%nat); (0xbf597fc7, 27%nat);
   (0xc6e00bf3, 28%nat); (0xd5a79147, 29%nat); (0x06ca6351, 30%nat); (0x14292967, 31%nat);
   (0x27b70a85, 32%nat); (0x2e1b2138, 33%nat); (0x4d2c6dfc, 34%nat); (0x53380d13, 35%nat);
   (0x650a7354, 36%nat); (0x766a0abb, 37%nat); (0x81c2c92e, 38%nat); (0x92722c85, 39%nat);
   (0xa2bfe8a1, 40%nat); (0xa81a664b, 41%nat); (0xc24b8b70, 42%nat); (0xc76c51a3, 43%nat);
   (0xd192e819, 44%nat); (0xd6990624, 45%nat); (0xf40e3585, 46%nat); (0x106aa070, 47%nat);
   (0x19a4c116, 48%nat); (0x1e376c08, 49%nat); (0x2748774c, 50%nat); (0x34b0bcb5, 51%nat);
   (0x391c0cb3, 52%nat); (0x4ed8aa4a, 53%nat); (0x5b9cca4f, 54%nat); (0x682e6ff3, 55%nat);
   (0x748f82ee, 56%nat); (0x78a5636f, 57%nat); (0x84c87814, 58%nat); (0x8cc70208, 59%nat);
   (0x90befffa, 60%nat); (0xa4506ceb, 61%nat); (0xbef9a3f7, 62%nat); (0xc67178f2, 63%nat)].

Definition sha256_K : list Z := map fst sha256_steps.

(** The registers [a] to [h]. *)
Record regs : Type := Regs { ra : Z; rb : Z; rc : Z; rd : Z; re : Z; rf : Z; rg : Z; rh : Z }.

(** Eight rounds with the constants [K] and the words [W] from [i] on. *)
Definition sha256_rounds8 (Ws : list Z) (i : nat) (r : regs) : regs :=
  let K n := nth (i + n) sha256_K 0 in
  let W n := nth (i + n) Ws 0 in
  let '(Regs a b c d e f g h) := r in
  let t1 := h +32 e1 e +32 Ch e f g +32 K 0%nat +32 W 0%nat in
  let t2 := e0 a +32 Maj a b c in let d := d +32 t1 in let h := t1 +32 t2 in
  let t1 := g +32 e1 d +32 Ch d e f +32 K 1%nat +32 W 1%nat in
  let t2 := e0 h +32 Maj h a b in let c := c +32 t1 in let g := t1 +32 t2 in
  let t1 := f +32 e1 c +32 Ch c d e +32 K 2%nat +32 W 2%nat in
  let t2 := e0 g +32 Maj g h a in let b := b +32 t1 in let f := t1 +32 t2 in
  let t1 := e +32 e1 b +32 Ch b c d +32 K 3%nat +32 W 3%nat in
  let t2 := e0 f +32 Maj f g h in let a := a +32 t1 in let e := t1 +32 t2 in
  let t1 := d +32 e1 a +32 Ch a b c +32 K 4%nat +32 W 4%nat in
  let t2 := e0 e +32 Maj e f g in let h := h +32 t1 in let d := t1 +32 t2 in
  let t1 := c +32 e1 h +32 Ch h a b +32 K 5%nat +32 W 5%nat in
  let t2 := e0 d +32 Maj d e f in let g := g +32 t1 in let c := t1 +32 t2 in
  let t1 := b +32 e1 g +32 Ch g h a +32 K 6%nat +32 W 6%nat in
  let t2 := e0 c +32 Maj c d e in let f := f +32 t1 in let b := t1 +32 t2 in
  let t1 := a +32 e1 f +32 Ch f g h +32 K 7%nat +32 W 7%nat in
  let t2 := e0 b +32 Maj b c d in let e := e +32 t1 in let a := t1 +32 t2 in
  Regs a b c d e f g h.

Definition sha256_transform (state : list Z) (input : bytes) : list Z :=
  let W := Nat.iter 48 BLEND_OP (load_words input) in
  let st n := nth n state 0 in
  let r := Regs (st 0%nat) (st 1%nat) (st 2%nat) (st 3%nat) (st 4%nat) (st 5%nat) (st 6%nat) (st 7%nat) in
  let '(Regs a b c d e f g h) :=
    fold_left (fun r i => sha256_rounds8 W i r) [0; 8; 16; 24; 32; 40; 48; 56]%nat r in
  [st 0%nat +32 a; st 1%nat +32 b; st 2%nat +32 c; st 3%nat +32 d;
   st 4%nat +32 e; st 5%nat +32 f; st 6%nat +32 g; st 7%nat +32 h].

Definition SHA256_H : list Z :=
  [0x6a09e667; 0xbb67ae85; 0x3c6ef372; 0xa54ff53a; 0x510e527f; 0x9b05688c; 0x1f83d9ab; 0x5be0cd19].
Definition SHA224_H : list Z :=
  [0xc1059ed8; 0x367cd507; 0x3070dd17; 0xf70e5939; 0xffc00b31; 0x68581511; 0x64f98fa7; 0xbefa4fa4].

Definition SHA256_DIGEST_SIZE : nat := 32.
Definition SHA224_DIGEST_SIZE : nat := 28.

Definition sha224_init (sctx : sha_ctx) : sha_ctx := ShaCtx 0 SHA224_H (sc_buf sctx).
Definition sha256_init (sctx : sha_ctx) : sha_ctx := ShaCtx 0 SHA256_H (sc_buf sctx).

(** The condition of the loop over the blocks. *)
Definition sha256_again (done len : Z) : bool := u32 (done + 63) <? len.

(** [None] for a call that does not return. *)
Definition sha256_update : sha_ctx -> bytes -> option sha_ctx := sha_update sha256_transform sha256_again.

(** The digest, and the context wiped. *)
Definition sha256_final (sctx : sha_ctx) : bytes * sha_ctx :=
  (be_words (take 8 (sha_finish sha256_transform sha256_again sctx)), ShaCtx 0 (replicate 8 0) (zeros 64)).
Definition sha224_final (sctx : sha_ctx) : bytes * sha_ctx :=
  let (D, sctx) := sha256_final sctx in (take SHA224_DIGEST_SIZE D, sctx).

(** ** Specification: FIPS 180-4, section 6.2 *)

Definition fips_Ch (x y z : Z) : Z := Z.lxor (Z.land x y) (Z.land (Z.lnot x) z).
Definition fips_Maj (x y z : Z) : Z := Z.lxor (Z.lxor (Z.land x y) (Z.land x z)) (Z.land y z).

Definition fips_round (k w : Z) (r : regs) : regs :=
  let '(Regs a b c d e f g h) := r in
  let T1 := u32 (u32 (u32 (u32 (h + e1 e) + fips_Ch e f g) + k) + w) in
  let T2 := u32 (e0 a + fips_Maj a b c) in
  Regs (u32 (T1 + T2)) a b c (u32 (d + T1)) e f g.

(** The message schedule: the word at [t]. *)
Fixpoint fips_W (fuel : nat) (input : bytes) (t : nat) : Z :=
  match fuel with
  | O => 0
  | S fuel' =>
      if (t <? 16)%nat then be_word input t else
      let W n := fips_W fuel' input (t - n) in
      u32 (u32 (u32 (s1 (W 2%nat) + W 7%nat) + s0 (W 15%nat)) + W 16%nat)
  end.

Definition fips_compress (state : list Z) (input : bytes) : list Z :=
  let st n := nth n state 0 in
  let r := Regs (st 0%nat) (st 1%nat) (st 2%nat) (st 3%nat) (st 4%nat) (st 5%nat) (st 6%nat) (st 7%nat) in
  let '(Regs a b c d e f g h) :=
    fold_left (fun r t => fips_round (nth t sha256_K 0) (fips_W 65 input t) r) (seq 0 64) r in
  [u32 (st 0%nat + a); u32 (st 1%nat + b); u32 (st 2%nat + c); u32 (st 3%nat + d);
   u32 (st 4%nat + e); u32 (st 5%nat + f); u32 (st 6%nat + g); u32 (st 7%nat + h)].

(** SHA-256 of a message. *)
Definition sha256 (msg : bytes) : bytes :=
  be_words (sha_fold fips_compress SHA256_H (sha_pad msg)).
Definition sha224 (msg : bytes) : bytes :=
  take SHA224_DIGEST_SIZE (be_words (sha_fold fips_compress SHA224_H (sha_pad msg))).

Definition zero_ctx : sha_ctx := ShaCtx 0 [] (zeros 64).
Definition hex (b : bytes) : list Z := bval <$> b.

Example sha256_abc :
  (fun c => hex (fst (sha256_final c))) <$> sha256_update (sha256_init zero_ctx) (cstr "abc") =
  Some [0xba;0x78;0x16;0xbf;0x8f;0x01;0xcf;0xea;0x41;0x41;0x40;0xde;0x5d;0xae;0x22;0x23;
   0xb0;0x03;0x61;0xa3;0x96;0x17;0x7a;0x9c;0xb4;0x10;0xff;0x61;0xf2;0x00;0x15;0xad].
Proof. vm_compute. reflexivity. Qed.

(** ** Lemmas *)

Lemma Ch_fips x y z : Ch x y z = fips_Ch x y z.
Proof.
  unfold Ch, fips_Ch. apply Z.bits_inj'. intros n Hn.
  rewrite !Z.lxor_spec, !Z.land_spec, !Z.lxor_spec, Z.lnot_spec by done.
  by destruct (Z.testbit x n), (Z.testbit y n), (Z.testbit z n).
Qed.

Lemma Maj_fips x y z : Maj x y z = fips_Maj x y z.
Proof.
  unfold Maj, fips_Maj. apply Z.bits_inj'. intros n Hn.
  rewrite !Z.lxor_spec, !Z.lor_spec, !Z.land_spec, !Z.lor_spec.
  by destruct (Z.testbit x n), (Z.testbit y n), (Z.testbit z n).
Qed.

(** One round of the code on registers in the order of the specification. *)
Definition code_round (k w : Z) (r : regs) : regs :=
  let '(Regs a b c d e f g h) := r in
  let t1 := h +32 e1 e +32 Ch e f g +32 k +32 w in
  let t2 := e0 a +32 Maj a b c in
  Regs (t1 +32 t2) a b c (d +32 t1) e f g.

Lemma code_round_fips k w r : code_round k w r = fips_round k w r.
Proof. destruct r. unfold code_round, fips_round. by rewrite Ch_fips, Maj_fips. Qed.

Lemma rounds8_code Ws i r :
  sha256_rounds8 Ws i r =
  fold_left (fun r n => code_round (nth (i + n) sha256_K 0) (nth (i + n) Ws 0) r) (seq 0 8) r.
Proof. destruct r. reflexivity. Qed.

Lemma fips_W_fuel f1 : forall f2 input t, (t < f1)%nat -> (t < f2)%nat ->
  fips_W f1 input t = fips_W f2 input t.
Proof.
  induction f1 as [|f1 IH]; intros [|f2] input t H1 H2; try lia. cbn [fips_W].
  destruct (Nat.ltb_spec t 16); [done|]. cbv zeta.
  by rewrite !(IH f2 input (t - _)%nat) by lia.
Qed.

Lemma length_schedule k input : length (Nat.iter k BLEND_OP (load_words input)) = (16 + k)%nat.
Proof.
  induction k as [|k IH]; [reflexivity|]. simpl Nat.iter. unfold BLEND_OP at 1.
  rewrite length_app, IH. simpl. lia.
Qed.

(** The words of the code are those of the message schedule. *)
Lemma schedule_fips k input t f : (t < 16 + k)%nat -> (t < f)%nat ->
  nth t (Nat.iter k BLEND_OP (load_words input)) 0 = fips_W f input t.
Proof.
  revert t f. induction k as [|k IH]; intros t f Ht Hf; (destruct f as [|f]; [lia|]); cbn [fips_W].
  - destruct (Nat.ltb_spec t 16); [|lia]. simpl Nat.iter. unfold load_words.
    by rewrite nth_lookup, list_lookup_fmap, lookup_seq_lt by lia.
  - cbn [Nat.iter nat_rect]. set (W := Nat.iter k BLEND_OP (load_words input)).
    assert (length W = (16 + k)%nat) as Hl by apply length_schedule.
    change (nat_rect _ _ _ k) with W. unfold BLEND_OP. cbv zeta.
    destruct (decide (t < 16 + k)%nat) as [Hlt|Hge].
    + rewrite app_nth1 by lia. unfold W. rewrite (IH t (S f)) by lia. reflexivity.
    + assert (t = 16 + k)%nat as -> by lia. rewrite app_nth2, Hl, Nat.sub_diag by lia. cbn [nth].
      destruct (Nat.ltb_spec (16 + k) 16); [lia|].
      unfold W. by rewrite !(IH (16 + k - _)%nat f) by lia.
Qed.

Lemma fold_left_64 (f : regs -> nat -> regs) r :
  fold_left (fun r i => fold_left (fun r n => f r (i + n)%nat) (seq 0 8) r)
    [0; 8; 16; 24; 32; 40; 48; 56]%nat r = fold_left f (seq 0 64) r.
Proof. reflexivity. Qed.

Lemma fold_left_ext {A B} (f g : A -> B -> A) l a :
  (forall a b, b ∈ l -> f a b = g a b) -> fold_left f l a = fold_left g l a.
Proof.
  revert a. induction l as [|b l IH]; intros a H; [done|]. simpl.
  rewrite H by set_solver. apply IH. set_solver.
Qed.

(** The unrolled compression function is the one of the standard. *)
Lemma sha256_transform_fips st input : sha256_transform st input = fips_compress st input.
Proof.
  unfold sha256_transform, fips_compress. set (W := Nat.iter 48 BLEND_OP (load_words input)).
  set (r := Regs _ _ _ _ _ _ _ _).
  assert (fold_left (fun r i => sha256_rounds8 W i r) [0; 8; 16; 24; 32; 40; 48; 56]%nat r
    = fold_left (fun r t => fips_round (nth t sha256_K 0) (fips_W 65 input t) r) (seq 0 64) r) as ->; [|done].
  rewrite <-fold_left_64. apply fold_left_ext. intros r1 i Hi. rewrite rounds8_code.
  apply fold_left_ext. intros r2 n Hn. rewrite code_round_fips. unfold W.
  assert (i + n < 64)%nat.
  { apply list_elem_of_In, in_seq in Hn. rewrite !elem_of_cons, elem_of_nil in Hi. lia. }
  by rewrite (schedule_fips 48 input (i + n) 65) by lia.
Qed.

Lemma length_fold256 init msg : length init = 8%nat -> length (sha_fold fips_compress init msg) = 8%nat.
Proof.
  apply (sha_fold_ind fips_compress (fun st => length st = 8%nat)).
  intros st b _. unfold fips_compress. by destruct (fold_left _ _ _).
Qed.

Lemma sha256_again_short dn len : 0 <= dn <= len -> short_chunk len -> sha256_again dn len = (dn + 64 <=? len).
Proof.
  unfold short_chunk, sha256_again. intros. rewrite u32_small by lia.
  destruct (Z.ltb_spec (dn + 63) len), (Z.leb_spec (dn + 64) len); lia.
Qed.

(** A chunk of 2^32 bytes or more: the call does not return. *)
Lemma sha256_update_endless sctx data : 2 ^ 32 <= Z.of_nat (length data) -> sha256_update sctx data = None.
Proof.
  intros Hd. unfold sha256_update, sha_update. rewrite land_63. pose proof (Z.mod_pos_bound (sc_count sctx) 64 ltac:(lia)).
  rewrite (proj2 (Z.ltb_lt _ _)) by lia. rewrite sha_rounds_endless; [done|].
  intros dn Hdn. unfold sha256_again. pose proof (u32_range (dn + 63)). lia.
Qed.

(** Finishing a context that stands for [msg]. *)
Lemma sha256_finish_inv init sctx msg :
  length init = 8%nat -> sha_inv sha256_transform init sctx msg ->
  take 8 (sha_finish sha256_transform sha256_again sctx) = sha_fold fips_compress init (sha_pad msg).
Proof.
  intros Hi H. rewrite (sha_finish_spec _ _ sha256_again_short _ _ _ H), (sha_fold_ext _ _ _ _ sha256_transform_fips).
  by apply take_ge, Nat.eq_le_incl, length_fold256.
Qed.

(** Any chunks that are short enough. *)
Definition sha256_updates (sctx : sha_ctx) (ds : list bytes) : option sha_ctx :=
  foldl (fun c d => c ≫= fun c => sha256_update c d) (Some sctx) ds.

(** Hashing from any initial state of eight words. *)
Lemma sha256_finish_spec init sctx ds :
  length (sc_buf sctx) = SHA_BLOCK_SIZE -> length init = 8%nat -> Forall (fun d => short_chunk (Z.of_nat (length d))) ds ->
  exists c, sha256_updates (ShaCtx 0 init (sc_buf sctx)) ds = Some c /\
    take 8 (sha_finish sha256_transform sha256_again c) = sha_fold fips_compress init (sha_pad (mjoin ds)).
Proof.
  intros Hb Hi Hds. destruct (sha_updates_inv sha256_transform _ sha256_again_short init ds Hds (ShaCtx 0 init (sc_buf sctx)) [])
    as (c & E & Hc); [by apply sha_init_inv|]. exists c. split; [exact E|]. by apply sha256_finish_inv.
Qed.

(** ** Claims *)

(** C10: hashing a message in any number of pieces, each of less than 2^32 - 64 bytes (from
    2^32 on the counter of 32 bits keeps the call from returning), returns and gives the
    SHA-256 digest of the whole message as FIPS 180-4 defines it (with the length
    field modulo 2^64), and the context, whatever it held before, is wiped. *)
Theorem sha256_streaming sctx ds :
  length (sc_buf sctx) = SHA_BLOCK_SIZE -> Forall (fun d => Z.of_nat (length d) + 64 < 2 ^ 32) ds ->
  exists c, sha256_updates (sha256_init sctx) ds = Some c /\
    sha256_final c = (sha256 (mjoin ds), ShaCtx 0 (replicate 8 0) (zeros 64)).
Proof.
  intros Hb Hds. destruct (sha256_finish_spec SHA256_H sctx ds Hb eq_refl Hds) as (c & E & Hc). exists c. split; [exact E|].
  unfold sha256_final, sha256. by rewrite Hc.
Qed.

Lemma sha256_streaming_witness :
  exists c, (sha256_update (sha256_init zero_ctx) (cstr "a") ≫= fun c => sha256_update c (cstr "bc")) = Some c /\
    sha256_final c = (sha256 (cstr "abc"), ShaCtx 0 (replicate 8 0) (zeros 64)).
Proof. apply (sha256_streaming zero_ctx [cstr "a"; cstr "bc"]); repeat constructor. Defined.

(** The same for SHA-224, whose digest is the first 28 bytes. *)
Theorem sha224_streaming sctx ds :
  length (sc_buf sctx) = SHA_BLOCK_SIZE -> Forall (fun d => Z.of_nat (length d) + 64 < 2 ^ 32) ds ->
  exists c, sha256_updates (sha224_init sctx) ds = Some c /\
    sha224_final c = (sha224 (mjoin ds), ShaCtx 0 (replicate 8 0) (zeros 64)).
Proof.
  intros Hb Hds. destruct (sha256_finish_spec SHA224_H sctx ds Hb eq_refl Hds) as (c & E & Hc). exists c. split; [exact E|].
  unfold sha224_final, sha256_final, sha224. by rewrite Hc.
Qed.

Lemma sha224_streaming_witness :
  exists c, sha256_update (sha224_init zero_ctx) (cstr "abc") = Some c /\
    sha224_final c = (sha224 (cstr "abc"), ShaCtx 0 (replicate 8 0) (zeros 64)).
Proof. apply (sha224_streaming zero_ctx [cstr "abc"]); repeat constructor. Defined.
