(* ===== verification/Digest.v ===== *)
(** * Digests (src/crypto/digest.c, src/digest.h)

    The registry of algorithms, the generic digest and verify functions, and the
    class through which clients hash. [DigestOps] is the function table of an
    algorithm on its context; [DigestLaws] says that it hashes the concatenation
    of what it is fed. The algorithms of sha1.c and sha2.c are instances. *)

From S2P Require Import Prelude Sysfile HashStream Sha1 Sha256.

(** ** The registry *)

(** The algorithms the function pointers of an entry belong to: one of sha1.c
    and sha2.c, or hmac.c over the algorithm of a name with a block length. *)
Inductive sha_algo : Type := ALGO_SHA1 | ALGO_SHA224 | ALGO_SHA256.
Inductive digest_impl : Type :=
| ImplSha (a : sha_algo)
| ImplHmac (name : bytes) (pad_length : nat).

(** [struct digest_algo]: the fields that registration and lookup look at; the
    function pointers are shown by whether they are set and by [da_impl]. *)
Record digest_algo : Type := DigestAlgo {
  da_name : option bytes;
  da_driver_name : bytes;
  da_priority : Z;
  da_algo : Z;
  da_update : bool;
  da_final : bool;
  da_verify : bool;
  da_init : bool;
  da_alloc : bool;
  da_free : bool;
  da_impl : digest_impl
}.

(** The list [digests] after registration; [None] is a NULL pointer. *)
Definition digest_algo_register (digests : list digest_algo) (d : option digest_algo)
  : Z * list digest_algo :=
  match d with
  | None => (- EINVAL, digests)
  | Some d =>
      if negb (bool_decide (is_Some (da_name d))) || negb (da_update d) || negb (da_final d)
         || negb (da_verify d)
      then (- EINVAL, digests)
      else (0, digests ++ [DigestAlgo (da_name d) (da_driver_name d) (da_priority d) (da_algo d)
                             true true true true true true (da_impl d)])
  end.

(** The loop both lookups share: the last entry that beats the priority so far. *)
Fixpoint digest_algo_select (matches : digest_algo -> bool) (digests : list digest_algo)
    (d : option digest_algo) (priority : Z) : option digest_algo :=
  match digests with
  | [] => d
  | tmp :: digests' =>
      if negb (matches tmp) then digest_algo_select matches digests' d priority
      else if da_priority tmp <=? priority then digest_algo_select matches digests' d priority
      else digest_algo_select matches digests' (Some tmp) (da_priority tmp)
  end.

Definition digest_algo_get_by_name (digests : list digest_algo) (name : option bytes)
  : option digest_algo :=
  match name with
  | None => None
  | Some name => digest_algo_select (fun a => bool_decide (da_name a = Some name)) digests None (-1)
  end.

Definition digest_algo_get_by_algo (digests : list digest_algo) (algo : Z) : option digest_algo :=
  digest_algo_select (fun a => da_algo a =? algo) digests None (-1).

(** ** The function table of an algorithm *)

(** [digest_init], [digest_update], [digest_final] and [digest_length]. *)
Class DigestOps (D : Type) := {
  digest_init : D -> Z * D;
  digest_update : D -> bytes -> Z * D;
  digest_final : D -> Z * bytes * D;
  digest_length : D -> nat
}.

(** [digest_generic_verify]: the digest is compared over its length. *)
Definition digest_generic_verify {D} `{DigestOps D} (d : D) (md : bytes) : Z * D :=
  let len := digest_length d in
  let '(ret, tmp, d) := digest_final d in
  if negb (ret =? 0) then (ret, d) else
  ((if bool_decide (take len md = take len tmp) then 0 else - EINVAL), d).

(** [digest_generic_digest]; [data] is [None] for a NULL pointer. *)
Definition digest_generic_digest {D} `{DigestOps D} (d : D) (data : option bytes)
  : Z * bytes * D :=
  match data with
  | None => (- EINVAL, [], d)
  | Some data =>
      if (length data =? 0)%nat then (- EINVAL, [], d) else
      let (ret, d) := digest_init d in
      if negb (ret =? 0) then (ret, [], d) else
      let (ret, d) := digest_update d data in
      if negb (ret =? 0) then (ret, [], d) else
      digest_final d
  end.

(** What an algorithm promises: [dg_ok] contexts can be initialised, and then
    stand for the bytes they have been fed, of which [hash] is the digest, as long as
    every chunk is shorter than 2^32 - 64 bytes. *)
Class DigestLaws (D : Type) `{DigestOps D} := {
  dg_hash : D -> bytes -> bytes;
  dg_ok : D -> Prop;
  dg_inv : D -> bytes -> Prop;
  law_init d : dg_ok d -> exists d', digest_init d = (0, d') /\ dg_inv d' [] /\
    dg_hash d' = dg_hash d /\ digest_length d' = digest_length d;
  law_update d m x : dg_inv d m -> short_chunk (Z.of_nat (length x)) -> exists d', digest_update d x = (0, d') /\ dg_inv d' (m ++ x) /\
    dg_hash d' = dg_hash d /\ digest_length d' = digest_length d;
  law_final d m : dg_inv d m -> exists d', digest_final d = (0, dg_hash d m, d') /\ dg_ok d' /\
    dg_hash d' = dg_hash d /\ digest_length d' = digest_length d;
  law_inv_ok d m : dg_inv d m -> dg_ok d;
  law_hash_length d m : dg_inv d m -> length (dg_hash d m) = digest_length d;
  law_length d m : dg_inv d m -> short_chunk (Z.of_nat (digest_length d))
}.

(** Feeding a message in pieces. *)
Lemma law_updates {D} `{DigestLaws D} (d : D) m ds : dg_inv d m -> Forall (fun x => short_chunk (Z.of_nat (length x))) ds ->
  exists d', foldl (fun r x => digest_update (snd r) x) (0, d) ds = (0, d') /\
    dg_inv d' (m ++ mjoin ds) /\ dg_hash d' = dg_hash d /\ digest_length d' = digest_length d.
Proof.
  intros Hi Hds. revert d m Hi. induction Hds as [|x ds Hx _ IH]; intros d m Hi.
  - exists d. cbn [foldl mjoin list_join]. by rewrite app_nil_r.
  - cbn [foldl snd]. destruct (law_update d m x Hi Hx) as (d1 & -> & Hi1 & Hh1 & Hl1).
    destruct (IH d1 _ Hi1) as (d2 & E & Hi2 & Hh2 & Hl2). exists d2. split; [exact E|].
    change (mjoin (x :: ds)) with (x ++ mjoin ds). rewrite app_assoc, Hh2, Hh1, Hl2, Hl1. done.
Qed.

(** ** The algorithms of the repository *)

(** [struct digest] with the algorithm and its context. *)
Record digest : Type := Digest { d_algo : sha_algo; d_ctx : sha_ctx }.

(** The tables [m], [m224] and [m256]; [temp] is the work space of SHA-1. An update that
    does not return has no result, and the context stands for one; the law of the
    updates is about the chunks for which they return. *)
Definition sha_digest_init (d : digest) : Z * digest :=
  (0, Digest (d_algo d) match d_algo d with
      | ALGO_SHA1 => sha1_init (d_ctx d)
      | ALGO_SHA224 => sha224_init (d_ctx d)
      | ALGO_SHA256 => sha256_init (d_ctx d)
      end).
Definition sha_digest_update (d : digest) (data : bytes) : Z * digest :=
  (0, Digest (d_algo d) match d_algo d with
      | ALGO_SHA1 => default (d_ctx d) (sha1_update (replicate 16 0) (d_ctx d) data)
      | _ => default (d_ctx d) (sha256_update (d_ctx d) data)
      end).
Definition sha_digest_final (d : digest) : Z * bytes * digest :=
  let (md, ctx) := match d_algo d with
      | ALGO_SHA1 => sha1_final (replicate 16 0) (d_ctx d)
      | ALGO_SHA224 => sha224_final (d_ctx d)
      | ALGO_SHA256 => sha256_final (d_ctx d)
      end in (0, md, Digest (d_algo d) ctx).
Definition sha_digest_length (d : digest) : nat :=
  match d_algo d with
  | ALGO_SHA1 => SHA1_DIGEST_SIZE
  | ALGO_SHA224 => SHA224_DIGEST_SIZE
  | ALGO_SHA256 => SHA256_DIGEST_SIZE
  end.

#[export] Instance sha_digest_ops : DigestOps digest := {
  digest_init := sha_digest_init;
  digest_update := sha_digest_update;
  digest_final := sha_digest_final;
  digest_length := sha_digest_length
}.

Definition sha_hash (a : sha_algo) : bytes -> bytes :=
  match a with ALGO_SHA1 => sha1 | ALGO_SHA224 => sha224 | ALGO_SHA256 => sha256 end.

(** The context of an algorithm stands for the message [m]. *)
Definition sha_digest_inv (d : digest) (m : bytes) : Prop :=
  match d_algo d with
  | ALGO_SHA1 => sha_inv (sha_transform (replicate 16 0)) SHA1_H (d_ctx d) m
  | ALGO_SHA224 => sha_inv sha256_transform SHA224_H (d_ctx d) m
  | ALGO_SHA256 => sha_inv sha256_transform SHA256_H (d_ctx d) m
  end.

Lemma sha_digest_update_inv d m x : sha_digest_inv d m -> short_chunk (Z.of_nat (length x)) ->
  sha_digest_inv (snd (sha_digest_update d x)) (m ++ x).
Proof.
  unfold sha_digest_inv, sha_digest_update. cbn [snd d_algo d_ctx]. intros H Hx. destruct (d_algo d).
  - by apply (sha_fed_inv _ _ sha1_again_short).
  - by apply (sha_fed_inv _ _ sha256_again_short).
  - by apply (sha_fed_inv _ _ sha256_again_short).
Qed.

Lemma sha_digest_final_inv d m : sha_digest_inv d m ->
  sha_digest_final d = (0, sha_hash (d_algo d) m,
    Digest (d_algo d) (ShaCtx 0 (replicate (match d_algo d with ALGO_SHA1 => 5 | _ => 8 end) 0) (zeros 64))).
Proof.
  destruct d as [a ctx]. unfold sha_digest_inv, sha_digest_final. cbn [d_algo d_ctx].
  destruct a; intros H.
  - unfold sha1_final, sha_hash, sha1. by rewrite (sha1_finish_inv (replicate 16 0) _ _ eq_refl H).
  - unfold sha224_final, sha256_final, sha_hash, sha224. by rewrite (sha256_finish_inv SHA224_H _ _ eq_refl H).
  - unfold sha256_final, sha_hash, sha256. by rewrite (sha256_finish_inv SHA256_H _ _ eq_refl H).
Qed.

Lemma length_be_words st : length (be_words st) = (4 * length st)%nat.
Proof.
  unfold be_words. induction st as [|w st IH]; [done|].
  change (mjoin (be32 <$> (w :: st))) with (be32 w ++ mjoin (be32 <$> st)). cbn [length].
  rewrite length_app, length_be32, IH. lia.
Qed.

Lemma length_sha_hash d m : length (sha_hash (d_algo d) m) = sha_digest_length d.
Proof.
  unfold sha_digest_length, sha_hash. destruct (d_algo d).
  - unfold sha1. rewrite length_be_words, length_fold1; done.
  - unfold sha224. rewrite length_take, length_be_words, length_fold256; done.
  - unfold sha256. rewrite length_be_words, length_fold256; done.
Qed.

#[export] Instance sha_digest_laws : DigestLaws digest.
Proof.
  refine (Build_DigestLaws digest _ (fun d => sha_hash (d_algo d))
    (fun d => length (sc_buf (d_ctx d)) = SHA_BLOCK_SIZE) sha_digest_inv _ _ _ _ _ _).
  - intros d Hb. eexists. split; [done|]. split; [|done]. unfold sha_digest_inv, sha_digest_init. simpl.
    destruct (d_algo d); by apply sha_init_inv.
  - intros d m x H Hx. eexists. split; [done|]. split; [|done]. by apply sha_digest_update_inv.
  - intros d m H. eexists. split; [by apply sha_digest_final_inv|]. done.
  - intros d m. unfold sha_digest_inv, sha_inv. destruct (d_algo d); tauto.
  - intros d m _. apply length_sha_hash.
  - intros d m _. unfold digest_length, sha_digest_ops, sha_digest_length. by destruct (d_algo d).
Defined.

(** ** Lemmas on the registry *)

Lemma digest_algo_select_spec P l : forall d p,
  let r := digest_algo_select P l d p in
  (r = d /\ Forall (fun a => P a = true -> da_priority a <= p) l) \/
  exists pre a post, l = pre ++ a :: post /\ r = Some a /\ P a = true /\ p < da_priority a /\
    Forall (fun b => P b = true -> da_priority b < da_priority a) pre /\
    Forall (fun b => P b = true -> da_priority b <= da_priority a) post.
Proof.
  induction l as [|x l IH]; intros d p; simpl; [by left|].
  destruct (P x) eqn:Ex; simpl; [destruct (Z.leb_spec (da_priority x) p)|].
  - destruct (IH d p) as [[-> H1]|(pre & a & post & -> & -> & Ha & Hp & H1 & H2)].
    + left. split; [done|]. constructor; [done|done].
    + right. exists (x :: pre), a, post. split; [done|]. split; [done|]. split; [done|]. split; [done|].
      split; [constructor; [lia|done]|done].
  - destruct (IH (Some x) (da_priority x)) as [[-> H1]|(pre & a & post & -> & -> & Ha & Hp & H1 & H2)].
    + right. exists [], x, l. split; [done|]. split; [done|]. split; [done|]. split; [lia|]. by split.
    + right. exists (x :: pre), a, post. split; [done|]. split; [done|]. split; [done|]. split; [lia|].
      split; [constructor; [lia|done]|done].
  - destruct (IH d p) as [[-> H1]|(pre & a & post & -> & -> & Ha & Hp & H1 & H2)].
    + left. split; [done|]. constructor; [congruence|done].
    + right. exists (x :: pre), a, post. split; [done|]. split; [done|]. split; [done|]. split; [done|].
      split; [constructor; [congruence|done]|done].
Qed.

(** ** Claims *)

(** A lookup by name returns the first of the registered algorithms of that
    name that has the highest priority, and nothing when all of that name have
    a negative one. *)
Theorem digest_algo_lookup digests name :
  match digest_algo_get_by_name digests (Some name) with
  | Some a => exists pre post, digests = pre ++ a :: post /\ da_name a = Some name /\
      0 <= da_priority a /\
      Forall (fun b => da_name b = Some name -> da_priority b < da_priority a) pre /\
      Forall (fun b => da_name b = Some name -> da_priority b <= da_priority a) post
  | None => Forall (fun b => da_name b = Some name -> da_priority b < 0) digests
  end.
Proof.
  unfold digest_algo_get_by_name.
  destruct (digest_algo_select_spec (fun a => bool_decide (da_name a = Some name)) digests None (-1))
    as [[-> H]|(pre & a & post & -> & -> & Ha & Hp & H1 & H2)].
  - eapply Forall_weaken; [apply H|]. intros x Hx E. simpl in Hx.
    rewrite bool_decide_eq_true in Hx. specialize (Hx E). lia.
  - exists pre, post. split; [done|]. split; [by apply bool_decide_eq_true_1 in Ha|]. split; [lia|]. split.
    + eapply Forall_weaken; [apply H1|]. intros x Hx E. apply Hx. by apply bool_decide_eq_true_2.
    + eapply Forall_weaken; [apply H2|]. intros x Hx E. apply Hx. by apply bool_decide_eq_true_2.
Qed.

(** The generic verify function accepts exactly the digest of what the
    context has been fed, for every algorithm that keeps the laws. *)
Theorem digest_verify_correct {D} `{DigestLaws D} (d : D) m md :
  dg_inv d m -> length md = digest_length d ->
  fst (digest_generic_verify d md) = if bool_decide (md = dg_hash d m) then 0 else - EINVAL.
Proof.
  intros Hi Hl. unfold digest_generic_verify. destruct (law_final d m Hi) as (d' & -> & _).
  cbn [Z.eqb negb fst]. rewrite take_ge by lia. rewrite take_ge by (by rewrite (law_hash_length d m Hi)). done.
Qed.

Lemma digest_verify_correct_witness :
  let d := snd (sha_digest_update (snd (sha_digest_init (Digest ALGO_SHA1 (ShaCtx 0 [] (zeros 64))))) (cstr "abc")) in
  fst (digest_generic_verify d (zeros 20)) = if bool_decide (zeros 20 = dg_hash d (cstr "abc")) then 0 else - EINVAL.
Proof.
  intros d. apply (digest_verify_correct d (cstr "abc") (zeros 20)); [|reflexivity].
  apply (sha_digest_update_inv (snd (sha_digest_init (Digest ALGO_SHA1 (ShaCtx 0 [] (zeros 64))))) [] (cstr "abc")); [|reflexivity].
  apply (sha_init_inv (sha_transform (replicate 16 0)) SHA1_H (zeros 64)). reflexivity.
Defined.
