(* ===== verification/Hmac.v ===== *)
(** * HMAC (src/crypto/hmac.c)

    The keyed digest that protects the raw format, over any inner algorithm that
    keeps [DigestLaws]. The key buffer is modelled with its life time, because
    [digest_hmac_set_key] releases it before it uses it. *)

From S2P Require Import Prelude Sysfile HashStream Sha1 Sha256 Digest.

(** The pointer [dh->key]: NULL, a live buffer, or one that has been released;
    a released buffer reads as arbitrary bytes. *)
Inductive hmac_key : Type :=
| KeyNull
| KeyLive (key : bytes)
| KeyFreed (now : bytes).

(** [struct digest_hmac_ctx] with the [pad_length] of its [struct digest_hmac]
    and the [length] of its [struct digest]. *)
Record hmac (D : Type) : Type := Hmac {
  hm_d : D;
  hm_pad_length : nat;
  hm_length : nat;
  hm_ipad : bytes;
  hm_opad : bytes;
  hm_key : hmac_key;
  hm_keylen : nat
}.
Arguments Hmac {D}.
Arguments hm_d {D}.
Arguments hm_pad_length {D}.
Arguments hm_length {D}.
Arguments hm_ipad {D}.
Arguments hm_opad {D}.
Arguments hm_key {D}.
Arguments hm_keylen {D}.

Definition byte_xor (a b : Byte.byte) : Byte.byte := byte_of (Z.lxor (bval a) (bval b)).

(** What the pointer to the key reads as; [None] is NULL. *)
Definition key_data (k : hmac_key) : option bytes :=
  match k with KeyNull => None | KeyLive b | KeyFreed b => Some b end.

Section Hmac.
Context {D : Type} `{DigestOps D}.

Definition set_d (d : D) (h : hmac D) : hmac D :=
  Hmac d (hm_pad_length h) (hm_length h) (hm_ipad h) (hm_opad h) (hm_key h) (hm_keylen h).
Definition set_key (k : hmac_key) (len : nat) (h : hmac D) : hmac D :=
  Hmac (hm_d h) (hm_pad_length h) (hm_length h) (hm_ipad h) (hm_opad h) k len.
Definition set_pads (ipad opad : bytes) (h : hmac D) : hmac D :=
  Hmac (hm_d h) (hm_pad_length h) (hm_length h) ipad opad (hm_key h) (hm_keylen h).

(** [digest_hmac_alloc]; [inner] is what [digest_alloc] returns for the name. *)
Definition digest_hmac_alloc (pad_length : nat) (inner : option D) : Z * option (hmac D) :=
  match inner with
  | None => (- EINVAL, None)
  | Some d => (0, Some (Hmac d pad_length (digest_length d) (zeros pad_length) (zeros pad_length) KeyNull 0))
  end.

(** [digest_hmac_set_key]; [None] when the key buffer is released a second time,
    [garbage b] is what a released buffer that held [b] reads as. *)
Definition digest_hmac_set_key (garbage : bytes -> bytes) (h : hmac D) (key : bytes)
  : option (Z * hmac D) :=
  match hm_key h with
  | KeyFreed _ => None
  | k =>
      let k := match k with KeyLive b => KeyFreed (garbage b) | k => k end in
      let h := set_key k (hm_keylen h) h in
      if (hm_pad_length h <? length key)%nat then
        let data := take (hm_keylen h) <$> key_data k in
        let '(ret, sum, d) := digest_generic_digest (hm_d h) data in
        let h := set_d d h in
        if negb (ret =? 0) then Some (ret, h)
        else Some (0, set_key (KeyFreed (garbage sum)) (digest_length d) h)
      else Some (0, set_key (KeyLive key) (length key) h)
  end.

(** The loop of [digest_hmac_init] over a pad filled with [c]. *)
Definition xor_pad (c : Byte.byte) (pad_length : nat) (key : bytes) : bytes :=
  zip_with byte_xor (take (length key) (replicate pad_length c)) key
  ++ drop (length key) (replicate pad_length c).

Definition digest_hmac_init (h : hmac D) : Z * hmac D :=
  let key := take (hm_keylen h) (default [] (key_data (hm_key h))) in
  let h := set_pads (xor_pad Byte.x36 (hm_pad_length h) key) (xor_pad Byte.x5c (hm_pad_length h) key) h in
  let (ret, d) := digest_init (hm_d h) in
  let h := set_d d h in
  if negb (ret =? 0) then (ret, h) else
  let (ret, d) := digest_update (hm_d h) (hm_ipad h) in
  (ret, set_d d h).

Definition digest_hmac_update (h : hmac D) (data : bytes) : Z * hmac D :=
  let (ret, d) := digest_update (hm_d h) data in
  (ret, set_d d h).

Definition digest_hmac_final (h : hmac D) : Z * bytes * hmac D :=
  let '(ret, tmp, d) := digest_final (hm_d h) in
  if negb (ret =? 0) then (ret, [], set_d d h) else
  let (ret, d) := digest_init d in
  if negb (ret =? 0) then (ret, [], set_d d h) else
  let (ret, d) := digest_update d (hm_opad h) in
  if negb (ret =? 0) then (ret, [], set_d d h) else
  let (ret, d) := digest_update d (take (hm_length h) tmp) in
  if negb (ret =? 0) then (ret, [], set_d d h) else
  let '(ret, md, d) := digest_final d in
  (ret, md, set_d d h).

#[export] Instance hmac_ops : DigestOps (hmac D) := {
  digest_init := digest_hmac_init;
  digest_update := digest_hmac_update;
  digest_final := digest_hmac_final;
  digest_length := hm_length
}.
End Hmac.

(** ** Registration *)

(** [digest_hmac_register]; the registry and the names of dt-utils. *)
Definition digest_hmac_register (digests : list digest_algo) (name : option bytes) (pad_length : nat)
  : Z * list digest_algo :=
  match name with
  | None => (- EINVAL, digests)
  | Some name =>
      if (pad_length =? 0)%nat then (- EINVAL, digests) else
      digest_algo_register digests (Some
        (DigestAlgo (Some (cstr "hmac(" ++ name ++ cstr ")")) (cstr "hmac(" ++ name ++ cstr ")-generic")
           0 0 true true true true true true (ImplHmac name pad_length)))
  end.

(** [digest_hmac_initcall] with the algorithms of crypto/internal.h enabled. *)
Definition digest_hmac_initcall (digests : list digest_algo) : list digest_algo :=
  let digests := snd (digest_hmac_register digests (Some (cstr "sha1")) 64) in
  let digests := snd (digest_hmac_register digests (Some (cstr "sha224")) 64) in
  snd (digest_hmac_register digests (Some (cstr "sha256")) 64).

(** [sha1_digest_register], [sha224_digest_register], [sha256_digest_register];
    the numbers are those of [enum hash_algo]. *)
Definition sha_entry (name : string) (algo : Z) (impl : sha_algo) : digest_algo :=
  DigestAlgo (Some (cstr name)) (cstr name ++ cstr "-generic") 0 algo
    true true true true false false (ImplSha impl).
Definition sha_digest_register (digests : list digest_algo) : list digest_algo :=
  let digests := snd (digest_algo_register digests (Some (sha_entry "sha1" 2 ALGO_SHA1))) in
  let digests := snd (digest_algo_register digests (Some (sha_entry "sha224" 4 ALGO_SHA224))) in
  snd (digest_algo_register digests (Some (sha_entry "sha256" 5 ALGO_SHA256))).

(** The list [digests] when the constructors have run. *)
Definition digests : list digest_algo := sha_digest_register (digest_hmac_initcall []).

(** A [struct digest] of any algorithm. *)
Inductive any_digest : Type :=
| PlainDigest (d : digest)
| HmacDigest (h : hmac digest).

(** [digest_alloc] with the context zeroed. The algorithm below an HMAC is always
    one of sha1.c and sha2.c. *)
Definition sha_alloc (name : bytes) : option digest :=
  match da_impl <$> digest_algo_get_by_name digests (Some name) with
  | Some (ImplSha a) =>
      Some (Digest a (ShaCtx 0 (replicate (match a with ALGO_SHA1 => 5 | _ => 8 end) 0) (zeros SHA_BLOCK_SIZE)))
  | _ => None
  end.
Definition digest_alloc (name : bytes) : option any_digest :=
  match da_impl <$> digest_algo_get_by_name digests (Some name) with
  | Some (ImplSha _) => PlainDigest <$> sha_alloc name
  | Some (ImplHmac inner pad_length) =>
      match digest_hmac_alloc pad_length (sha_alloc inner) with
      | (0, Some h) => Some (HmacDigest h)
      | _ => None
      end
  | None => None
  end.

(** ** Specification (RFC 2104) *)

(** [HMAC(K, m) = H((K ^ opad) || H((K ^ ipad) || m))] for the inner hash [H],
    with the key padded by zeros to the block length. *)
Definition rfc2104 (H : bytes -> bytes) (block : nat) (key m : bytes) : bytes :=
  let K := key ++ zeros (block - length key) in
  H ((byte_xor Byte.x5c <$> K) ++ H ((byte_xor Byte.x36 <$> K) ++ m)).

Lemma byte_xor_zero c : byte_xor c Byte.x00 = c.
Proof. unfold byte_xor. rewrite Z.lxor_0_r. apply byte_of_bval. Qed.

Lemma xor_pad_spec c n key : (length key <= n)%nat ->
  xor_pad c n key = byte_xor c <$> (key ++ zeros (n - length key)).
Proof.
  intros Hn. unfold xor_pad. rewrite fmap_app. f_equal.
  - rewrite take_replicate, Nat.min_l by lia. clear Hn. induction key as [|k key IH]; [done|].
    cbn [length replicate zip_with]. by rewrite IH.
  - rewrite drop_replicate. unfold zeros. rewrite fmap_replicate. by rewrite byte_xor_zero.
Qed.

Section Laws.
Context {D : Type} `{DigestLaws D}.

(** The key is live and fits the block, so that all pointers are valid. *)
Definition hmac_keyed (h : hmac D) : Prop :=
  exists key, hm_key h = KeyLive key /\ hm_keylen h = length key /\
    (length key <= hm_pad_length h)%nat /\ short_chunk (Z.of_nat (hm_pad_length h)) /\
    hm_length h = digest_length (hm_d h).
Definition hmac_key_bytes (h : hmac D) : bytes := default [] (key_data (hm_key h)).

Definition hmac_ok (h : hmac D) : Prop := hmac_keyed h /\ dg_ok (hm_d h).
Definition hmac_inv (h : hmac D) (m : bytes) : Prop :=
  hmac_keyed h /\ hm_opad h = xor_pad Byte.x5c (hm_pad_length h) (hmac_key_bytes h) /\
  dg_inv (hm_d h) (xor_pad Byte.x36 (hm_pad_length h) (hmac_key_bytes h) ++ m).

(** What the code computes; [hmac_hash_rfc] relates it to the specification. *)
Definition hmac_hash (h : hmac D) (m : bytes) : bytes :=
  rfc2104 (dg_hash (hm_d h)) (hm_pad_length h) (hmac_key_bytes h) m.

Lemma keyed_set_d d (h : hmac D) : hmac_keyed h -> digest_length d = digest_length (hm_d h) ->
  hmac_keyed (set_d d h).
Proof. intros (key & Hk & Hl & Hp & Hs & Hn) Hd. exists key. simpl. by rewrite Hn. Qed.

Lemma length_xor_pad c n key : (length key <= n)%nat -> length (xor_pad c n key) = n.
Proof. intros Hk. rewrite xor_pad_spec, length_fmap, length_app, length_zeros by done. lia. Qed.

Lemma hmac_law_init h : hmac_ok h ->
  exists h', digest_hmac_init h = (0, h') /\ hmac_inv h' [] /\
    hmac_hash h' = hmac_hash h /\ hm_length h' = hm_length h.
Proof.
  intros ((key & Hk & Hl & Hp & Hs & Hn) & Hok). unfold digest_hmac_init. rewrite Hk, Hl.
  cbn [key_data default set_pads hm_d hm_ipad set_d]. unfold id. rewrite take_ge by lia.
  destruct (law_init _ Hok) as (d1 & -> & Hi1 & Hh1 & Hn1). cbn [Z.eqb negb].
  destruct (law_update _ _ (xor_pad Byte.x36 (hm_pad_length h) key) Hi1) as (d2 & -> & Hi2 & Hh2 & Hn2);
    [by rewrite length_xor_pad|].
  eexists. split; [done|]. unfold hmac_inv, hmac_hash, hmac_key_bytes, hmac_keyed. simpl. rewrite Hk.
  simpl. rewrite app_nil_r. split; [|by rewrite Hh2, Hh1].
  split; [exists key; by rewrite Hn, Hn2, Hn1|done].
Qed.

Lemma hmac_law_update h m x : hmac_inv h m -> short_chunk (Z.of_nat (length x)) ->
  exists h', digest_hmac_update h x = (0, h') /\ hmac_inv h' (m ++ x) /\
    hmac_hash h' = hmac_hash h /\ hm_length h' = hm_length h.
Proof.
  intros (Hk & Ho & Hi) Hx. unfold digest_hmac_update.
  destruct (law_update _ _ x Hi Hx) as (d1 & -> & Hi1 & Hh1 & Hn1).
  eexists. split; [done|]. unfold hmac_inv, hmac_hash, hmac_key_bytes in *. simpl.
  split; [|by rewrite Hh1]. split; [by apply keyed_set_d|]. split; [done|]. by rewrite app_assoc.
Qed.

Lemma hmac_law_final h m : hmac_inv h m ->
  exists h', digest_hmac_final h = (0, hmac_hash h m, h') /\ hmac_ok h' /\
    hmac_hash h' = hmac_hash h /\ hm_length h' = hm_length h /\ length (hmac_hash h m) = hm_length h.
Proof.
  intros (Hk & Ho & Hi). unfold digest_hmac_final.
  destruct (law_final _ _ Hi) as (d1 & -> & Hok & Hh1 & Hn1). cbn [Z.eqb negb].
  destruct (law_init _ Hok) as (d2 & -> & Hi2 & Hh2 & Hn2). cbn [Z.eqb negb].
  destruct Hk as (key & Hk & Hl & Hp & Hs & Hn).
  destruct (law_update _ _ (hm_opad h) Hi2) as (d3 & -> & Hi3 & Hh3 & Hn3).
  { rewrite Ho. unfold hmac_key_bytes. rewrite Hk. by rewrite length_xor_pad. }
  cbn [Z.eqb negb].
  rewrite take_ge by (rewrite (law_hash_length _ _ Hi), Hn; lia).
  set (md := dg_hash (hm_d h) _) in *.
  destruct (law_update _ _ md Hi3) as (d4 & -> & Hi4 & Hh4 & Hn4).
  { unfold md. rewrite (law_hash_length _ _ Hi). by eapply law_length. }
  cbn [Z.eqb negb].
  destruct (law_final _ _ Hi4) as (d5 & -> & Hok5 & Hh5 & Hn5).
  assert (dg_hash d4 (([] ++ hm_opad h) ++ md) = hmac_hash h m) as E.
  { unfold hmac_hash, rfc2104, md. rewrite Hh4, Hh3, Hh2, Hh1, Ho.
    unfold hmac_key_bytes. rewrite Hk. cbn [key_data default]. unfold id.
    by rewrite !xor_pad_spec by done. }
  eexists. split; [by rewrite E|]. split; [|split; [|split]].
  - split; [|done]. apply keyed_set_d; [by exists key|]. simpl in *. congruence.
  - unfold hmac_hash, hmac_key_bytes. simpl. by rewrite Hh5, Hh4, Hh3, Hh2, Hh1.
  - done.
  - rewrite <- E, (law_hash_length _ _ Hi4). congruence.
Qed.

#[export] Instance hmac_laws : DigestLaws (hmac D).
Proof.
  refine (Build_DigestLaws (hmac D) _ hmac_hash hmac_ok hmac_inv hmac_law_init hmac_law_update _ _ _ _).
  - intros h m Hi. destruct (hmac_law_final h m Hi) as (h' & Hf & Hok & Hh & Hl & _). by exists h'.
  - intros h m (Hk & _ & Hi). split; [done|]. by eapply law_inv_ok.
  - intros h m Hi. by destruct (hmac_law_final h m Hi) as (h' & _ & _ & _ & _ & Hl).
  - intros h m ((key & _ & _ & _ & _ & Hn) & _ & Hi). cbn [digest_length hmac_ops]. rewrite Hn. by eapply law_length.
Defined.

(** A key that fits the block is stored in a new buffer. *)
Lemma set_key_fits garbage (h : hmac D) key :
  dg_ok (hm_d h) -> hm_length h = digest_length (hm_d h) -> short_chunk (Z.of_nat (hm_pad_length h)) ->
  (length key <= hm_pad_length h)%nat -> (forall b, hm_key h <> KeyFreed b) ->
  exists h1, digest_hmac_set_key garbage h key = Some (0, h1) /\ hmac_ok h1 /\
    hmac_hash h1 = rfc2104 (dg_hash (hm_d h)) (hm_pad_length h) key.
Proof.
  intros Hok Hl Hs Hp Hk. exists (set_key (KeyLive key) (length key) h). split; [|split; [|done]].
  - unfold digest_hmac_set_key. destruct (hm_key h) as [| |b] eqn:E; [| |by destruct (Hk b)].
    all: cbn [hm_pad_length set_key]; by rewrite (proj2 (Nat.ltb_ge _ _) Hp).
  - split; [|done]. exists key. done.
Qed.
End Laws.

(** ** Digests of any algorithm *)

Definition any_init (d : any_digest) : Z * any_digest :=
  match d with
  | PlainDigest d => let (ret, d) := sha_digest_init d in (ret, PlainDigest d)
  | HmacDigest h => let (ret, h) := digest_hmac_init h in (ret, HmacDigest h)
  end.
Definition any_update (d : any_digest) (data : bytes) : Z * any_digest :=
  match d with
  | PlainDigest d => let (ret, d) := sha_digest_update d data in (ret, PlainDigest d)
  | HmacDigest h => let (ret, h) := digest_hmac_update h data in (ret, HmacDigest h)
  end.
Definition any_final (d : any_digest) : Z * bytes * any_digest :=
  match d with
  | PlainDigest d => let '(ret, md, d) := sha_digest_final d in (ret, md, PlainDigest d)
  | HmacDigest h => let '(ret, md, h) := digest_hmac_final h in (ret, md, HmacDigest h)
  end.
Definition any_length (d : any_digest) : nat :=
  match d with PlainDigest d => sha_digest_length d | HmacDigest h => hm_length h end.

(** [digest_set_key]: only HMACs take a key. *)
Definition digest_set_key (garbage : bytes -> bytes) (d : any_digest) (key : bytes)
  : option (Z * any_digest) :=
  match d with
  | PlainDigest _ => Some (- ENOTSUPP, d)
  | HmacDigest h =>
      match digest_hmac_set_key garbage h key with
      | Some (ret, h) => Some (ret, HmacDigest h)
      | None => None
      end
  end.

#[export] Instance any_ops : DigestOps any_digest := {
  digest_init := any_init;
  digest_update := any_update;
  digest_final := any_final;
  digest_length := any_length
}.

#[export] Instance any_laws : DigestLaws any_digest.
Proof.
  refine (Build_DigestLaws any_digest _
    (fun d => match d with PlainDigest d => dg_hash d | HmacDigest h => hmac_hash h end)
    (fun d => match d with PlainDigest d => dg_ok d | HmacDigest h => hmac_ok h end)
    (fun d => match d with PlainDigest d => dg_inv d | HmacDigest h => hmac_inv h end) _ _ _ _ _ _).
  - intros [d|h] Hok; cbn [digest_init any_ops any_init].
    + destruct (law_init d Hok) as (d' & E & ?). cbn in E. rewrite E. by exists (PlainDigest d').
    + destruct (hmac_law_init h Hok) as (h' & E & ?). rewrite E. by exists (HmacDigest h').
  - intros [d|h] m x Hi Hx; cbn [digest_update any_ops any_update].
    + destruct (law_update d m x Hi Hx) as (d' & E & ?). cbn in E. rewrite E. by exists (PlainDigest d').
    + destruct (hmac_law_update h m x Hi Hx) as (h' & E & ?). rewrite E. by exists (HmacDigest h').
  - intros [d|h] m Hi; cbn [digest_final any_ops any_final].
    + destruct (law_final d m Hi) as (d' & E & ?). cbn in E. rewrite E. by exists (PlainDigest d').
    + destruct (hmac_law_final h m Hi) as (h' & E & ? & ? & ? & _). rewrite E. by exists (HmacDigest h').
  - intros [d|h] m Hi; [by apply (law_inv_ok d m Hi)|by apply (@law_inv_ok _ _ hmac_laws h m Hi)].
  - intros [d|h] m Hi; [by apply (law_hash_length d m Hi)|].
    by destruct (hmac_law_final h m Hi) as (h' & _ & _ & _ & _ & Hl).
  - intros [d|h] m Hi; [by apply (law_length d m Hi)|by apply (@law_length _ _ hmac_laws h m Hi)].
Defined.

(** ** Claims *)

(** C9: setting a key that fits the block, initialising, feeding any chunks of less
    than 2^32 - 64 bytes and finishing yields the HMAC of RFC 2104 over the concatenation
    of the chunks, for every inner digest that keeps its laws, with blocks of less than
    that too (beyond it the updates of the inner digests need not return); the key buffer
    is released and replaced without a use of released memory. *)
Theorem hmac_correct {D} `{DigestLaws D} garbage (h : hmac D) key ds :
  dg_ok (hm_d h) -> hm_length h = digest_length (hm_d h) ->
  (length key <= hm_pad_length h)%nat -> (forall b, hm_key h <> KeyFreed b) ->
  Z.of_nat (hm_pad_length h) + 64 < 2 ^ 32 -> Forall (fun x => Z.of_nat (length x) + 64 < 2 ^ 32) ds ->
  exists h1 h2 h3 h4,
    digest_hmac_set_key garbage h key = Some (0, h1) /\
    digest_hmac_init h1 = (0, h2) /\
    foldl (fun r x => digest_hmac_update (snd r) x) (0, h2) ds = (0, h3) /\
    digest_hmac_final h3 = (0, rfc2104 (dg_hash (hm_d h)) (hm_pad_length h) key (mjoin ds), h4) /\
    hmac_ok h4.
Proof.
  intros Hok Hl Hp Hk Hs Hds. destruct (set_key_fits garbage h key Hok Hl Hs Hp Hk) as (h1 & E1 & Hok1 & Hh1).
  destruct (hmac_law_init h1 Hok1) as (h2 & E2 & Hi2 & Hh2 & _).
  destruct (@law_updates _ _ hmac_laws h2 [] ds Hi2 Hds) as (h3 & E3 & Hi3 & Hh3 & _).
  destruct (hmac_law_final h3 _ Hi3) as (h4 & E4 & Hok4 & _).
  exists h1, h2, h3, h4. split; [done|]. split; [done|]. split; [exact E3|]. split; [|done].
  rewrite E4. rewrite <- Hh1, <- Hh2. cbn in Hh3. by rewrite Hh3.
Qed.

Lemma hmac_correct_witness :
  let h := Hmac (Digest ALGO_SHA256 (ShaCtx 0 [] (zeros 64))) 64 32 (zeros 64) (zeros 64) KeyNull 0 in
  exists h1 h2 h3 h4,
    digest_hmac_set_key id h (cstr "key") = Some (0, h1) /\
    digest_hmac_init h1 = (0, h2) /\
    foldl (fun r x => digest_hmac_update (snd r) x) (0, h2) [cstr "ab"; cstr "c"] = (0, h3) /\
    digest_hmac_final h3 = (0, rfc2104 (dg_hash (hm_d h)) (hm_pad_length h) (cstr "key")
                                 (mjoin [cstr "ab"; cstr "c"]), h4) /\
    hmac_ok h4.
Proof.
  intros h. apply (hmac_correct id h (cstr "key") [cstr "ab"; cstr "c"]); [reflexivity|reflexivity| | | |].
  - vm_compute. lia.
  - intros b E. discriminate E.
  - reflexivity.
  - repeat constructor.
Defined.

(** A key longer than the block is never hashed: on a context without a
    previous key the call is refused, and otherwise the digest is taken over the
    released old key and the stored pointer is released as well, so that the
    next key change releases it twice. *)
Theorem hmac_long_key {D} `{DigestLaws D} garbage (h : hmac D) key :
  (hm_pad_length h < length key)%nat -> dg_ok (hm_d h) ->
  match hm_key h with
  | KeyNull => exists h', digest_hmac_set_key garbage h key = Some (- EINVAL, h') /\ hm_key h' = KeyNull
  | KeyLive _ => exists ret h', digest_hmac_set_key garbage h key = Some (ret, h') /\
      forall k, digest_hmac_set_key garbage h' k = None
  | KeyFreed _ => digest_hmac_set_key garbage h key = None
  end.
Proof.
  intros Hp Hok. destruct (hm_key h) as [|old|] eqn:Ek; unfold digest_hmac_set_key; rewrite Ek; [| |done].
  - cbn [hm_pad_length set_key]. rewrite (proj2 (Nat.ltb_lt _ _) Hp). eexists. split; [done|]. done.
  - cbn [hm_pad_length set_key]. rewrite (proj2 (Nat.ltb_lt _ _) Hp).
    destruct (digest_generic_digest _ _) as [[ret sum] d].
    destruct (negb (ret =? 0)); eexists _, _; by split.
Qed.

Lemma hmac_long_key_witness :
  exists h', digest_hmac_set_key id
    (Hmac (Digest ALGO_SHA1 (ShaCtx 0 [] (zeros 64))) 64 20 (zeros 64) (zeros 64) KeyNull 0) (zeros 65)
    = Some (- EINVAL, h') /\ hm_key h' = KeyNull.
Proof.
  apply (hmac_long_key id (Hmac (Digest ALGO_SHA1 (ShaCtx 0 [] (zeros 64))) 64 20 (zeros 64) (zeros 64) KeyNull 0)
           (zeros 65)); [|reflexivity].
  vm_compute. lia.
Defined.

(** The code on test case 2 of RFC 4231. *)
Example hmac_sha256_vector :
  let h := Hmac (Digest ALGO_SHA256 (ShaCtx 0 [] (zeros 64))) 64 32 (zeros 64) (zeros 64) KeyNull 0 in
  match digest_hmac_set_key id h (cstr "Jefe") with
  | Some (_, h) =>
      let '(_, md, _) := digest_hmac_final (snd (digest_hmac_update (snd (digest_hmac_init h))
                                                  (cstr "what do ya want for nothing?"))) in
      hex (take 8 md) = [0x5b; 0xdc; 0xc1; 0x46; 0xbf; 0x60; 0x75; 0x4e]
  | None => False
  end.
Proof. vm_compute. reflexivity. Qed.

Example hmac_registered :
  let digests := digest_hmac_initcall [] in
  (da_driver_name <$> digest_algo_get_by_name digests (Some (cstr "hmac(sha256)")))
  = Some (cstr "hmac(sha256)-generic").
Proof. vm_compute. reflexivity. Qed.
