(* ===== verification/DigestFile.v ===== *)
(** * The rest of the digest framework (src/crypto/digest.c)

    The search for an algorithm by its number, the table of algorithms, taking one out,
    and [digest_file_window] with its callers: a part of a file is read in pieces and
    fed to a digest. *)

From S2P Require Import Prelude Text Sysfile HashStream Sha1 Sha256 Digest Hmac.

(** ** The list of algorithms *)

(** [digest_alloc_by_algo] with the context zeroed. *)
Definition digest_alloc_by_algo (hash_algo : Z) : option any_digest :=
  match da_impl <$> digest_algo_get_by_algo digests hash_algo with
  | Some (ImplSha a) =>
      Some (PlainDigest (Digest a (ShaCtx 0 (replicate (match a with ALGO_SHA1 => 5 | _ => 8 end) 0) (zeros SHA_BLOCK_SIZE))))
  | Some (ImplHmac inner pad_length) =>
      match digest_hmac_alloc pad_length (sha_alloc inner) with
      | (0, Some h) => Some (HmacDigest h)
      | _ => None
      end
  | None => None
  end.

(** [digest_algo_unregister] of the entry at a place in the list; [None] is a null
    pointer. *)
Definition digest_algo_unregister (digests : list digest_algo) (d : option nat) : list digest_algo :=
  match d with None => digests | Some i => delete i digests end.

(** A number with its sign ([%d]). *)
Definition signed (z : Z) : bytes := if z <? 0 then Byte.x2d :: dec (- z) else dec z.

(** The lines that [digest_algo_prints] prints. Registered algorithms have a name. *)
Definition digest_algo_prints (digests : list digest_algo) (pre : bytes) : list bytes :=
  let tab := [Byte.x09] in
  (pre ++ field 15 (cstr "name") ++ tab ++ field 20 (cstr "driver") ++ tab ++ field 15 (cstr "priority"))
  :: (pre ++ cstr "--------------------------------------------------")
  :: ((fun d => pre ++ field 15 (default [] (da_name d)) ++ tab ++ field 20 (da_driver_name d) ++ tab ++ signed (da_priority d)) <$> digests).

(** The numbers of the three algorithms give what their names give. *)
Lemma alloc_by_algo_name :
  digest_alloc_by_algo 2 = digest_alloc (cstr "sha1") /\ digest_alloc_by_algo 4 = digest_alloc (cstr "sha224") /\
  digest_alloc_by_algo 5 = digest_alloc (cstr "sha256").
Proof. vm_compute. done. Qed.

(** The keyed algorithms are registered with the number 0, that of MD4. *)
Lemma alloc_by_algo_md4 : digest_alloc_by_algo 0 = digest_alloc (cstr "hmac(sha1)").
Proof. vm_compute. done. Qed.

(** An algorithm that was taken out is not found any more. *)
Example ex_unregister :
  da_name <$> digest_algo_get_by_name (digest_algo_unregister digests (Some 3%nat)) (Some (cstr "sha1")) = None /\
  da_name <$> digest_algo_get_by_name digests (Some (cstr "sha1")) = Some (Some (cstr "sha1")).
Proof. vm_compute. done. Qed.

Example ex_algo_line : digest_algo_prints digests [] !! 5%nat
  = Some (cstr "sha1           " ++ [Byte.x09] ++ cstr "sha1-generic        " ++ [Byte.x09] ++ cstr "0").
Proof. vm_compute. done. Qed.

(** [memmap] of dt/common.h, which maps nothing. *)
Definition memmap (x : fd) : option bytes := None.

Section Window.
Context {D : Type} `{DigestOps D}.

(** The loop; [map] is the mapped file from the start of the window. The result, the
    digest and the file. A mapped file is read from its start in every round. *)
Fixpoint window_loop (fuel : nat) (map : option bytes) (size : Z) (d : D) (x : fd) : outcome (Z * D * fd) :=
  if size =? 0 then Ok (0, d, x) else
  match fuel with
  | O => Undef
  | S fuel =>
      let now := Z.min 4096 size in
      let feed (now : Z) (buf : bytes) (x : fd) :=
        let (ret, d) := digest_update d buf in
        if negb (ret =? 0) then Ok (ret, d, x) else window_loop fuel map (size - now) d x in
      match map with
      | None =>
          let '(now, data, x) := sys_read (Z.to_nat now) x in
          if now <? 0 then Ok (now, d, x) else if now =? 0 then Ok (0, d, x) else feed now data x
      | Some buf => if Z.of_nat (length buf) <? now then Undef else feed now (take (Z.to_nat now) buf) x
      end
  end.

(** The result of [lseek] is kept in an [int]. *)
Definition digest_file_window (d : D) (f : file) (sig : option bytes) (start size : Z) : outcome (Z * bytes * D * file) :=
  let (ret, d) := digest_init d in
  if negb (ret =? 0) then Ok (ret, [], d, f) else
  let '((fd, _), f) := sys_open f in
  if fd <? 0 then Ok (fd, [], d, f) else
  let x := Fd f 0 in
  let map := memmap x in
  let '(ret, x) := if (0 <? start) && bool_decide (map = None)
                   then let '((r, _), x) := sys_lseek (s64 start) x in (s32 r, x) else (ret, x) in
  if (0 <? start) && bool_decide (map = None) && (ret =? -1) then Ok (ret, [], d, fd_file x) else
  '(ret, d, x) ← window_loop (Z.to_nat size) (drop (Z.to_nat start) <$> map) size d x;
  if negb (ret =? 0) then Ok (ret, [], d, fd_file x) else
  match sig with
  | Some sig => let (ret, d) := digest_generic_verify d sig in Ok (ret, [], d, fd_file x)
  | None => let '(ret, hash, d) := digest_final d in Ok (ret, hash, d, fd_file x)
  end.

(** [stat] gives the size. *)
Definition sys_stat (f : file) : Z * Z * file :=
  let (s, f) := next_sys f in
  match s with SysErr _ => (-1, 0, f) | _ => (0, Z.of_nat (length (f_data f)), f) end.

Definition digest_file (d : D) (f : file) (sig : option bytes) : outcome (Z * bytes * D * file) :=
  let '(ret, st_size, f) := sys_stat f in
  if ret <? 0 then Ok (ret, [], d, f) else digest_file_window d f sig 0 st_size.
End Window.

Definition digest_file_by_name (algo : bytes) (f : file) (sig : option bytes) : outcome (Z * bytes * file) :=
  match digest_alloc algo with
  | None => Ok (- EIO, [], f)
  | Some d => '(ret, hash, _, f) ← digest_file d f sig; Ok (ret, hash, f)
  end.

(** ** What is hashed *)

Lemma read_step n f pos : healthy f -> 0 <= pos -> (0 < n)%nat -> exists now g,
  sys_read n (Fd f pos) = (Z.of_nat now, sub (Z.to_nat pos) now (f_data f), Fd g (pos + Z.of_nat now)) /\
  healthy g /\ same_medium f g /\ (now <= n)%nat /\ (now = 0%nat -> length (f_data f) <= Z.to_nat pos)%nat.
Proof.
  intros Hf Hpos Hn. unfold sys_read. cbn [fd_file]. destruct (next_sys_healthy f Hf) as (s & g & -> & Hs & Hg & Hm).
  pose proof Hm as (Ed & _). exists (Nat.min (sys_cap s n) (avail (Fd f pos))), g. split.
  { cbn [fd_pos]. rewrite <-Ed. by destruct s. }
  split; [done|]. split; [done|]. pose proof (sys_cap_le s n). pose proof (sys_cap_some s n Hs Hn). unfold avail.
  cbn [fd_file fd_pos]. split; lia.
Qed.

Lemma sub_0 p l : sub p 0 l = [].
Proof. unfold sub. by rewrite take_0. Qed.
Lemma sub_beyond p n l : (length l <= p)%nat -> sub p n l = [].
Proof. intros Hp. unfold sub. by rewrite drop_ge, take_nil. Qed.

Section Hash.
Context {D : Type} `{DigestLaws D}.

Lemma window_hash fuel : forall size d m f pos, healthy f -> dg_inv d m -> 0 <= pos -> 0 <= size <= Z.of_nat fuel ->
  exists d' g pos', window_loop fuel None size d (Fd f pos) = Ok (0, d', Fd g pos') /\
    dg_inv d' (m ++ sub (Z.to_nat pos) (Z.to_nat size) (f_data f)) /\ dg_hash d' = dg_hash d /\ digest_length d' = digest_length d /\
    healthy g /\ same_medium f g.
Proof.
  induction fuel as [|fuel IH]; intros size d m f pos Hf Hi Hpos Hsize; cbn [window_loop].
  { assert (size = 0) as -> by lia. exists d, f, pos. cbn. rewrite sub_0, app_nil_r. done. }
  destruct (Z.eqb_spec size 0) as [->|Hne]; [exists d, f, pos; cbn; rewrite sub_0, app_nil_r; done|].
  destruct (read_step (Z.to_nat (Z.min 4096 size)) f pos Hf Hpos) as (now & g & -> & Hg & Hm & Hle & Hend); [lia|].
  destruct (Z.ltb_spec (Z.of_nat now) 0); [lia|]. destruct (Z.eqb_spec (Z.of_nat now) 0) as [Hz|Hnz].
  - exists d, g, (pos + Z.of_nat now). split; [done|]. rewrite sub_beyond by lia. rewrite app_nil_r. done.
  - destruct (law_update d m (sub (Z.to_nat pos) now (f_data f)) Hi) as (d1 & -> & Hi1 & Hh1 & Hl1).
    { unfold short_chunk, sub. rewrite length_take. lia. }
    cbn [Z.eqb negb].
    destruct (IH (size - Z.of_nat now) d1 _ g (pos + Z.of_nat now) Hg Hi1) as (d2 & g2 & pos2 & E & Hi2 & Hh2 & Hl2 & Hg2 & Hm2); [lia|lia|].
    exists d2, g2, pos2. split; [exact E|]. split; [|rewrite Hh2, Hl2; split; [done|split; [done|split; [done|by etrans]]]].
    pose proof Hm as (Ed & _). rewrite Ed, <-app_assoc in Hi2.
    replace (Z.to_nat (pos + Z.of_nat now)) with (Z.to_nat pos + now)%nat in Hi2 by lia. rewrite <-sub_snoc in Hi2.
    by replace (now + Z.to_nat (size - Z.of_nat now))%nat with (Z.to_nat size) in Hi2 by lia.
Qed.

Lemma window_start d f start size : healthy f -> dg_ok d -> 0 <= start < 2 ^ 31 -> 0 <= size ->
  exists d' g, (forall sig, digest_file_window d f sig start size
    = match sig with
      | Some sig => let (ret, d) := digest_generic_verify d' sig in Ok (ret, [], d, g)
      | None => let '(ret, hash, d) := digest_final d' in Ok (ret, hash, d, g)
      end) /\
    dg_inv d' (sub (Z.to_nat start) (Z.to_nat size) (f_data f)) /\ dg_hash d' = dg_hash d /\ digest_length d' = digest_length d /\
    healthy g /\ same_medium f g.
Proof.
  intros Hf Hok Hst Hsz. unfold digest_file_window. destruct (law_init d Hok) as (d0 & -> & Hi0 & Hh0 & Hl0). cbn [Z.eqb negb].
  destruct (sys_open_healthy f Hf) as (f1 & -> & Hf1 & Hm1). cbn [Z.ltb Z.compare]. unfold memmap. rewrite bool_decide_eq_true_2, !andb_true_r by done.
  assert (Hseek : exists r f2, (if 0 <? start then let '((r, _), x) := sys_lseek (s64 start) (Fd f1 0) in (s32 r, x) else (0, Fd f1 0)) = (r, Fd f2 start) /\
    r <> -1 /\ healthy f2 /\ same_medium f1 f2).
  { destruct (Z.ltb_spec 0 start).
    - rewrite s64_small by lia. destruct (sys_lseek_healthy start f1 0 Hf1) as (f2 & -> & Hf2 & Hm2); [lia|].
      exists (s32 start), f2. split; [done|]. split; [|done]. unfold s32. rewrite Z.mod_small by lia. lia.
    - exists 0, f1. assert (start = 0) as -> by lia. done. }
  destruct Hseek as (r & f2 & -> & Hr & Hf2 & Hm2). rewrite (proj2 (Z.eqb_neq r (-1)) Hr), andb_false_r. cbn [fmap option_fmap option_map].
  destruct (window_hash (Z.to_nat size) size d0 [] f2 start Hf2 Hi0) as (d' & g & pos' & -> & Hi & Hh & Hl & Hg & Hm); [lia|lia|].
  exists d', g. split; [by intros [sig|]|]. cbn [app] in Hi.
  pose proof Hm1 as (E1 & _). pose proof Hm2 as (E2 & _). rewrite E2, E1 in Hi. rewrite Hh, Hl, Hh0, Hl0. repeat (split; [done|]). by do 2 (etrans; [done|]).
Qed.
End Hash.

(** The digest of a part of a file is the hash of the bytes of that part, as far as
    the file goes, in however many pieces they are read: for every algorithm that keeps
    the laws, [digest_file_window] ends, stores that hash when it is asked for one, and
    accepts a signature exactly when it is that hash. *)
Theorem digest_file_hash {D} `{DigestLaws D} (d : D) f start size (part := sub (Z.to_nat start) (Z.to_nat size) (f_data f))
    (Hf : healthy f) (Hok : dg_ok d) (Hstart : 0 <= start < 2 ^ 31) (Hsize : 0 <= size) :
  exists d1 f1 d2, digest_file_window d f None start size = Ok (0, dg_hash d part, d1, f1) /\ f_data f1 = f_data f /\
  forall sig, length sig = digest_length d ->
    digest_file_window d f (Some sig) start size = Ok ((if bool_decide (sig = dg_hash d part) then 0 else - EINVAL), [], d2, f1).
Proof.
  destruct (window_start d f start size Hf Hok Hstart Hsize) as (d' & g & Hw & Hi & Hh & Hl & Hg & Hm). fold part in Hi.
  destruct (law_final d' part Hi) as (d1 & E & _). exists d1, g, d1. rewrite (Hw None), E, Hh. split; [done|]. split; [apply Hm|].
  intros sig Hsig. rewrite (Hw (Some sig)). unfold digest_generic_verify. rewrite E. cbn [Z.eqb negb].
  rewrite Hh, take_ge by lia. rewrite take_ge; [done|]. rewrite <-Hh, (law_hash_length d' part Hi). lia.
Qed.

(** A read that is cut short, of three of the five bytes of a file. *)
Lemma digest_file_hash_witness :
  let d := Digest ALGO_SHA256 (ShaCtx 0 [] (zeros 64)) in
  let f := File (cstr "abcde") false [] [SysOk; SysOk; SysCap 1; SysOk] in
  exists d1 f1 d2, digest_file_window d f None 1 3 = Ok (0, dg_hash d (sub (Z.to_nat 1) (Z.to_nat 3) (f_data f)), d1, f1) /\ f_data f1 = f_data f /\
  forall sig, length sig = digest_length d ->
    digest_file_window d f (Some sig) 1 3 = Ok ((if bool_decide (sig = dg_hash d (sub (Z.to_nat 1) (Z.to_nat 3) (f_data f))) then 0 else - EINVAL), [], d2, f1).
Proof.
  intros d f. apply (digest_file_hash d f 1 3).
  - repeat constructor.
  - exact (eq_refl : dg_ok d).
  - lia.
  - lia.
Defined.

(** The whole file by the name of an algorithm. *)
Example digest_file_sha1 : match digest_file_by_name (cstr "sha1") (File (cstr "abc") false [] []) None with
  | Ok (0, hash, _) => bval <$> hash =
      [0xa9; 0x99; 0x3e; 0x36; 0x47; 0x06; 0x81; 0x6a; 0xba; 0x3e; 0x25; 0x71; 0x78; 0x50; 0xc2; 0x6c; 0x9c; 0xd0; 0xd8; 0x9d]
  | _ => False
  end.
Proof. vm_compute. reflexivity. Qed.

(** If the file were mapped, every round would feed its first bytes again; the digest
    here notes what it is fed. *)
#[local] Instance notes : DigestOps bytes := {
  digest_init _ := (0, []);
  digest_update d data := (0, d ++ data);
  digest_final d := (0, d, []);
  digest_length := length
}.
Example mapped_not_advanced :
  match window_loop 2 (Some (replicate 4096 Byte.x61 ++ replicate 4096 Byte.x62)) 8192 [] (Fd (File [] false [] []) 0) with
  | Ok (0, fed, _) => bool_decide (fed = replicate 8192 Byte.x61) = true
  | _ => False
  end.
Proof. vm_compute. reflexivity. Qed.
