(* ===== verification/StateVar.v ===== *)
(** * State variables as memory (src/barebox-state/state.h, parts of
      state_variables.c and state.c)

    The structures behind a state variable, the memory that [sv->raw] shows of
    each of them, and the sorted list of variables a state keeps. *)

From Stdlib Require Import Sorted.
From S2P Require Import Prelude.

(** [enum state_variable_type]. *)
Inductive state_variable_type : Type :=
| STATE_VARIABLE_TYPE_UINT8
| STATE_VARIABLE_TYPE_UINT32
| STATE_VARIABLE_TYPE_ENUM32
| STATE_VARIABLE_TYPE_MAC
| STATE_VARIABLE_TYPE_STRING.

#[global] Instance state_variable_type_eq_dec : EqDecision state_variable_type.
Proof. solve_decision. Defined.

(** [struct state_uint32], [state_enum32], [state_mac] and [state_string]
    without their embedded [struct state_variable]. *)
Inductive var_data : Type :=
| StateUint32 (value value_default : Z)
| StateEnum32 (value value_default : Z) (names : list bytes)
| StateMac (value value_default : bytes)
| StateString (value value_default : option bytes) (raw : bytes).

(** [struct state_variable]; [sv_data] is the structure it is embedded in. *)
Record state_variable : Type := StateVariable {
  sv_type : state_variable_type;
  sv_name : bytes;
  sv_start : Z;
  sv_size : Z;
  sv_data : var_data
}.

Definition set_data (d : var_data) (sv : state_variable) : state_variable :=
  StateVariable (sv_type sv) (sv_name sv) (sv_start sv) (sv_size sv) d.

(** The memory at [sv->raw] up to the end of its object, on a little-endian
    host: the create functions point it at [value] or, for strings, at [raw]. *)
Definition sv_raw (sv : state_variable) : bytes :=
  match sv_data sv with
  | StateUint32 value _ => le32 value
  | StateEnum32 value _ _ => le32 value
  | StateMac value value_default => value ++ value_default
  | StateString _ _ raw => raw
  end.

(** [memcpy(sv->raw, data, n)]. *)
Definition sv_write_raw (data : bytes) (sv : state_variable) : state_variable :=
  let raw := splice 0 data (sv_raw sv) in
  set_data match sv_data sv with
           | StateUint32 _ d => StateUint32 (get_le raw) d
           | StateEnum32 _ d names => StateEnum32 (get_le raw) d names
           | StateMac _ _ => StateMac (take 6 raw) (drop 6 raw)
           | StateString v d _ => StateString v d raw
           end sv.

(** The bytes of the variable that the backend stores. *)
Definition sv_bytes (sv : state_variable) : bytes := take (Z.to_nat (sv_size sv)) (sv_raw sv).

(** [state_string_copy_to_raw]. *)
Definition state_string_copy_to_raw (size : Z) (raw src : bytes) : Z * bytes :=
  let len := Z.of_nat (length src) in
  if size <? len then (- EILSEQ, raw) else
  let raw := splice 0 src raw in
  (0, splice (length src) (zeros (Z.to_nat (size - len))) raw).

(** [state_var_compare] and the insertion of [list_add_sort], which puts the new
    entry before the first that does not compare less. *)
Definition state_var_compare (va vb : state_variable) : Z :=
  if sv_start va <? sv_start vb then -1 else 1.

Fixpoint list_add_sort {A} (compare : A -> A -> Z) (new : A) (l : list A) : list A :=
  match l with
  | [] => [new]
  | pos :: l' => if compare pos new <? 0 then pos :: list_add_sort compare new l' else new :: l
  end.

Definition state_add_var (var : state_variable) (variables : list state_variable)
  : list state_variable := list_add_sort state_var_compare var variables.

(** [state_find_var]. *)
Fixpoint state_find_var (variables : list state_variable) (name : bytes) : option state_variable :=
  match variables with
  | [] => None
  | sv :: l => if bool_decide (sv_name sv = name) then Some sv else state_find_var l name
  end.

(** ** Invariants *)

(** A variable as the create functions make it: its numbers have 32 bits and
    its memory is as large as its type says. *)
Definition data_wf (sv : state_variable) : Prop :=
  match sv_type sv, sv_data sv with
  | STATE_VARIABLE_TYPE_UINT8, StateUint32 v d => sv_size sv = 1 /\ 0 <= v < 2 ^ 32 /\ 0 <= d < 2 ^ 32
  | STATE_VARIABLE_TYPE_UINT32, StateUint32 v d => sv_size sv = 4 /\ 0 <= v < 2 ^ 32 /\ 0 <= d < 2 ^ 32
  | STATE_VARIABLE_TYPE_ENUM32, StateEnum32 v d _ => sv_size sv = 4 /\ 0 <= v < 2 ^ 32 /\ 0 <= d < 2 ^ 32
  | STATE_VARIABLE_TYPE_MAC, StateMac v d => sv_size sv = 6 /\ length v = 6%nat /\ length d = 6%nat
  | STATE_VARIABLE_TYPE_STRING, StateString v d raw =>
      0 <= sv_size sv <= 4096 /\ length raw = Z.to_nat (sv_size sv) /\
      (forall s, v = Some s -> cstring s) /\ (forall s, d = Some s -> cstring s)
  | _, _ => False
  end.
Definition sv_wf (sv : state_variable) : Prop := data_wf sv /\ 0 <= sv_start sv < 2 ^ 32.

(** [b] begins after the end of [a], which does not wrap. *)
Definition sv_before (a b : state_variable) : Prop := sv_start a + sv_size a <= sv_start b.

(** The list of variables is laid out without overlap. *)
Definition layout (l : list state_variable) : Prop :=
  forall i j a b, (i < j)%nat -> l !! i = Some a -> l !! j = Some b -> sv_before a b.

Lemma sv_size_range sv : sv_wf sv -> 0 <= sv_size sv <= 4096.
Proof. intros [H _]. unfold data_wf in H. destruct (sv_type sv), (sv_data sv); tauto || lia. Qed.

Lemma sv_raw_length sv : sv_wf sv -> (Z.to_nat (sv_size sv) <= length (sv_raw sv))%nat.
Proof.
  intros [H _]. unfold data_wf in H. unfold sv_raw.
  destruct (sv_type sv), (sv_data sv); try tauto; len.
  all: try (destruct H as (-> & _); vm_compute; lia).
Qed.

Lemma sv_bytes_length sv : sv_wf sv -> length (sv_bytes sv) = Z.to_nat (sv_size sv).
Proof. intros H. unfold sv_bytes. rewrite length_take. pose proof (sv_raw_length sv H). lia. Qed.

Lemma splice_front data raw : splice 0 data raw = data ++ drop (length data) raw.
Proof. done. Qed.

(** Storing the whole of a variable shows the bytes that were stored. *)
Lemma sv_write_raw_wf data sv : sv_wf sv -> length data = Z.to_nat (sv_size sv) -> sv_wf (sv_write_raw data sv).
Proof.
  intros Hwf Hl. pose proof (sv_raw_length sv Hwf) as Hr. destruct Hwf as [Hd Hs].
  split; [|exact Hs]. destruct sv as [t n st sz d]. revert Hd Hr Hl. unfold data_wf, sv_raw, sv_write_raw, set_data.
  cbn [sv_type sv_size sv_data sv_name sv_start]. intros Hd Hr Hl.
  assert (forall v, (Z.to_nat sz <= length (le32 v))%nat -> 0 <= get_le (splice 0 data (le32 v)) < 2 ^ 32) as H32.
  { intros v Hv. pose proof (get_le_range (splice 0 data (le32 v))) as Hg.
    rewrite length_splice in Hg by len. rewrite length_le32 in Hg. exact Hg. }
  destruct t, d; try tauto; cbn [sv_raw sv_data] in *.
  - split; [tauto|]. split; [by apply H32|tauto].
  - split; [tauto|]. split; [by apply H32|tauto].
  - split; [tauto|]. split; [by apply H32|tauto].
  - destruct Hd as (-> & ? & ?). split; [done|]. rewrite length_take, length_drop, length_splice by len. len.
  - split; [tauto|]. split; [|tauto]. rewrite length_splice by len. tauto.
Qed.

Lemma sv_write_raw_bytes data sv : sv_wf sv -> length data = Z.to_nat (sv_size sv) ->
  sv_bytes (sv_write_raw data sv) = data.
Proof.
  intros Hwf Hl. pose proof (sv_raw_length sv Hwf) as Hr. destruct Hwf as [Hd Hs].
  assert (take (length data) (splice 0 data (sv_raw sv)) = data) as Ht.
  { rewrite splice_front. by rewrite take_app_length. }
  assert (sv_raw (sv_write_raw data sv) = splice 0 data (sv_raw sv)) as E.
  { revert Hr. unfold sv_write_raw, set_data, sv_raw. cbn [sv_data]. intros Hr.
    destruct (sv_data sv); try (rewrite le32_get_le; [done|rewrite length_splice; len]).
    - by rewrite take_drop.
    - done. }
  unfold sv_bytes. rewrite E. cbn [sv_size sv_write_raw set_data]. by rewrite <- Hl.
Qed.

Lemma sv_write_raw_frame data sv :
  sv_start (sv_write_raw data sv) = sv_start sv /\ sv_size (sv_write_raw data sv) = sv_size sv /\
  sv_name (sv_write_raw data sv) = sv_name sv /\ sv_type (sv_write_raw data sv) = sv_type sv.
Proof. done. Qed.

(** ** The sorted list *)

Lemma list_add_sort_perm {A} (c : A -> A -> Z) x l : list_add_sort c x l ≡ₚ x :: l.
Proof.
  induction l as [|y l IH]; simpl; [done|]. destruct (c y x <? 0); [|done].
  rewrite IH. by constructor.
Qed.

Definition start_le (a b : state_variable) : Prop := sv_start a <= sv_start b.

Lemma state_add_var_sorted var l : StronglySorted start_le l -> StronglySorted start_le (state_add_var var l).
Proof.
  unfold state_add_var, start_le. induction 1 as [|y l Hs IH Hy]; simpl.
  - constructor; constructor.
  - unfold state_var_compare at 1. destruct (Z.ltb_spec (sv_start y) (sv_start var)) as [Hlt|Hge]; simpl.
    + constructor; [done|]. rewrite list_add_sort_perm. constructor; [lia|done].
    + constructor; [by constructor|]. constructor; [done|].
      eapply Forall_weaken; [apply Hy|]. simpl. intros; lia.
Qed.

Lemma state_find_var_spec l name :
  match state_find_var l name with
  | Some sv => exists pre post, l = pre ++ sv :: post /\ sv_name sv = name /\
      Forall (fun x => sv_name x <> name) pre
  | None => Forall (fun x => sv_name x <> name) l
  end.
Proof.
  induction l as [|x l IH]; simpl; [constructor|].
  case_bool_decide as E; [exists [], l; by repeat constructor|].
  destruct (state_find_var l name) as [sv|]; [|by constructor].
  destruct IH as (pre & post & -> & En & Hp). exists (x :: pre), post. split; [done|]. split; [done|].
  by constructor.
Qed.

(** A sorted list whose neighbours do not overlap is laid out. *)
Lemma find_var_in vars name a : state_find_var vars name = Some a -> a ∈ vars /\ sv_name a = name.
Proof.
  intros E. pose proof (state_find_var_spec vars name) as S. rewrite E in S. destruct S as (pre & post & -> & En & _). set_solver.
Qed.

Lemma layout_cons a l : Forall (sv_before a) l -> layout l -> layout (a :: l).
Proof.
  intros Ha Hl i j x y Hij Hi Hj. destruct j as [|j]; [lia|]. simpl in Hj.
  destruct i as [|i]; simpl in Hi.
  - simplify_eq. rewrite Forall_lookup in Ha. by apply (Ha j).
  - apply (Hl i j); [lia|done|done].
Qed.

Lemma layout_cons_inv a l : layout (a :: l) -> Forall (sv_before a) l /\ layout l.
Proof.
  intros H. split.
  - apply Forall_lookup. intros j x Hj. apply (H 0%nat (S j)); [lia|done|done].
  - intros i j x y Hij Hi Hj. apply (H (S i) (S j)); [lia|done|done].
Qed.

(** ** Strings *)

(** What is stored of a string that fits, is the string and zeros. *)
Lemma string_copy_fits size raw src :
  Z.of_nat (length src) <= size -> length raw = Z.to_nat size ->
  state_string_copy_to_raw size raw src = (0, src ++ zeros (Z.to_nat size - length src)).
Proof.
  intros Hs Hr. unfold state_string_copy_to_raw. destruct (Z.ltb_spec size (Z.of_nat (length src))); [lia|].
  f_equal. rewrite splice_front. unfold splice. rewrite take_app_length, length_zeros. f_equal.
  rewrite drop_ge by len. rewrite app_nil_r. f_equal. lia.
Qed.

(** In a layout the last variable ends last. *)
Lemma layout_last l sv : layout l -> Forall sv_wf l -> list.last l = Some sv ->
  Forall (fun x => sv_start x + sv_size x <= sv_start sv + sv_size sv) l.
Proof.
  intros Hl Hw Hlast. rewrite last_lookup in Hlast. apply Forall_lookup. intros i x Hi.
  pose proof (lookup_lt_Some _ _ _ Hi).
  destruct (decide (i = pred (length l))) as [->|Hne]; [simplify_eq; lia|].
  pose proof (Hl i (pred (length l)) x sv ltac:(lia) Hi Hlast) as Hb. unfold sv_before in Hb.
  rewrite Forall_lookup in Hw. pose proof (sv_size_range sv (Hw _ _ Hlast)). lia.
Qed.
