(* ===== verification/RawFormat.v ===== *)
(** * The raw format (src/barebox-state/backend_format_raw.c)

    A packed state is a header of sixteen bytes, the memory of the variables and,
    when the node names an algorithm, an HMAC over both. The model follows the
    buffer arithmetic in 32 bits and says where it would leave the buffer. The
    keystore ([keystore_get_secret]) is an argument. *)

From S2P Require Import Prelude Sysfile Crc32 HashStream Sha1 Sha256 Digest Hmac StateVar Storage.

(** [struct state_backend_format_raw]. *)
Record raw_format : Type := RawFormat {
  rf_digest : option any_digest;
  rf_digest_length : nat;
  rf_secret_name : bytes;
  rf_algo : option bytes
}.

Definition STATE_FLAG_NO_AUTHENTICATION : Z := 1.

(** [struct backend_raw_header], packed. *)
Definition format_raw_min_length : Z := 16.
Definition hdr_magic (buf : bytes) : Z := get_le (sub 0 4 buf).
Definition hdr_data_len (buf : bytes) : Z := get_le (sub 6 2 buf).
Definition hdr_data_crc (buf : bytes) : Z := get_le (sub 8 4 buf).
Definition hdr_header_crc (buf : bytes) : Z := get_le (sub 12 4 buf).

Definition set_digest (d : any_digest) (raw : raw_format) : raw_format :=
  RawFormat (Some d) (rf_digest_length raw) (rf_secret_name raw) (rf_algo raw).

Section Raw.
(** What a released buffer reads as, and the secret of a name: the result of
    [keystore_get_secret] and the key it stores. *)
Context (garbage : bytes -> bytes) (keystore_get_secret : bytes -> Z * bytes).

(** [backend_raw_digest_init]; [None] is undefined behaviour. *)
Definition backend_raw_digest_init (raw : raw_format) : option (Z * raw_format) :=
  let r := match rf_digest raw with
           | Some d => Some (d, raw)
           | None =>
               match digest_alloc (default [] (rf_algo raw)) with
               | None => None
               | Some d => Some (d, RawFormat (Some d) (any_length d) (rf_secret_name raw) (rf_algo raw))
               end
           end in
  match r with
  | None => Some (- ENODEV, raw)
  | Some (d, raw) =>
      let (ret, key) := keystore_get_secret (rf_secret_name raw) in
      if negb (ret =? 0) then Some (ret, raw) else
      match digest_set_key garbage d key with
      | None => None
      | Some (ret, d) =>
          let raw := set_digest d raw in
          if negb (ret =? 0) then Some (ret, raw) else
          let (ret, d) := digest_init d in
          Some (ret, set_digest d raw)
      end
  end.

Definition authenticate (raw : raw_format) (flags : Z) : bool :=
  bool_decide (is_Some (rf_algo raw)) && (Z.land flags STATE_FLAG_NO_AUTHENTICATION =? 0).

(** The digest over header and data, and its comparison, of [verify]. *)
Definition raw_check_hmac (raw : raw_format) (buf : bytes) : Z * raw_format :=
  let data_len := Z.to_nat (hdr_data_len buf) in
  match rf_digest raw with
  | None => (0, raw)
  | Some d =>
      let (ret, d) := digest_update d (take (16 + data_len) buf) in
      if negb (ret =? 0) then (ret, set_digest d raw) else
      let (ret, d) := digest_generic_verify d (drop (16 + data_len) buf) in
      (if ret <? 0 then ret else 0, set_digest d raw)
  end.

(** [backend_format_raw_verify]: the result and the new [*lenp]. *)
Definition backend_format_raw_verify (raw : raw_format) (magic : Z) (buf : bytes) (len flags : Z)
  : option (Z * Z * raw_format) :=
  if len <? format_raw_min_length then Some (- EINVAL, len, raw) else
  if negb (crc32 0 (take 12 buf) =? hdr_header_crc buf) then Some (- EINVAL, len, raw) else
  if negb (magic =? 0) && negb (magic =? hdr_magic buf) then Some (- EINVAL, len, raw) else
  let auth := authenticate raw flags in
  match (if auth then backend_raw_digest_init raw else Some (0, raw)) with
  | None => None
  | Some (ret, raw) =>
      if negb (ret =? 0) then Some (ret, len, raw) else
      let d_len := if auth then match rf_digest raw with Some d => Z.of_nat (any_length d) | None => 0 end
                   else 0 in
      let complete_len := hdr_data_len buf + d_len + format_raw_min_length in
      if len <? complete_len then Some (- EINVAL, len, raw) else
      if negb (crc32 0 (sub 16 (Z.to_nat (hdr_data_len buf)) buf) =? hdr_data_crc buf)
      then Some (- EINVAL, len, raw) else
      let len := hdr_data_len buf + format_raw_min_length in
      if auth then let (ret, raw) := raw_check_hmac raw buf in Some (ret, len, raw)
      else Some (0, len, raw)
  end.

(** The loop of [backend_format_raw_unpack]; [None] for a read behind [buf]. *)
Fixpoint raw_unpack_vars (vars : list state_variable) (buf : bytes) (ret : Z)
  : option (Z * list state_variable) :=
  match vars with
  | [] => Some (ret, [])
  | sv :: vars' =>
      if hdr_data_len buf <? sv_start sv +32 sv_size sv then
        prod_map id (cons sv) <$> raw_unpack_vars vars' buf (- ENOSPC)
      else if Z.of_nat (length buf) <? 16 + sv_start sv + sv_size sv then None
      else
        let sv' := sv_write_raw (sub (Z.to_nat (16 + sv_start sv)) (Z.to_nat (sv_size sv)) buf) sv in
        prod_map id (cons sv') <$> raw_unpack_vars vars' buf ret
  end.

Definition backend_format_raw_unpack (vars : list state_variable) (buf : bytes)
  : option (Z * list state_variable) := raw_unpack_vars vars buf 0.

(** The loop of [backend_format_raw_pack]; [None] for a write behind [buf]. *)
Fixpoint raw_pack_vars (vars : list state_variable) (buf : bytes) : option bytes :=
  match vars with
  | [] => Some buf
  | sv :: vars' =>
      if Z.of_nat (length buf) <? 16 + sv_start sv + sv_size sv then None
      else raw_pack_vars vars' (splice (Z.to_nat (16 + sv_start sv)) (sv_bytes sv) buf)
  end.

(** The header fields over a buffer that holds the data. *)
Definition raw_put_header (magic size_data : Z) (buf : bytes) : bytes :=
  let data_crc := crc32 0 (sub 16 (Z.to_nat size_data) buf) in
  let buf := splice 0 (le32 magic) buf in
  let buf := splice 6 (le16 size_data) buf in
  let buf := splice 8 (le32 data_crc) buf in
  splice 12 (le32 (crc32 0 (take 12 buf))) buf.

(** [backend_format_raw_pack]: the result, the buffer and the format. *)
Definition backend_format_raw_pack (raw : raw_format) (magic : Z) (vars : list state_variable)
  : option (Z * bytes * raw_format) :=
  let auth := bool_decide (is_Some (rf_algo raw)) in
  match (if auth then backend_raw_digest_init raw else Some (0, raw)), list.last vars with
  | None, _ => None
  | Some (ret, raw), last_sv =>
      if negb (ret =? 0) then Some (ret, [], raw) else
      match last_sv with
      | None => None
      | Some sv =>
          let size_data := sv_start sv +32 sv_size sv in
          let size_full := size_data + 16 +32 Z.of_nat (rf_digest_length raw) in
          if size_full <? 16 + size_data then None else
          match raw_pack_vars vars (zeros (Z.to_nat size_full)) with
          | None => None
          | Some buf =>
              let buf := raw_put_header magic size_data buf in
              match rf_digest raw with
              | Some d =>
                  if negb auth then Some (0, buf, raw) else
                  let (ret, d) := digest_update d (take (Z.to_nat (16 + size_data)) buf) in
                  if negb (ret =? 0) then Some (ret, [], set_digest d raw) else
                  let '(ret, md, d) := digest_final d in
                  if ret <? 0 then Some (ret, [], set_digest d raw) else
                  if size_full <? 16 + size_data + Z.of_nat (length md) then None else
                  Some (0, splice (Z.to_nat (16 + size_data)) md buf, set_digest d raw)
              | None => Some (0, buf, raw)
              end
          end
      end
  end.
End Raw.

(** [backend_format_raw_create] with [backend_format_raw_init_digest]: [algo] is
    the outcome of looking for the property, [None] when there is none. *)
Definition backend_format_raw_create (algo : option (outcome bytes)) (secret_name : bytes)
  : outcome raw_format :=
  match algo with
  | None => Ok (RawFormat None 0 secret_name None)
  | Some (Ok a) => Ok (RawFormat None 0 secret_name (Some a))
  | Some (Err e) => Err e
  | Some Undef => Undef
  end.

(** ** The digest of a format *)

Section Proofs.
Context (garbage : bytes -> bytes) (keystore_get_secret : bytes -> Z * bytes).

(** The tag that authenticates a copy: the error of setting the digest up, or
    the keyed hash and the length of its results. *)
Definition raw_mac (raw : raw_format) : Z + (bytes -> bytes) * nat :=
  match digest_alloc (default [] (rf_algo raw)) with
  | None => inl (- ENODEV)
  | Some d =>
      let (ret, key) := keystore_get_secret (rf_secret_name raw) in
      if negb (ret =? 0) then inl ret else
      match d with
      | PlainDigest _ => inl (- ENOTSUPP)
      | HmacDigest h =>
          if (hm_pad_length h <? length key)%nat then inl (- EINVAL)
          else inr (rfc2104 (dg_hash (hm_d h)) (hm_pad_length h) key, hm_length h)
      end
  end.

(** A context of the algorithm [d0] whose key pointer is valid. *)
Definition digest_like (key : bytes) (d0 d : any_digest) : Prop :=
  match d0, d with
  | PlainDigest a, PlainDigest b => d_algo a = d_algo b
  | HmacDigest a, HmacDigest b =>
      d_algo (hm_d a) = d_algo (hm_d b) /\ hm_pad_length a = hm_pad_length b /\
      hm_length b = hm_length a /\ hm_length b = digest_length (hm_d b) /\ dg_ok (hm_d b) /\
      short_chunk (Z.of_nat (hm_pad_length b)) /\
      (hm_key b = KeyNull \/ (exists k, hm_key b = KeyLive k) /\ (length key <= hm_pad_length b)%nat)
  | _, _ => False
  end.

(** The digest of a format is missing or of its algorithm, in any phase. *)
Definition raw_ok (raw : raw_format) : Prop :=
  match rf_digest raw with
  | None => rf_digest_length raw = 0%nat
  | Some d => exists d0, digest_alloc (default [] (rf_algo raw)) = Some d0 /\
      digest_like (snd (keystore_get_secret (rf_secret_name raw))) d0 d /\
      rf_digest_length raw = any_length d
  end.

Lemma sha_alloc_ok name d : sha_alloc name = Some d -> dg_ok d.
Proof.
  unfold sha_alloc. destruct (da_impl <$> _) as [[a|]|]; intros; simplify_eq. reflexivity.
Qed.

(** The blocks of all registered algorithms are short. *)
Lemma registered_pad name inner p : da_impl <$> digest_algo_get_by_name digests (Some name) = Some (ImplHmac inner p) ->
  short_chunk (Z.of_nat p).
Proof.
  unfold digest_algo_get_by_name. intros H.
  destruct (digest_algo_select_spec (fun a => bool_decide (da_name a = Some name)) digests None (-1))
    as [[E _]|(pre & a & post & Hl & E & _)]; rewrite E in H; [done|]. injection H as H.
  assert (Hall : Forall (fun a => match da_impl a with ImplHmac _ p => p = 64%nat | _ => True end) digests) by (repeat constructor).
  rewrite Forall_forall in Hall. specialize (Hall a). rewrite Hl, H in Hall. rewrite Hall; [done|]. apply in_elt.
Qed.

Lemma digest_alloc_like name d key : digest_alloc name = Some d -> digest_like key d d.
Proof.
  unfold digest_alloc. destruct (da_impl <$> _) as [[a|inner p]|] eqn:Er; [| |done].
  - destruct (sha_alloc name) as [d'|]; simpl; intros; simplify_eq; done.
  - unfold digest_hmac_alloc. destruct (sha_alloc inner) as [d'|] eqn:E; intros; simplify_eq.
    simpl. split; [done|]. split; [done|]. split; [done|]. split; [done|].
    split; [by eapply sha_alloc_ok|]. split; [by eapply registered_pad|by left].
Qed.

(** A keyed context still is of its algorithm. *)
Lemma hmac_ok_like key a b : hmac_ok b -> d_algo (hm_d a) = d_algo (hm_d b) ->
  hm_pad_length a = hm_pad_length b -> hm_length b = hm_length a -> (length key <= hm_pad_length b)%nat ->
  digest_like key (HmacDigest a) (HmacDigest b).
Proof.
  intros [(k & Hk & _ & _ & Hs & Hl) Hok] ? ? ? ?. simpl. split; [done|]. split; [done|]. split; [done|].
  split; [done|]. split; [done|]. split; [done|]. right. split; [by exists k|done].
Qed.

Lemma set_key_like key d0 d : digest_like key d0 d ->
  exists ret d1, digest_set_key garbage d key = Some (ret, d1) /\ digest_like key d0 d1 /\
    any_length d1 = any_length d /\
    match d0 with
    | PlainDigest _ => ret = - ENOTSUPP
    | HmacDigest h =>
        if (hm_pad_length h <? length key)%nat then ret = - EINVAL
        else ret = 0 /\ exists d2, digest_init d1 = (0, d2) /\ digest_like key d0 d2 /\
          any_length d2 = any_length d /\ dg_inv d2 [] /\
          dg_hash d2 = rfc2104 (dg_hash (hm_d h)) (hm_pad_length h) key
    end.
Proof.
  destruct d0 as [a|a], d as [b|b]; try done.
  { intros Ha. by exists (- ENOTSUPP), (PlainDigest b). }
  intros (Ha & Hp & Hl & Hn & Hok & Hs & Hk). cbn [digest_set_key]. rewrite Hp.
  destruct (Nat.ltb_spec (hm_pad_length b) (length key)) as [Hlt|Hge].
  - destruct Hk as [Hk|[_ Hk]]; [|lia]. unfold digest_hmac_set_key. rewrite Hk.
    cbn [hm_pad_length set_key]. rewrite (proj2 (Nat.ltb_lt _ _) Hlt).
    eexists _, _. split; [done|]. split; [|done]. simpl. repeat (split; [done|]). by left.
  - assert (forall x, hm_key b <> KeyFreed x) as Hnf.
    { intros x. destruct Hk as [->|[[k ->] _]]; done. }
    destruct (set_key_fits garbage b key Hok Hn Hs Hge Hnf) as (h1 & E1 & Hok1 & Hh1).
    assert (d_algo (hm_d h1) = d_algo (hm_d b) /\ hm_pad_length h1 = hm_pad_length b /\ hm_length h1 = hm_length b)
      as (A1 & P1 & L1).
    { revert E1. unfold digest_hmac_set_key. destruct (hm_key b) as [| |x] eqn:Ex; [| |by destruct (Hnf x)].
      all: cbn [hm_pad_length set_key]; rewrite (proj2 (Nat.ltb_ge _ _) Hge); intros; by simplify_eq. }
    rewrite E1. exists 0, (HmacDigest h1). split; [done|]. split.
    { apply hmac_ok_like; congruence || lia || done. }
    split; [done|]. split; [done|].
    destruct (hmac_law_init h1 Hok1) as (h2 & E2 & Hi2 & Hh2 & Hl2).
    assert (d_algo (hm_d h2) = d_algo (hm_d h1) /\ hm_pad_length h2 = hm_pad_length h1) as (A2 & P2).
    { revert E2. unfold digest_hmac_init. cbn. intros; by simplify_eq. }
    exists (HmacDigest h2). cbn [digest_init any_ops any_init]. rewrite E2. split; [done|]. split.
    { apply hmac_ok_like; [by apply (@law_inv_ok _ _ hmac_laws h2 [])|congruence..|lia]. }
    split; [simpl; congruence|]. split; [exact Hi2|].
    change (dg_hash (HmacDigest h2)) with (hmac_hash h2). rewrite Hh2, Hh1. cbn. by rewrite Ha.
Qed.

(** Setting the digest up yields an initialised context of the keyed hash, or the
    error that [raw_mac] names; it never touches a released key. *)
Definition init_result (raw : raw_format) (r : option (Z * raw_format)) : Prop :=
  exists ret raw', r = Some (ret, raw') /\
    raw_ok raw' /\ rf_algo raw' = rf_algo raw /\ rf_secret_name raw' = rf_secret_name raw /\
    match raw_mac raw with
    | inl e => ret = e /\ e <> 0
    | inr (mac, n) => ret = 0 /\ rf_digest_length raw' = n /\
        exists d, rf_digest raw' = Some d /\ dg_inv d [] /\ dg_hash d = mac /\ any_length d = n
    end.

Lemma digest_init_some raw d d0 :
  rf_digest raw = Some d -> digest_alloc (default [] (rf_algo raw)) = Some d0 ->
  digest_like (snd (keystore_get_secret (rf_secret_name raw))) d0 d ->
  rf_digest_length raw = any_length d ->
  init_result raw (backend_raw_digest_init garbage keystore_get_secret raw).
Proof.
  intros Hd Ha Hlike Hl. unfold init_result, backend_raw_digest_init, raw_mac. rewrite Hd, Ha.
  destruct (keystore_get_secret (rf_secret_name raw)) as [kr key] eqn:Ek. cbn [snd] in Hlike.
  assert (forall d', digest_like key d0 d' -> any_length d' = any_length d -> raw_ok (set_digest d' raw)) as Hset.
  { intros d' H1 H2. unfold raw_ok. cbn. exists d0. rewrite Ek. split; [done|]. split; [done|]. by rewrite Hl. }
  destruct (Z.eqb_spec kr 0) as [->|Hkr]; cbn [negb].
  2:{ exists kr, raw. split; [done|]. split; [|done]. unfold raw_ok. rewrite Hd. exists d0. by rewrite Ek. }
  destruct (set_key_like key d0 d Hlike) as (ret & d1 & -> & H1 & L1 & Hr).
  destruct d0 as [p|h].
  - subst ret. exists (- ENOTSUPP), (set_digest d1 raw). split; [done|]. split; [by apply Hset|done].
  - destruct (hm_pad_length h <? length key)%nat.
    + subst ret. exists (- EINVAL), (set_digest d1 raw). split; [done|]. split; [by apply Hset|done].
    + destruct Hr as (-> & d2 & -> & H2 & L2 & Hi & Hh). cbn [Z.eqb negb].
      exists 0, (set_digest d2 raw). split; [done|]. split; [by apply Hset|]. split; [done|]. split; [done|].
      assert (any_length d = hm_length h) as En.
      { destruct d as [?|b]; [done|]. simpl in Hlike. simpl. tauto. }
      split; [done|]. split; [simpl; by rewrite Hl|]. exists d2. by rewrite L2.
Qed.

Lemma digest_init_spec raw : raw_ok raw ->
  init_result raw (backend_raw_digest_init garbage keystore_get_secret raw).
Proof.
  unfold raw_ok. destruct (rf_digest raw) as [d|] eqn:Ed.
  - intros (d0 & H1 & H2 & H3). by eapply digest_init_some.
  - intros Hz. destruct (digest_alloc (default [] (rf_algo raw))) as [d|] eqn:Ea.
    + pose (raw1 := RawFormat (Some d) (any_length d) (rf_secret_name raw) (rf_algo raw)).
      assert (backend_raw_digest_init garbage keystore_get_secret raw
        = backend_raw_digest_init garbage keystore_get_secret raw1) as ->.
      { unfold backend_raw_digest_init. by rewrite Ed, Ea. }
      apply (digest_init_some raw1 d d); [done|done|by eapply digest_alloc_like|done].
    + unfold init_result, backend_raw_digest_init, raw_mac. rewrite Ed, Ea. exists (- ENODEV), raw.
      split; [done|]. split; [by unfold raw_ok; rewrite Ed|done].
Qed.

(** Feeding and finishing a context keeps it of its algorithm. *)
Lemma sha_final_algo d : d_algo (snd (sha_digest_final d)) = d_algo d.
Proof.
  unfold sha_digest_final. destruct (d_algo d).
  - by destruct (sha1_final (replicate 16 0) (d_ctx d)).
  - by destruct (sha224_final (d_ctx d)).
  - by destruct (sha256_final (d_ctx d)).
Qed.

Lemma like_update key d0 d m x : digest_like key d0 d -> dg_inv d m -> short_chunk (Z.of_nat (length x)) ->
  exists d', digest_update d x = (0, d') /\ dg_inv d' (m ++ x) /\ dg_hash d' = dg_hash d /\
    any_length d' = any_length d /\ digest_like key d0 d'.
Proof.
  intros Hlike Hi Hx. destruct (law_update d m x Hi Hx) as (d' & E & Hi' & Hh & Hl).
  exists d'. split; [done|]. split; [done|]. split; [done|]. split; [done|].
  pose proof (law_inv_ok _ _ Hi') as Hok'.
  destruct d0 as [a|a], d as [b|b]; try done; cbn in E; simplify_eq; [done|].
  apply hmac_ok_like; [done| | | |]; destruct Hlike as (? & ? & ? & ? & ? & ? & Hk); try done.
  destruct Hk as [Hk|[_ Hk]]; [|done]. destruct Hi as ((k & Hk' & _) & _). congruence.
Qed.

Lemma like_final key d0 d m : digest_like key d0 d -> dg_inv d m ->
  exists d', digest_final d = (0, dg_hash d m, d') /\ any_length d' = any_length d /\ digest_like key d0 d'.
Proof.
  intros Hlike Hi. destruct (law_final d m Hi) as (d' & E & Hok & Hh & Hl).
  exists d'. split; [done|]. split; [done|].
  destruct d0 as [a|a], d as [b|b]; try done; cbn in E.
  - destruct (sha_digest_final b) as [[r md] b'] eqn:Eb. simplify_eq. simpl in *.
    rewrite Hlike. symmetry. by rewrite <-(sha_final_algo b), Eb.
  - destruct (digest_hmac_final b) as [[r md] b'] eqn:Eb. simplify_eq.
    assert (d_algo (hm_d b') = d_algo (hm_d b) /\ hm_pad_length b' = hm_pad_length b) as [Ea Ep].
    { revert Eb. unfold digest_hmac_final. cbn.
      pose proof (sha_final_algo (hm_d b)) as A1. destruct (sha_digest_final (hm_d b)) as [[r1 t1] d1]. cbn in A1 |- *.
      destruct (negb (r1 =? 0)); [intros; by simplify_eq|].
      match goal with |- context [sha_digest_final ?x] => pose proof (sha_final_algo x) as A2;
        destruct (sha_digest_final x) as [[r2 t2] d2] end.
      cbn in A2 |- *. intros; simplify_eq. cbn. by rewrite A2. }
    simpl in Hl. destruct Hlike as (? & ? & ? & ? & ? & ? & Hk). apply hmac_ok_like; [done|congruence|congruence|congruence|].
    rewrite Ep. destruct Hk as [Hk|[_ Hk]]; [|done]. destruct Hi as ((k & Hk' & _) & _). congruence.
Qed.

(** ** Verification *)

(** A buffer of which [len] bytes hold a packed state of [magic]. *)
Definition raw_frame (magic : Z) (buf : bytes) (len : Z) : Prop :=
  16 <= len /\ crc32 0 (take 12 buf) = hdr_header_crc buf /\ (magic = 0 \/ magic = hdr_magic buf) /\
  hdr_data_len buf + 16 <= len /\
  crc32 0 (sub 16 (Z.to_nat (hdr_data_len buf)) buf) = hdr_data_crc buf.

(** The tag behind header and data is theirs. *)
Definition raw_authentic (raw : raw_format) (buf : bytes) (len : Z) : Prop :=
  exists mac n, raw_mac raw = inr (mac, n) /\ hdr_data_len buf + Z.of_nat n + 16 <= len /\
    sub (16 + Z.to_nat (hdr_data_len buf)) n buf = mac (take (16 + Z.to_nat (hdr_data_len buf)) buf).

Lemma hdr_data_len_range buf : 0 <= hdr_data_len buf < 2 ^ 16.
Proof.
  unfold hdr_data_len. pose proof (get_le_range (sub 6 2 buf)) as H.
  assert (length (sub 6 2 buf) <= 2)%nat by (unfold sub; rewrite length_take; lia).
  assert (2 ^ (8 * Z.of_nat (length (sub 6 2 buf))) <= 2 ^ 16) by (apply Z.pow_le_mono_r; lia). lia.
Qed.

Lemma raw_check_spec raw0 raw buf d mac n : raw_ok raw -> rf_algo raw = rf_algo raw0 ->
  rf_secret_name raw = rf_secret_name raw0 -> rf_digest raw = Some d -> dg_inv d [] -> dg_hash d = mac ->
  any_length d = n -> (16 + Z.to_nat (hdr_data_len buf) + n <= length buf)%nat ->
  exists ret raw', raw_check_hmac raw buf = (ret, raw') /\ raw_ok raw' /\
    rf_algo raw' = rf_algo raw0 /\ rf_secret_name raw' = rf_secret_name raw0 /\
    (ret = 0 <-> sub (16 + Z.to_nat (hdr_data_len buf)) n buf = mac (take (16 + Z.to_nat (hdr_data_len buf)) buf)).
Proof.
  intros Hok Hal Hsn Hd Hi Hh Hn Hlen. unfold raw_ok in Hok. rewrite Hd in Hok. destruct Hok as (d0 & Ha & Hlike & Hl).
  unfold raw_check_hmac. rewrite Hd.
  set (m := take (16 + Z.to_nat (hdr_data_len buf)) buf).
  destruct (like_update _ d0 d [] m Hlike Hi) as (d1 & -> & Hi1 & Hh1 & Hn1 & Hlike1).
  { unfold short_chunk, m. rewrite length_take. pose proof (hdr_data_len_range buf). lia. }
  cbn [Z.eqb negb].
  destruct (like_final _ d0 d1 _ Hlike1 Hi1) as (d2 & E2 & Hn2 & Hlike2).
  pose proof (law_hash_length d1 _ Hi1) as Hlh. cbn [app] in *.
  change (digest_length d1) with (any_length d1) in Hlh.
  unfold digest_generic_verify. rewrite E2. cbn [Z.eqb negb].
  change (digest_length d1) with (any_length d1). rewrite Hn1, Hn. rewrite (take_ge (dg_hash d1 m)) by lia.
  eexists _, _. split; [done|]. split; [|split; [done|split; [done|]]].
  - unfold raw_ok. cbn. exists d0. rewrite Hl. split; [done|]. split; [done|]. congruence.
  - rewrite Hh1, Hh. unfold sub. case_bool_decide; simpl; [tauto|]. split; [unfold EINVAL; lia|done].
Qed.

Definition raw_valid (raw : raw_format) (magic : Z) (buf : bytes) (len flags : Z) : Prop :=
  raw_frame magic buf len /\ (authenticate raw flags = true -> raw_authentic raw buf len).

(** A copy that is refused. *)
Lemma refused raw raw' len buf (P : Prop) :
  raw_ok raw' /\ rf_algo raw' = rf_algo raw /\ rf_secret_name raw' = rf_secret_name raw -> (P -> False) ->
  exists ret len' raw'', Some (- EINVAL, len, raw') = Some (ret, len', raw'') /\
    raw_ok raw'' /\ rf_algo raw'' = rf_algo raw /\ rf_secret_name raw'' = rf_secret_name raw /\
    (ret = 0 <-> P) /\ (ret = 0 -> len' = hdr_data_len buf + 16).
Proof.
  intros (H1 & H2 & H3) HP. exists (- EINVAL), len, raw'. unfold EINVAL. do 4 (split; [done|]). split; [split; [lia|tauto]|lia].
Qed.

(** Verification decides [raw_valid], whatever earlier calls left in the digest. *)
Lemma verify_spec raw magic buf len flags : raw_ok raw -> len <= Z.of_nat (length buf) ->
  exists ret len' raw', backend_format_raw_verify garbage keystore_get_secret raw magic buf len flags
      = Some (ret, len', raw') /\
    raw_ok raw' /\ rf_algo raw' = rf_algo raw /\ rf_secret_name raw' = rf_secret_name raw /\
    (ret = 0 <-> raw_valid raw magic buf len flags) /\ (ret = 0 -> len' = hdr_data_len buf + 16).
Proof.
  intros Hok Hlen. unfold backend_format_raw_verify, raw_valid, raw_frame, format_raw_min_length.
  pose proof (hdr_data_len_range buf) as Hdl.
  pose proof (fun P => refused raw raw len buf P (conj Hok (conj eq_refl eq_refl))) as Hfail.
  destruct (Z.ltb_spec len 16) as [|H16]; [apply Hfail; lia|].
  destruct (Z.eqb_spec (crc32 0 (take 12 buf)) (hdr_header_crc buf)) as [Hc|Hc]; cbn [negb]; [|apply Hfail; tauto].
  destruct (negb (magic =? 0) && negb (magic =? hdr_magic buf)) eqn:Em; [apply Hfail|].
  { destruct (Z.eqb_spec magic 0), (Z.eqb_spec magic (hdr_magic buf)); try done. tauto. }
  assert (magic = 0 \/ magic = hdr_magic buf) as Hm.
  { destruct (Z.eqb_spec magic 0), (Z.eqb_spec magic (hdr_magic buf)); try done; tauto. }
  clear Em. destruct (authenticate raw flags) eqn:Ea.
  2:{ cbn [Z.eqb negb]. rewrite Z.add_0_r.
      destruct (Z.ltb_spec len (hdr_data_len buf + 16)) as [Hl|Hl]; [apply Hfail; lia|].
      destruct (Z.eqb_spec (crc32 0 (sub 16 (Z.to_nat (hdr_data_len buf)) buf)) (hdr_data_crc buf)) as [Hd|Hd];
        cbn [negb]; [|apply Hfail; tauto].
      exists 0, (hdr_data_len buf + 16), raw. do 4 (split; [done|]). split; [|done].
      split; [|done]. intros _. split; [|done]. do 4 (split; [done|]). done. }
  destruct (digest_init_spec raw Hok) as (ret & raw1 & -> & Hok1 & Ha1 & Hs1 & Hr).
  destruct (raw_mac raw) as [e|[mac n]] eqn:Emac.
  { destruct Hr as [-> He]. rewrite (proj2 (Z.eqb_neq e 0) He). cbn [negb]. exists e, len, raw1.
    do 4 (split; [done|]). split; [|done]. split; [done|]. intros [_ H].
    destruct (H eq_refl) as (mac & n & E & _). congruence. }
  clear Hfail. pose proof (fun P => refused raw raw1 len buf P (conj Hok1 (conj Ha1 Hs1))) as Hfail.
  destruct Hr as (-> & Hn & d & Hd & Hi & Hh & Hn'). cbn [Z.eqb negb]. rewrite Hd, Hn'.
  assert (raw_authentic raw buf len <-> hdr_data_len buf + Z.of_nat n + 16 <= len /\
    sub (16 + Z.to_nat (hdr_data_len buf)) n buf = mac (take (16 + Z.to_nat (hdr_data_len buf)) buf)) as Hauth.
  { unfold raw_authentic. rewrite Emac. split; [|by intros; exists mac, n].
    intros (mac' & n' & [= <- <-] & H1 & H2). by split. }
  destruct (Z.ltb_spec len (hdr_data_len buf + Z.of_nat n + 16)) as [Hl|Hl].
  { apply Hfail. intros [_ H]. specialize (H eq_refl). apply Hauth in H. lia. }
  destruct (Z.eqb_spec (crc32 0 (sub 16 (Z.to_nat (hdr_data_len buf)) buf)) (hdr_data_crc buf)) as [Hdc|Hdc];
    cbn [negb]; [|apply Hfail; tauto].
  destruct (raw_check_spec raw raw1 buf d mac n) as (ret & raw2 & -> & Hok2 & Ha2 & Hs2 & Hr2); try done; [lia|].
  exists ret, (hdr_data_len buf + 16), raw2. do 4 (split; [done|]). split; [|done]. rewrite Hr2. split.
  - intros E. split; [|by intros _; apply Hauth]. do 3 (split; [done|]). split; [lia|done].
  - intros [_ H]. by apply Hauth, H.
Qed.

(** A valid copy stays valid with more bytes behind it. *)
Lemma raw_valid_app raw magic buf x flags : raw_valid raw magic buf (Z.of_nat (length buf)) flags ->
  raw_valid raw magic (buf ++ x) (Z.of_nat (length (buf ++ x))) flags /\
  hdr_data_len (buf ++ x) = hdr_data_len buf.
Proof.
  intros [(H16 & Hc & Hm & Hl & Hd) Ha].
  assert (forall o n, (o + n <= length buf)%nat -> sub o n (buf ++ x) = sub o n buf) as Hsub.
  { intros o n Hon. unfold sub. rewrite drop_app_le by lia. rewrite take_app_le by len. done. }
  assert (forall n, (n <= length buf)%nat -> take n (buf ++ x) = take n buf) as Htake.
  { intros n Hn. by rewrite take_app_le. }
  assert (hdr_data_len (buf ++ x) = hdr_data_len buf) as Edl by (unfold hdr_data_len; rewrite Hsub by lia; done).
  split; [|done]. pose proof (hdr_data_len_range buf). unfold raw_valid, raw_frame. split.
  - unfold hdr_header_crc, hdr_magic, hdr_data_crc in *. rewrite Edl, Htake, !Hsub by lia.
    split; [len|]. split; [done|]. split; [done|]. split; [len|done].
  - intros Hau. destruct (Ha Hau) as (mac & n & E & Hn & Ht). exists mac, n. rewrite Edl, Htake, Hsub by lia.
    split; [done|]. split; [len|done].
Qed.

(** *** Packing *)

Lemma pack_vars_spec vars : forall buf,
  Forall sv_wf vars -> layout vars ->
  Forall (fun sv => 16 + sv_start sv + sv_size sv <= Z.of_nat (length buf)) vars ->
  exists buf', raw_pack_vars vars buf = Some buf' /\ length buf' = length buf /\
    Forall (fun sv => sub (Z.to_nat (16 + sv_start sv)) (Z.to_nat (sv_size sv)) buf' = sv_bytes sv) vars /\
    (forall o n, Forall (fun sv => Z.of_nat (o + n) <= 16 + sv_start sv) vars -> sub o n buf' = sub o n buf).
Proof.
  induction vars as [|sv vars IH]; intros buf Hw Hl Hb; simpl.
  { exists buf. repeat (split; [done|]). done. }
  apply Forall_cons_1 in Hw as [Hsw Hw], Hb as [Hsb Hb]. apply layout_cons_inv in Hl as [Hsl Hl].
  destruct (Z.ltb_spec (Z.of_nat (length buf)) (16 + sv_start sv + sv_size sv)); [lia|].
  pose proof (sv_bytes_length sv Hsw) as Hn. pose proof (sv_size_range sv Hsw). destruct Hsw as [_ Hs].
  set (buf1 := splice (Z.to_nat (16 + sv_start sv)) (sv_bytes sv) buf).
  assert (length buf1 = length buf) as L1 by (apply length_splice; lia).
  destruct (IH buf1) as (buf' & -> & L' & Hv & Hout); [done|done|by rewrite L1|].
  exists buf'. split; [done|]. split; [lia|]. split.
  - constructor; [|done]. rewrite Hout; [unfold buf1; rewrite <- Hn; apply sub_splice_same; lia|].
    eapply Forall_weaken; [apply Hsl|]. unfold sv_before. intros. lia.
  - intros o n Ho. apply Forall_cons_1 in Ho as [Ho1 Ho]. rewrite Hout by done.
    apply sub_splice_disjoint; [lia|left; lia].
Qed.

Lemma put_header_spec magic size_data buf : 0 <= magic < 2 ^ 32 -> (16 <= length buf)%nat ->
  let b := raw_put_header magic size_data buf in
  length b = length buf /\ hdr_magic b = magic /\ hdr_data_len b = u16 size_data /\
  hdr_data_crc b = crc32 0 (sub 16 (Z.to_nat size_data) buf) /\
  crc32 0 (take 12 b) = hdr_header_crc b /\ (forall o n, (16 <= o)%nat -> sub o n b = sub o n buf).
Proof.
  intros Hm H16. unfold raw_put_header, hdr_magic, hdr_data_len, hdr_data_crc, hdr_header_crc.
  set (dc := crc32 0 (sub 16 (Z.to_nat size_data) buf)).
  assert (0 <= dc < 2 ^ 32) as Hdc by (apply crc32_range; lia).
  assert (forall v b, (16 <= length b)%nat -> length (splice 12 (le32 v) b) = length b /\
    length (splice 8 (le32 v) b) = length b /\ length (splice 6 (le16 v) b) = length b /\
    length (splice 0 (le32 v) b) = length b) as HL.
  { intros v b Hb. rewrite !length_splice by (rewrite ?length_le32, ?length_le16; lia). done. }
  set (b1 := splice 0 (le32 magic) buf). set (b2 := splice 6 (le16 size_data) b1).
  set (b3 := splice 8 (le32 dc) b2). set (hc := crc32 0 (take 12 b3)).
  assert (0 <= hc < 2 ^ 32) as Hhc by (apply crc32_range; lia).
  assert (length b1 = length buf) as L1 by (apply HL; lia).
  assert (length b2 = length buf) as L2 by (rewrite <- L1; apply HL; lia).
  assert (length b3 = length buf) as L3 by (rewrite <- L2; apply HL; lia).
  assert (forall o n v b off, (16 <= length b)%nat -> (o + n <= off)%nat -> (off + 4 <= 16)%nat ->
    sub o n (splice off (le32 v) b) = sub o n b) as Hlo.
  { intros o n v b off Hb Ho Hoff. apply sub_splice_disjoint; rewrite length_le32; lia. }
  split; [rewrite <- L3; apply HL; lia|].
  split; [|split; [|split; [|split]]].
  - rewrite Hlo by lia. unfold b3. rewrite Hlo by lia. unfold b2.
    rewrite sub_splice_disjoint by (rewrite length_le16; lia). unfold b1.
    rewrite sub_splice_at by (apply length_le32 || lia).
    rewrite get_le_le32. by apply u32_small.
  - rewrite Hlo by lia. unfold b3. rewrite Hlo by lia. unfold b2.
    rewrite sub_splice_at by (apply length_le16 || lia).
    apply get_le_le16.
  - rewrite Hlo by lia. unfold b3. rewrite sub_splice_at by (apply length_le32 || lia). rewrite get_le_le32. by apply u32_small.
  - rewrite sub_splice_at by (apply length_le32 || lia).
    rewrite get_le_le32, u32_small by done. unfold hc. f_equal.
    pose proof (Hlo 0%nat 12%nat hc b3 12%nat) as E. unfold sub in E. rewrite !drop_0 in E. apply E; lia.
  - intros o n Ho. rewrite sub_splice_disjoint by (rewrite length_le32; lia).
    unfold b3. rewrite sub_splice_disjoint by (rewrite length_le32; lia).
    unfold b2. rewrite sub_splice_disjoint by (rewrite length_le16; lia).
    unfold b1. rewrite sub_splice_disjoint by (rewrite length_le32; lia). done.
Qed.

(** Packing variables whose layout fits 16 bits gives a valid copy that holds
    their bytes, unless the digest cannot be set up. *)
Definition pack_result (raw : raw_format) (magic : Z) (vars : list state_variable) (size_data : Z)
    (r : option (Z * bytes * raw_format)) : Prop :=
  exists ret buf raw', r = Some (ret, buf, raw') /\ raw_ok raw' /\
    rf_algo raw' = rf_algo raw /\ rf_secret_name raw' = rf_secret_name raw /\
    match (if bool_decide (is_Some (rf_algo raw)) then raw_mac raw else inr (fun _ => [], 0%nat)) with
    | inl e => ret = e /\ e <> 0
    | inr (_, n) => ret = 0 /\ length buf = (16 + Z.to_nat size_data + n)%nat /\
        hdr_data_len buf = u16 size_data /\ hdr_magic buf = magic /\
        (size_data < 2 ^ 16 -> forall flags, raw_valid raw magic buf (Z.of_nat (length buf)) flags) /\
        Forall (fun sv => sub (Z.to_nat (16 + sv_start sv)) (Z.to_nat (sv_size sv)) buf = sv_bytes sv) vars
    end.

Lemma mac_length raw mac n m : raw_mac raw = inr (mac, n) -> length (mac m) = n /\ 20 <= Z.of_nat n <= 32.
Proof.
  unfold raw_mac. destruct (digest_alloc (default [] (rf_algo raw))) as [d|] eqn:Ea; [|done].
  destruct (keystore_get_secret (rf_secret_name raw)) as [kr key]. destruct (negb (kr =? 0)); [done|].
  destruct d as [?|h]; [done|]. pose proof (digest_alloc_like _ _ key Ea) as (_ & _ & _ & Hn & _ & _).
  destruct (hm_pad_length h <? length key)%nat; [done|]. intros [= <- <-].
  rewrite Hn. unfold rfc2104. cbn [dg_hash sha_digest_laws].
  split; [apply length_sha_hash|]. cbn. unfold sha_digest_length. destruct (d_algo (hm_d h)); vm_compute; done.
Qed.

Lemma sub_prefix k a b o n : take k a = take k b -> (o + n <= k)%nat -> sub o n a = sub o n b.
Proof.
  intros E Hk. assert (forall l : bytes, sub o n l = sub o n (take k l)) as Ht.
  { intros l. unfold sub. rewrite skipn_firstn_comm, take_take. f_equal. lia. }
  by rewrite (Ht a), (Ht b), E.
Qed.

(** What the buffer holds when the header has been written, and still holds
    when its first [16 + size_data] bytes are copied. *)
Lemma pack_core magic vars sv n :
  0 <= magic < 2 ^ 32 -> Forall sv_wf vars -> layout vars -> list.last vars = Some sv ->
  let sd := sv_start sv + sv_size sv in
  exists buf, raw_pack_vars vars (zeros (16 + Z.to_nat sd + n)) = Some buf /\
    let b := raw_put_header magic sd buf in length b = (16 + Z.to_nat sd + n)%nat /\
    forall f, take (16 + Z.to_nat sd) f = take (16 + Z.to_nat sd) b ->
      hdr_data_len f = u16 sd /\ hdr_magic f = magic /\
      Forall (fun sv => sub (Z.to_nat (16 + sv_start sv)) (Z.to_nat (sv_size sv)) f = sv_bytes sv) vars /\
      (sd < 2 ^ 16 -> forall len, 16 + sd <= len -> raw_frame magic f len).
Proof.
  intros Hm Hw Hl Hlast sd. pose proof (layout_last vars sv Hl Hw Hlast) as Hend.
  assert (0 <= sd) as Hsd.
  { rewrite last_lookup in Hlast. rewrite Forall_lookup in Hw. pose proof (Hw _ _ Hlast) as Hsv.
    pose proof (sv_size_range sv Hsv). destruct Hsv. unfold sd. lia. }
  destruct (pack_vars_spec vars (zeros (16 + Z.to_nat sd + n)) Hw Hl) as (buf & E & L & Hv & _).
  { eapply Forall_weaken; [apply Hend|]. intros x Hx. cbn beta in Hx. rewrite length_zeros. unfold sd in *. lia. }
  rewrite length_zeros in L. exists buf. split; [done|]. intros b.
  destruct (put_header_spec magic sd buf Hm) as (Lb & H1 & H2 & H3 & H4 & H5); [lia|]. fold b in Lb, H1, H2, H3, H4, H5.
  split; [lia|]. intros f Ef.
  assert (forall o n, (o + n <= 16 + Z.to_nat sd)%nat -> sub o n f = sub o n b) as Hsub
    by (intros o m; by apply sub_prefix).
  assert (hdr_data_len f = u16 sd) as Edl by (unfold hdr_data_len; rewrite Hsub by lia; done).
  assert (hdr_magic f = magic) as Em by (unfold hdr_magic; rewrite Hsub by lia; done).
  split; [done|]. split; [done|]. split.
  - apply Forall_lookup. intros i x Hx. rewrite Forall_lookup in Hv, Hw, Hend.
    pose proof (Hend i x Hx) as He. pose proof (Hw i x Hx) as Hwx. pose proof (sv_size_range x Hwx). destruct Hwx as [_ ?].
    cbn beta in He. rewrite Hsub by (unfold sd; lia). rewrite H5 by lia. by apply (Hv i).
  - intros Hlt len Hlen. unfold raw_frame. rewrite Edl, u16_small by lia.
    split; [lia|]. split; [|split; [by right|split; [lia|]]].
    + unfold hdr_header_crc in *. rewrite Hsub by lia. rewrite <- H4. f_equal.
      assert (sub 0 12 f = sub 0 12 b) as E12 by (apply Hsub; lia). unfold sub in E12. by rewrite !drop_0 in E12.
    + unfold hdr_data_crc in *. rewrite !Hsub by lia. rewrite H3. by rewrite H5 by lia.
Qed.

Lemma pack_spec raw magic vars sv :
  raw_ok raw -> 0 <= magic < 2 ^ 32 -> Forall sv_wf vars -> layout vars -> list.last vars = Some sv ->
  sv_start sv + sv_size sv < 2 ^ 31 ->
  pack_result raw magic vars (sv_start sv + sv_size sv)
    (backend_format_raw_pack garbage keystore_get_secret raw magic vars).
Proof.
  intros Hok Hm Hw Hl Hlast Hsz. unfold pack_result, backend_format_raw_pack.
  set (sd := sv_start sv + sv_size sv) in *.
  assert (0 <= sd) as Hsd.
  { rewrite last_lookup in Hlast. rewrite Forall_lookup in Hw. pose proof (Hw _ _ Hlast) as Hsv.
    pose proof (sv_size_range sv Hsv). destruct Hsv. unfold sd. lia. }
  rewrite Hlast. case_bool_decide as Hal.
  - destruct (digest_init_spec raw Hok) as (ret & raw1 & -> & Hok1 & Ha1 & Hs1 & Hr).
    destruct (raw_mac raw) as [e|[mac n]] eqn:Emac.
    { destruct Hr as [-> He]. rewrite (proj2 (Z.eqb_neq e 0) He). cbn [negb]. by exists e, [], raw1. }
    destruct Hr as (-> & Hn & d & Hd & Hi & Hh & Hn'). cbn [Z.eqb negb]. rewrite Hd, Hn.
    fold sd. rewrite (u32_small sd) by lia.
    pose proof (mac_length raw mac n [] Emac) as [_ Hn32]. rewrite u32_small by lia.
    destruct (Z.ltb_spec (sd + 16 + Z.of_nat n) (16 + sd)); [lia|].
    destruct (pack_core magic vars sv n Hm Hw Hl Hlast) as (buf & Eb & L & Hf). fold sd in Eb, L, Hf.
    replace (Z.to_nat (sd + 16 + Z.of_nat n)) with (16 + Z.to_nat sd + n)%nat by lia. rewrite Eb.
    set (b := raw_put_header magic sd buf) in *.
    assert (exists d0, digest_alloc (default [] (rf_algo raw1)) = Some d0 /\
      digest_like (snd (keystore_get_secret (rf_secret_name raw1))) d0 d) as (d0 & Ea & Hlike).
    { unfold raw_ok in Hok1. rewrite Hd in Hok1. destruct Hok1 as (d0 & ? & ? & _). by exists d0. }
    set (m := take (Z.to_nat (16 + sd)) b).
    destruct (like_update _ d0 d [] m Hlike Hi) as (d1 & -> & Hi1 & Hh1 & Hn1 & Hlike1).
    { unfold short_chunk, m. rewrite length_take. lia. }
    cbn [Z.eqb negb].
    destruct (like_final _ d0 d1 _ Hlike1 Hi1) as (d2 & -> & Hn2 & Hlike2). cbn [app] in *.
    rewrite Hh1, Hh. destruct (mac_length raw mac n m Emac) as [Lm _]. change (0 <? 0) with false. cbn match.
    rewrite Lm. destruct (Z.ltb_spec (sd + 16 + Z.of_nat n) (16 + sd + Z.of_nat n)); [lia|].
    set (f := splice (Z.to_nat (16 + sd)) (mac m) b).
    assert (Z.to_nat (16 + sd) = 16 + Z.to_nat sd)%nat as Ek by lia.
    assert (length f = 16 + Z.to_nat sd + n)%nat as Lf by (unfold f; rewrite length_splice; lia).
    assert (take (16 + Z.to_nat sd) f = m) as Etf.
    { unfold f, splice, m. rewrite Ek. rewrite take_app_le by len. rewrite take_take. f_equal. lia. }
    destruct (Hf f) as (F1 & F2 & F3 & F4). { rewrite Etf. unfold m. by rewrite Ek. }
    exists 0, f, (set_digest d2 raw1). split; [done|]. split; [|split; [done|split; [done|]]].
    { unfold raw_ok. cbn. exists d0. split; [done|]. split; [done|]. congruence. }
    split; [done|]. split; [done|]. split; [done|]. split; [done|]. split; [|done].
    intros Hlt flags. split; [apply F4; lia|]. intros _. exists mac, n. rewrite F1, u16_small by lia.
    split; [done|]. split; [lia|]. rewrite Etf. unfold f. rewrite Ek. apply sub_splice_at; [done|lia].
  - assert (rf_digest raw = None /\ rf_digest_length raw = 0%nat) as [Hd Hdl].
    { unfold raw_ok in Hok. destruct (rf_digest raw); [|done]. destruct Hok as (d0 & E & _).
      destruct (rf_algo raw); [by destruct Hal|]. by vm_compute in E. }
    cbn [Z.eqb negb]. rewrite Hd, Hdl. fold sd. rewrite (u32_small sd) by lia. rewrite u32_small by lia.
    destruct (Z.ltb_spec (sd + 16 + Z.of_nat 0) (16 + sd)); [lia|].
    destruct (pack_core magic vars sv 0 Hm Hw Hl Hlast) as (buf & Eb & L & Hf). fold sd in Eb, L, Hf.
    replace (Z.to_nat (sd + 16 + Z.of_nat 0)) with (16 + Z.to_nat sd + 0)%nat by lia. rewrite Eb.
    set (b := raw_put_header magic sd buf) in *. destruct (Hf b eq_refl) as (F1 & F2 & F3 & F4).
    exists 0, b, raw. repeat (split; [done|]). split; [|done].
    intros Hlt flags. split; [apply F4; lia|]. unfold authenticate. rewrite bool_decide_eq_false_2 by done. done.
Qed.

(** *** Unpacking *)

(** Variables of the same place and size. *)
Definition same_shape (a b : state_variable) : Prop :=
  sv_start a = sv_start b /\ sv_size a = sv_size b.

Lemma unpack_vars_spec vars vars' buf : forall ret,
  Forall sv_wf vars' -> Forall2 same_shape vars vars' ->
  Forall (fun sv => sv_start sv + sv_size sv <= hdr_data_len buf) vars ->
  hdr_data_len buf + 16 <= Z.of_nat (length buf) ->
  Forall (fun sv => sub (Z.to_nat (16 + sv_start sv)) (Z.to_nat (sv_size sv)) buf = sv_bytes sv) vars ->
  exists vars'', raw_unpack_vars vars' buf ret = Some (ret, vars'') /\
    vars'' = zip_with (fun a b => sv_write_raw (sv_bytes a) b) vars vars'.
Proof.
  intros ret Hw Hs. revert Hw. pose proof (hdr_data_len_range buf) as Hdl.
  induction Hs as [|a b vars vars' [Est Esz] Hs IH]; intros Hw Hend Hlen Hv; simpl; [by exists []|].
  apply Forall_cons_1 in Hw as [Hwb Hw], Hend as [Hea Hend], Hv as [Hva Hv].
  pose proof (sv_size_range b Hwb). pose proof (proj2 Hwb). rewrite <- Est, <- Esz in *.
  rewrite u32_small by lia. destruct (Z.ltb_spec (hdr_data_len buf) (sv_start a + sv_size a)); [lia|].
  destruct (Z.ltb_spec (Z.of_nat (length buf)) (16 + sv_start a + sv_size a)); [lia|].
  destruct (IH Hw Hend Hlen Hv) as (vars'' & -> & ->). simpl. rewrite Hva. by eexists.
Qed.

(** A variable behind the data makes unpacking report it, and go on. *)
Lemma unpack_vars_beyond vars buf : forall ret,
  Forall sv_wf vars -> hdr_data_len buf + 16 <= Z.of_nat (length buf) ->
  Forall (fun sv => sv_start sv + sv_size sv < 2 ^ 32) vars ->
  exists vars', raw_unpack_vars vars buf ret =
    Some (if bool_decide (Exists (fun sv => hdr_data_len buf < sv_start sv + sv_size sv) vars)
          then - ENOSPC else ret, vars').
Proof.
  induction vars as [|sv vars IH]; intros ret Hw Hlen Hb; simpl; [by eexists|].
  apply Forall_cons_1 in Hw as [Hsw Hw], Hb as [Hsb Hb]. pose proof (sv_size_range sv Hsw). pose proof (proj2 Hsw).
  rewrite u32_small by lia. destruct (Z.ltb_spec (hdr_data_len buf) (sv_start sv + sv_size sv)) as [Hlt|Hge].
  - destruct (IH (- ENOSPC) Hw Hlen Hb) as (vars' & ->). simpl.
    rewrite (bool_decide_eq_true_2 (Exists _ (sv :: vars))) by (by apply Exists_cons; left).
    case_bool_decide; by eexists.
  - destruct (Z.ltb_spec (Z.of_nat (length buf)) (16 + sv_start sv + sv_size sv)); [lia|].
    destruct (IH ret Hw Hlen Hb) as (vars' & ->). simpl. eexists. f_equal. f_equal.
    rewrite (bool_decide_ext (Exists _ (sv :: vars)) (Exists (fun sv => hdr_data_len buf < sv_start sv + sv_size sv) vars));
      [done|]. rewrite Exists_cons. split; [intros [?|?]; [lia|done]|by right].
Qed.

Lemma raw_valid_same raw raw' magic buf len flags :
  rf_algo raw' = rf_algo raw -> rf_secret_name raw' = rf_secret_name raw ->
  raw_valid raw' magic buf len flags <-> raw_valid raw magic buf len flags.
Proof. intros E1 E2. unfold raw_valid, authenticate, raw_authentic, raw_mac. by rewrite E1, E2. Qed.

(** A change of one byte of the header or the data breaks the frame. *)
Lemma raw_frame_corrupt magic magic' pre b b' post len len' : b <> b' ->
  Z.of_nat (length pre) < 16 + hdr_data_len (pre ++ b :: post) ->
  raw_frame magic (pre ++ b :: post) len -> len <= Z.of_nat (length (pre ++ b :: post)) ->
  ~ raw_frame magic' (pre ++ b' :: post) len'.
Proof.
  intros Hb Hpos (H16 & Hc & _ & Hl & Hd) Hlen (_ & Hc' & _ & Hl' & Hd').
  set (n := length pre) in *.
  assert (forall o k, (n < o \/ o + k <= n)%nat -> sub o k (pre ++ b :: post) = sub o k (pre ++ b' :: post)) as Hsame.
  { intros o k Ho. unfold sub. apply list_eq. intros i. destruct (decide (i < k)%nat).
    - rewrite !lookup_take_lt, !lookup_drop by done.
      destruct (decide (o + i < n)%nat); [by rewrite !lookup_app_l by done|].
      rewrite !lookup_app_r by lia. fold n. destruct (o + i - n)%nat eqn:E; [lia|done].
    - by rewrite !lookup_take_ge by lia. }
  assert (forall o k, (o <= n)%nat -> (n < o + k)%nat -> exists p q,
    sub o k (pre ++ b :: post) = p ++ b :: q /\ sub o k (pre ++ b' :: post) = p ++ b' :: q) as Hdiff.
  { intros o k Ho Hk. unfold sub. rewrite !drop_app_le by done.
    assert (length (drop o pre) < k)%nat by (rewrite length_drop; fold n; lia).
    exists (drop o pre), (take (k - length (drop o pre) - 1) post).
    rewrite !take_app_ge by lia. destruct (k - length (drop o pre))%nat eqn:E; [lia|].
    simpl. by rewrite Nat.sub_0_r. }
  assert (forall o k, (o <= n)%nat -> (n < o + k)%nat ->
    crc32 0 (sub o k (pre ++ b :: post)) <> crc32 0 (sub o k (pre ++ b' :: post))) as Hcrc.
  { intros o k Ho Hk. destruct (Hdiff o k Ho Hk) as (p & q & -> & ->). apply crc32_differ; [lia|done]. }
  assert (forall l, take 12 l = sub 0 12 l) as Et by done.
  rewrite !Et in *. unfold hdr_header_crc, hdr_data_crc in *.
  destruct (decide (n < 12)%nat); [|destruct (decide (n < 16)%nat)].
  - apply (Hcrc 0%nat 12%nat); [lia|lia|]. rewrite Hc, Hc'. by rewrite Hsame by lia.
  - rewrite <-(Hsame 0%nat 12%nat) in Hc' by lia. rewrite Hc in Hc'.
    destruct (Hdiff 12%nat 4%nat) as (p & q & E1 & E2); [lia|lia|]. rewrite E1, E2 in Hc'.
    apply get_le_inj in Hc'; [simplify_eq|by rewrite !length_app].
  - unfold hdr_data_len in *. rewrite <-(Hsame 6%nat 2%nat) in * by lia.
    rewrite <-(Hsame 8%nat 4%nat) in Hd' by lia.
    apply (Hcrc 16%nat (Z.to_nat (get_le (sub 6 2 (pre ++ b :: post))))); [lia|lia|]. by rewrite Hd, Hd'.
Qed.
End Proofs.

(** ** The format as the storage sees it *)

Definition raw_format_verify garbage keystore_get_secret : FormatVerify raw_format := {|
  format_verify := backend_format_raw_verify garbage keystore_get_secret
|}.

Definition raw_accepts garbage keystore_get_secret (raw : raw_format) (magic : Z) (c : bytes) (flags : Z) : option Z :=
  match backend_format_raw_verify garbage keystore_get_secret raw magic c (Z.of_nat (length c)) flags with
  | Some (ret, len, _) => if ret =? 0 then Some len else None
  | None => None
  end.

(** The verdict is [raw_valid], in every phase of the digest. *)
Lemma raw_accepts_spec garbage ks raw magic c flags : raw_ok ks raw ->
  match raw_accepts garbage ks raw magic c flags with
  | Some l => raw_valid ks raw magic c (Z.of_nat (length c)) flags /\ l = hdr_data_len c + 16
  | None => ~ raw_valid ks raw magic c (Z.of_nat (length c)) flags
  end.
Proof.
  intros Hok. unfold raw_accepts.
  destruct (verify_spec garbage ks raw magic c (Z.of_nat (length c)) flags Hok)
    as (ret & l & r & -> & _ & _ & _ & Hret & Hl); [lia|].
  destruct (Z.eqb_spec ret 0) as [E|E]; [split; [by apply Hret|by apply Hl]|]. by intros Hv%Hret.
Qed.

Lemma raw_verify_law garbage ks fmt magic c flags : raw_ok ks fmt ->
  exists ret len fmt', backend_format_raw_verify garbage ks fmt magic c (Z.of_nat (length c)) flags = Some (ret, len, fmt') /\
    match raw_accepts garbage ks fmt magic c flags with Some l => ret = 0 /\ len = l | None => ret <> 0 end /\
    (raw_ok ks fmt' /\ rf_algo fmt' = rf_algo fmt /\ rf_secret_name fmt' = rf_secret_name fmt) /\
    forall m x fl, raw_accepts garbage ks fmt' m x fl = raw_accepts garbage ks fmt m x fl.
Proof.
  intros Hok.
  destruct (verify_spec garbage ks fmt magic c (Z.of_nat (length c)) flags Hok)
    as (ret & l & r & E & Hok' & Ha & Hs & Hret & Hl); [lia|].
  exists ret, l, r. split; [exact E|]. split; [|split; [done|]].
  - unfold raw_accepts. rewrite E. destruct (Z.eqb_spec ret 0); [by split|done].
  - intros m x fl. pose proof (raw_accepts_spec garbage ks r m x fl Hok') as H1.
    pose proof (raw_accepts_spec garbage ks fmt m x fl Hok) as H2.
    assert (raw_valid ks r m x (Z.of_nat (length x)) fl <-> raw_valid ks fmt m x (Z.of_nat (length x)) fl) as Hsame.
    { split; by apply raw_valid_same. }
    destruct (raw_accepts garbage ks r m x fl), (raw_accepts garbage ks fmt m x fl); try tauto.
    destruct H1 as [_ ->], H2 as [_ ->]. done.
Qed.

(** The laws in any phase, and with the algorithm and the secret in mind. *)
Definition raw_format_laws garbage ks : @FormatLaws raw_format (raw_format_verify garbage ks).
Proof.
  refine (@Build_FormatLaws raw_format (raw_format_verify garbage ks)
    (raw_ok ks) (fun _ _ _ _ => True) (raw_accepts garbage ks) _ _); [done|].
  intros fmt magic c flags Hok _.
  destruct (raw_verify_law garbage ks fmt magic c flags Hok) as (ret & l & r & E & Hv & (Hok' & _) & Ha).
  exists ret, l, r. split; [exact E|]. split; [done|]. split; [done|]. intros m x fl. by rewrite Ha.
Defined.

Definition raw_phase_laws garbage ks (algo : option bytes) (secret_name : bytes) :
  @FormatLaws raw_format (raw_format_verify garbage ks).
Proof.
  refine (@Build_FormatLaws raw_format (raw_format_verify garbage ks)
    (fun r => raw_ok ks r /\ rf_algo r = algo /\ rf_secret_name r = secret_name)
    (fun _ _ _ _ => True) (raw_accepts garbage ks) _ _); [done|].
  intros fmt magic c flags (Hok & Halgo & Hname) _.
  destruct (raw_verify_law garbage ks fmt magic c flags Hok) as (ret & l & r & E & Hv & (Hok' & Ha' & Hs') & Ha).
  exists ret, l, r. split; [exact E|]. split; [done|]. split; [split; [done|]; split; congruence|].
  intros m x fl. by rewrite Ha.
Defined.

(** What verifies once verifies for the storage, with anything behind it. *)
Lemma raw_copy_verifies garbage ks raw magic buf flags x len raw' :
  raw_ok ks raw ->
  backend_format_raw_verify garbage ks raw magic buf (Z.of_nat (length buf)) flags = Some (0, len, raw') ->
  raw_accepts garbage ks raw magic (buf ++ x) flags = Some len.
Proof.
  intros Hok Hv.
  destruct (verify_spec garbage ks raw magic buf (Z.of_nat (length buf)) flags Hok)
    as (ret & l & r & E & _ & _ & _ & Hret & Hl); [lia|]. rewrite E in Hv. injection Hv as -> -> ->.
  destruct (raw_valid_app ks raw magic buf x flags (proj1 Hret eq_refl)) as [Hva Edl].
  pose proof (raw_accepts_spec garbage ks raw magic (buf ++ x) flags Hok) as H.
  destruct (raw_accepts _ _ _ _ _ _); [|done]. destruct H as [_ ->]. rewrite Hl by done. by rewrite Edl.
Qed.

(** Packing succeeds when the digest can be set up and the layout fits; whatever
    is put behind the copy, it is valid and unpacks to the same bytes. *)
Lemma pack_reads garbage ks raw magic vars sv :
  raw_ok ks raw -> (is_Some (rf_algo raw) -> exists m, raw_mac ks raw = inr m) -> 0 <= magic < 2 ^ 32 ->
  Forall sv_wf vars -> layout vars -> list.last vars = Some sv -> sv_start sv + sv_size sv < 2 ^ 16 ->
  exists buf raw1, backend_format_raw_pack garbage ks raw magic vars = Some (0, buf, raw1) /\
    raw_ok ks raw1 /\ rf_algo raw1 = rf_algo raw /\ rf_secret_name raw1 = rf_secret_name raw /\
    0 <= sv_start sv + sv_size sv /\ 16 + (sv_start sv + sv_size sv) <= Z.of_nat (length buf) <= 48 + (sv_start sv + sv_size sv) /\
    forall padding,
      (forall flags, raw_valid ks raw magic (buf ++ padding) (Z.of_nat (length (buf ++ padding))) flags) /\
      hdr_data_len (buf ++ padding) = sv_start sv + sv_size sv /\
      forall vars', Forall sv_wf vars' -> Forall2 same_shape vars vars' ->
      exists vars'', backend_format_raw_unpack vars' (buf ++ padding) = Some (0, vars'') /\
        vars'' = zip_with (fun a b => sv_write_raw (sv_bytes a) b) vars vars' /\
        sv_bytes <$> vars'' = sv_bytes <$> vars /\ Forall2 same_shape vars vars''.
Proof.
  intros Hok Hmac Hm Hw Hl Hlast Hsz.
  destruct (pack_spec garbage ks raw magic vars sv Hok Hm Hw Hl Hlast) as (ret & buf & raw1 & Ep & Hok1 & Ha & Hsn & Hr); [lia|].
  assert (exists n, ret = 0 /\ length buf = (16 + Z.to_nat (sv_start sv + sv_size sv) + n)%nat /\ (n <= 32)%nat /\
    hdr_data_len buf = u16 (sv_start sv + sv_size sv) /\
    (forall flags, raw_valid ks raw magic buf (Z.of_nat (length buf)) flags) /\
    Forall (fun sv => sub (Z.to_nat (16 + sv_start sv)) (Z.to_nat (sv_size sv)) buf = sv_bytes sv) vars)
    as (n & -> & Lb & Hn & Hdl & Hv & Hsub).
  { case_bool_decide as Hal.
    - destruct (Hmac Hal) as [[mac n] E]. rewrite E in Hr. exists n. destruct Hr as (? & ? & ? & ? & Hv & ?).
      destruct (mac_length ks raw mac n [] E).
      split; [done|]. split; [done|]. split; [lia|]. split; [done|]. split; [by apply Hv|done].
    - exists 0%nat. destruct Hr as (? & ? & ? & ? & Hv & ?).
      split; [done|]. split; [done|]. split; [lia|]. split; [done|]. split; [by apply Hv|done]. }
  pose proof (layout_last vars sv Hl Hw Hlast) as Hend.
  assert (0 <= sv_start sv + sv_size sv) as Hsd.
  { rewrite last_lookup in Hlast. rewrite Forall_lookup in Hw. pose proof (Hw _ _ Hlast) as Hsv.
    pose proof (sv_size_range sv Hsv). destruct Hsv. lia. }
  rewrite u16_small in Hdl by lia.
  exists buf, raw1. do 4 (split; [done|]). split; [done|]. split; [lia|]. intros padding.
  destruct (raw_valid_app ks raw magic buf padding 0 (Hv 0)) as [_ Edl]. rewrite Hdl in Edl.
  split; [intros flags; by apply raw_valid_app|]. split; [done|]. intros vars' Hw' Hs.
  destruct (unpack_vars_spec vars vars' (buf ++ padding) 0 Hw' Hs) as (vars'' & Eu & Evs).
  - rewrite Edl. done.
  - rewrite Edl, length_app. lia.
  - apply Forall_lookup. intros i x Hx. rewrite Forall_lookup in Hsub, Hend, Hw.
    rewrite <-(Hsub i x Hx). pose proof (Hend i x Hx) as He. cbn beta in He.
    pose proof (Hw i x Hx) as Hwx. pose proof (sv_size_range x Hwx). pose proof (proj2 Hwx).
    apply (sub_prefix (length buf)); [rewrite take_app_length; symmetry; by apply take_ge|lia].
  - exists vars''. split; [done|]. split; [done|]. subst vars''. clear - Hs Hw Hw'.
    induction Hs as [|a b vars vars' [E1 E2] Hs IH]; [done|].
    apply Forall_cons_1 in Hw as [Ha Hw], Hw' as [Hb Hw']. destruct (IH Hw Hw') as [IH1 IH2]. split.
    + cbn. rewrite IH1. f_equal. apply sv_write_raw_bytes; [done|]. rewrite sv_bytes_length by done. by rewrite E2.
    + cbn. by constructor.
Qed.

(** What is valid verifies for the storage. *)
Lemma raw_valid_verifies garbage ks raw magic buf flags :
  raw_ok ks raw -> raw_valid ks raw magic buf (Z.of_nat (length buf)) flags ->
  raw_accepts garbage ks raw magic buf flags = Some (hdr_data_len buf + 16).
Proof.
  intros Hok Hv. pose proof (raw_accepts_spec garbage ks raw magic buf flags Hok) as H.
  destruct (raw_accepts _ _ _ _ _ _); [|done]. by destruct H as [_ ->].
Qed.

(** ** Claims *)

(** Verification accepts a buffer exactly when it frames a packed state
    (lengths, magic and both checksums) and, when authentication is on, the keyed
    hash of header and data follows it; the length it reports is that of header
    and data; it never uses a released key and its answer does not depend on what
    earlier calls left in the digest. *)
Theorem raw_verify_decides garbage ks raw magic buf len flags :
  raw_ok ks raw -> len <= Z.of_nat (length buf) ->
  exists ret len' raw', backend_format_raw_verify garbage ks raw magic buf len flags = Some (ret, len', raw') /\
    raw_ok ks raw' /\ rf_algo raw' = rf_algo raw /\ rf_secret_name raw' = rf_secret_name raw /\
    (ret = 0 <-> raw_valid ks raw magic buf len flags) /\ (ret = 0 -> len' = hdr_data_len buf + 16).
Proof. apply verify_spec. Qed.

(** C13: what is packed verifies, with anything behind it, and unpacking it into
    variables of the same layout restores the bytes of every variable, with and
    without authentication, if the variables end below 64 KiB, which the 16 bits of the
    length in the header allow. *)
Theorem raw_roundtrip garbage ks raw magic vars sv vars' padding flags :
  raw_ok ks raw -> (is_Some (rf_algo raw) -> exists m, raw_mac ks raw = inr m) -> 0 <= magic < 2 ^ 32 ->
  Forall sv_wf vars -> layout vars -> list.last vars = Some sv -> sv_start sv + sv_size sv < 2 ^ 16 ->
  Forall sv_wf vars' -> Forall2 same_shape vars vars' ->
  exists buf raw1 raw2 vars'',
    backend_format_raw_pack garbage ks raw magic vars = Some (0, buf, raw1) /\
    backend_format_raw_verify garbage ks raw1 magic (buf ++ padding) (Z.of_nat (length (buf ++ padding))) flags
      = Some (0, 16 + (sv_start sv + sv_size sv), raw2) /\
    backend_format_raw_unpack vars' (buf ++ padding) = Some (0, vars'') /\
    sv_bytes <$> vars'' = sv_bytes <$> vars.
Proof.
  intros Hok Hmac Hm Hw Hl Hlast Hsz Hw' Hs.
  destruct (pack_reads garbage ks raw magic vars sv Hok Hmac Hm Hw Hl Hlast Hsz)
    as (buf & raw1 & Ep & Hok1 & Ha & Hsn & _ & _ & Hpad).
  destruct (Hpad padding) as (Hv & Edl & Hu). destruct (Hu vars' Hw' Hs) as (vars'' & Eu & _ & Evs & _).
  destruct (verify_spec garbage ks raw1 magic (buf ++ padding) (Z.of_nat (length (buf ++ padding))) flags Hok1)
    as (ret & len' & raw2 & Ev & _ & _ & _ & Hret & Hlen'); [lia|].
  rewrite raw_valid_same in Hret by done. pose proof (proj2 Hret (Hv flags)) as ->.
  exists buf, raw1, raw2, vars''. split; [done|]. split; [|done].
  rewrite Ev, Hlen' by done. rewrite Edl. do 3 f_equal. lia.
Qed.

(** C29: changing any one byte of the header or the data of a copy that verifies
    makes verification fail, with or without authentication. *)
Theorem raw_detects_corruption garbage ks raw magic pre b b' post flags len' raw' :
  raw_ok ks raw -> b <> b' -> Z.of_nat (length pre) < 16 + hdr_data_len (pre ++ b :: post) ->
  backend_format_raw_verify garbage ks raw magic (pre ++ b :: post) (Z.of_nat (length (pre ++ b :: post))) flags
    = Some (0, len', raw') ->
  exists e len'' raw'',
    backend_format_raw_verify garbage ks raw' magic (pre ++ b' :: post) (Z.of_nat (length (pre ++ b' :: post))) flags
      = Some (e, len'', raw'') /\ e <> 0.
Proof.
  intros Hok Hb Hpos Hv.
  destruct (verify_spec garbage ks raw magic (pre ++ b :: post) (Z.of_nat (length (pre ++ b :: post))) flags Hok)
    as (ret & l & raw1 & E & Hok1 & _ & _ & Hret & _); [lia|]. rewrite E in Hv. injection Hv as -> -> ->.
  destruct (proj1 Hret eq_refl) as [Hf _].
  destruct (verify_spec garbage ks raw' magic (pre ++ b' :: post) (Z.of_nat (length (pre ++ b' :: post))) flags Hok1)
    as (e & l' & raw2 & E' & _ & _ & _ & Hret' & _); [lia|].
  exists e, l', raw2. split; [done|]. intros ->. destruct (proj1 Hret' eq_refl) as [Hf' _].
  by eapply raw_frame_corrupt; [done|done|apply Hf|lia|apply Hf'].
Qed.

(** The length that verification reports leaves the keyed hash out, and the
    storage rewrites its other copies with that length: the rewritten copy of an
    authenticated state does not verify. *)
Theorem raw_refresh_strips_hmac garbage ks raw magic buf flags len' raw' :
  raw_ok ks raw -> authenticate raw flags = true ->
  backend_format_raw_verify garbage ks raw magic buf (Z.of_nat (length buf)) flags = Some (0, len', raw') ->
  exists e len'' raw'',
    backend_format_raw_verify garbage ks raw' magic (take (Z.to_nat len') buf)
      (Z.of_nat (length (take (Z.to_nat len') buf))) flags = Some (e, len'', raw'') /\ e <> 0.
Proof.
  intros Hok Hau Hv.
  destruct (verify_spec garbage ks raw magic buf (Z.of_nat (length buf)) flags Hok)
    as (ret & l & raw1 & E & Hok1 & Ha1 & Hs1 & Hret & Hlen); [lia|]. rewrite E in Hv. injection Hv as -> -> ->.
  destruct (proj1 Hret eq_refl) as [Hf Hauth]. destruct (Hauth Hau) as (mac & n & Em & Hn & _).
  pose proof (hdr_data_len_range buf) as Hdl. rewrite (Hlen eq_refl) in *.
  set (c := take (Z.to_nat (hdr_data_len buf + 16)) buf).
  destruct (verify_spec garbage ks raw' magic c (Z.of_nat (length c)) flags Hok1)
    as (e & l' & raw2 & E' & _ & _ & _ & Hret' & _); [lia|].
  exists e, l', raw2. split; [done|]. intros ->.
  rewrite raw_valid_same in Hret' by done. destruct (proj1 Hret' eq_refl) as [_ Hauth''].
  destruct (Hauth'' Hau) as (mac' & n' & Em' & Hn' & _). rewrite Em in Em'. simplify_eq.
  assert (hdr_data_len c = hdr_data_len buf) as Ec.
  { unfold hdr_data_len. f_equal. apply (sub_prefix (Z.to_nat (hdr_data_len buf + 16))); [|lia].
    unfold c. rewrite take_take. f_equal. lia. }
  rewrite Ec in Hn'. unfold c in Hn'. rewrite length_take in Hn'.
  destruct (mac_length ks raw _ _ [] Em). lia.
Qed.

(** A state whose variables end behind 64 KiB is packed without an error, but
    its header cannot hold the length, and unpacking what was packed reports
    variables behind the data. *)
Theorem raw_large_state garbage ks raw magic vars sv :
  raw_ok ks raw -> (is_Some (rf_algo raw) -> exists m, raw_mac ks raw = inr m) -> 0 <= magic < 2 ^ 32 ->
  Forall sv_wf vars -> layout vars -> list.last vars = Some sv ->
  2 ^ 16 <= sv_start sv + sv_size sv < 2 ^ 31 ->
  exists buf raw1 vars',
    backend_format_raw_pack garbage ks raw magic vars = Some (0, buf, raw1) /\
    backend_format_raw_unpack vars buf = Some (- ENOSPC, vars').
Proof.
  intros Hok Hmac Hm Hw Hl Hlast Hsz.
  destruct (pack_spec garbage ks raw magic vars sv Hok Hm Hw Hl Hlast) as (ret & buf & raw1 & Ep & Hok1 & Ha & Hsn & Hr); [lia|].
  assert (exists n, ret = 0 /\ length buf = (16 + Z.to_nat (sv_start sv + sv_size sv) + n)%nat /\
    hdr_data_len buf = u16 (sv_start sv + sv_size sv)) as (n & -> & Lb & Hdl).
  { case_bool_decide as Hal.
    - destruct (Hmac Hal) as [[mac n] E]. rewrite E in Hr. exists n. tauto.
    - exists 0%nat. tauto. }
  pose proof (layout_last vars sv Hl Hw Hlast) as Hend. pose proof (hdr_data_len_range buf).
  destruct (unpack_vars_beyond vars buf 0 Hw) as (vars' & E); [lia| |].
  { eapply Forall_weaken; [apply Hend|]. intros x Hx. cbn beta in *. lia. }
  exists buf, raw1, vars'. split; [done|]. unfold backend_format_raw_unpack. rewrite E.
  rewrite bool_decide_eq_true_2; [done|]. rewrite last_lookup in Hlast.
  apply Exists_exists. exists sv. split; [apply list_elem_of_In; by eapply list_elem_of_lookup_2|lia].
Qed.

(** ** Witnesses *)

Definition ex_vars : list state_variable :=
  [StateVariable STATE_VARIABLE_TYPE_UINT32 (cstr "boots") 0 4 (StateUint32 3 0);
   StateVariable STATE_VARIABLE_TYPE_UINT8 (cstr "flag") 8 1 (StateUint32 1 0)].
Definition ex_plain : raw_format := RawFormat None 0 (cstr "state") None.
Definition ex_hmac : raw_format := RawFormat None 0 (cstr "state") (Some (cstr "hmac(sha1)")).
Definition ex_secret (name : bytes) : Z * bytes := (0, cstr "secret").
Definition ex_copy (raw : raw_format) : bytes :=
  match backend_format_raw_pack id ex_secret raw 0x1234 ex_vars with Some (_, buf, _) => buf | None => [] end.

Lemma ex_vars_wf : Forall sv_wf ex_vars.
Proof. repeat constructor; simpl; lia. Qed.
Lemma ex_vars_layout : layout ex_vars.
Proof.
  apply layout_cons; [constructor; [unfold sv_before; simpl; lia|constructor]|].
  apply layout_cons; [constructor|]. intros i j a b _ Hi. done.
Qed.
Lemma ex_vars_shape : Forall2 same_shape ex_vars ex_vars.
Proof. repeat constructor. Qed.

Lemma ex_hmac_mac : exists m, raw_mac ex_secret ex_hmac = inr m.
Proof.
  unfold raw_mac. destruct (digest_alloc (default [] (rf_algo ex_hmac))) as [d|] eqn:E; vm_compute in E; [|done].
  injection E as <-. cbn -[rfc2104]. by eexists.
Qed.

Lemma raw_verify_decides_witness :
  exists ret len' raw', backend_format_raw_verify id ex_secret ex_hmac 0x1234 (ex_copy ex_hmac)
      (Z.of_nat (length (ex_copy ex_hmac))) 0 = Some (ret, len', raw') /\
    raw_ok ex_secret raw' /\ rf_algo raw' = rf_algo ex_hmac /\ rf_secret_name raw' = rf_secret_name ex_hmac /\
    (ret = 0 <-> raw_valid ex_secret ex_hmac 0x1234 (ex_copy ex_hmac) (Z.of_nat (length (ex_copy ex_hmac))) 0) /\
    (ret = 0 -> len' = hdr_data_len (ex_copy ex_hmac) + 16).
Proof.
  apply (raw_verify_decides id ex_secret ex_hmac 0x1234 (ex_copy ex_hmac) (Z.of_nat (length (ex_copy ex_hmac))) 0).
  - reflexivity.
  - apply Z.le_refl.
Defined.

Lemma raw_roundtrip_witness :
  exists buf raw1 raw2 vars'',
    backend_format_raw_pack id ex_secret ex_hmac 0x1234 ex_vars = Some (0, buf, raw1) /\
    backend_format_raw_verify id ex_secret raw1 0x1234 (buf ++ zeros 4) (Z.of_nat (length (buf ++ zeros 4))) 0
      = Some (0, 16 + (8 + 1), raw2) /\
    backend_format_raw_unpack ex_vars (buf ++ zeros 4) = Some (0, vars'') /\
    sv_bytes <$> vars'' = sv_bytes <$> ex_vars.
Proof.
  apply (raw_roundtrip id ex_secret ex_hmac 0x1234 ex_vars
    (StateVariable STATE_VARIABLE_TYPE_UINT8 (cstr "flag") 8 1 (StateUint32 1 0)) ex_vars (zeros 4) 0).
  - reflexivity.
  - intros _. apply ex_hmac_mac.
  - lia.
  - apply ex_vars_wf.
  - apply ex_vars_layout.
  - reflexivity.
  - simpl. lia.
  - apply ex_vars_wf.
  - apply ex_vars_shape.
Defined.

Lemma raw_detects_corruption_witness :
  exists e len'' raw'',
    backend_format_raw_verify id ex_secret ex_plain 0x1234
      (take 16 (ex_copy ex_plain) ++ Byte.x02 :: drop 17 (ex_copy ex_plain))
      (Z.of_nat (length (take 16 (ex_copy ex_plain) ++ Byte.x02 :: drop 17 (ex_copy ex_plain)))) 0
      = Some (e, len'', raw'') /\ e <> 0.
Proof.
  apply (raw_detects_corruption id ex_secret ex_plain 0x1234 (take 16 (ex_copy ex_plain)) Byte.x03 Byte.x02
    (drop 17 (ex_copy ex_plain)) 0 25 ex_plain).
  - reflexivity.
  - discriminate.
  - vm_compute. reflexivity.
  - vm_compute. reflexivity.
Defined.

Lemma raw_refresh_strips_hmac_witness :
  let raw' := match backend_format_raw_verify id ex_secret ex_hmac 0x1234 (ex_copy ex_hmac)
                      (Z.of_nat (length (ex_copy ex_hmac))) 0 with Some (_, _, r) => r | None => ex_hmac end in
  exists e len'' raw'',
    backend_format_raw_verify id ex_secret raw' 0x1234 (take (Z.to_nat 25) (ex_copy ex_hmac))
      (Z.of_nat (length (take (Z.to_nat 25) (ex_copy ex_hmac)))) 0 = Some (e, len'', raw'') /\ e <> 0.
Proof.
  intros raw'. apply (raw_refresh_strips_hmac id ex_secret ex_hmac 0x1234 (ex_copy ex_hmac) 0 25 raw').
  - reflexivity.
  - reflexivity.
  - vm_compute. reflexivity.
Defined.

Definition ex_far : list state_variable :=
  [StateVariable STATE_VARIABLE_TYPE_UINT8 (cstr "far") 65535 1 (StateUint32 1 0)].

Lemma raw_large_state_witness :
  exists buf raw1 vars',
    backend_format_raw_pack id ex_secret ex_plain 0x1234 ex_far = Some (0, buf, raw1) /\
    backend_format_raw_unpack ex_far buf = Some (- ENOSPC, vars').
Proof.
  apply (raw_large_state id ex_secret ex_plain 0x1234 ex_far
    (StateVariable STATE_VARIABLE_TYPE_UINT8 (cstr "far") 65535 1 (StateUint32 1 0))).
  - reflexivity.
  - intros [a E]. discriminate E.
  - lia.
  - repeat constructor; simpl; lia.
  - apply layout_cons; [constructor|]. intros i j a b _ Hi. done.
  - reflexivity.
  - simpl. lia.
Defined.
