(* ===== verification/StorageExamples.v ===== *)
(** * A storage on a concrete medium

    Two direct buckets under the raw format, on which the theorems of Storage.v
    are used: the laws of the bucket interface hold there (DirectBucket.v) and
    the format takes exactly the packed states for valid (RawFormat.v). *)

From S2P Require Import Prelude Sysfile Bucket DirectBucket StateVar Storage RawFormat.

#[local] Instance ex_ops : BucketOps direct := direct_ops false (zeros 8).
#[local] Instance ex_view : BucketView direct := direct_view false.
#[local] Instance ex_laws : BucketLaws direct := direct_laws false (zeros 8) eq_refl.
#[local] Instance ex_format : FormatVerify raw_format := raw_format_verify id ex_secret.
#[local] Instance ex_format_laws : FormatLaws raw_format := raw_format_laws id ex_secret.

(** Strides of 80 bytes at offset 0 of a device of 192 bytes. *)
Definition ex_bucket (n : Z) : bucket direct := Bucket (Direct (80 * n) 80 false false) n (80 * n) None 0 false.
Definition ex_storage : storage direct := Storage [ex_bucket 0; ex_bucket 1] None 80 0 0 false.
Definition ex_blank : file := File (zeros 192) false [] [].

(** Two states: three boots, as in RawFormat.v, and four. *)
Definition ex_old : bytes := ex_copy ex_plain.
Definition ex_new : bytes :=
  match backend_format_raw_pack id ex_secret ex_plain 0x1234
          [StateVariable STATE_VARIABLE_TYPE_UINT32 (cstr "boots") 0 4 (StateUint32 4 0);
           StateVariable STATE_VARIABLE_TYPE_UINT8 (cstr "flag") 8 1 (StateUint32 1 0)]
  with Some (_, buf, _) => buf | None => [] end.

Lemma ex_old_verifies c : is_copy ex_old c -> verify ex_plain 0x1234 0 c = Some 25.
Proof.
  intros [p ->]. eapply raw_copy_verifies; [reflexivity|vm_compute; reflexivity].
Qed.
Lemma ex_new_verifies c : is_copy ex_new c -> verify ex_plain 0x1234 0 c = Some 25.
Proof.
  intros [p ->]. eapply raw_copy_verifies; [reflexivity|vm_compute; reflexivity].
Qed.

Lemma ex_wf f : length (f_data f) = 192%nat -> f_flash f = false -> storage_ok ex_storage f.
Proof.
  intros Hl Hf. split.
  - repeat constructor; cbn; unfold sizeof_direct_meta; lia || done.
  - split; [|split; [constructor|done]]. constructor; [left; vm_compute; lia|constructor].
Qed.
Lemma ex_fits d : (length d <= 72)%nat -> buckets_fit (st_buckets ex_storage) d.
Proof. intros H. repeat constructor; cbn; unfold sizeof_direct_meta; lia. Qed.

Lemma storage_write_read_witness :
  exists st1 f1, state_storage_write ex_storage ex_old ex_blank = (0, st1, f1) /\
  forall s, Forall benign s ->
  exists st2 f2 c st3 fmt' f3, storage_open st1 (with_script s f1) = (st2, f2) /\ is_copy ex_old c /\
    state_storage_read st2 ex_plain 0x1234 0 f2 = Some ((0, Some (c, 25)), st3, fmt', f3).
Proof.
  apply (storage_write_read ex_plain 0x1234 0 ex_storage ex_old 25 ex_blank).
  - reflexivity.
  - by apply ex_wf.
  - discriminate.
  - reflexivity.
  - apply ex_fits. vm_compute. lia.
  - constructor.
  - vm_compute. intuition congruence.
  - apply ex_old_verifies.
Defined.

(** The medium after both buckets have been written, and with the first bucket
    overwritten by zeros. *)
Definition ex_written : file := snd (state_storage_write ex_storage ex_old ex_blank).
Definition ex_damaged : file := File (splice 0 (zeros 64) (f_data ex_written)) false [] [].

Definition is_known (c : shown) : bool := match c with Unknown => false | _ => true end.
Lemma is_known_known (b : bucket direct) f : is_known (bk_content (b_impl b) (region (b_impl b) f)) = true ->
  known ex_plain 0x1234 0 f b.
Proof. intros H. unfold known. by destruct (bk_content _ _). Qed.

Lemma ex_ready f : length (f_data f) = 192%nat -> f_flash f = false ->
  forallb (fun b => is_known (bk_content (b_impl b) (region (b_impl b) f))) (st_buckets ex_storage) = true ->
  Forall (ready ex_plain 0x1234 0 f) (st_buckets ex_storage).
Proof.
  intros Hl Hf Hk. destruct (ex_wf f Hl Hf) as [Hwf _]. apply Stdlib.Lists.List.Forall_forall. intros b Hb.
  rewrite forallb_forall in Hk. unfold buckets_wf in Hwf. rewrite Stdlib.Lists.List.Forall_forall in Hwf.
  split; [by apply Hwf|]. split; [done|]. split; [by apply is_known_known, Hk|].
  destruct Hb as [<-|[<-|[]]]; done.
Qed.

Lemma storage_read_restores_witness :
  exists st' fmt' g, state_storage_read ex_storage ex_plain 0x1234 0 ex_damaged = Some ((0, Some (ex_old, 25)), st', fmt', g) /\
    same_places (st_buckets ex_storage) (st_buckets st') /\
    Forall (fun b => bk_writable (b_impl b) = true -> exists c', bk_content (b_impl b) (region (b_impl b) g) = Shows c' /\
      verify ex_plain 0x1234 0 c' = Some 25 /\ take (Z.to_nat 25) c' = take (Z.to_nat 25) ex_old) (st_buckets st').
Proof.
  apply (storage_read_restores ex_plain 0x1234 0 ex_storage ex_damaged 1 ex_old 25).
  - reflexivity.
  - by apply ex_wf.
  - apply ex_ready; vm_compute; reflexivity.
  - constructor.
  - vm_compute. reflexivity.
  - vm_compute. intuition congruence.
  - apply buckets_fit_room, ex_fits. vm_compute. lia.
  - intros c' E. rewrite <-(take_drop (Z.to_nat 25) c'), E.
    eapply raw_copy_verifies; [reflexivity|vm_compute; reflexivity].
Defined.

Lemma storage_read_enoent_witness :
  exists st' fmt' g, state_storage_read ex_storage ex_plain 0x1234 0 ex_blank = Some ((- ENOENT, None), st', fmt', g) /\
    same_medium ex_blank g.
Proof.
  apply (storage_read_enoent ex_plain 0x1234 0 ex_storage ex_blank).
  - reflexivity.
  - by apply ex_wf.
  - apply ex_ready; vm_compute; reflexivity.
  - constructor.
  - vm_compute. reflexivity.
Defined.

(** The power fails in the second bucket's write: the header of the bucket and
    fourteen bytes of the new state get there. *)
Definition ex_torn_script : list sysret := [SysOk; SysOk; SysCap 14; SysErr EIO].
Definition ex_first : Z * list (bucket direct) * file := write_buckets [ex_bucket 0] ex_new ex_written.
Definition ex_torn : Z * direct * file :=
  bucket_write (b_impl (ex_bucket 1)) ex_new (with_script ex_torn_script (snd ex_first)).

Lemma storage_crash_safe_witness :
  let st1 := set_buckets (snd (fst ex_first) ++ set_impl (snd (fst ex_torn)) (ex_bucket 1) :: []) ex_storage in
  exists st2 f3 c len st3 fmt' f4, storage_open st1 (with_script [] (snd ex_torn)) = (st2, f3) /\
    state_storage_read st2 ex_plain 0x1234 0 f3 = Some ((0, Some (c, len)), st3, fmt', f4) /\
    (is_copy ex_old c \/ is_copy ex_new c).
Proof.
  apply (storage_crash_safe ex_plain 0x1234 0 ex_storage [ex_bucket 0] (ex_bucket 1) [] ex_old ex_new 25 25
    ex_written (fst (fst ex_first)) (snd (fst ex_first)) (snd ex_first) ex_torn_script
    (fst (fst ex_torn)) (snd (fst ex_torn)) (snd ex_torn) []).
  - reflexivity.
  - reflexivity.
  - by apply ex_wf.
  - discriminate.
  - repeat constructor; exists 0%nat; vm_compute; reflexivity.
  - apply ex_fits. vm_compute. lia.
  - apply ex_fits. vm_compute. lia.
  - vm_compute. intuition congruence.
  - vm_compute. intuition congruence.
  - apply ex_old_verifies.
  - apply ex_new_verifies.
  - constructor.
  - vm_compute. reflexivity.
  - vm_compute. reflexivity.
  - vm_compute. exact I.
  - intros c Hc Hv. exfalso. vm_compute in Hc. injection Hc as <-. vm_compute in Hv. by destruct Hv.
  - constructor.
Defined.
