(* ===== verification/Dt.v ===== *)
(** * Device tree nodes and properties (src/libdt.c, src/dt/dt.h)

    A [device_node] is a tree; the parent pointers and the list of all nodes that
    the code keeps beside it are not represented. Properties are looked up by
    the first match, read as big-endian cells or NUL-terminated strings, and
    written by deleting the old entry and appending a new one. *)

From S2P Require Import Prelude.

(** [struct property]; the length is that of the value, NULL is [None]. *)
Record property : Type := Property { pr_name : bytes; pr_value : option bytes }.

(** [struct device_node]. *)
#[local] Unset Elimination Schemes.
Inductive device_node : Type :=
| DeviceNode (name full_name : bytes) (phandle : Z) (properties : list property) (children : list device_node).
#[local] Set Elimination Schemes.

Definition dn_name (np : device_node) : bytes := let (n, _, _, _, _) := np in n.
Definition dn_full_name (np : device_node) : bytes := let (_, f, _, _, _) := np in f.
Definition dn_phandle (np : device_node) : Z := let (_, _, h, _, _) := np in h.
Definition dn_properties (np : device_node) : list property := let (_, _, _, p, _) := np in p.
Definition dn_children (np : device_node) : list device_node := let (_, _, _, _, c) := np in c.

Definition set_properties (ps : list property) (np : device_node) : device_node :=
  DeviceNode (dn_name np) (dn_full_name np) (dn_phandle np) ps (dn_children np).
Definition add_child (c np : device_node) : device_node :=
  DeviceNode (dn_name np) (dn_full_name np) (dn_phandle np) (dn_properties np) (dn_children np ++ [c]).

(** Induction that reaches the children. *)
Lemma device_node_ind (P : device_node -> Prop) :
  (forall n f ph ps cs, Forall P cs -> P (DeviceNode n f ph ps cs)) -> forall np, P np.
Proof.
  intros H. fix IH 1. intros [n f ph ps cs]. apply H.
  induction cs as [|c cs IHcs]; constructor; [apply IH|apply IHcs].
Qed.

(** ** Finding properties *)

Definition prop_length (pp : property) : Z := Z.of_nat (length (default [] (pr_value pp))).

Fixpoint find_prop (ps : list property) (name : bytes) : option property :=
  match ps with
  | [] => None
  | pp :: ps' => if bool_decide (pr_name pp = name) then Some pp else find_prop ps' name
  end.

Definition of_find_property (np : device_node) (name : bytes) : option property :=
  find_prop (dn_properties np) name.

(** [of_get_property]: the value, with its length. *)
Definition of_get_property (np : device_node) (name : bytes) : option bytes :=
  match of_find_property np name with Some pp => pr_value pp | None => None end.

Definition of_property_read_bool (np : device_node) (name : bytes) : bool :=
  bool_decide (is_Some (of_find_property np name)).

Definition of_find_property_value_of_size (np : device_node) (propname : bytes) (len : Z)
  : outcome bytes :=
  match of_find_property np propname with
  | None => Err (- EINVAL)
  | Some prop =>
      match pr_value prop with
      | None => Err (- ENODATA)
      | Some value => if prop_length prop <? len then Err (- EOVERFLOW) else Ok value
      end
  end.

(** ** Reading numbers *)

(** The first [sz] cells of [w] bytes. The size is compared as [uint32_t]; a read
    behind the value, which needs a size that wraps, is [Undef]. *)
Fixpoint cells (w sz : nat) (val : bytes) : list Z :=
  match sz with
  | O => []
  | S sz' => get_be (take w val) :: cells w sz' (drop w val)
  end.

Definition of_property_read_array (w : nat) (np : device_node) (propname : bytes) (sz : nat)
  : outcome (list Z) :=
  val ← of_find_property_value_of_size np propname (u32 (Z.of_nat sz * Z.of_nat w));
  if (length val <? sz * w)%nat then Undef else Ok (cells w sz val).

Definition of_property_read_u8_array (np : device_node) (propname : bytes) (sz : nat) : outcome bytes :=
  val ← of_find_property_value_of_size np propname (u32 (Z.of_nat sz));
  if (length val <? sz)%nat then Undef else Ok (take sz val).
Definition of_property_read_u16_array : device_node -> bytes -> nat -> outcome (list Z) :=
  of_property_read_array 2.
Definition of_property_read_u32_array : device_node -> bytes -> nat -> outcome (list Z) :=
  of_property_read_array 4.

Definition of_property_read_u32 (np : device_node) (propname : bytes) : outcome Z :=
  vs ← of_property_read_u32_array np propname 1; Ok (nth 0 vs 0).

(** [of_read_number(cell, size)] of host-order cells. *)
Definition of_read_number (cell : list Z) : Z :=
  fold_left (fun r c => u64 (Z.lor (Z.shiftl r 32) c)) cell 0.

Definition of_property_read_u64 (np : device_node) (propname : bytes) : outcome Z :=
  val ← of_find_property_value_of_size np propname 8; Ok (of_read_number (cells 4 2 val)).

(** [None] when the cell lies behind the value, as it may when the size wraps. *)
Definition of_property_read_u32_index (np : device_node) (propname : bytes) (index : Z) : outcome Z :=
  val ← of_find_property_value_of_size np propname (u32 (u64 (u32 (index + 1) * 4)));
  if Z.of_nat (length val) <? (index + 1) * 4 then Undef
  else Ok (get_be (sub (Z.to_nat (index * 4)) 4 val)).

(** ** Reading strings *)

(** [prop->value] checked to begin with a string. *)
Definition of_string_value (np : device_node) (propname : bytes) : outcome bytes :=
  match of_find_property np propname with
  | None => Err (- EINVAL)
  | Some prop =>
      match pr_value prop with
      | None => Err (- ENODATA)
      | Some value => if prop_length prop <=? Z.of_nat (strnlen value) then Err (- EILSEQ) else Ok value
      end
  end.

Definition of_property_read_string (np : device_node) (propname : bytes) : outcome bytes :=
  value ← of_string_value np propname; Ok (take (strnlen value) value).

(** The loops over the strings of a value. [strlen] of a string that the value
    does not end reads behind it ([Undef]); [fuel] bounds the bytes left. *)
Fixpoint string_index_loop (fuel : nat) (p : bytes) (i index : Z) : outcome bytes :=
  match fuel with
  | O => Err (- ENODATA)
  | S fuel' =>
      if (length p =? 0)%nat then Err (- ENODATA) else
      match until_nul p with
      | None => Undef
      | Some s => if i =? index then Ok s
                  else string_index_loop fuel' (drop (length s + 1) p) (i + 1) index
      end
  end.

Definition of_property_read_string_index (np : device_node) (propname : bytes) (index : Z)
  : outcome bytes :=
  value ← of_string_value np propname; string_index_loop (S (length value)) value 0 index.

Fixpoint string_count_loop (fuel : nat) (p : bytes) (i : Z) : outcome Z :=
  match fuel with
  | O => Ok i
  | S fuel' =>
      if (length p =? 0)%nat then Ok i else
      match until_nul p with
      | None => Undef
      | Some s => string_count_loop fuel' (drop (length s + 1) p) (i + 1)
      end
  end.

Definition of_property_count_strings (np : device_node) (propname : bytes) : outcome Z :=
  value ← of_string_value np propname; string_count_loop (S (length value)) value 0.

Fixpoint string_match_loop (fuel : nat) (p string : bytes) (i : Z) : outcome Z :=
  match fuel with
  | O => Err (- ENODATA)
  | S fuel' =>
      if (length p =? 0)%nat then Err (- ENODATA) else
      match until_nul p with
      | None => Undef
      | Some s => if bool_decide (string = s) then Ok i
                  else string_match_loop fuel' (drop (length s + 1) p) string (i + 1)
      end
  end.

Definition of_property_match_string (np : device_node) (propname string : bytes) : outcome Z :=
  match of_find_property np propname with
  | None => Err (- EINVAL)
  | Some prop =>
      match pr_value prop with
      | None => Err (- ENODATA)
      | Some value => string_match_loop (S (length value)) value string 0
      end
  end.

(** ** Writing *)

(** [of_new_property]: appended to the properties. *)
Definition of_new_property (np : device_node) (name data : bytes) : device_node :=
  set_properties (dn_properties np ++ [Property name (Some data)]) np.

(** [of_delete_property] of the entry that [of_find_property] finds. *)
Fixpoint delete_prop (ps : list property) (name : bytes) : list property :=
  match ps with
  | [] => []
  | pp :: ps' => if bool_decide (pr_name pp = name) then ps' else pp :: delete_prop ps' name
  end.
Definition of_delete_property (np : device_node) (name : bytes) : device_node :=
  set_properties (delete_prop (dn_properties np) name) np.

Definition of_set_property (np : device_node) (name val : bytes) (create : bool) : Z * device_node :=
  if negb (of_property_read_bool np name) && negb create then (- ENOENT, np)
  else (0, of_new_property (of_delete_property np name) name val).

Definition of_property_write_bool (np : device_node) (propname : bytes) (value : bool) : Z * device_node :=
  if negb value then (0, of_delete_property np propname)
  else if of_property_read_bool np propname then (0, np)
  else (0, of_new_property np propname []).

(** Big-endian cells of [w] bytes. *)
Definition be_cell (w : nat) (v : Z) : bytes := rev (le_split w v).

(** What the write functions share: the old entry goes, the new one is appended
    and filled. *)
Definition of_property_write (np : device_node) (propname data : bytes) : Z * device_node :=
  (0, of_new_property (of_delete_property np propname) propname data).

Definition of_property_write_u8_array (np : device_node) (propname values : bytes) : Z * device_node :=
  of_property_write np propname values.
Definition of_property_write_u16_array (np : device_node) (propname : bytes) (values : list Z)
  : Z * device_node := of_property_write np propname (mjoin (be_cell 2 <$> values)).
Definition of_property_write_u32_array (np : device_node) (propname : bytes) (values : list Z)
  : Z * device_node := of_property_write np propname (mjoin (be_cell 4 <$> values)).

(** [of_write_number(cell, val, 2)]. *)
Definition of_write_number (val : Z) : bytes := be_cell 4 (Z.shiftr val 32) ++ be_cell 4 val.
Definition of_property_write_u64_array (np : device_node) (propname : bytes) (values : list Z)
  : Z * device_node := of_property_write np propname (mjoin (of_write_number <$> values)).

Definition of_property_write_u32 (np : device_node) (propname : bytes) (value : Z) : Z * device_node :=
  of_property_write_u32_array np propname [value].

(** Strings with their NULs, one behind the other. *)
Definition string_list (ss : list bytes) : bytes := mjoin ((fun s => s ++ [0u8]) <$> ss).

Definition of_property_write_strings (np : device_node) (propname : bytes) (ss : list bytes)
  : Z * device_node :=
  if (length ss =? 0)%nat then (- EINVAL, np)
  else of_set_property np propname (string_list ss) true.
Definition of_property_write_string (np : device_node) (propname value : bytes) : Z * device_node :=
  of_set_property np propname (value ++ [0u8]) true.

(** ** Making nodes *)

(** [of_new_node(parent, name)]: the new node; the caller's list of children gets
    it. [None] is a NULL parent, for which the name is not used. *)
Definition of_new_node (parent : option device_node) (name : bytes) : device_node :=
  match parent with
  | Some p => DeviceNode name (dn_full_name p ++ cstr "/" ++ name) 0 [] []
  | None => DeviceNode [] [] 0 [] []
  end.

(** [strcasecmp] of node names. *)
Definition tolower (b : Byte.byte) : Byte.byte :=
  if (65 <=? bval b) && (bval b <=? 90) then byte_of (bval b + 32) else b.
Definition of_node_cmp (a b : bytes) : bool := bool_decide (tolower <$> a = tolower <$> b).

Definition of_get_child_by_name (np : device_node) (name : bytes) : option device_node :=
  list_find (fun c => of_node_cmp (dn_name c) name = true) (dn_children np) ≫= fun r => Some (snd r).

Definition of_get_child_count (np : option device_node) : Z :=
  match np with None => - EINVAL | Some np => Z.of_nat (length (dn_children np)) end.

(** [status] of a value without a NUL is read behind its end; only its bytes
    are compared here. *)
Definition of_device_is_available (np : device_node) : bool :=
  match of_get_property np (cstr "status") with
  | None => true
  | Some status =>
      negb (length status =? 0)%nat &&
      (bool_decide (until_nul status = Some (cstr "okay")) || bool_decide (until_nul status = Some (cstr "ok")))
  end.

Definition of_get_available_child_count (np : option device_node) : Z :=
  match np with
  | None => - EINVAL
  | Some np => Z.of_nat (length (List.filter of_device_is_available (dn_children np)))
  end.

(** The path of [of_create_node] split at its slashes, up to an empty part. *)
Fixpoint path_parts (part path : bytes) : list bytes :=
  match path with
  | [] => [rev part]
  | b :: path' => if decide (b = Byte.x2f) then rev part :: path_parts [] path' else path_parts (b :: part) path'
  end.
Fixpoint until_empty (parts : list bytes) : list bytes :=
  match parts with
  | [] => []
  | p :: parts' => if (length p =? 0)%nat then [] else p :: until_empty parts'
  end.

(** Replace the first child that the name finds. *)
Fixpoint update_child (cs : list device_node) (name : bytes) (c' : device_node) : list device_node :=
  match cs with
  | [] => []
  | c :: cs' => if of_node_cmp (dn_name c) name then c' :: cs' else c :: update_child cs' name c'
  end.

(** The loop of [of_create_node]: the tree with the path, and the node at its
    end. *)
Fixpoint create_path (np : device_node) (parts : list bytes) : device_node * device_node :=
  match parts with
  | [] => (np, np)
  | p :: parts' =>
      match of_get_child_by_name np p with
      | Some c =>
          let (c', dn) := create_path c parts' in
          (DeviceNode (dn_name np) (dn_full_name np) (dn_phandle np) (dn_properties np) (update_child (dn_children np) p c'), dn)
      | None =>
          let (c', dn) := create_path (of_new_node (Some np) p) parts' in (add_child c' np, dn)
      end
  end.

Definition of_create_node (root : device_node) (path : bytes) : option (device_node * device_node) :=
  match path with
  | b :: path' => if decide (b = Byte.x2f) then Some (create_path root (until_empty (path_parts [] path'))) else None
  | [] => None
  end.

(** ** Lemmas on properties *)

(** No two properties of a node have one name. *)
Definition props_unique (np : device_node) : Prop := NoDup (pr_name <$> dn_properties np).

Lemma find_prop_none ps name : find_prop ps name = None <-> name ∉ pr_name <$> ps.
Proof.
  induction ps as [|p ps IH]; simpl; [set_solver|]. case_bool_decide as E; [set_solver|].
  rewrite IH. set_solver.
Qed.

Lemma delete_prop_names ps name x : x ∈ pr_name <$> delete_prop ps name -> x ∈ pr_name <$> ps.
Proof. induction ps as [|p ps IH]; simpl; [done|]. case_bool_decide; set_solver. Qed.

Lemma delete_prop_nodup ps name : NoDup (pr_name <$> ps) ->
  NoDup (pr_name <$> delete_prop ps name) /\ name ∉ pr_name <$> delete_prop ps name.
Proof.
  induction ps as [|p ps IH]; simpl; [intros; split; [done|set_solver]|].
  intros [Hp Hps]%list.NoDup_cons. case_bool_decide as E; [by subst|].
  destruct (IH Hps) as [H1 H2]. simpl. split; [|set_solver].
  apply list.NoDup_cons. split; [|done]. by intros ?%delete_prop_names.
Qed.

Lemma delete_prop_other ps name x : x <> name -> find_prop (delete_prop ps name) x = find_prop ps x.
Proof.
  intros Hx. induction ps as [|p ps IH]; simpl; [done|].
  case_bool_decide as E; simpl; [by rewrite bool_decide_eq_false_2 by congruence|].
  case_bool_decide; [done|]. apply IH.
Qed.

Lemma find_prop_app ps qs x :
  find_prop (ps ++ qs) x = match find_prop ps x with Some p => Some p | None => find_prop qs x end.
Proof. induction ps as [|p ps IH]; simpl; [done|]. by case_bool_decide. Qed.

(** The effect of every write. *)
Definition writes_prop (np np' : device_node) (name data : bytes) : Prop :=
  props_unique np' /\ of_get_property np' name = Some data /\
  (forall x, x <> name -> of_find_property np' x = of_find_property np x) /\
  dn_name np' = dn_name np /\ dn_full_name np' = dn_full_name np /\ dn_children np' = dn_children np.

Lemma write_prop_spec np name data : props_unique np ->
  writes_prop np (of_new_property (of_delete_property np name) name data) name data.
Proof.
  intros Hu. destruct (delete_prop_nodup _ name Hu) as [H1 H2].
  split; [|split; [|split; [|done]]].
  - unfold props_unique. simpl. rewrite fmap_app. apply list.NoDup_app. split; [done|]. split; [|apply NoDup_singleton].
    intros x Hx Hn. apply list_elem_of_singleton in Hn as ->. done.
  - unfold of_get_property, of_find_property. simpl. rewrite find_prop_app.
    rewrite (proj2 (find_prop_none _ _)) by done. simpl. by rewrite bool_decide_eq_true_2.
  - intros x Hx. unfold of_find_property. simpl. rewrite find_prop_app, delete_prop_other by done.
    destruct (find_prop (dn_properties np) x); [done|]. simpl. by rewrite bool_decide_eq_false_2 by congruence.
Qed.

Lemma get_property_find np name v : of_get_property np name = Some v ->
  exists pp, of_find_property np name = Some pp /\ pr_value pp = Some v /\ prop_length pp = Z.of_nat (length v).
Proof.
  unfold of_get_property, prop_length. destruct (of_find_property np name) as [pp|]; [|done].
  intros E. exists pp. by rewrite E.
Qed.

Lemma value_of_size np name v len : of_get_property np name = Some v -> len <= Z.of_nat (length v) ->
  of_find_property_value_of_size np name len = Ok v.
Proof.
  intros (pp & E & Ev & El)%get_property_find Hl. unfold of_find_property_value_of_size. rewrite E, Ev, El.
  destruct (Z.ltb_spec (Z.of_nat (length v)) len); [lia|done].
Qed.

(** ** Lemmas on cells *)

Lemma length_be_cell w v : length (be_cell w v) = w.
Proof. unfold be_cell. by rewrite length_rev, length_le_split. Qed.

Lemma length_cells w vs : length (mjoin (be_cell w <$> vs)) = (length vs * w)%nat.
Proof.
  induction vs as [|v vs IH]; [done|].
  change (mjoin (be_cell w <$> v :: vs)) with (be_cell w v ++ mjoin (be_cell w <$> vs)).
  rewrite length_app, length_be_cell, IH. simpl. lia.
Qed.

Lemma get_be_cell w v : 0 <= v < 2 ^ (8 * Z.of_nat w) -> get_be (be_cell w v) = v.
Proof.
  intros. unfold get_be, be_cell. rewrite rev_involutive, le_combine_split. apply Z.mod_small.
  by rewrite Z.mul_comm.
Qed.

Lemma cells_app w vs rest : Forall (fun v => 0 <= v < 2 ^ (8 * Z.of_nat w)) vs ->
  cells w (length vs) (mjoin (be_cell w <$> vs) ++ rest) = vs.
Proof.
  induction 1 as [|v vs Hv Hvs IH]; [done|].
  change (mjoin (be_cell w <$> v :: vs)) with (be_cell w v ++ mjoin (be_cell w <$> vs)).
  cbn [length cells]. rewrite <-!app_assoc, take_app_length', drop_app_length' by (by rewrite length_be_cell).
  by rewrite get_be_cell, IH.
Qed.

Lemma read_array_cells w np name vs : (0 < w)%nat ->
  Forall (fun v => 0 <= v < 2 ^ (8 * Z.of_nat w)) vs -> Z.of_nat (length vs) * Z.of_nat w < 2 ^ 32 ->
  of_get_property np name = Some (mjoin (be_cell w <$> vs)) ->
  of_property_read_array w np name (length vs) = Ok vs.
Proof.
  intros Hw Hvs Hl Hg. unfold of_property_read_array. rewrite u32_small by nia.
  rewrite (value_of_size _ _ _ _ Hg) by (rewrite length_cells; nia).
  cbn [mbind outcome_bind]. rewrite length_cells. destruct (Nat.ltb_spec (length vs * w) (length vs * w)); [lia|].
  f_equal. rewrite <-(app_nil_r (mjoin _)). by apply cells_app.
Qed.

(** ** Lemmas on strings *)

Lemma string_list_cons s ss : string_list (s :: ss) = s ++ 0u8 :: string_list ss.
Proof.
  unfold string_list. change (mjoin ((fun s => s ++ [0u8]) <$> s :: ss))
    with ((s ++ [0u8]) ++ mjoin ((fun s => s ++ [0u8]) <$> ss)). by rewrite <-app_assoc.
Qed.

Lemma drop_string s (r : bytes) : drop (length s + 1) (s ++ 0u8 :: r) = r.
Proof. rewrite drop_app_ge by lia. replace (length s + 1 - length s)%nat with 1%nat by lia. done. Qed.

Lemma length_string_list ss : (length ss <= length (string_list ss))%nat.
Proof. induction ss as [|s ss IH]; [done|]. rewrite string_list_cons. len. Qed.

Lemma string_count_list ss rest : forall fuel i, Forall cstring ss -> (length ss <= fuel)%nat ->
  string_count_loop fuel (string_list ss ++ rest) i
  = string_count_loop (fuel - length ss) rest (i + Z.of_nat (length ss)).
Proof.
  induction ss as [|s ss IH]; intros fuel i Hs Hf.
  { rewrite Nat.sub_0_r, Z.add_0_r. done. }
  apply Forall_cons_1 in Hs as [Hs Hss]. destruct fuel as [|fuel]; [simpl in Hf; lia|].
  rewrite string_list_cons. rewrite <-app_assoc. cbn [string_count_loop length].
  rewrite length_app. cbn [length app]. destruct (Nat.eqb_spec (length s + S (length (string_list ss ++ rest))) 0); [lia|].
  rewrite until_nul_app by done. rewrite drop_string. simpl in Hf. rewrite IH by (done || lia).
  f_equal; lia.
Qed.

Lemma string_index_list ss rest : forall fuel i index, Forall cstring ss -> (length ss < fuel)%nat -> i <= index ->
  string_index_loop fuel (string_list ss ++ rest) i index
  = match ss !! Z.to_nat (index - i) with
    | Some s => Ok s
    | None => string_index_loop (fuel - length ss) rest (i + Z.of_nat (length ss)) index
    end.
Proof.
  induction ss as [|s ss IH]; intros fuel i index Hs Hf Hi.
  { rewrite Nat.sub_0_r, Z.add_0_r. done. }
  apply Forall_cons_1 in Hs as [Hs Hss]. destruct fuel as [|fuel]; [simpl in Hf; lia|].
  rewrite string_list_cons. rewrite <-app_assoc. cbn [string_index_loop length].
  rewrite length_app. cbn [length app]. destruct (Nat.eqb_spec (length s + S (length (string_list ss ++ rest))) 0); [lia|].
  rewrite until_nul_app by done. rewrite drop_string. simpl in Hf.
  destruct (Z.eqb_spec i index) as [->|Hne]; [by rewrite Z.sub_diag|].
  rewrite IH by (done || lia). replace (Z.to_nat (index - i)) with (S (Z.to_nat (index - (i + 1)))) by lia.
  simpl. destruct (ss !! Z.to_nat (index - (i + 1))); [done|]. f_equal; lia.
Qed.

Lemma until_nul_none l : cstring l -> until_nul l = None.
Proof.
  unfold cstring. induction l as [|b l IH]; simpl; [done|]. intros Hl. rewrite decide_False by set_solver.
  rewrite IH by set_solver. done.
Qed.

Lemma string_match_list ss : forall fuel i string, Forall cstring ss -> (length ss < fuel)%nat ->
  string_match_loop fuel (string_list ss) string i
  = match list_find (fun s => string = s) ss with
    | Some (k, _) => Ok (i + Z.of_nat k)
    | None => Err (- ENODATA)
    end.
Proof.
  induction ss as [|s ss IH]; intros fuel i string Hs Hf.
  { destruct fuel; done. }
  apply Forall_cons_1 in Hs as [Hs Hss]. destruct fuel as [|fuel]; [simpl in Hf; lia|].
  rewrite string_list_cons. cbn [string_match_loop list_find].
  rewrite length_app. cbn [length]. destruct (Nat.eqb_spec (length s + S (length (string_list ss))) 0); [lia|].
  rewrite until_nul_app by done. rewrite drop_string. simpl in Hf.
  destruct (decide (string = s)) as [->|Hne].
  - rewrite bool_decide_eq_true_2 by done. f_equal. lia.
  - rewrite bool_decide_eq_false_2 by done. rewrite IH by (done || lia).
    destruct (list_find _ ss) as [[k x]|]; simpl; [f_equal; lia|done].
Qed.

Lemma string_value_list np name ss rest : ss <> [] -> Forall cstring ss ->
  of_get_property np name = Some (string_list ss ++ rest) ->
  of_string_value np name = Ok (string_list ss ++ rest).
Proof.
  intros Hne Hs (pp & E & Ev & El)%get_property_find. unfold of_string_value. rewrite E, Ev, El.
  destruct ss as [|s ss]; [done|]. apply Forall_cons_1 in Hs as [Hs _]. rewrite string_list_cons, <-app_assoc.
  cbn [app]. rewrite strnlen_cstring by done. rewrite length_app. cbn [length].
  destruct (Z.leb_spec (Z.of_nat (length s + S (length (string_list ss ++ rest)))) (Z.of_nat (length s))); [lia|done].
Qed.

Lemma read_string_value np name s : cstring s ->
  of_get_property np name = Some (s ++ [0u8]) -> of_property_read_string np name = Ok s.
Proof.
  intros Hs Hg. unfold of_property_read_string.
  rewrite (string_value_list np name [s] []); [|done|by constructor|].
  2:{ rewrite string_list_cons, app_nil_r. exact Hg. }
  cbn [mbind outcome_bind]. rewrite app_nil_r, string_list_cons. cbn [string_list].
  rewrite strnlen_cstring by done. by rewrite take_app_length.
Qed.

(** A node after a write, as the readers see it. *)
Definition wr (np : device_node) (name data : bytes) : device_node :=
  of_new_property (of_delete_property np name) name data.

Lemma wr_unique np name data : props_unique np -> props_unique (wr np name data).
Proof. intros Hu. apply (write_prop_spec np name data Hu). Qed.
Lemma wr_same np name data : props_unique np ->
  of_find_property (wr np name data) name = Some (Property name (Some data)).
Proof.
  intros Hu. unfold of_find_property. simpl. rewrite find_prop_app.
  rewrite (proj2 (find_prop_none _ _)) by (by apply delete_prop_nodup). simpl. by rewrite bool_decide_eq_true_2.
Qed.
Lemma wr_other np name data x : props_unique np -> x <> name ->
  of_find_property (wr np name data) x = of_find_property np x.
Proof. intros Hu. apply (write_prop_spec np name data Hu). Qed.

Lemma write_u32_wr np name v : of_property_write_u32 np name v = (0, wr np name (be_cell 4 v)).
Proof. unfold of_property_write_u32, of_property_write_u32_array, of_property_write, wr.
  change (mjoin (be_cell 4 <$> [v])) with (be_cell 4 v ++ []). by rewrite app_nil_r.
Qed.
Lemma write_u8_wr np name bs : of_property_write_u8_array np name bs = (0, wr np name bs).
Proof. done. Qed.
Lemma set_property_wr np name data : of_set_property np name data true = (0, wr np name data).
Proof. unfold of_set_property. by rewrite andb_false_r. Qed.
Lemma write_string_wr np name s : of_property_write_string np name s = (0, wr np name (s ++ [0u8])).
Proof. apply set_property_wr. Qed.

Lemma find_get np name v : of_find_property np name = Some (Property name (Some v)) -> of_get_property np name = Some v.
Proof. unfold of_get_property. by intros ->. Qed.

Lemma read_u32_found np name v : 0 <= v < 2 ^ 32 ->
  of_find_property np name = Some (Property name (Some (be_cell 4 v))) -> of_property_read_u32 np name = Ok v.
Proof.
  intros Hv Hf. unfold of_property_read_u32, of_property_read_u32_array.
  apply find_get in Hf. pose proof (read_array_cells 4 np name [v]) as R.
  cbn [length] in R. rewrite R; [done|lia|by constructor|lia|].
  change (mjoin (be_cell 4 <$> [v])) with (be_cell 4 v ++ []). by rewrite app_nil_r.
Qed.
Lemma read_u8_found np name bs : Z.of_nat (length bs) < 2 ^ 32 ->
  of_find_property np name = Some (Property name (Some bs)) ->
  of_property_read_u8_array np name (length bs) = Ok bs.
Proof.
  intros Hl Hf. apply find_get in Hf. unfold of_property_read_u8_array. rewrite u32_small by lia.
  rewrite (value_of_size _ _ _ _ Hf) by lia. cbn [mbind outcome_bind].
  destruct (Nat.ltb_spec (length bs) (length bs)); [lia|]. by rewrite take_ge by lia.
Qed.
Lemma read_string_found np name s : cstring s ->
  of_find_property np name = Some (Property name (Some (s ++ [0u8]))) -> of_property_read_string np name = Ok s.
Proof. intros Hs Hf. apply read_string_value; [done|by apply find_get]. Qed.

Lemma read_missing np name : of_find_property np name = None ->
  of_property_read_u32 np name = Err (- EINVAL) /\ of_property_read_string np name = Err (- EINVAL) /\
  (forall sz, of_property_read_u8_array np name sz = Err (- EINVAL)) /\ of_get_property np name = None.
Proof.
  intros Hf. unfold of_property_read_u32, of_property_read_u32_array, of_property_read_array,
    of_property_read_string, of_string_value, of_property_read_u8_array, of_find_property_value_of_size, of_get_property.
  by rewrite Hf.
Qed.

Lemma string_list_readers np name ss : ss <> [] -> Forall cstring ss ->
  of_get_property np name = Some (string_list ss) ->
  of_property_count_strings np name = Ok (Z.of_nat (length ss)) /\
  (forall index, 0 <= index -> of_property_read_string_index np name index
    = match ss !! Z.to_nat index with Some s => Ok s | None => Err (- ENODATA) end).
Proof.
  intros Hne Hs Hg0. pose proof (length_string_list ss) as Hlen.
  assert (of_get_property np name = Some (string_list ss ++ [])) as Hg by (by rewrite app_nil_r).
  split.
  - unfold of_property_count_strings. rewrite (string_value_list np name ss [] Hne Hs Hg). cbn [mbind outcome_bind].
    rewrite string_count_list by (rewrite ?length_app; done || lia).
    rewrite length_app. destruct (S (length (string_list ss) + length (@nil Byte.byte)) - length ss)%nat eqn:E; [lia|]. done.
  - intros index Hi. unfold of_property_read_string_index. rewrite (string_value_list np name ss [] Hne Hs Hg).
    cbn [mbind outcome_bind]. rewrite string_index_list by (rewrite ?length_app; done || lia). rewrite Z.sub_0_r.
    destruct (ss !! Z.to_nat index); [done|].
    rewrite length_app. destruct (S (length (string_list ss) + length (@nil Byte.byte)) - length ss)%nat eqn:E; [lia|]. done.
Qed.

(** The value of a list of strings whose last string has no end: counting them
    reads behind the value, though the first string is checked. *)
Lemma count_strings_unterminated np name ss tail :
  ss <> [] -> Forall cstring ss -> tail <> [] -> cstring tail ->
  of_get_property np name = Some (string_list ss ++ tail) -> of_property_count_strings np name = Undef.
Proof.
  intros Hne Hs Ht Htn Hg. unfold of_property_count_strings.
  rewrite (string_value_list np name ss tail Hne Hs Hg). cbn [mbind outcome_bind].
  pose proof (length_string_list ss). rewrite string_count_list; [|done|rewrite length_app; lia].
  rewrite length_app. destruct (S (length (string_list ss) + length tail) - length ss)%nat eqn:E; [lia|].
  cbn [string_count_loop]. destruct (Nat.eqb_spec (length tail) 0) as [Hz|]; [by apply nil_length_inv in Hz|].
  by rewrite until_nul_none.
Qed.

(** ** Claims *)

(** C33: writing a property and reading it back returns what was written, for
    arrays of 32-bit and 16-bit cells, for bytes and for strings, and no other
    property of the node changes. *)
Theorem dt_write_read np name vs hs bs s :
  props_unique np -> Forall (fun v => 0 <= v < 2 ^ 32) vs -> Forall (fun v => 0 <= v < 2 ^ 16) hs ->
  cstring s -> Z.of_nat (length vs + length hs + length bs) * 4 < 2 ^ 32 ->
  let w32 := snd (of_property_write_u32_array np name vs) in
  let w16 := snd (of_property_write_u16_array np name hs) in
  let w8 := snd (of_property_write_u8_array np name bs) in
  let ws := snd (of_property_write_string np name s) in
  of_property_read_u32_array w32 name (length vs) = Ok vs /\
  of_property_read_u16_array w16 name (length hs) = Ok hs /\
  of_property_read_u8_array w8 name (length bs) = Ok bs /\
  of_property_read_string ws name = Ok s /\
  Forall (fun np' => props_unique np' /\
    forall x, x <> name -> of_find_property np' x = of_find_property np x) [w32; w16; w8; ws].
Proof.
  intros Hu Hvs Hhs Hs Hl w32 w16 w8 ws.
  pose proof (fun d => write_prop_spec np name d Hu) as W. split; [|split; [|split; [|split]]].
  - apply read_array_cells; [lia|done|lia|]. apply (W (mjoin (be_cell 4 <$> vs))).
  - apply read_array_cells; [lia|done|lia|]. apply (W (mjoin (be_cell 2 <$> hs))).
  - unfold of_property_read_u8_array. rewrite u32_small by lia.
    rewrite (value_of_size w8 name bs) by (apply (W bs) || lia). cbn [mbind outcome_bind].
    destruct (Nat.ltb_spec (length bs) (length bs)); [lia|]. by rewrite take_ge by lia.
  - apply read_string_value; [done|]. unfold ws, of_property_write_string, of_set_property.
    rewrite andb_false_r. apply (W (s ++ [0u8])).
  - assert (forall d, props_unique (of_new_property (of_delete_property np name) name d) /\
      forall x, x <> name -> of_find_property (of_new_property (of_delete_property np name) name d) x
        = of_find_property np x) as H by (intros d; destruct (W d) as (? & _ & ? & _); done).
    repeat constructor; try apply H.
    all: unfold ws, of_property_write_string, of_set_property; rewrite andb_false_r; apply H.
Qed.

Definition ex_node : device_node :=
  DeviceNode (cstr "var") (cstr "/var") 0 [Property (cstr "reg") (Some (zeros 8)); Property (cstr "type") None] [].

Lemma dt_write_read_witness :
  let w32 := snd (of_property_write_u32_array ex_node (cstr "reg") [16; 4]) in
  let w16 := snd (of_property_write_u16_array ex_node (cstr "reg") [7]) in
  let w8 := snd (of_property_write_u8_array ex_node (cstr "reg") [Byte.x01]) in
  let ws := snd (of_property_write_string ex_node (cstr "reg") (cstr "x")) in
  of_property_read_u32_array w32 (cstr "reg") 2 = Ok [16; 4] /\
  of_property_read_u16_array w16 (cstr "reg") 1 = Ok [7] /\
  of_property_read_u8_array w8 (cstr "reg") 1 = Ok [Byte.x01] /\
  of_property_read_string ws (cstr "reg") = Ok (cstr "x") /\
  Forall (fun np' => props_unique np' /\
    forall x, x <> cstr "reg" -> of_find_property np' x = of_find_property ex_node x) [w32; w16; w8; ws].
Proof.
  apply (dt_write_read ex_node (cstr "reg") [16; 4] [7] [Byte.x01] (cstr "x")).
  - unfold props_unique. evaluate.
  - repeat constructor; lia.
  - repeat constructor; lia.
  - evaluate.
  - simpl. lia.
Defined.

(** On a property written with a list of strings the three readers agree with
    the list: the count is its length, the string at an index is its element or
    -ENODATA, and a search finds the first occurrence or -ENODATA. *)
Theorem dt_string_list np name ss index string :
  props_unique np -> ss <> [] -> Forall cstring ss -> 0 <= index ->
  let np' := snd (of_property_write_strings np name ss) in
  of_property_count_strings np' name = Ok (Z.of_nat (length ss)) /\
  of_property_read_string_index np' name index
    = match ss !! Z.to_nat index with Some s => Ok s | None => Err (- ENODATA) end /\
  of_property_match_string np' name string
    = match list_find (fun s => string = s) ss with Some (k, _) => Ok (Z.of_nat k) | None => Err (- ENODATA) end.
Proof.
  intros Hu Hne Hs Hi np'. pose proof (length_string_list ss) as Hlen.
  assert (of_get_property np' name = Some (string_list ss ++ [])) as Hg.
  { unfold np', of_property_write_strings, of_set_property. destruct ss as [|s ss]; [done|].
    rewrite andb_false_r, app_nil_r. apply (write_prop_spec np name (string_list (s :: ss)) Hu). }
  assert (of_get_property np' name = Some (string_list ss)) as Hg1 by (by rewrite app_nil_r in Hg).
  destruct (string_list_readers np' name ss Hne Hs Hg1) as [Hc Hidx]. split; [done|]. split; [by apply Hidx|].
  unfold of_property_match_string. destruct (get_property_find _ _ _ Hg) as (pp & -> & -> & _).
  rewrite app_nil_r. rewrite string_match_list by (done || lia). by destruct (list_find _ ss) as [[k x]|].
Qed.

Lemma dt_string_list_witness :
  let np' := snd (of_property_write_strings ex_node (cstr "names") [cstr "ok"; cstr "fail"]) in
  of_property_count_strings np' (cstr "names") = Ok 2 /\
  of_property_read_string_index np' (cstr "names") 1 = Ok (cstr "fail") /\
  of_property_match_string np' (cstr "names") (cstr "fail") = Ok 1.
Proof.
  apply (dt_string_list ex_node (cstr "names") [cstr "ok"; cstr "fail"] 1 (cstr "fail")).
  - unfold props_unique. evaluate.
  - discriminate.
  - evaluate.
  - lia.
Defined.
