(* ===== verification/Tree.v ===== *)
(** * The tree of nodes (src/libdt.c)

    Queries over the whole tree: by path, alias, name, type, compatible string and
    phandle. A node is referred to by its path, the positions of its ancestors in
    the lists of children; the pointer [parent] is the path without its end. The
    list that links all nodes of a tree is the list of paths [tree_order]. *)

From S2P Require Import Prelude Dt.

(** ** Paths *)

Abbreviation node_ref := (list nat).

Fixpoint node_at (np : device_node) (p : node_ref) : option device_node :=
  match p with
  | [] => Some np
  | i :: p' => c ← dn_children np !! i; node_at c p'
  end.

Definition set_children (cs : list device_node) (np : device_node) : device_node :=
  DeviceNode (dn_name np) (dn_full_name np) (dn_phandle np) (dn_properties np) cs.

(** The tree with the node at [p] replaced by [f] of it. *)
Fixpoint alter_at (f : device_node -> device_node) (p : node_ref) (np : device_node) : device_node :=
  match p with
  | [] => f np
  | i :: p' => set_children (alter (alter_at f p') i (dn_children np)) np
  end.

(** [of_get_parent]. *)
Definition of_get_parent (p : node_ref) : option node_ref :=
  match p with [] => None | _ => Some (removelast p) end.

(** ** The list of all nodes *)

(** [of_new_node] adds a new node behind its parent in the list, so that it holds
    the nodes of a tree with the youngest children first. *)
Fixpoint flat (p : node_ref) (np : device_node) : list (node_ref * device_node) :=
  match np with
  | DeviceNode _ _ _ _ children =>
      (p, np) :: (fix go (i : nat) (cs : list device_node) :=
                    match cs with [] => [] | c :: cs' => go (S i) cs' ++ flat (p ++ [i]) c end) 0%nat children
  end.
Definition flat_children (p : node_ref) : nat -> list device_node -> list (node_ref * device_node) :=
  fix go i cs := match cs with [] => [] | c :: cs' => go (S i) cs' ++ flat (p ++ [i]) c end.
Definition tree_order (root : device_node) : list node_ref := fst <$> flat [] root.

(** [list_add] behind an entry. *)
Fixpoint list_add_behind {A} `{EqDecision A} (new x : A) (l : list A) : list A :=
  match l with
  | [] => []
  | y :: l' => if decide (x = y) then y :: new :: l' else y :: list_add_behind new x l'
  end.

(** [of_new_node] in the tree and in the list. *)
Definition new_node_at (root : device_node) (p : node_ref) (name : bytes) : device_node :=
  alter_at (fun np => add_child (of_new_node (Some np) name) np) p root.
Definition new_node_link (root : device_node) (p : node_ref) (order : list node_ref) : list node_ref :=
  match node_at root p with
  | Some np => list_add_behind (p ++ [length (dn_children np)]) p order
  | None => order
  end.

(** [of_next_node] repeated: the nodes behind [from], up to the root, at which the
    circular list ends. *)
Fixpoint nodes_behind (from : node_ref) (l : list (node_ref * device_node)) : list (node_ref * device_node) :=
  match l with
  | [] => []
  | (p, np) :: l' => if decide (p = from) then l' else nodes_behind from l'
  end.
Definition of_tree_nodes_from (root : device_node) (from : node_ref) : list (node_ref * device_node) :=
  nodes_behind from (flat [] root).

(** A loop over nodes that returns the first one a test accepts. *)
Fixpoint find_node (test : device_node -> outcome bool) (l : list (node_ref * device_node)) : outcome (option node_ref) :=
  match l with
  | [] => Ok None
  | (p, np) :: l' => b ← test np; if (b : bool) then Ok (Some p) else find_node test l'
  end.

(** ** Searches *)

(** [of_device_is_compatible]: [strcasecmp] against each string of the property. *)
Fixpoint compatible_loop (fuel : nat) (cp compat : bytes) : outcome bool :=
  match fuel with
  | O => Ok false
  | S fuel' =>
      if (length cp =? 0)%nat then Ok false else
      match until_nul cp with
      | None => Undef
      | Some s => if of_node_cmp s compat then Ok true else compatible_loop fuel' (drop (length s + 1) cp) compat
      end
  end.
Definition of_device_is_compatible (device : device_node) (compat : bytes) : outcome bool :=
  match of_get_property device (cstr "compatible") with
  | None => Ok false
  | Some cp => compatible_loop (S (length cp)) cp compat
  end.

Definition of_machine_is_compatible (root_node : option device_node) (compat : bytes) : outcome bool :=
  match root_node with None => Ok false | Some root => of_device_is_compatible root compat end.

Definition of_find_node_by_name (root : device_node) (from : node_ref) (name : bytes) : outcome (option node_ref) :=
  find_node (fun np => Ok (of_node_cmp (dn_name np) name)) (of_tree_nodes_from root from).

Definition of_find_node_by_type (root : device_node) (from : node_ref) (type : bytes) : outcome (option node_ref) :=
  find_node (fun np => match of_property_read_string np (cstr "device_type") with
                       | Ok t => Ok (of_node_cmp t type)
                       | _ => Ok false
                       end) (of_tree_nodes_from root from).

Definition of_find_compatible_node (root : device_node) (from : node_ref) (compatible : bytes) : outcome (option node_ref) :=
  find_node (fun np => of_device_is_compatible np compatible) (of_tree_nodes_from root from).

Definition of_find_node_with_property (root : device_node) (from : node_ref) (prop_name : bytes) : outcome (option node_ref) :=
  find_node (fun np => Ok (of_property_read_bool np prop_name)) (of_tree_nodes_from root from).

(** [of_match_node]: the position of the first entry the node is compatible with. *)
Fixpoint of_match_node (matches : list bytes) (node : device_node) : outcome (option nat) :=
  match matches with
  | [] => Ok None
  | compat :: matches' =>
      b ← of_device_is_compatible node compat;
      if (b : bool) then Ok (Some 0%nat) else o ← of_match_node matches' node; Ok (option_map S o)
  end.
Fixpoint find_matching (matches : list bytes) (l : list (node_ref * device_node)) : outcome (option (node_ref * nat)) :=
  match l with
  | [] => Ok None
  | (p, np) :: l' =>
      m ← of_match_node matches np;
      match m with Some k => Ok (Some (p, k)) | None => find_matching matches l' end
  end.
Definition of_find_matching_node_and_match (root : device_node) (from : node_ref) (matches : list bytes)
  : outcome (option (node_ref * nat)) := find_matching matches (of_tree_nodes_from root from).

(** ** Phandles *)

Definition of_find_node_by_phandle (root : device_node) (phandle : Z) : outcome (option node_ref) :=
  find_node (fun np => Ok (dn_phandle np =? phandle)) (of_tree_nodes_from root []).

Definition of_get_tree_max_phandle (root : option device_node) : Z :=
  match root with
  | None => 0
  | Some root =>
      fold_left (fun max n => if max <? dn_phandle (snd n) then dn_phandle (snd n) else max)
        (of_tree_nodes_from root []) (dn_phandle root)
  end.

Definition with_phandle (h : Z) (np : device_node) : device_node :=
  DeviceNode (dn_name np) (dn_full_name np) h (dn_properties np) (dn_children np).

(** [of_node_create_phandle] of the node at [p], with the new tree. *)
Definition of_node_create_phandle (root : device_node) (p : node_ref) : option (Z * device_node) :=
  node ← node_at root p;
  if negb (dn_phandle node =? 0) then Some (dn_phandle node, root) else
  let h := of_get_tree_max_phandle (Some root) +32 1 in
  Some (h, alter_at (fun np => snd (of_set_property (with_phandle h np) (cstr "phandle") (be_cell 4 h) true)) p root).

(** [of_parse_phandle]: the sizes are compared as [size_t]. *)
Definition of_parse_phandle (root np : device_node) (phandle_name : bytes) (index : Z) : outcome (option node_ref) :=
  match of_get_property np phandle_name with
  | None => Ok None
  | Some phandle =>
      if Z.of_nat (length phandle) <? u64 (4 * u64 (index + 1)) then Ok None
      else if (index <? 0) || (Z.of_nat (length phandle) <? 4 * (index + 1)) then Undef
      else of_find_node_by_phandle root (get_be (sub (Z.to_nat (index * 4)) 4 phandle))
  end.

Definition MAX_PHANDLE_ARGS : nat := 8.

(** [struct of_phandle_args]. *)
Record of_phandle_args : Type := OfPhandleArgs { pa_np : node_ref; pa_args : list Z }.

(** The loop of [__of_parse_phandle_with_args] over the cells that are left. *)
Fixpoint parse_phandle_loop (fuel : nat) (root : device_node) (cells_name : bytes) (index cur_index : Z) (list : list Z)
  : outcome (Z * option of_phandle_args) :=
  match fuel, list with
  | O, _ | _, [] => Ok ((if index <? 0 then cur_index else - ENOENT), None)
  | S fuel', phandle :: list =>
      r ← (if phandle =? 0 then Ok (Some (0%nat, None)) else
           node ← of_find_node_by_phandle root phandle;
           match node ≫= node_at root with
           | None => Ok None
           | Some np =>
               match of_property_read_u32 np cells_name with
               | Undef => Undef
               | Err _ => Ok None
               | Ok count => if Z.of_nat (length list) <? count then Ok None else Ok (Some (Z.to_nat count, node))
               end
           end);
      match r with
      | None => Ok (- EINVAL, None)
      | Some (count, node) =>
          if cur_index =? index then
            match node with
            | None => Ok (- ENOENT, None)
            | Some p => Ok (0, Some (OfPhandleArgs p (take (count `min` MAX_PHANDLE_ARGS) list)))
            end
          else parse_phandle_loop fuel' root cells_name index (cur_index + 1) (drop count list)
      end
  end.

Definition __of_parse_phandle_with_args (root np : device_node) (list_name cells_name : bytes) (index : Z)
  : outcome (Z * option of_phandle_args) :=
  match of_get_property np list_name with
  | None => Ok (- ENOENT, None)
  | Some value =>
      let n := (length value / 4)%nat in
      parse_phandle_loop (S n) root cells_name index 0 (cells 4 n value)
  end.
Definition of_parse_phandle_with_args (root np : device_node) (list_name cells_name : bytes) (index : Z)
  : outcome (Z * option of_phandle_args) :=
  if index <? 0 then Ok (- EINVAL, None) else __of_parse_phandle_with_args root np list_name cells_name index.
Definition of_count_phandle_with_args (root np : device_node) (list_name cells_name : bytes) : outcome Z :=
  '(n, _) ← __of_parse_phandle_with_args root np list_name cells_name (- 1); Ok n.

(** ** Paths and aliases *)

(** The loop of [of_find_node_by_path_from] over the parts of the path. *)
Fixpoint find_path (np : device_node) (parts : list bytes) : option node_ref :=
  match parts with
  | [] => Some []
  | name :: parts' =>
      match list_find (fun c => of_node_cmp (dn_name c) name = true) (dn_children np) with
      | Some (i, c) => cons i <$> find_path c parts'
      | None => None
      end
  end.
(** [path] is NULL or a C string; the result is relative to [from]. *)
Definition of_find_node_by_path_from (from : option device_node) (path : option bytes) : option node_ref :=
  match from, path with
  | Some np, Some (b :: path') =>
      if decide (b = Byte.x2f) then find_path np (until_empty (path_parts [] path')) else None
  | _, _ => None
  end.
Definition of_find_node_by_path (root_node : option device_node) (path : option bytes) : option node_ref :=
  of_find_node_by_path_from root_node path.

Definition of_find_node_by_alias (root : device_node) (alias : bytes) : option node_ref :=
  match of_find_node_by_path_from (Some root) (Some (cstr "/aliases")) ≫= node_at root with
  | None => None
  | Some aliasnp =>
      match of_property_read_string aliasnp alias with
      | Ok path => of_find_node_by_path_from (Some root) (Some path)
      | _ => None
      end
  end.
Definition of_find_node_by_path_or_alias (root : device_node) (str : bytes) : option node_ref :=
  match str with
  | b :: _ => if decide (b = Byte.x2f) then of_find_node_by_path_from (Some root) (Some str) else of_find_node_by_alias root str
  | [] => of_find_node_by_alias root str
  end.

(** [struct alias_prop]. *)
Record alias_prop : Type := AliasProp { ap_alias : bytes; ap_np : node_ref; ap_id : Z; ap_stem : bytes }.

Definition isdigit (b : Byte.byte) : bool := (48 <=? bval b) && (bval b <=? 57).

(** The digits at the end of a name, behind the rest. The byte before a name of
    digits only is read. *)
Fixpoint count_digits (rname : bytes) : option nat :=
  match rname with
  | [] => None
  | b :: l => if isdigit b then S <$> count_digits l else Some 0%nat
  end.
(** [strtol] in base 10 of a string of digits, stored to an [int]. *)
Definition strtol_digits (s : bytes) : Z :=
  s32 (Z.min (fold_left (fun n b => n * 10 + (bval b - 48)) s 0) (2 ^ 63 - 1)).

(** The body of the loop of [of_alias_scan]: the entry that is added, if any. *)
Definition alias_entry (root : device_node) (pp : property) : outcome (option alias_prop) :=
  if bool_decide (pr_name pp = cstr "name") || bool_decide (pr_name pp = cstr "phandle")
     || bool_decide (pr_name pp = cstr "linux,phandle") then Ok None else
  path ← (match pr_value pp with None => Ok None | Some v => s ← of_option (until_nul v); Ok (Some s) end);
  match of_find_node_by_path (Some root) path with
  | None => Ok None
  | Some np =>
      match count_digits (rev (pr_name pp)) with
      | None => Undef
      | Some k =>
          let len := (length (pr_name pp) - k)%nat in
          let id := strtol_digits (drop len (pr_name pp)) in
          if id <? 0 then Ok None else Ok (Some (AliasProp (pr_name pp) np id (take len (pr_name pp))))
      end
  end.
Fixpoint alias_loop (root : device_node) (ps : list property) : outcome (list alias_prop) :=
  match ps with
  | [] => Ok []
  | pp :: ps' => a ← alias_entry root pp; l ← alias_loop root ps'; Ok (match a with Some x => x :: l | None => l end)
  end.
Definition of_alias_scan (root_node : option device_node) : outcome (list alias_prop) :=
  match root_node with
  | None => Ok []
  | Some root =>
      match of_find_node_by_path root_node (Some (cstr "/aliases")) ≫= node_at root with
      | None => Ok []
      | Some aliases => alias_loop root (dn_properties aliases)
      end
  end.

Fixpoint of_alias_get_id (aliases_lookup : list alias_prop) (np : node_ref) (stem : bytes) : Z :=
  match aliases_lookup with
  | [] => - ENODEV
  | app :: l => if of_node_cmp (ap_stem app) stem && bool_decide (np = ap_np app) then ap_id app else of_alias_get_id l np stem
  end.

(** [of_alias_get]: the values are compared as C strings. *)
Fixpoint of_alias_get (ps : list property) (full_name : bytes) : outcome (option bytes) :=
  match ps with
  | [] => Ok None
  | pp :: l =>
      match pr_value pp ≫= until_nul with
      | None => Undef
      | Some s => if of_node_cmp full_name s then Ok (Some (pr_name pp)) else of_alias_get l full_name
      end
  end.

(** ** The global tree *)

(** [root_node] and [aliases_lookup]. *)
Record of_state : Type := OfState { root_node : option device_node; aliases_lookup : list alias_prop }.

Definition of_set_root_node (node : option device_node) (st : of_state) : outcome (Z * of_state) :=
  match node, root_node st with
  | Some _, Some _ => Ok (- EBUSY, st)
  | _, _ => aliases ← of_alias_scan node; Ok (0, OfState node aliases)
  end.

(** ** Cells of buses *)

(** The search for [name] in the ancestors of the node at the reversed path [rp],
    or in the root itself when it starts there. *)
Fixpoint cells_up (root : device_node) (name : bytes) (rp : node_ref) : outcome Z :=
  let here p rest :=
    match node_at root p ≫= (fun np => of_get_property np name) with
    | Some ip => if (length ip <? 4)%nat then Undef else Ok (get_be (take 4 ip))
    | None => rest
    end in
  match rp with
  | [] => here [] (Ok 1)
  | _ :: rp' => here (rev rp') (match rp' with [] => Ok 1 | _ => cells_up root name rp' end)
  end.
Definition of_n_addr_cells (root : device_node) (p : node_ref) : outcome Z := cells_up root (cstr "#address-cells") (rev p).
Definition of_n_size_cells (root : device_node) (p : node_ref) : outcome Z := cells_up root (cstr "#size-cells") (rev p).

(** [of_parse_partition]: the result, the offset and the size. *)
Definition of_parse_partition (root : device_node) (p : node_ref) : outcome (Z * Z * Z) :=
  match node_at root p ≫= (fun np => of_get_property np (cstr "reg")) with
  | None => Ok (- EINVAL, 0, 0)
  | Some reg =>
      a_cells ← of_n_addr_cells root p;
      s_cells ← of_n_size_cells root p;
      if Z.of_nat (length reg) <? 4 * (a_cells + s_cells) then Undef else
      let cs := cells 4 (length reg / 4) reg in
      Ok (0, s64 (of_read_number (take (Z.to_nat a_cells) cs)),
          of_read_number (take (Z.to_nat s_cells) (drop (Z.to_nat a_cells) cs)))
  end.

(** ** Enabling and disabling *)

Definition of_device_enable (node : device_node) : device_node := of_delete_property node (cstr "status").
Definition of_device_disable (node : device_node) : Z * device_node :=
  of_property_write_string node (cstr "status") (cstr "disabled").
Definition of_device_enable_path (root : device_node) (path : bytes) : Z * device_node :=
  match of_find_node_by_path (Some root) (Some path) with
  | None => (- ENODEV, root)
  | Some p => (0, alter_at of_device_enable p root)
  end.
Definition of_device_disable_path (root : device_node) (path : bytes) : Z * device_node :=
  match of_find_node_by_path (Some root) (Some path) with
  | None => (- ENODEV, root)
  | Some p => (0, alter_at (fun np => snd (of_device_disable np)) p root)
  end.

(** [of_get_next_available_child]: the position behind [prev], or the first. *)
Fixpoint next_available (i : nat) (cs : list device_node) : option nat :=
  match cs with [] => None | c :: cs' => if of_device_is_available c then Some i else next_available (S i) cs' end.
Definition of_get_next_available_child (node : device_node) (prev : option nat) : option nat :=
  let first := match prev with None => 0%nat | Some i => S i end in
  next_available first (drop first (dn_children node)).

(** [of_modalias_node] with a buffer of [len] bytes, of which [modalias] is the
    string stored; the part before the first comma of the first string is cut. *)
Fixpoint after_comma (s : bytes) : option bytes :=
  match s with [] => None | b :: s' => if decide (b = Byte.x2c) then Some s' else after_comma s' end.
Definition of_modalias_node (node : device_node) (len : nat) : outcome (Z * bytes) :=
  match of_get_property node (cstr "compatible") with
  | None => Ok (- ENODEV, [])
  | Some v =>
      compatible ← of_option (until_nul v);
      let p := default compatible (after_comma compatible) in
      Ok (0, take (if (len <=? length p)%nat then len - 1 else length p) p)
  end.

(** ** Iterating over a value *)

(** [of_prop_next_u32]: the next offset with the cell there. *)
Definition of_prop_next_u32 (value : bytes) (cur : option nat) : outcome (option (nat * Z)) :=
  let curv := match cur with None => 0%nat | Some c => (c + 4)%nat end in
  if match cur with None => false | Some _ => (length value <=? curv)%nat end then Ok None
  else if (length value <? curv + 4)%nat then Undef else Ok (Some (curv, get_be (sub curv 4 value))).
(** [of_property_for_each_u32]. *)
Fixpoint each_u32 (fuel : nat) (value : bytes) (cur : option nat) : outcome (list Z) :=
  match fuel with
  | O => Ok []
  | S fuel' =>
      n ← of_prop_next_u32 value cur;
      match n with None => Ok [] | Some (c, u) => l ← each_u32 fuel' value (Some c); Ok (u :: l) end
  end.

Definition of_prop_next_string (value : bytes) (cur : option nat) : outcome (option nat) :=
  match cur with
  | None => Ok (Some 0%nat)
  | Some c => match until_nul (drop c value) with
              | None => Undef
              | Some s => let c' := (c + length s + 1)%nat in Ok (if (length value <=? c')%nat then None else Some c')
              end
  end.

(** ** Lemmas on lists *)

Lemma list_add_behind_app_l {A} `{EqDecision A} (new x : A) l1 l2 : x ∉ l1 ->
  list_add_behind new x (l1 ++ l2) = l1 ++ list_add_behind new x l2.
Proof.
  induction l1 as [|y l1 IH]; [done|]. intros Hx. cbn. rewrite decide_False by set_solver. rewrite IH by set_solver. done.
Qed.
Lemma list_add_behind_app_r {A} `{EqDecision A} (new x : A) l1 l2 : x ∈ l1 ->
  list_add_behind new x (l1 ++ l2) = list_add_behind new x l1 ++ l2.
Proof.
  induction l1 as [|y l1 IH]; [set_solver|]. intros Hx. cbn. case_decide; [done|]. rewrite IH by set_solver. done.
Qed.

Lemma alter_middle {A} (f : A -> A) l1 x l2 : alter f (length l1) (l1 ++ x :: l2) = l1 ++ f x :: l2.
Proof. induction l1 as [|y l1 IH]; [done|]. cbn. f_equal. apply IH. Qed.

Lemma alter_out {A} (f : A -> A) (l : list A) : forall i : nat, l !! i = None -> alter f i l = l.
Proof. induction l as [|y l IH]; intros [|i]; cbn; [done..|]. intros Hi. f_equal. by apply IH. Qed.

(** ** Lemmas on paths *)

Lemma node_at_app np p q : node_at np (p ++ q) = node_at np p ≫= fun n => node_at n q.
Proof.
  revert np; induction p as [|i p IH]; intros np; [done|]. cbn. destruct (dn_children np !! i); [apply IH|done].
Qed.

Lemma alter_at_same f p np n : node_at np p = Some n -> node_at (alter_at f p np) p = Some (f n).
Proof.
  revert np; induction p as [|i p IH]; intros np; [by intros [= ->]|]. cbn.
  destruct (dn_children np !! i) as [c|] eqn:E; [|done]. cbn. intros Hc.
  rewrite list_lookup_alter_eq, E. cbn. by apply IH.
Qed.

(** ** The list of all nodes *)

Lemma flat_eq p np : flat p np = (p, np) :: flat_children p 0 (dn_children np).
Proof. by destruct np. Qed.

Lemma flat_children_app p cs1 : forall i cs2,
  flat_children p i (cs1 ++ cs2) = flat_children p (length cs1 + i) cs2 ++ flat_children p i cs1.
Proof.
  induction cs1 as [|c cs1 IH]; intros i cs2; [by rewrite app_nil_r|]. cbn [app flat_children length Nat.add].
  rewrite IH, <-app_assoc. by replace (length cs1 + S i)%nat with (S (length cs1 + i)) by lia.
Qed.

(** The nodes below [np], their paths behind [p]. *)
Definition below (np : device_node) (q : node_ref) (n : device_node) (p : node_ref) : Prop :=
  exists r, q = p ++ r /\ node_at np r = Some n.

Lemma elem_of_children p cs q n : Forall (fun c => forall p, (q, n) ∈ flat p c <-> below c q n p) cs ->
  forall i, (q, n) ∈ flat_children p i cs <->
    exists k r, q = p ++ (i + k)%nat :: r /\ (cs !! k ≫= fun c => node_at c r) = Some n.
Proof.
  induction 1 as [|c cs Hc _ IHcs]; intros i; [cbn; split; [set_solver|by intros (?&?&_&?)]|].
  cbn [flat_children]. rewrite elem_of_app, IHcs, Hc. split.
  - intros [(k & r & -> & Hk)|(r & -> & Hr)]; [exists (S k), r|exists 0%nat, r].
    + split; [do 2 f_equal; lia|done].
    + split; [rewrite <-app_assoc; cbn; do 2 f_equal; lia|done].
  - intros ([|k] & r & -> & Hk); [right; exists r|left; exists k, r].
    + split; [rewrite <-app_assoc; cbn; do 2 f_equal; lia|done].
    + split; [do 2 f_equal; lia|done].
Qed.

Lemma elem_of_flat np : forall p q n, (q, n) ∈ flat p np <-> below np q n p.
Proof.
  induction np as [nm fn ph ps cs IH] using device_node_ind. intros p q n.
  rewrite flat_eq, elem_of_cons, elem_of_children.
  2:{ eapply Forall_impl; [|exact IH]. cbn. intros c Hc p'. apply Hc. }
  cbn [dn_children]. split.
  - intros [[= -> ->]|(k & r & -> & Hk)]; [exists []; by rewrite app_nil_r|by exists (k :: r)].
  - intros ([|k r] & -> & Hr); [left; rewrite app_nil_r; by injection Hr as ->|right; by exists k, r].
Qed.

Lemma elem_of_flat_children p i cs q n : (q, n) ∈ flat_children p i cs <->
  exists k r, q = p ++ (i + k)%nat :: r /\ (cs !! k ≫= fun c => node_at c r) = Some n.
Proof. apply elem_of_children, Forall_true. intros c p'. apply elem_of_flat. Qed.

Lemma elem_of_paths p i cs q : q ∈ (flat_children p i cs).*1 ->
  exists k r, q = p ++ (i + k)%nat :: r /\ (k < length cs)%nat.
Proof.
  intros ([q' n] & -> & (k & r & -> & Hk)%elem_of_flat_children)%list_elem_of_fmap. exists k, r. split; [done|].
  destruct (cs !! k) eqn:E; [|done]. by apply lookup_lt_Some in E.
Qed.

Lemma flat_child_path p i c q : q ∈ (flat (p ++ [i]) c).*1 -> exists r, q = p ++ i :: r.
Proof.
  intros ([q' n] & -> & (r & -> & _)%elem_of_flat)%list_elem_of_fmap. exists r. by rewrite <-app_assoc.
Qed.

Lemma flat_nodup np : forall p, NoDup (flat p np).*1.
Proof.
  induction np as [nm fn ph ps cs IH] using device_node_ind. intros p.
  rewrite flat_eq, fmap_cons. cbn [fst dn_children]. apply list.NoDup_cons. split.
  { intros (k & r & Hp & _)%elem_of_paths. apply (f_equal length) in Hp. rewrite length_app in Hp. cbn in Hp. lia. }
  generalize 0%nat. induction IH as [|c cs Hc _ IHcs]; intros i; cbn; [constructor|].
  rewrite fmap_app. apply list.NoDup_app. split; [apply IHcs|]. split; [|apply Hc].
  intros q (k & r & -> & _)%elem_of_paths (r' & Hq)%flat_child_path.
  apply app_inv_head in Hq. injection Hq. lia.
Qed.

(** The list of [of_new_node] is the order of the tree, wherever the node goes. *)
Lemma flat_add_child c r : forall np p n, node_at np r = Some n -> dn_children c = [] ->
  (flat p (alter_at (add_child c) r np)).*1
  = list_add_behind (p ++ r ++ [length (dn_children n)]) (p ++ r) (flat p np).*1.
Proof.
  induction r as [|i r IH]; intros np p n.
  - intros [= ->] Hc. cbn [alter_at]. rewrite !flat_eq. unfold add_child. cbn [dn_children].
    rewrite flat_children_app. cbn [flat_children app]. rewrite flat_eq, Hc, !fmap_cons, app_nil_r. cbn.
    rewrite decide_True by done. by rewrite Nat.add_0_r.
  - cbn [node_at alter_at]. destruct (dn_children np !! i) as [c0|] eqn:E; [|done]. cbn [mbind option_bind]. intros Hn Hc.
    rewrite !flat_eq. unfold set_children. cbn [dn_children].
    apply list_elem_of_split_length in E as (cs1 & cs2 & Hcs & Hi).
    rewrite Hcs. subst i. rewrite alter_middle.
    rewrite !flat_children_app. cbn [flat_children]. rewrite Nat.add_0_r, !fmap_cons, !fmap_app. cbn [fst].
    cbn [list_add_behind]. rewrite decide_False.
    2:{ intros Hp%(f_equal length). rewrite length_app in Hp. cbn in Hp. lia. }
    f_equal. rewrite <-!app_assoc, list_add_behind_app_l.
    2:{ intros (k & r' & Hq & _)%elem_of_paths. apply app_inv_head in Hq. injection Hq. lia. }
    f_equal. rewrite list_add_behind_app_r.
    2:{ apply list_elem_of_fmap. exists (p ++ length cs1 :: r, n). split; [done|]. apply elem_of_flat.
        exists r. by rewrite <-app_assoc. }
    f_equal. rewrite (IH c0 (p ++ [length cs1]) n Hn Hc). by rewrite <-!app_assoc.
Qed.

Lemma alter_at_ext f g p : forall np n, node_at np p = Some n -> f n = g n -> alter_at f p np = alter_at g p np.
Proof.
  induction p as [|i p IH]; intros np n; cbn; [by intros [= ->]|].
  destruct (dn_children np !! i) as [c|] eqn:E; [|done]. cbn. intros Hn Hf. unfold set_children. f_equal.
  apply list_elem_of_split_length in E as (cs1 & cs2 & -> & ->). rewrite !alter_middle. do 2 f_equal. by eapply IH.
Qed.

Lemma tree_order_new_node root p name n : node_at root p = Some n ->
  tree_order (new_node_at root p name) = new_node_link root p (tree_order root).
Proof.
  intros Hn. unfold tree_order, new_node_at, new_node_link. rewrite Hn.
  rewrite (alter_at_ext (fun np => add_child (of_new_node (Some np) name) np) (add_child (of_new_node (Some n) name)) _ _ _ Hn eq_refl).
  by rewrite (flat_add_child (of_new_node (Some n) name) _ _ _ _ Hn eq_refl).
Qed.

Lemma elem_of_tree_order root q : q ∈ tree_order root <-> is_Some (node_at root q).
Proof.
  unfold tree_order. rewrite list_elem_of_fmap. split.
  - intros ([q' n] & -> & (r & -> & Hr)%elem_of_flat). by exists n.
  - intros [n Hn]. exists (q, n). split; [done|]. apply elem_of_flat. by exists q.
Qed.

(** What [of_next_node] visits from the root: every node but the root. *)
Lemma elem_of_tree_nodes root q n : (q, n) ∈ of_tree_nodes_from root [] <-> q <> [] /\ node_at root q = Some n.
Proof.
  unfold of_tree_nodes_from. rewrite flat_eq. cbn [nodes_behind]. rewrite decide_True by done.
  rewrite elem_of_flat_children. split.
  - intros (k & r & -> & Hk). by split.
  - intros [Hq Hn]. destruct q as [|k r]; [done|]. by exists k, r.
Qed.
Lemma tree_nodes_nodup root : NoDup (of_tree_nodes_from root []).*1.
Proof.
  pose proof (flat_nodup root []) as H. unfold of_tree_nodes_from. rewrite flat_eq in *. cbn [nodes_behind].
  rewrite decide_True by done. rewrite fmap_cons in H. by apply list.NoDup_cons in H as [_ H].
Qed.

(** A tree and its list as calls of [of_new_node] make them, with any change of
    the properties in between. *)
Inductive built : device_node -> list node_ref -> Prop :=
| built_root : forall name, built (of_new_node None name) [[]]
| built_node : forall root order p n name, built root order -> node_at root p = Some n ->
    built (new_node_at root p name) (new_node_link root p order)
| built_props : forall root order p ps, built root order -> built (alter_at (set_properties ps) p root) order.

Lemma tree_order_children f p : (forall n, dn_children (f n) = dn_children n) ->
  forall np q, (flat q (alter_at f p np)).*1 = (flat q np).*1.
Proof.
  intros Hf. induction p as [|i p IH]; intros np q; cbn [alter_at]; rewrite !flat_eq, !fmap_cons; cbn [fst]; f_equal.
  - by rewrite Hf.
  - unfold set_children. cbn [dn_children]. destruct (dn_children np !! i) as [c|] eqn:E.
    + apply list_elem_of_split_length in E as (cs1 & cs2 & -> & ->). rewrite alter_middle, !flat_children_app.
      cbn [flat_children]. by rewrite !fmap_app, IH.
    + by rewrite alter_out.
Qed.

(** C18: however a tree is built, the list that links its nodes holds every node
    once, in the order of [tree_order]: the root and then, for every node, its
    youngest child's subtree first. The searches that follow the list visit every
    node but the root. *)
Theorem tree_list_order root order (Hb : built root order) :
  order = tree_order root /\ NoDup order /\ (forall q, q ∈ order <-> is_Some (node_at root q))
  /\ forall q n, (q, n) ∈ of_tree_nodes_from root [] <-> q <> [] /\ node_at root q = Some n.
Proof.
  assert (order = tree_order root) as ->.
  { induction Hb as [name|root order p n name _ -> Hn|root order p ps _ ->]; [done|by erewrite tree_order_new_node|].
    symmetry. by apply tree_order_children. }
  split; [done|]. split; [apply flat_nodup|]. split; [intros q; apply elem_of_tree_order|intros q n; apply elem_of_tree_nodes].
Qed.

Lemma tree_list_order_witness :
  exists root order, built root order /\ order = tree_order root /\ order = [[]; [1%nat]; [0%nat]; [0%nat; 0%nat]].
Proof.
  set (r0 := of_new_node None []). set (r1 := new_node_at r0 [] (cstr "a")). set (r2 := new_node_at r1 [0%nat] (cstr "b")).
  assert (H : built (new_node_at r2 [] (cstr "c")) (new_node_link r2 [] (new_node_link r1 [0%nat] (new_node_link r0 [] [[]])))).
  { eapply built_node; [eapply built_node; [eapply built_node; [apply built_root|]|]|]; reflexivity. }
  eexists _, _. split; [exact H|]. split; [apply (tree_list_order _ _ H)|reflexivity].
Defined.

(** ** Creating a node and finding it *)

(** The child a name finds, with its position. *)
Definition child_pos (cs : list device_node) (name : bytes) : option (nat * device_node) :=
  list_find (fun c => of_node_cmp (dn_name c) name = true) cs.
#[global] Arguments child_pos : simpl never.

Lemma child_pos_cons c cs name : child_pos (c :: cs) name =
  if of_node_cmp (dn_name c) name then Some (0%nat, c) else prod_map S id <$> child_pos cs name.
Proof.
  unfold child_pos. cbn [list_find]. destruct (of_node_cmp (dn_name c) name) eqn:E.
  - by rewrite decide_True.
  - by rewrite decide_False by congruence.
Qed.

Lemma child_by_name np name : of_get_child_by_name np name = snd <$> child_pos (dn_children np) name.
Proof. unfold of_get_child_by_name, child_pos. by destruct list_find. Qed.

Lemma update_child_alter cs name c' i c : child_pos cs name = Some (i, c) ->
  cs !! i = Some c /\ of_node_cmp (dn_name c) name = true /\ update_child cs name c' = alter (fun _ => c') i cs.
Proof.
  revert i; induction cs as [|c0 cs IH]; intros i; [done|]. rewrite child_pos_cons. cbn [update_child].
  destruct (of_node_cmp (dn_name c0) name) eqn:E; [by intros [= <- <-]|].
  destruct (child_pos cs name) as [[j d]|] eqn:Ec; [|done]. cbn. intros [= <- <-].
  destruct (IH _ eq_refl) as (H1 & H2 & H3). split; [done|]. split; [done|]. by rewrite H3.
Qed.

Lemma child_pos_update cs name c' i c : child_pos cs name = Some (i, c) -> dn_name c' = dn_name c ->
  child_pos (update_child cs name c') name = Some (i, c').
Proof.
  intros H Hn. revert i H; induction cs as [|c0 cs IH]; intros i; [done|]. rewrite child_pos_cons. cbn [update_child].
  destruct (of_node_cmp (dn_name c0) name) eqn:E.
  - intros [= <- ->]. rewrite child_pos_cons, Hn, E. done.
  - destruct (child_pos cs name) as [[j d]|] eqn:Ec; [|done]. cbn. intros [= <- ->].
    rewrite child_pos_cons, E, (IH _ eq_refl). done.
Qed.

Lemma of_node_cmp_refl a : of_node_cmp a a = true.
Proof. by apply bool_decide_eq_true. Qed.

Lemma child_pos_new cs c : child_pos cs (dn_name c) = None -> child_pos (cs ++ [c]) (dn_name c) = Some (length cs, c).
Proof.
  induction cs as [|c0 cs IH]; cbn [app]; rewrite !child_pos_cons; [by rewrite of_node_cmp_refl|].
  destruct (of_node_cmp (dn_name c0) (dn_name c)); [done|].
  destruct (child_pos cs (dn_name c)); [done|]. intros _. by rewrite IH.
Qed.

(** What making nodes leaves of a node. *)
Definition same_node (a b : device_node) : Prop :=
  dn_name a = dn_name b /\ dn_full_name a = dn_full_name b /\ dn_phandle a = dn_phandle b /\ dn_properties a = dn_properties b.

Lemma create_path_self np parts : same_node np (fst (create_path np parts)).
Proof.
  destruct parts as [|p parts]; cbn; [by repeat split|].
  destruct (of_get_child_by_name np p); destruct create_path; by repeat split.
Qed.

Lemma create_find parts : forall np, exists p,
  find_path (fst (create_path np parts)) parts = Some p
  /\ node_at (fst (create_path np parts)) p = Some (snd (create_path np parts)).
Proof.
  induction parts as [|part parts IH]; intros np; [by exists []|]. cbn [create_path].
  rewrite child_by_name. destruct (child_pos (dn_children np) part) as [[i c]|] eqn:Ec; cbn [fmap option_fmap option_map snd].
  - destruct (IH c) as (p & Hf & Hp). pose proof (create_path_self c parts) as (Hn & _).
    destruct (create_path c parts) as [c' dn]. cbn [fst snd] in *. exists (i :: p). cbn [find_path node_at dn_children].
    pose proof (child_pos_update _ _ c' _ _ Ec (eq_sym Hn)) as Hu.
    unfold child_pos in Hu. rewrite Hu. rewrite Hf. split; [done|].
    apply (update_child_alter _ _ c') in Hu as (Hl & _). by rewrite Hl.
  - set (c := of_new_node (Some np) part). destruct (IH c) as (p & Hf & Hp).
    pose proof (create_path_self c parts) as (Hn & _).
    destruct (create_path c parts) as [c' dn]. cbn [fst snd] in *. exists (length (dn_children np) :: p).
    assert (Hc : part = dn_name c') by done. cbn [find_path node_at]. unfold add_child. cbn [dn_children].
    rewrite Hc in Ec. pose proof (child_pos_new _ _ Ec) as Hu. rewrite <-Hc in Hu. unfold child_pos in Hu. rewrite Hu, Hf.
    split; [done|]. rewrite lookup_app_r, Nat.sub_diag by lia. done.
Qed.

Lemma same_node_refl a : same_node a a.
Proof. by repeat split. Qed.

Lemma create_keeps parts : forall np q n, node_at np q = Some n ->
  exists n', node_at (fst (create_path np parts)) q = Some n' /\ same_node n n'.
Proof.
  induction parts as [|part parts IH]; intros np q n Hq; [exists n; by split; [|apply same_node_refl]|].
  destruct q as [|i q].
  { eexists; split; [done|]. injection Hq as <-. apply create_path_self. }
  cbn [create_path]. rewrite child_by_name. cbn [node_at] in Hq.
  destruct (dn_children np !! i) as [d|] eqn:Ei; [|done].
  destruct (child_pos (dn_children np) part) as [[j c]|] eqn:Ec; cbn [fmap option_fmap option_map snd].
  - specialize (IH c). destruct (create_path c parts) as [c' dn]. cbn [fst node_at dn_children] in *.
    apply (update_child_alter _ _ c') in Ec as (Hl & _ & ->). destruct (decide (j = i)) as [->|Hji].
    + rewrite list_lookup_alter_eq, Ei. replace d with c in Hq by congruence. by apply IH.
    + rewrite list_lookup_alter_ne, Ei by done. exists n. by split; [|apply same_node_refl].
  - destruct (create_path (of_new_node (Some np) part) parts) as [c' dn]. cbn [fst node_at]. unfold add_child. cbn [dn_children].
    rewrite lookup_app_l by (by eapply lookup_lt_Some). rewrite Ei. exists n. by split; [|apply same_node_refl].
Qed.

(** C38: after [of_create_node] the path finds the node that it returned, and every
    node that was there before is still in its place, with its name, phandle and
    properties. *)
Theorem create_node_found root path root' dn (H : of_create_node root path = Some (root', dn)) :
  (exists p, of_find_node_by_path (Some root') (Some path) = Some p /\ node_at root' p = Some dn)
  /\ forall q n, node_at root q = Some n -> exists n', node_at root' q = Some n' /\ same_node n n'.
Proof.
  destruct path as [|b path]; [done|]. unfold of_create_node in H.
  unfold of_find_node_by_path, of_find_node_by_path_from. destruct (decide (b = Byte.x2f)); [|done]. injection H as H.
  pose proof (create_find (until_empty (path_parts [] path)) root) as Hf.
  pose proof (create_keeps (until_empty (path_parts [] path)) root) as Hk.
  rewrite H in *. by split.
Qed.

Definition ex_leaf (name : string) (handle : Z) (ps : list property) : device_node :=
  DeviceNode (cstr name) (cstr "/" ++ cstr name) handle ps [].
Definition ex_u32 (name : string) (v : Z) : property := Property (cstr name) (Some (be_cell 4 v)).

Lemma create_node_found_witness :
  let root := DeviceNode [] [] 0 [] [ex_leaf "soc" 3 []] in
  exists root' dn p, of_create_node root (cstr "/soc/gpio") = Some (root', dn)
  /\ of_find_node_by_path (Some root') (Some (cstr "/soc/gpio")) = Some p /\ p = [0%nat; 0%nat].
Proof.
  intros root. destruct (of_create_node root (cstr "/soc/gpio")) as [[root' dn]|] eqn:H; [|discriminate H].
  exists root', dn. destruct (proj1 (create_node_found root (cstr "/soc/gpio") root' dn H)) as (p & Hp & _).
  exists p. split; [done|]. split; [done|]. injection H as <- <-. vm_compute in Hp. by injection Hp as <-.
Defined.

(** ** Phandles *)

Lemma find_node_unique t l p n : (p, n) ∈ l -> t n = true -> (forall q m, (q, m) ∈ l -> t m = true -> q = p) ->
  find_node (fun np => Ok (t np)) l = Ok (Some p).
Proof.
  intros Hin Ht. induction l as [|[q m] l IH]; intros Hu; [set_solver|]. cbn. destruct (t m) eqn:E.
  - by rewrite (Hu q m) by set_solver.
  - apply IH; [|set_solver]. apply elem_of_cons in Hin as [[= <- <-]|]; [congruence|done].
Qed.

Lemma fold_max_ge l : forall m, let z := fold_left (fun max (n : node_ref * device_node) =>
    if max <? dn_phandle (snd n) then dn_phandle (snd n) else max) l m in
  m <= z /\ (z = m \/ exists q n, (q, n) ∈ l /\ z = dn_phandle n) /\ forall q n, (q, n) ∈ l -> dn_phandle n <= z.
Proof.
  induction l as [|[q n] l IH]; intros m; cbn [fold_left snd]; [split; [lia|split; [by left|set_solver]]|].
  destruct (IH (if m <? dn_phandle n then dn_phandle n else m)) as (H1 & H2 & H3). cbn zeta in *.
  set (z := fold_left _ _ _) in *. split; [case_match; lia|]. split.
  - destruct H2 as [H2|(q' & n' & Hn & H2)]; [|right; exists q', n'; set_solver].
    destruct (m <? dn_phandle n); [right; exists q, n; set_solver|by left].
  - intros q' n' [[= -> ->]|Hn]%elem_of_cons; [case_match; lia|by eapply H3].
Qed.

Lemma max_phandle_spec root : let z := of_get_tree_max_phandle (Some root) in
  (exists q n, node_at root q = Some n /\ z = dn_phandle n) /\ forall q n, node_at root q = Some n -> dn_phandle n <= z.
Proof.
  cbn zeta. unfold of_get_tree_max_phandle. destruct (fold_max_ge (of_tree_nodes_from root []) (dn_phandle root)) as (H1 & H2 & H3).
  split.
  - destruct H2 as [H2|(q & n & Hn & H2)]; [by exists [], root|]. exists q, n. apply elem_of_tree_nodes in Hn as [_ Hn]. done.
  - intros [|i q] n Hn; [by injection Hn as <-|]. apply (H3 (i :: q)), elem_of_tree_nodes. done.
Qed.

Lemma alter_at_other {A} (g : device_node -> A) f p : (forall n, dn_children (f n) = dn_children n) ->
  (forall cs n, g (set_children cs n) = g n) -> forall np q, q <> p ->
  g <$> node_at (alter_at f p np) q = g <$> node_at np q.
Proof.
  intros Hf Hg. induction p as [|i p IH]; intros np [|j q] Hq; cbn [alter_at node_at]; [done|by rewrite Hf|by cbn; rewrite Hg|].
  unfold set_children at 1. cbn [dn_children]. destruct (decide (i = j)) as [->|Hij].
  - rewrite list_lookup_alter_eq. destruct (dn_children np !! j) as [c|]; [|done]. cbn. apply IH. congruence.
  - by rewrite list_lookup_alter_ne.
Qed.

(** What the node is given. *)
Definition give_phandle (h : Z) (np : device_node) : device_node := wr (with_phandle h np) (cstr "phandle") (be_cell 4 h).

(** C19: a node without phandle is given one that no node of the tree has; then the
    phandle finds this node, the node carries it as property, and the phandles of
    the others are unchanged. The root is not asked: the search by phandle never
    looks at it. *)
Theorem create_phandle_fresh root p node (Hp : node_at root p = Some node) (Hr : p <> [])
    (H0 : dn_phandle node = 0) (Hu : props_unique node)
    (Hb : forall q n, node_at root q = Some n -> 0 <= dn_phandle n < 2 ^ 32 - 1) :
  exists h root', of_node_create_phandle root p = Some (h, root')
  /\ (forall q n, node_at root q = Some n -> dn_phandle n < h < 2 ^ 32)
  /\ of_find_node_by_phandle root' h = Ok (Some p)
  /\ (exists n', node_at root' p = Some n' /\ of_property_read_u32 n' (cstr "phandle") = Ok h)
  /\ (forall q, q <> p -> dn_phandle <$> node_at root' q = dn_phandle <$> node_at root q).
Proof.
  destruct (max_phandle_spec root) as ((q0 & n0 & Hq0 & Hmax) & Hall). set (m := of_get_tree_max_phandle (Some root)) in *.
  pose proof (Hb _ _ Hq0). assert (Hm : m +32 1 = m + 1) by (apply u32_small; lia).
  exists (m + 1), (alter_at (give_phandle (m + 1)) p root). split.
  { unfold of_node_create_phandle. rewrite Hp. cbn [mbind option_bind]. rewrite H0. cbn [negb Z.eqb]. cbv zeta. fold m. rewrite Hm.
    do 2 f_equal. eapply alter_at_ext; [exact Hp|]. by rewrite set_property_wr. }
  split; [intros q n Hn; specialize (Hall q n Hn); lia|].
  pose proof (alter_at_same (give_phandle (m + 1)) _ _ _ Hp) as Hs.
  assert (Ho : forall q, q <> p -> dn_phandle <$> node_at (alter_at (give_phandle (m + 1)) p root) q = dn_phandle <$> node_at root q).
  { intros q Hq. apply alter_at_other; done. }
  split; [|split; [|exact Ho]].
  - apply find_node_unique with (t := fun np => dn_phandle np =? m + 1) (n := give_phandle (m + 1) node).
    + by apply elem_of_tree_nodes.
    + apply Z.eqb_refl.
    + intros q n' [_ Hn']%elem_of_tree_nodes Ht%Z.eqb_eq. destruct (decide (q = p)) as [|Hq]; [done|].
      specialize (Ho q Hq). rewrite Hn' in Ho. destruct (node_at root q) as [n''|] eqn:E; [|done].
      injection Ho as Ho. specialize (Hall _ _ E). lia.
  - exists (give_phandle (m + 1) node). split; [done|]. apply read_u32_found; [lia|]. by apply wr_same.
Qed.

Lemma create_phandle_fresh_witness :
  let root := DeviceNode [] [] 0 [] [ex_leaf "a" 7 []; ex_leaf "b" 0 [ex_u32 "reg" 1]; ex_leaf "c" 3 []] in
  exists root', of_node_create_phandle root [1%nat] = Some (8, root') /\ of_find_node_by_phandle root' 8 = Ok (Some [1%nat]).
Proof.
  intros root.
  assert (Hb : forall q n, node_at root q = Some n -> 0 <= dn_phandle n < 2 ^ 32 - 1).
  { intros q n Hn. assert (Hi : (q, n) ∈ flat [] root) by (apply elem_of_flat; by exists q). revert Hi. cbn.
    rewrite !elem_of_cons. intros [[= -> ->]|[[= -> ->]|[[= -> ->]|[[= -> ->]|Hi]]]]; [cbn; lia..|].
    by apply not_elem_of_nil in Hi. }
  destruct (create_phandle_fresh root [1%nat] (ex_leaf "b" 0 [ex_u32 "reg" 1])) as (h & root' & H & _ & Hf & _);
    [reflexivity|discriminate|reflexivity|by apply NoDup_singleton|exact Hb|].
  assert (h = 8) as -> by (vm_compute in H; congruence). by exists root'.
Defined.

(** *** Lists of phandles with arguments *)

(** An entry of a list of phandles: the node and its arguments. *)
Record phandle_entry : Type := PhandleEntry { pe_handle : Z; pe_node : node_ref; pe_args : list Z }.
Definition entry_cells (e : phandle_entry) : list Z := pe_handle e :: pe_args e.

(** The handle finds the node, which asks for as many arguments. *)
Definition entry_ok (root : device_node) (cells_name : bytes) (e : phandle_entry) : Prop :=
  pe_handle e <> 0 /\ Forall (fun v => 0 <= v < 2 ^ 32) (entry_cells e) /\ (length (pe_args e) <= MAX_PHANDLE_ARGS)%nat
  /\ of_find_node_by_phandle root (pe_handle e) = Ok (Some (pe_node e))
  /\ exists np, node_at root (pe_node e) = Some np /\ of_property_read_u32 np cells_name = Ok (Z.of_nat (length (pe_args e))).

Lemma parse_phandle_step root cells_name e rest fuel index cur : entry_ok root cells_name e ->
  parse_phandle_loop (S fuel) root cells_name index cur (entry_cells e ++ rest)
  = if cur =? index then Ok (0, Some (OfPhandleArgs (pe_node e) (pe_args e)))
    else parse_phandle_loop fuel root cells_name index (cur + 1) rest.
Proof.
  intros (Hz & _ & Hl & Hf & np & Hn & Hr). unfold entry_cells. cbn [app parse_phandle_loop].
  rewrite (proj2 (Z.eqb_neq _ _) Hz), Hf. cbn [mbind outcome_bind option_bind]. rewrite Hn, Hr, length_app.
  rewrite (proj2 (Z.ltb_ge _ _)) by lia. cbn [mbind outcome_bind].
  rewrite Nat2Z.id, Nat.min_l by lia. rewrite take_app_length, drop_app_length. done.
Qed.

Lemma parse_phandle_entries root cells_name index es : forall fuel cur, Forall (entry_ok root cells_name) es ->
  (length es < fuel)%nat -> (index < 0 \/ cur <= index) -> 0 <= cur ->
  parse_phandle_loop fuel root cells_name index cur (mjoin (entry_cells <$> es))
  = if index <? 0 then Ok (cur + Z.of_nat (length es), None)
    else match es !! Z.to_nat (index - cur) with
         | Some e => Ok (0, Some (OfPhandleArgs (pe_node e) (pe_args e)))
         | None => Ok (- ENOENT, None)
         end.
Proof.
  induction es as [|e es IH]; intros [|fuel] cur Hes Hf Hi Hc; try (cbn in Hf; lia).
  { cbn. destruct (index <? 0); [by rewrite Z.add_0_r|done]. }
  apply Forall_cons_1 in Hes as [He Hes]. rewrite fmap_cons. change (mjoin (?x :: ?l)) with (x ++ mjoin l).
  rewrite parse_phandle_step by done. cbn [length] in *. destruct (Z.eqb_spec cur index) as [->|Hne].
  - rewrite (proj2 (Z.ltb_ge index 0)) by lia. by rewrite Z.sub_diag.
  - rewrite IH by (done || lia). destruct (Z.ltb_spec index 0); [do 2 f_equal; lia|].
    by replace (Z.to_nat (index - cur)) with (S (Z.to_nat (index - (cur + 1)))) by lia.
Qed.

(** C20: a property that lists nodes by phandle with the number of arguments each
    of them asks for is taken apart again: every index gives its node and
    arguments, the index behind the last one -ENOENT, and the count is the number
    of entries. *)
Theorem phandle_list_parsed root np list_name cells_name es index
    (Hes : Forall (entry_ok root cells_name) es) (Hi : 0 <= index)
    (Hv : of_get_property np list_name = Some (mjoin (be_cell 4 <$> mjoin (entry_cells <$> es)))) :
  of_parse_phandle_with_args root np list_name cells_name index
    = Ok (match es !! Z.to_nat index with
          | Some e => (0, Some (OfPhandleArgs (pe_node e) (pe_args e)))
          | None => (- ENOENT, None)
          end)
  /\ of_count_phandle_with_args root np list_name cells_name = Ok (Z.of_nat (length es)).
Proof.
  set (vs := mjoin (entry_cells <$> es)) in *.
  assert (Hvs : Forall (fun v => 0 <= v < 2 ^ (8 * Z.of_nat 4)) vs).
  { subst vs. clear -Hes. induction Hes as [|e es (_ & H & _) _ IH]; [constructor|].
    rewrite fmap_cons. change (mjoin (?x :: ?l)) with (x ++ mjoin l). apply Forall_app. by split. }
  assert (Hlen : (length es <= length vs)%nat).
  { subst vs. clear. induction es as [|e es IH]; [done|]. rewrite fmap_cons. change (mjoin (?x :: ?l)) with (x ++ mjoin l).
    rewrite length_app. cbn. lia. }
  assert (Hc : forall i, __of_parse_phandle_with_args root np list_name cells_name i = parse_phandle_loop (S (length vs)) root cells_name i 0 vs).
  { intros i. unfold __of_parse_phandle_with_args. rewrite Hv, length_cells, Nat.div_mul by lia. f_equal.
    pose proof (cells_app 4 vs [] Hvs) as E. by rewrite app_nil_r in E. }
  split.
  - unfold of_parse_phandle_with_args. rewrite (proj2 (Z.ltb_ge index 0)) by lia. rewrite Hc. subst vs.
    rewrite parse_phandle_entries by (done || lia). rewrite (proj2 (Z.ltb_ge index 0)) by lia. rewrite Z.sub_0_r.
    by destruct (es !! Z.to_nat index).
  - unfold of_count_phandle_with_args. rewrite Hc. subst vs. rewrite parse_phandle_entries by (done || lia). done.
Qed.

Lemma phandle_list_parsed_witness :
  let root := DeviceNode [] [] 0 [] [ex_leaf "gpio1" 1 [ex_u32 "#gpio-cells" 2]; ex_leaf "gpio2" 2 [ex_u32 "#gpio-cells" 1]] in
  let np := ex_leaf "led" 0 [Property (cstr "gpios") (Some (mjoin (be_cell 4 <$> [1; 5; 0; 2; 9])))] in
  of_parse_phandle_with_args root np (cstr "gpios") (cstr "#gpio-cells") 1 = Ok (0, Some (OfPhandleArgs [1%nat] [9]))
  /\ of_count_phandle_with_args root np (cstr "gpios") (cstr "#gpio-cells") = Ok 2.
Proof.
  intros root np.
  apply (phandle_list_parsed root np (cstr "gpios") (cstr "#gpio-cells")
           [PhandleEntry 1 [0%nat] [5; 0]; PhandleEntry 2 [1%nat] [9]] 1); [|lia|reflexivity].
  repeat constructor; cbn; try lia; try (apply Z.lt_gt; reflexivity); try reflexivity.
  - exists (ex_leaf "gpio1" 1 [ex_u32 "#gpio-cells" 2]). split; reflexivity.
  - exists (ex_leaf "gpio2" 2 [ex_u32 "#gpio-cells" 1]). split; reflexivity.
Defined.

(** ** What the code does not mean *)

(** A phandle made for the root is not found: the search never looks there. *)
Example phandle_of_root_not_found :
  exists root', of_node_create_phandle (DeviceNode [] [] 0 [] []) [] = Some (1, root')
  /\ dn_phandle root' = 1 /\ of_find_node_by_phandle root' 1 = Ok None.
Proof. eexists. split; [reflexivity|]. split; reflexivity. Qed.

(** An alias whose name is a number: the byte before the name is read. *)
Example alias_digits_underread :
  let aliases := DeviceNode (cstr "aliases") (cstr "/aliases") 0 [Property (cstr "0") (Some (cstr "/aliases" ++ [0u8]))] [] in
  of_alias_scan (Some (DeviceNode [] [] 0 [] [aliases])) = Undef.
Proof. vm_compute. reflexivity. Qed.
