(* ===== verification/PinTables.v ===== *)
(** * The pad tables of dtblint (src/dtblint-imx-pinmux.c)

    The registers of the pads of the i.MX25, i.MX6DL and i.MX6Q as the source lists
    them, field by field; a field the source leaves out is 0. *)

From S2P Require Import Prelude.

(** [struct padinfo]. *)
Record padinfo : Type := Padinfo {
  padname : string;
  swmux_regoffset : Z;
  swmux_reset_default : Z;
  swmux_writeable_mask : Z;
  swpad_regoffset : Z;
  swpad_reset_default : Z;
  swpad_writeable_mask : Z }.

#[global] Instance padinfo_eq_dec : EqDecision padinfo.
Proof. solve_decision. Defined.

(** ** imx25_iomux_padinfo *)

Definition imx25_pads_1 : list padinfo := [
  Padinfo "A10" 0x008 0x00000000 0x00000007 (-1) 0 0;
  Padinfo "A13" 0x00c 0x00000000 0x00000007 0x22c 0x80 0x80;
  Padinfo "A14" 0x010 0x00000000 0x00000017 0x230 0x80 0x80;
  Padinfo "A15" 0x014 0x00000000 0x00000017 0x234 0x80 0x80;
  Padinfo "A16" 0x018 0x00000000 0x00000017 (-1) 0 0;
  Padinfo "A17" 0x01c 0x00000000 0x00000017 0x238 0x00 0x80;
  Padinfo "A18" 0x020 0x00000000 0x00000017 0x23c 0x00 0x80;
  Padinfo "A19" 0x024 0x00000000 0x00000017 0x240 0x00 0x80;
  Padinfo "A20" 0x028 0x00000000 0x00000017 0x244 0x00 0x80;
  Padinfo "A21" 0x02c 0x00000000 0x00000017 0x248 0x00 0x80;
  Padinfo "A22" 0x030 0x00000000 0x00000017 (-1) 0 0;
  Padinfo "A23" 0x034 0x00000000 0x00000017 0x24c 0x00 0x80;
  Padinfo "A24" 0x038 0x00000000 0x00000017 0x250 0x00 0x80;
  Padinfo "A25" 0x03c 0x00000000 0x00000017 0x254 0x00 0x80;
  Padinfo "EB0" 0x040 0x00000000 0x00000017 0x258 0x00 0x80;
  Padinfo "EB1" 0x044 0x00000000 0x00000017 0x25c 0x00 0x80;
  Padinfo "OE" 0x048 0x00000000 0x00000017 0x260 0x00 0x80;
  Padinfo "CS0" 0x04c 0x00000000 0x00000007 (-1) 0 0;
  Padinfo "CS1" 0x050 0x00000000 0x00000007 (-1) 0 0 ].
Definition imx25_pads_2 : list padinfo := [
  Padinfo "CS4" 0x054 0x00000000 0x00000017 0x264 0x2001 0x20b1;
  Padinfo "CS5" 0x058 0x00000000 0x00000017 0x268 0x2001 0x21b1;
  Padinfo "NF_CE0" 0x05c 0x00000000 0x00000017 0x26c 0x0001 0x81;
  Padinfo "ECB" 0x060 0x00000000 0x00000017 0x270 0x2e80 0x2180;
  Padinfo "LBA" 0x064 0x00000000 0x00000017 0x274 0x0000 0x80;
  Padinfo "BCLK" 0x068 0x00000000 0x00000007 (-1) 0 0;
  Padinfo "RW" 0x06c 0x00000000 0x00000017 0x278 0x0000 0x80;
  Padinfo "NFWE_B" 0x070 0x00000000 0x00000017 (-1) 0 0;
  Padinfo "NFRE_B" 0x074 0x00000000 0x00000017 (-1) 0 0;
  Padinfo "NFALE" 0x078 0x00000000 0x00000017 (-1) 0 0;
  Padinfo "NFCLE" 0x07c 0x00000000 0x00000017 (-1) 0 0;
  Padinfo "NFWP_B" 0x080 0x00000000 0x00000017 (-1) 0 0;
  Padinfo "NFRB" 0x084 0x00000000 0x00000017 0x27c 0x00e0 0x80;
  Padinfo "D15" 0x088 0x00000000 0x00000007 0x280 0x00a1 0x01f1;
  Padinfo "D14" 0x08c 0x00000000 0x00000007 0x284 0x00a1 0x01f1;
  Padinfo "D13" 0x090 0x00000000 0x00000007 0x288 0x00a1 0x01f1;
  Padinfo "D12" 0x094 0x00000000 0x00000007 0x28c 0x00a1 0x01f1;
  Padinfo "D11" 0x098 0x00000000 0x00000007 0x290 0x0021 0x00f1;
  Padinfo "D10" 0x09c 0x00000000 0x00000007 0x294 0x00a1 0x01f1 ].
Definition imx25_pads_3 : list padinfo := [
  Padinfo "D9" 0x0a0 0x00000000 0x00000007 0x298 0x00a1 0x00f1;
  Padinfo "D8" 0x0a4 0x00000000 0x00000007 0x29c 0x00a1 0x01f1;
  Padinfo "D7" 0x0a8 0x00000000 0x00000007 0x2a0 0x0080 0x0040;
  Padinfo "D6" 0x0ac 0x00000000 0x00000007 0x2a4 0x0080 0x0040;
  Padinfo "D5" 0x0b0 0x00000000 0x00000007 0x2a8 0x0080 0x0040;
  Padinfo "D4" 0x0b4 0x00000000 0x00000007 0x2ac 0x0080 0x0040;
  Padinfo "D3" 0x0b8 0x00000000 0x00000007 0x2b0 0x0080 0x0040;
  Padinfo "D2" 0x0bc 0x00000000 0x00000007 0x2b4 0x0080 0x0040;
  Padinfo "D1" 0x0c0 0x00000000 0x00000007 0x2b8 0x0000 0x0040;
  Padinfo "D0" 0x0c4 0x00000000 0x00000007 0x2bc 0x0080 0x0040;
  Padinfo "LD0" 0x0c8 0x00000000 0x00000017 0x2c0 0x0060 0x00f0;
  Padinfo "LD1" 0x0cc 0x00000000 0x00000017 0x2c4 0x0060 0x00f0;
  Padinfo "LD2" 0x0d0 0x00000000 0x00000017 0x2c8 0x0060 0x00f1;
  Padinfo "LD3" 0x0d4 0x00000000 0x00000017 0x2cc 0x0060 0x00f0;
  Padinfo "LD4" 0x0d8 0x00000000 0x00000017 0x2d0 0x0060 0x00f1;
  Padinfo "LD5" 0x0dc 0x00000000 0x00000017 0x2d4 0x0060 0x00f1;
  Padinfo "LD6" 0x0e0 0x00000000 0x00000017 0x2d8 0x0060 0x00f1;
  Padinfo "LD7" 0x0e4 0x00000000 0x00000017 0x2dc 0x0060 0x00f1 ].
Definition imx25_pads_4 : list padinfo := [
  Padinfo "LD8" 0x0e8 0x00000000 0x00000017 0x2e0 0x0060 0x00f1;
  Padinfo "LD9" 0x0ec 0x00000000 0x00000017 0x2e4 0x0160 0x01f1;
  Padinfo "LD10" 0x0f0 0x00000000 0x00000017 0x2e8 0x0060 0x00f1;
  Padinfo "LD11" 0x0f4 0x00000000 0x00000017 0x2ec 0x0060 0x00f1;
  Padinfo "LD12" 0x0f8 0x00000000 0x00000017 0x2f0 0x0060 0x00f9;
  Padinfo "LD13" 0x0fc 0x00000000 0x00000017 0x2f4 0x0060 0x00f9;
  Padinfo "LD14" 0x100 0x00000000 0x00000017 0x2f8 0x0020 0x00b8;
  Padinfo "LD15" 0x104 0x00000000 0x00000017 0x2fc 0x0060 0x00f8;
  Padinfo "HSYNC" 0x108 0x00000000 0x00000017 0x300 0x0060 0x00f9;
  Padinfo "VSYNC" 0x10c 0x00000000 0x00000017 0x304 0x0060 0x00f9;
  Padinfo "LSCLK" 0x110 0x00000000 0x00000017 0x308 0x0061 0x00f1;
  Padinfo "OE_ACD" 0x114 0x00000000 0x00000017 0x30c 0x0060 0x00f1;
  Padinfo "CONTRAST" 0x118 0x00000000 0x00000017 0x310 0x0060 0x00f0;
  Padinfo "PWM" 0x11c 0x00000000 0x00000017 0x314 0x00c0 0x00f6;
  Padinfo "CSI_D2" 0x120 0x00000000 0x00000017 0x318 0x00a1 0x00f1;
  Padinfo "CSI_D3" 0x124 0x00000000 0x00000017 0x31c 0x00a0 0x00f1;
  Padinfo "CSI_D4" 0x128 0x00000000 0x00000017 0x320 0x01a1 0x01f1;
  Padinfo "CSI_D5" 0x12c 0x00000000 0x00000017 0x324 0x00a0 0x00f1 ].
Definition imx25_pads_5 : list padinfo := [
  Padinfo "CSI_D6" 0x130 0x00000000 0x00000017 0x328 0x00a0 0x00f9;
  Padinfo "CSI_D7" 0x134 0x00000000 0x00000017 0x32c 0x01a0 0x01f9;
  Padinfo "CSI_D8" 0x138 0x00000000 0x00000017 0x330 0x00a0 0x00f9;
  Padinfo "CSI_D9" 0x13c 0x00000000 0x00000017 0x334 0x00a0 0x00f9;
  Padinfo "CSI_MCLK" 0x140 0x00000000 0x00000017 0x338 0x0061 0x00f1;
  Padinfo "CSI_VSYNC" 0x144 0x00000000 0x00000017 0x33c 0x00a0 0x00f1;
  Padinfo "CSI_HSYNC" 0x148 0x00000000 0x00000017 0x340 0x00a0 0x00f1;
  Padinfo "CSI_PIXCLK" 0x14c 0x00000000 0x00000017 0x344 0x01a0 0x01f1;
  Padinfo "I2C1_CLK" 0x150 0x00000000 0x00000017 0x348 0x00e8 0x00be;
  Padinfo "I2C1_DAT" 0x154 0x00000000 0x00000017 0x34c 0x00e8 0x00be;
  Padinfo "CSPI1_MOSI" 0x158 0x00000000 0x00000017 0x350 0x00e0 0x00b1;
  Padinfo "CSPI1_MISO" 0x15c 0x00000000 0x00000017 0x354 0x00a0 0x00b1;
  Padinfo "CSPI1_SS0" 0x160 0x00000000 0x00000017 0x358 0x00e0 0x00f1;
  Padinfo "CSPI1_SS1" 0x164 0x00000000 0x00000017 0x35c 0x00e0 0x00b9;
  Padinfo "CSPI1_SCLK" 0x168 0x00000000 0x00000017 0x360 0x00e0 0x00b1;
  Padinfo "CSPI1_RDY" 0x16c 0x00000000 0x00000017 0x364 0x00e0 0x00b1;
  Padinfo "UART1_RXD" 0x170 0x00000000 0x00000017 0x368 0x00a0 0x00b0;
  Padinfo "UART1_TXD" 0x174 0x00000000 0x00000017 0x36c 0x0020 0x00b0 ].
Definition imx25_pads_6 : list padinfo := [
  Padinfo "UART1_RTS" 0x178 0x00000000 0x00000017 0x370 0x00e0 0x00f0;
  Padinfo "UART1_CTS" 0x17c 0x00000000 0x00000017 0x374 0x0060 0x00f0;
  Padinfo "UART2_RXD" 0x180 0x00000000 0x00000017 0x378 0x00e0 0x00f0;
  Padinfo "UART2_TXD" 0x184 0x00000000 0x00000017 0x37c 0x0060 0x00f1;
  Padinfo "UART2_RTS" 0x188 0x00000000 0x00000017 0x380 0x00e1 0x00f1;
  Padinfo "UART2_CTS" 0x18c 0x00000000 0x00000017 0x384 0x0060 0x00f1;
  Padinfo "SD1_CMD" 0x190 0x00000000 0x00000017 0x388 0x00d1 0x00f1;
  Padinfo "SD1_CLK" 0x194 0x00000000 0x00000017 0x38c 0x00d1 0x01f1;
  Padinfo "SD1_DATA0" 0x198 0x00000000 0x00000017 0x390 0x00d1 0x00f1;
  Padinfo "SD1_DATA1" 0x19c 0x00000000 0x00000017 0x394 0x00d1 0x00f1;
  Padinfo "SD1_DATA2" 0x1a0 0x00000000 0x00000017 0x398 0x00d1 0x00f1;
  Padinfo "SD1_DATA3" 0x1a4 0x00000000 0x00000017 0x39c 0x00d1 0x00f1;
  Padinfo "KPP_ROW0" 0x1a8 0x00000000 0x00000017 0x3a0 0x00e0 0x00b8;
  Padinfo "KPP_ROW1" 0x1ac 0x00000000 0x00000017 0x3a4 0x00e0 0x00b8;
  Padinfo "KPP_ROW2" 0x1b0 0x00000000 0x00000017 0x3a8 0x00e0 0x00f8;
  Padinfo "KPP_ROW3" 0x1b4 0x00000000 0x00000017 0x3ac 0x00e0 0x00f8;
  Padinfo "KPP_COL0" 0x1b8 0x00000000 0x00000017 0x3b0 0x00a8 0x00b8;
  Padinfo "KPP_COL1" 0x1bc 0x00000000 0x00000017 0x3b4 0x00a8 0x00b8 ].
Definition imx25_pads_7 : list padinfo := [
  Padinfo "KPP_COL2" 0x1c0 0x00000000 0x00000017 0x3b8 0x00a8 0x00b8;
  Padinfo "KPP_COL3" 0x1c4 0x00000000 0x00000017 0x3bc 0x00a8 0x00b8;
  Padinfo "FEC_MDC" 0x1c8 0x00000000 0x00000017 0x3c0 0x0060 0x00f1;
  Padinfo "FEC_MDIO" 0x1cc 0x00000000 0x00000017 0x3c4 0x01f0 0x01f1;
  Padinfo "FEC_TDATA0" 0x1d0 0x00000000 0x00000017 0x3c8 0x0060 0x00f1;
  Padinfo "FEC_TDATA1" 0x1d4 0x00000000 0x00000017 0x3cc 0x0060 0x00f1;
  Padinfo "FEC_TX_EN" 0x1d8 0x00000000 0x00000017 0x3d0 0x0060 0x00f9;
  Padinfo "FEC_RDATA0" 0x1dc 0x00000000 0x00000017 0x3d4 0x00c1 0x00f9;
  Padinfo "FEC_RDATA1" 0x1e0 0x00000000 0x00000017 0x3d8 0x00c0 0x00f9;
  Padinfo "FEC_RX_DV" 0x1e4 0x00000000 0x00000017 0x3dc 0x00c0 0x00f9;
  Padinfo "FEC_TX_CLK" 0x1e8 0x00000000 0x00000017 0x3e0 0x00c0 0x01f1;
  Padinfo "RTCK" 0x1ec 0x00000000 0x00000017 0x3e4 0x0062 0x00ff;
  Padinfo "TDO" 0 0 0 0x3e8 0x0002 0x0006;
  Padinfo "DE_B" 0x1f0 0x00000000 0x00000017 0x3ec 0x00d0 0x0006;
  Padinfo "GPIO_A" 0x1f4 0x00000000 0x00000017 0x3f0 0x00c0 0x00fe;
  Padinfo "GPIO_B" 0x1f8 0x00000000 0x00000017 0x3f4 0x00c0 0x00fe;
  Padinfo "GPIO_C" 0x1fc 0x00000000 0x00000017 0x3f8 0x00c0 0x00fe;
  Padinfo "GPIO_D" 0x200 0x00000000 0x00000017 0x3fc 0x0020 0x00be ].
Definition imx25_pads_8 : list padinfo := [
  Padinfo "GPIO_E" 0x204 0x00000000 0x00000017 0x400 0x00e8 0x00be;
  Padinfo "GPIO_F" 0x208 0x00000000 0x00000017 0x404 0x0020 0x00b6;
  Padinfo "EXT_ARMCLK" 0x20c 0x00000000 0x00000017 (-1) 0 0;
  Padinfo "UPLL_BYPCLK" 0x210 0x00000000 0x00000017 (-1) 0 0;
  Padinfo "VSTBY_REQ" 0x214 0x00000000 0x00000017 0x408 0x0000 0x0086;
  Padinfo "VSTBY_ACK" 0x218 0x00000000 0x00000017 0x40c 0x0080 0x00b6;
  Padinfo "POWER_FAIL" 0x21c 0x00000000 0x00000017 0x410 0x00c0 0x00b6;
  Padinfo "CLKO" 0x220 0x00000000 0x00000017 0x414 0x0004 0x0006;
  Padinfo "BOOT_MODE0" 0x224 0x00000000 0x00000007 (-1) 0 0;
  Padinfo "BOOT_MODE1" 0x228 0x00000000 0x00000007 (-1) 0 0 ].
Definition imx25_iomux_padinfo : list padinfo :=
  imx25_pads_1 ++ imx25_pads_2 ++ imx25_pads_3 ++ imx25_pads_4 ++ imx25_pads_5 ++ imx25_pads_6 ++ imx25_pads_7 ++ imx25_pads_8.

(** ** imx6dl_iomux_padinfo *)

Definition imx6dl_pads_1 : list padinfo := [
  Padinfo "CSI0_DAT10" 0x04c 0x00000005 0x00000017 0x360 0x1b0b0 0x1f8f9;
  Padinfo "CSI0_DAT11" 0x050 0x00000005 0x00000017 0x364 0x1b0b0 0x1f8f9;
  Padinfo "CSI0_DAT12" 0x054 0x00000005 0x00000017 0x368 0x1b0b0 0x1f8f9;
  Padinfo "CSI0_DAT13" 0x058 0x00000005 0x00000017 0x36c 0x1b0b0 0x1f8f9;
  Padinfo "CSI0_DAT14" 0x05c 0x00000005 0x00000017 0x370 0x1b0b0 0x1f8f9;
  Padinfo "CSI0_DAT15" 0x060 0x00000005 0x00000017 0x374 0x1b0b0 0x1f8f9;
  Padinfo "CSI0_DAT16" 0x064 0x00000005 0x00000017 0x378 0x1b0b0 0x1f8f9;
  Padinfo "CSI0_DAT17" 0x068 0x00000005 0x00000017 0x37c 0x1b0b0 0x1f8f9;
  Padinfo "CSI0_DAT18" 0x06c 0x00000005 0x00000017 0x380 0x1b0b0 0x1f8f9;
  Padinfo "CSI0_DAT19" 0x070 0x00000005 0x00000017 0x384 0x1b0b0 0x1f8f9;
  Padinfo "CSI0_DAT4" 0x074 0x00000005 0x00000017 0x388 0x1b0b0 0x1f8f9;
  Padinfo "CSI0_DAT5" 0x078 0x00000005 0x00000017 0x38c 0x1b0b0 0x1f8f9;
  Padinfo "CSI0_DAT6" 0x07c 0x00000005 0x00000017 0x390 0x1b0b0 0x1f8f9;
  Padinfo "CSI0_DAT7" 0x080 0x00000005 0x00000017 0x394 0x1b0b0 0x1f8f9;
  Padinfo "CSI0_DAT8" 0x084 0x00000005 0x00000017 0x398 0x1b0b0 0x1f8f9;
  Padinfo "CSI0_DAT9" 0x088 0x00000005 0x00000017 0x39c 0x1b0b0 0x1f8f9;
  Padinfo "CSI0_DATA_EN" 0x08c 0x00000005 0x00000017 0x3a0 0x1b0b0 0x1f8f9;
  Padinfo "CSI0_DATA_EN" 0x08c 0x00000005 0x00000017 0x3a0 0x1b0b0 0x1f8f9 ].
Definition imx6dl_pads_2 : list padinfo := [
  Padinfo "CSI0_MCLK" 0x090 0x00000005 0x00000017 0x3a4 0x1b0b0 0x1f8f9;
  Padinfo "CSI0_PIXCLK" 0x094 0x00000005 0x00000017 0x3a8 0x1b0b0 0x1f8f9;
  Padinfo "CSI0_VSYNC" 0x098 0x00000005 0x00000017 0x3ac 0x1b0b0 0x1f8f9;
  Padinfo "DI0_DISP_CLK" 0x09c 0x00000005 0x0000001f 0x3b0 0x1b0b0 0x1f8f9;
  Padinfo "DI0_DISP_CLK" 0x09c 0x00000005 0x0000001f 0x3b0 0x1b0b0 0x1f8f9;
  Padinfo "DI0_PIN15" 0x0a0 0x00000005 0x0000001f 0x3b4 0x1b0b0 0x1f8f9;
  Padinfo "DI0_PIN2" 0x0a4 0x00000005 0x0000001f 0x3b8 0x1b0b0 0x1f8f9;
  Padinfo "DI0_PIN3" 0x0a8 0x00000005 0x0000001f 0x3bc 0x1b0b0 0x1f8f9;
  Padinfo "DI0_PIN4" 0x0ac 0x00000005 0x0000001f 0x3c0 0x1b0b0 0x1f8f9;
  Padinfo "DISP0_DAT0" 0x0b0 0x00000005 0x00000017 0x3c4 0x1b0b0 0x1f8f9;
  Padinfo "DISP0_DAT1" 0x0b4 0x00000005 0x00000017 0x3c8 0x1b0b0 0x1f8f9;
  Padinfo "DISP0_DAT10" 0x0b8 0x00000005 0x00000017 0x3cc 0x1b0b0 0x1f8f9;
  Padinfo "DISP0_DAT11" 0x0bc 0x00000005 0x00000017 0x3d0 0x1b0b0 0x1f8f9;
  Padinfo "DISP0_DAT12" 0x0c0 0x00000005 0x00000017 0x3d4 0x1b0b0 0x1f8f9;
  Padinfo "DISP0_DAT13" 0x0c4 0x00000005 0x00000017 0x3d8 0x1b0b0 0x1f8f9;
  Padinfo "DISP0_DAT14" 0x0c8 0x00000005 0x00000017 0x3dc 0x1b0b0 0x1f8f9;
  Padinfo "DISP0_DAT15" 0x0cc 0x00000005 0x00000017 0x3e0 0x1b0b0 0x1f8f9;
  Padinfo "DISP0_DAT16" 0x0d0 0x00000005 0x00000017 0x3e4 0x1b0b0 0x1f8f9 ].
Definition imx6dl_pads_3 : list padinfo := [
  Padinfo "DISP0_DAT17" 0x0d4 0x00000005 0x00000017 0x3e8 0x1b0b0 0x1f8f9;
  Padinfo "DISP0_DAT18" 0x0d8 0x00000005 0x00000017 0x3ec 0x1b0b0 0x1f8f9;
  Padinfo "DISP0_DAT19" 0x0dc 0x00000005 0x00000017 0x3f0 0x1b0b0 0x1f8f9;
  Padinfo "DISP0_DAT2" 0x0e0 0x00000005 0x00000017 0x3f4 0x1b0b0 0x1f8f9;
  Padinfo "DISP0_DAT20" 0x0e4 0x00000005 0x00000017 0x3f8 0x1b0b0 0x1f8f9;
  Padinfo "DISP0_DAT21" 0x0e8 0x00000005 0x00000017 0x3fc 0x1b0b0 0x1f8f9;
  Padinfo "DISP0_DAT22" 0x0ec 0x00000005 0x00000017 0x400 0x1b0b0 0x1f8f9;
  Padinfo "DISP0_DAT23" 0x0f0 0x00000005 0x00000017 0x404 0x1b0b0 0x1f8f9;
  Padinfo "DISP0_DAT3" 0x0f4 0x00000005 0x00000017 0x408 0x1b0b0 0x1f8f9;
  Padinfo "DISP0_DAT4" 0x0f8 0x00000005 0x00000017 0x40c 0x1b0b0 0x1f8f9;
  Padinfo "DISP0_DAT5" 0x0fc 0x00000005 0x00000017 0x410 0x1b0b0 0x1f8f9;
  Padinfo "DISP0_DAT6" 0x100 0x00000005 0x00000017 0x414 0x1b0b0 0x1f8f9;
  Padinfo "DISP0_DAT7" 0x104 0x00000005 0x00000017 0x418 0x1b0b0 0x1f8f9;
  Padinfo "DISP0_DAT8" 0x108 0x00000005 0x00000017 0x41c 0x1b0b0 0x1f8f9;
  Padinfo "DISP0_DAT9" 0x10c 0x00000005 0x00000017 0x420 0x1b0b0 0x1f8f9;
  Padinfo "EIM_A16" 0x110 0x00000000 0x0000001f 0x4e0 0x0b0b1 0x1f8f9;
  Padinfo "EIM_A17" 0x114 0x00000000 0x0000001f 0x4e4 0x0b0b1 0x1f8f9;
  Padinfo "EIM_A18" 0x118 0x00000000 0x0000001f 0x4e8 0x0b0b1 0x1f8f9 ].
Definition imx6dl_pads_4 : list padinfo := [
  Padinfo "EIM_A19" 0x11c 0x00000000 0x0000001f 0x4ec 0x0b0b1 0x1f8f9;
  Padinfo "EIM_A20" 0x120 0x00000000 0x0000001f 0x4f0 0x0b0b1 0x1f8f9;
  Padinfo "EIM_A21" 0x124 0x00000000 0x0000001f 0x4f4 0x0b0b1 0x1f8f9;
  Padinfo "EIM_A22" 0x128 0x00000000 0x0000001f 0x4f8 0x0b0b1 0x1f8f9;
  Padinfo "EIM_A23" 0x12c 0x00000000 0x0000001f 0x4fc 0x0b0b1 0x1f8f9;
  Padinfo "EIM_A24" 0x130 0x00000000 0x0000001f 0x500 0x0b0b1 0x1f8f9;
  Padinfo "EIM_A25" 0x134 0x00000000 0x0000001f 0x504 0x0b0b1 0x1f8f9;
  Padinfo "EIM_BCLK" 0x138 0x00000000 0x0000001f 0x508 0x0b0b1 0x1f8f9;
  Padinfo "EIM_CS0" 0x13c 0x00000000 0x0000001f 0x50c 0x0b0b1 0x1f8f9;
  Padinfo "EIM_CS1" 0x140 0x00000000 0x0000001f 0x510 0x0b0b1 0x1f8f9;
  Padinfo "EIM_D16" 0x144 0x00000005 0x0000001f 0x514 0x1b0b0 0x1f8f9;
  Padinfo "EIM_D17" 0x148 0x00000005 0x0000001f 0x518 0x1b0b0 0x1f8f9;
  Padinfo "EIM_D18" 0x14c 0x00000005 0x0000001f 0x51c 0x1b0b0 0x1f8f9;
  Padinfo "EIM_D19" 0x150 0x00000005 0x0000001f 0x520 0x1b0b0 0x1f8f9;
  Padinfo "EIM_D20" 0x154 0x00000005 0x00000017 0x524 0x1b0b0 0x1f8f9;
  Padinfo "EIM_D21" 0x158 0x00000005 0x00000017 0x528 0x1b0b0 0x1f8f9;
  Padinfo "EIM_D22" 0x15c 0x00000005 0x0000001f 0x52c 0x1b0b0 0x1f8f9;
  Padinfo "EIM_D23" 0x160 0x00000005 0x0000001f 0x530 0x1b0b0 0x1f8f9 ].
Definition imx6dl_pads_5 : list padinfo := [
  Padinfo "EIM_D24" 0x164 0x00000005 0x0000001f 0x534 0x1b0b0 0x1f8f9;
  Padinfo "EIM_D25" 0x168 0x00000005 0x0000001f 0x538 0x1b0b0 0x1f8f9;
  Padinfo "EIM_D26" 0x16c 0x00000005 0x0000001f 0x53c 0x1b0b0 0x1f8f9;
  Padinfo "EIM_D27" 0x170 0x00000005 0x0000001f 0x540 0x1b0b0 0x1f8f9;
  Padinfo "EIM_D28" 0x174 0x00000005 0x0000001f 0x544 0x1b0b0 0x1f8f9;
  Padinfo "EIM_D29" 0x178 0x00000005 0x0000001f 0x548 0x1b0b0 0x1f8f9;
  Padinfo "EIM_D30" 0x17c 0x00000005 0x0000001f 0x54c 0x1b0b0 0x1f8f9;
  Padinfo "EIM_D31" 0x180 0x00000005 0x0000001f 0x550 0x1b0b0 0x1f8f9;
  Padinfo "EIM_DA0" 0x184 0x00000000 0x0000001f 0x554 0x0b0b1 0x1f8f9;
  Padinfo "EIM_DA1" 0x188 0x00000000 0x0000001f 0x558 0x0b0b1 0x1f8f9;
  Padinfo "EIM_DA10" 0x18c 0x00000000 0x0000001f 0x55c 0x0b0b1 0x1f8f9;
  Padinfo "EIM_DA11" 0x190 0x00000000 0x0000001f 0x560 0x0b0b1 0x1f8f9;
  Padinfo "EIM_DA12" 0x194 0x00000000 0x0000001f 0x564 0x0b0b1 0x1f8f9;
  Padinfo "EIM_DA13" 0x198 0x00000000 0x0000001f 0x568 0x0b0b1 0x1f8f9;
  Padinfo "EIM_DA14" 0x19c 0x00000000 0x0000001f 0x56c 0x0b0b1 0x1f8f9;
  Padinfo "EIM_DA15" 0x1a0 0x00000000 0x0000001f 0x570 0x0b0b1 0x1f8f9;
  Padinfo "EIM_DA2" 0x1a4 0x00000000 0x0000001f 0x574 0x0b0b1 0x1f8f9;
  Padinfo "EIM_DA3" 0x1a8 0x00000000 0x0000001f 0x578 0x0b0b1 0x1f8f9 ].
Definition imx6dl_pads_6 : list padinfo := [
  Padinfo "EIM_DA4" 0x1ac 0x00000000 0x0000001f 0x57c 0x0b0b1 0x1f8f9;
  Padinfo "EIM_DA5" 0x1b0 0x00000000 0x0000001f 0x580 0x0b0b1 0x1f8f9;
  Padinfo "EIM_DA6" 0x1b4 0x00000000 0x0000001f 0x584 0x0b0b1 0x1f8f9;
  Padinfo "EIM_DA7" 0x1b8 0x00000000 0x0000001f 0x588 0x0b0b1 0x1f8f9;
  Padinfo "EIM_DA8" 0x1bc 0x00000000 0x0000001f 0x58c 0x0b0b1 0x1f8f9;
  Padinfo "EIM_DA9" 0x1c0 0x00000000 0x0000001f 0x590 0x0b0b1 0x1f8f9;
  Padinfo "EIM_EB0" 0x1c4 0x00000000 0x0000001f 0x594 0x0b0b1 0x1f8f9;
  Padinfo "EIM_EB1" 0x1c8 0x00000000 0x0000001f 0x598 0x0b0b1 0x1f8f9;
  Padinfo "EIM_EB2" 0x1cc 0x00000005 0x0000001f 0x59c 0x1b0b0 0x1f8f9;
  Padinfo "EIM_EB3" 0x1d0 0x00000005 0x0000001f 0x5a0 0x1b0b0 0x1f8f9;
  Padinfo "EIM_LBA" 0x1d4 0x00000000 0x0000001f 0x5a4 0x0b0b1 0x1f8f9;
  Padinfo "EIM_OE" 0x1d8 0x00000000 0x0000001f 0x5a8 0x0b0b1 0x1f8f9;
  Padinfo "EIM_RW" 0x1dc 0x00000000 0x0000001f 0x5ac 0x0b0b1 0x1f8f9;
  Padinfo "EIM_WAIT" 0x1e0 0x00000000 0x00000017 0x5b0 0x0b060 0x1f8f9;
  Padinfo "ENET_CRS_DV" 0x1e4 0x00000005 0x00000017 0x5b4 0x1b0b0 0x1f839;
  Padinfo "ENET_MDC" 0x1e8 0x00000005 0x00000017 0x5b8 0x1b0b0 0x1f8f9;
  Padinfo "ENET_MDIO" 0x1ec 0x00000005 0x00000017 0x5bc 0x1b0b0 0x1f8f9;
  Padinfo "ENET_REF_CLK" 0x1f0 0x00000005 0x00000017 0x5c0 0x1b0b0 0x1f8f9 ].
Definition imx6dl_pads_7 : list padinfo := [
  Padinfo "ENET_RX_ER" 0x1f4 0x00000005 0x00000017 0x5c4 0x1b0b0 0x1f8f9;
  Padinfo "ENET_RXD0" 0x1f8 0x00000005 0x00000017 0x5c8 0x1b0b0 0x1f839;
  Padinfo "ENET_RXD1" 0x1fc 0x00000005 0x00000017 0x5cc 0x1b0b0 0x1f8f9;
  Padinfo "ENET_TX_EN" 0x200 0x00000005 0x0000001f 0x5d0 0x1b0b0 0x1f8f9;
  Padinfo "ENET_TXD0" 0x204 0x00000005 0x00000017 0x5d4 0x1b0b0 0x1f8f9;
  Padinfo "ENET_TXD1" 0x208 0x00000005 0x0000001f 0x5d8 0x1b0b0 0x1f8f9;
  Padinfo "GPIO_0" 0x20c 0x00000005 0x00000017 0x5dc 0x130b0 0x1f839;
  Padinfo "GPIO_1" 0x210 0x00000005 0x00000017 0x5e0 0x1b0b0 0x1f8f9;
  Padinfo "GPIO_16" 0x214 0x00000005 0x00000017 0x5e4 0x1b0b0 0x1f8f9;
  Padinfo "GPIO_17" 0x218 0x00000005 0x00000017 0x5e8 0x1b0b0 0x1f839;
  Padinfo "GPIO_18" 0x21c 0x00000005 0x00000017 0x5ec 0x1b0b0 0x1f8f9;
  Padinfo "GPIO_19" 0x220 0x00000005 0x00000017 0x5f0 0x1b0b0 0x1f8f9;
  Padinfo "GPIO_2" 0x224 0x00000005 0x00000017 0x5f4 0x1b0b0 0x1f8f9;
  Padinfo "GPIO_3" 0x228 0x00000005 0x00000017 0x5f8 0x1b0b0 0x1f8f9;
  Padinfo "GPIO_4" 0x22c 0x00000005 0x00000017 0x5fc 0x1b0b0 0x1f8f9;
  Padinfo "GPIO_5" 0x230 0x00000005 0x00000017 0x600 0x1b0b0 0x1f8f9;
  Padinfo "GPIO_6" 0x234 0x00000005 0x00000017 0x604 0x1b0b0 0x1f8f9;
  Padinfo "GPIO_7" 0x238 0x00000005 0x0000001f 0x608 0x1b0b0 0x1f8f9 ].
Definition imx6dl_pads_8 : list padinfo := [
  Padinfo "GPIO_8" 0x23c 0x00000005 0x0000001f 0x60c 0x1b0b0 0x1f8f9;
  Padinfo "GPIO_9" 0x240 0x00000005 0x00000017 0x610 0x1b0b0 0x1f8f9;
  Padinfo "KEY_COL0" 0x244 0x00000005 0x00000017 0x62c 0x1b0b0 0x1f8f9;
  Padinfo "KEY_COL1" 0x248 0x00000005 0x00000017 0x630 0x1b0b0 0x1f8f9;
  Padinfo "KEY_COL2" 0x24c 0x00000005 0x00000017 0x634 0x1b0b0 0x1f8f9;
  Padinfo "KEY_COL3" 0x250 0x00000005 0x00000017 0x638 0x1b0b0 0x1f8f9;
  Padinfo "KEY_COL4" 0x254 0x00000005 0x00000017 0x63c 0x1b0b0 0x1f8f9;
  Padinfo "KEY_ROW0" 0x258 0x00000005 0x00000017 0x640 0x1b0b0 0x1f8f9;
  Padinfo "KEY_ROW1" 0x25c 0x00000005 0x00000017 0x644 0x1b0b0 0x1f8f9;
  Padinfo "KEY_ROW2" 0x260 0x00000005 0x00000017 0x648 0x1b0b0 0x1f8f9;
  Padinfo "KEY_ROW3" 0x264 0x00000005 0x00000017 0x64c 0x1b0b0 0x1f8f9;
  Padinfo "KEY_ROW4" 0x268 0x00000005 0x00000017 0x650 0x130b0 0x1f8f9;
  Padinfo "NANDF_ALE" 0x26c 0x00000005 0x0000001f 0x654 0x1b0b0 0x1f8f9;
  Padinfo "NANDF_CLE" 0x270 0x00000005 0x0000001f 0x658 0x1b0b0 0x1f8f9;
  Padinfo "NANDF_CS0" 0x274 0x00000005 0x0000001f 0x65c 0x1b0b0 0x1f8f9;
  Padinfo "NANDF_CS1" 0x278 0x00000005 0x0000001f 0x660 0x1b0b0 0x1f8f9;
  Padinfo "NANDF_CS2" 0x27c 0x00000005 0x0000001f 0x664 0x1b0b0 0x1f8f9;
  Padinfo "NANDF_CS3" 0x280 0x00000005 0x0000001f 0x668 0x1b0b0 0x1f8f9 ].
Definition imx6dl_pads_9 : list padinfo := [
  Padinfo "NANDF_D0" 0x284 0x00000005 0x00000017 0x66c 0x1b0b0 0x1f8f9;
  Padinfo "NANDF_D1" 0x288 0x00000005 0x00000017 0x670 0x1b0b0 0x1f8f9;
  Padinfo "NANDF_D2" 0x28c 0x00000005 0x00000017 0x674 0x1b0b0 0x1f8f9;
  Padinfo "NANDF_D3" 0x290 0x00000005 0x00000017 0x678 0x1b0b0 0x1f8f9;
  Padinfo "NANDF_D4" 0x294 0x00000005 0x00000017 0x67c 0x1b0b0 0x1f8f9;
  Padinfo "NANDF_D5" 0x298 0x00000005 0x00000017 0x680 0x1b0b0 0x1f8f9;
  Padinfo "NANDF_D6" 0x29c 0x00000005 0x00000017 0x684 0x1b0b0 0x1f8f9;
  Padinfo "NANDF_D7" 0x2a0 0x00000005 0x00000017 0x688 0x1b0b0 0x1f8f9;
  Padinfo "NANDF_RB0" 0x2a4 0x00000005 0x0000001f 0x68c 0x1b0b0 0x1f8f9;
  Padinfo "NANDF_WP_B" 0x2a8 0x00000005 0x0000001f 0x690 0x1b0b0 0x1f8f9;
  Padinfo "RGMII_RD0" 0x2ac 0x00000005 0x00000017 0x694 0x1b030 0x3f038;
  Padinfo "RGMII_RD1" 0x2b0 0x00000005 0x00000017 0x698 0x1b030 0x3f038;
  Padinfo "RGMII_RD2" 0x2b4 0x00000005 0x00000017 0x69c 0x1b030 0x3f038;
  Padinfo "RGMII_RD3" 0x2b8 0x00000005 0x00000017 0x6a0 0x1b030 0x3f038;
  Padinfo "RGMII_RX_CTL" 0x2bc 0x00000005 0x00000017 0x6a4 0x13030 0x3f038;
  Padinfo "RGMII_RXC" 0x2c0 0x00000005 0x00000017 0x6a8 0x13030 0x3f038;
  Padinfo "RGMII_TD0" 0x2c4 0x00000005 0x00000017 0x6ac 0x1b030 0x3f038;
  Padinfo "RGMII_TD1" 0x2c8 0x00000005 0x00000017 0x6b0 0x1b030 0x3f038 ].
Definition imx6dl_pads_10 : list padinfo := [
  Padinfo "RGMII_TD2" 0x2cc 0x00000005 0x00000017 0x6b4 0x1b030 0x3f038;
  Padinfo "RGMII_TD3" 0x2d0 0x00000005 0x00000017 0x6b8 0x1b030 0x3f038;
  Padinfo "RGMII_TX_CTL" 0x2d4 0x00000005 0x00000017 0x6bc 0x13030 0x1f038;
  Padinfo "RGMII_TXC" 0x2d8 0x00000005 0x00000017 0x6c0 0x13030 0x1f038;
  Padinfo "SD1_CLK" 0x2dc 0x00000005 0x00000017 0x6c4 0x1b0b0 0x1f8f9;
  Padinfo "SD1_CMD" 0x2e0 0x00000005 0x00000017 0x6c8 0x1b0b0 0x1f8f9;
  Padinfo "SD1_DAT0" 0x2e4 0x00000005 0x00000017 0x6cc 0x1b0b0 0x1f8f9;
  Padinfo "SD1_DAT1" 0x2e8 0x00000005 0x00000017 0x6d0 0x1b0b0 0x1f8f9;
  Padinfo "SD1_DAT2" 0x2ec 0x00000005 0x00000017 0x6d4 0x1b0b0 0x1f8f9;
  Padinfo "SD1_DAT3" 0x2f0 0x00000005 0x00000017 0x6d8 0x1b0b0 0x1f8f9;
  Padinfo "SD2_CLK" 0x2f4 0x00000005 0x00000017 0x6dc 0x1b0b0 0x1f8f9;
  Padinfo "SD2_CMD" 0x2f8 0x00000005 0x00000017 0x6e0 0x1b0b0 0x1f8f9;
  Padinfo "SD2_DAT0" 0x2fc 0x00000005 0x00000017 0x6e4 0x1b0b0 0x1f8f9;
  Padinfo "SD2_DAT1" 0x300 0x00000005 0x00000017 0x6e8 0x1b0b0 0x1f8f9;
  Padinfo "SD2_DAT2" 0x304 0x00000005 0x00000017 0x6ec 0x1b0b0 0x1f8f9;
  Padinfo "SD2_DAT3" 0x308 0x00000005 0x00000017 0x6f0 0x1b0b0 0x1f8f9;
  Padinfo "SD3_CLK" 0x30c 0x00000005 0x00000017 0x6f4 0x1b0b0 0x1f8f9;
  Padinfo "SD3_CMD" 0x310 0x00000005 0x00000017 0x6f8 0x1b0b0 0x1f8f9 ].
Definition imx6dl_pads_11 : list padinfo := [
  Padinfo "SD3_DAT0" 0x314 0x00000005 0x00000017 0x6fc 0x1b0b0 0x1f8f9;
  Padinfo "SD3_DAT1" 0x318 0x00000005 0x00000017 0x700 0x1b0b0 0x1f8f9;
  Padinfo "SD3_DAT2" 0x31c 0x00000005 0x00000017 0x704 0x1b0b0 0x1f8f9;
  Padinfo "SD3_DAT3" 0x320 0x00000005 0x00000017 0x708 0x1b0b0 0x1f8f9;
  Padinfo "SD3_DAT4" 0x324 0x00000005 0x00000017 0x70c 0x1b0b0 0x1f8f9;
  Padinfo "SD3_DAT5" 0x328 0x00000005 0x00000017 0x710 0x1b0b0 0x1f8f9;
  Padinfo "SD3_DAT6" 0x32c 0x00000005 0x00000017 0x714 0x1b0b0 0x1f8f9;
  Padinfo "SD3_DAT7" 0x330 0x00000005 0x00000017 0x718 0x1b0b0 0x1f8f9;
  Padinfo "SD3_RST" 0x334 0x00000005 0x00000017 0x71c 0x1b0b0 0x1f8f9;
  Padinfo "SD4_CLK" 0x338 0x00000005 0x00000017 0x720 0x1b0b0 0x1f8f9;
  Padinfo "SD4_CMD" 0x33c 0x00000005 0x00000017 0x724 0x1b0b0 0x1f8f9;
  Padinfo "SD4_DAT0" 0x340 0x00000005 0x00000017 0x728 0x1b0b0 0x1f8f9;
  Padinfo "SD4_DAT1" 0x344 0x00000005 0x00000017 0x72c 0x1b0b0 0x1f8f9;
  Padinfo "SD4_DAT2" 0x348 0x00000005 0x00000017 0x730 0x1b0b0 0x1f8f9;
  Padinfo "SD4_DAT3" 0x34c 0x00000005 0x00000017 0x734 0x1b0b0 0x1f8f9;
  Padinfo "SD4_DAT4" 0x350 0x00000005 0x00000017 0x738 0x1b0b0 0x1f8f9;
  Padinfo "SD4_DAT5" 0x354 0x00000005 0x00000017 0x73c 0x1b0b0 0x1f8f9;
  Padinfo "SD4_DAT6" 0x358 0x00000005 0x00000017 0x740 0x1b0b0 0x1f8f9 ].
Definition imx6dl_pads_12 : list padinfo := [
  Padinfo "SD4_DAT7" 0x35c 0x00000005 0x00000017 0x744 0x1b0b0 0x1f8f9 ].
Definition imx6dl_iomux_padinfo : list padinfo :=
  imx6dl_pads_1 ++ imx6dl_pads_2 ++ imx6dl_pads_3 ++ imx6dl_pads_4 ++ imx6dl_pads_5 ++ imx6dl_pads_6 ++ imx6dl_pads_7 ++ imx6dl_pads_8 ++ imx6dl_pads_9 ++ imx6dl_pads_10 ++ imx6dl_pads_11 ++ imx6dl_pads_12.

(** ** imx6q_iomux_padinfo *)

Definition imx6q_pads_1 : list padinfo := [
  Padinfo "SD2_DATA1" 0x04c 0x00000005 0x00000017 0x360 0x0001b0b0 0x0001f8f9;
  Padinfo "SD2_DATA2" 0x050 0x00000005 0x00000017 0x364 0x0001b0b0 0x0001f8f9;
  Padinfo "SD2_DATA0" 0x054 0x00000005 0x00000017 0x368 0x0001b0b0 0x0001f8f9;
  Padinfo "RGMII_TXC" 0x058 0x00000005 0x00000017 0x36c 0x00013030 0x0001f038;
  Padinfo "RGMII_TD0" 0x05c 0x00000005 0x00000017 0x370 0x0001b030 0x0001f038;
  Padinfo "RGMII_TD1" 0x060 0x00000005 0x00000017 0x374 0x0001b030 0x0001f038;
  Padinfo "RGMII_TD2" 0x064 0x00000005 0x00000017 0x378 0x0001b030 0x0001f038;
  Padinfo "RGMII_TD3" 0x068 0x00000005 0x00000017 0x37c 0x0001b030 0x0001f038;
  Padinfo "RGMII_RX_CTL" 0x06c 0x00000005 0x00000017 0x380 0x00013030 0x0001f038;
  Padinfo "RGMII_RD0" 0x070 0x00000005 0x00000017 0x384 0x0001b030 0x0001f038;
  Padinfo "RGMII_TX_CTL" 0x074 0x00000005 0x00000017 0x388 0x00013030 0x0001f038;
  Padinfo "RGMII_RD1" 0x078 0x00000005 0x00000017 0x38c 0x0001b030 0x0001f038;
  Padinfo "RGMII_RD2" 0x07c 0x00000005 0x00000017 0x390 0x0001b030 0x0001f038;
  Padinfo "RGMII_RD3" 0x080 0x00000005 0x00000017 0x394 0x0001b030 0x0001f038;
  Padinfo "RGMII_RXC" 0x084 0x00000005 0x00000017 0x398 0x00013030 0x0001f038;
  Padinfo "EIM_ADDR25" 0x088 0x00000000 0x00000017 0x39c 0x0000b0b1 0x0001f8f9;
  Padinfo "EIM_EB2_B" 0x08c 0x00000005 0x00000017 0x3a0 0x0001b0b0 0x0001f8f9;
  Padinfo "EIM_DATA16" 0x090 0x00000005 0x00000017 0x3a4 0x0001b0b0 0x0001f8f9 ].
Definition imx6q_pads_2 : list padinfo := [
  Padinfo "EIM_DATA17" 0x094 0x00000005 0x00000017 0x3a8 0x0001b0b0 0x0001f8f9;
  Padinfo "EIM_DATA18" 0x098 0x00000005 0x00000017 0x3ac 0x0001b0b0 0x0001f8f9;
  Padinfo "EIM_DATA19" 0x09c 0x00000005 0x00000017 0x3b0 0x0001b0b0 0x0001f8f9;
  Padinfo "EIM_DATA20" 0x0a0 0x00000005 0x00000017 0x3b4 0x0001b0b0 0x0001f8f9;
  Padinfo "EIM_DATA21" 0x0a4 0x00000005 0x00000017 0x3b8 0x0001b0b0 0x0001f8f9;
  Padinfo "EIM_DATA22" 0x0a8 0x00000005 0x00000017 0x3bc 0x0001b0b0 0x0001f8f9;
  Padinfo "EIM_DATA23" 0x0ac 0x00000005 0x00000017 0x3c0 0x0001b0b0 0x0001f8f9;
  Padinfo "EIM_EB3_B" 0x0b0 0x00000005 0x00000017 0x3c4 0x0001b0b0 0x0001f8f9;
  Padinfo "EIM_DATA24" 0x0b4 0x00000005 0x00000017 0x3c8 0x0001b0b0 0x0001f8f9;
  Padinfo "EIM_DATA25" 0x0b8 0x00000005 0x00000017 0x3cc 0x0001b0b0 0x0001f8f9;
  Padinfo "EIM_DATA26" 0x0bc 0x00000005 0x00000017 0x3d0 0x0001b0b0 0x0001f8f9;
  Padinfo "EIM_DATA27" 0x0c0 0x00000005 0x00000017 0x3d4 0x0001b0b0 0x0001f8f9;
  Padinfo "EIM_DATA28" 0x0c4 0x00000005 0x00000017 0x3d8 0x0001b0b0 0x0001f8f9;
  Padinfo "EIM_DATA29" 0x0c8 0x00000005 0x00000017 0x3dc 0x0001b0b0 0x0001f8f9;
  Padinfo "EIM_DATA30" 0x0cc 0x00000005 0x00000017 0x3e0 0x0001b0b0 0x0001f8f9;
  Padinfo "EIM_DATA31" 0x0d0 0x00000005 0x00000017 0x3e4 0x0001b0b0 0x0001f8f9;
  Padinfo "EIM_ADDR24" 0x0d4 0x00000000 0x00000017 0x3e8 0x0000b0b1 0x0001f8f9;
  Padinfo "EIM_ADDR23" 0x0d8 0x00000000 0x00000017 0x3ec 0x0000b0b1 0x0001f8f9 ].
Definition imx6q_pads_3 : list padinfo := [
  Padinfo "EIM_ADDR22" 0x0dc 0x00000000 0x00000017 0x3f0 0x0000b0b1 0x0001f8f9;
  Padinfo "EIM_ADDR21" 0x0e0 0x00000000 0x00000017 0x3f4 0x0000b0b1 0x0001f8f9;
  Padinfo "EIM_ADDR20" 0x0e4 0x00000000 0x00000017 0x3f8 0x0000b0b1 0x0001f8f9;
  Padinfo "EIM_ADDR19" 0x0e8 0x00000000 0x00000017 0x3fc 0x0000b0b1 0x0001f8f9;
  Padinfo "EIM_ADDR18" 0x0ec 0x00000000 0x00000017 0x400 0x0000b0b1 0x0001f8f9;
  Padinfo "EIM_ADDR17" 0x0f0 0x00000000 0x00000017 0x404 0x0000b0b1 0x0001f8f9;
  Padinfo "EIM_ADDR16" 0x0f4 0x00000000 0x00000017 0x408 0x0000b0b1 0x0001f8f9;
  Padinfo "EIM_CS0_B" 0x0f8 0x00000000 0x00000017 0x40c 0x0000b0b1 0x0001f8f9;
  Padinfo "EIM_CS1_B" 0x0fc 0x00000000 0x00000017 0x410 0x0000b0b1 0x0001f8f9;
  Padinfo "EIM_OE_B" 0x100 0x00000000 0x00000017 0x414 0x0000b0b1 0x0001f8f9;
  Padinfo "EIM_RW" 0x104 0x00000000 0x00000017 0x418 0x0000b0b1 0x0001f8f9;
  Padinfo "EIM_LBA_B" 0x108 0x00000000 0x00000017 0x41c 0x0000b0b1 0x0001f8f9;
  Padinfo "EIM_EB0_B" 0x10c 0x00000000 0x00000017 0x420 0x0000b0b1 0x0001f8f9;
  Padinfo "EIM_EB1_B" 0x110 0x00000000 0x00000017 0x424 0x0000b0b1 0x0001f8f9;
  Padinfo "EIM_AD00" 0x114 0x00000000 0x00000017 0x428 0x0000b0b1 0x0001f8f9;
  Padinfo "EIM_AD01" 0x118 0x00000000 0x00000017 0x42c 0x0000b0b1 0x0001f8f9;
  Padinfo "EIM_AD02" 0x11c 0x00000000 0x00000017 0x430 0x0000b0b1 0x0001f8f9;
  Padinfo "EIM_AD03" 0x120 0x00000000 0x00000017 0x434 0x0000b0b1 0x0001f8f9 ].
Definition imx6q_pads_4 : list padinfo := [
  Padinfo "EIM_AD04" 0x124 0x00000000 0x00000017 0x438 0x0000b0b1 0x0001f8f9;
  Padinfo "EIM_AD05" 0x128 0x00000000 0x00000017 0x43c 0x0000b0b1 0x0001f8f9;
  Padinfo "EIM_AD06" 0x12c 0x00000000 0x00000017 0x440 0x0000b0b1 0x0001f8f9;
  Padinfo "EIM_AD07" 0x130 0x00000000 0x00000017 0x444 0x0000b0b1 0x0001f8f9;
  Padinfo "EIM_AD08" 0x134 0x00000000 0x00000017 0x448 0x0000b0b1 0x0001f8f9;
  Padinfo "EIM_AD09" 0x138 0x00000000 0x00000017 0x44c 0x0000b0b1 0x0001f8f9;
  Padinfo "EIM_AD10" 0x13c 0x00000000 0x00000017 0x450 0x0000b0b1 0x0001f8f9;
  Padinfo "EIM_AD11" 0x140 0x00000000 0x00000017 0x454 0x0000b0b1 0x0001f8f9;
  Padinfo "EIM_AD12" 0x144 0x00000000 0x00000017 0x458 0x0000b0b1 0x0001f8f9;
  Padinfo "EIM_AD13" 0x148 0x00000000 0x00000017 0x45c 0x0000b0b1 0x0001f8f9;
  Padinfo "EIM_AD14" 0x14c 0x00000000 0x00000017 0x460 0x0000b0b1 0x0001f8f9;
  Padinfo "EIM_AD15" 0x150 0x00000000 0x00000017 0x464 0x0000b0b1 0x0001f8f9;
  Padinfo "EIM_WAIT_B" 0x154 0x00000000 0x00000017 0x468 0x0000b060 0x0001f8f9;
  Padinfo "EIM_BCLK" 0x158 0x00000000 0x00000017 0x46c 0x0000b0b1 0x0001f8f9;
  Padinfo "DI0_DISP_CLK" 0x15c 0x00000005 0x00000017 0x470 0x0001b0b0 0x0001f8f9;
  Padinfo "DI0_PIN15" 0x160 0x00000005 0x00000017 0x474 0x0001b0b0 0x0001f8f9;
  Padinfo "DI0_PIN02" 0x164 0x00000005 0x00000017 0x478 0x0001b0b0 0x0001f8f9;
  Padinfo "DI0_PIN03" 0x168 0x00000005 0x00000017 0x47c 0x0001b0b0 0x0001f8f9 ].
Definition imx6q_pads_5 : list padinfo := [
  Padinfo "DI0_PIN04" 0x16c 0x00000005 0x00000017 0x480 0x0001b0b0 0x0001f8f9;
  Padinfo "DISP0_DATA00" 0x170 0x00000005 0x00000017 0x484 0x0001b0b0 0x0001f8f9;
  Padinfo "DISP0_DATA01" 0x174 0x00000005 0x00000017 0x488 0x0001b0b0 0x0001f8f9;
  Padinfo "DISP0_DATA02" 0x178 0x00000005 0x00000017 0x48c 0x0001b0b0 0x0001f8f9;
  Padinfo "DISP0_DATA03" 0x17c 0x00000005 0x00000017 0x490 0x0001b0b0 0x0001f8f9;
  Padinfo "DISP0_DATA04" 0x180 0x00000005 0x00000017 0x494 0x0001b0b0 0x0001f8f9;
  Padinfo "DISP0_DATA05" 0x184 0x00000005 0x00000017 0x498 0x0001b0b0 0x0001f8f9;
  Padinfo "DISP0_DATA06" 0x188 0x00000005 0x00000017 0x49c 0x0001b0b0 0x0001f8f9;
  Padinfo "DISP0_DATA07" 0x18c 0x00000005 0x00000017 0x4a0 0x0001b0b0 0x0001f8f9;
  Padinfo "DISP0_DATA08" 0x190 0x00000005 0x00000017 0x4a4 0x0001b0b0 0x0001f8f9;
  Padinfo "DISP0_DATA09" 0x194 0x00000005 0x00000017 0x4a8 0x0001b0b0 0x0001f8f9;
  Padinfo "DISP0_DATA10" 0x198 0x00000005 0x00000017 0x4ac 0x0001b0b0 0x0001f8f9;
  Padinfo "DISP0_DATA11" 0x19c 0x00000005 0x00000017 0x4b0 0x0001b0b0 0x0001f8f9;
  Padinfo "DISP0_DATA12" 0x1a0 0x00000005 0x00000017 0x4b4 0x0001b0b0 0x0001f8f9;
  Padinfo "DISP0_DATA13" 0x1a4 0x00000005 0x00000017 0x4b8 0x0001b0b0 0x0001f8f9;
  Padinfo "DISP0_DATA14" 0x1a8 0x00000005 0x00000017 0x4bc 0x0001b0b0 0x0001f8f9;
  Padinfo "DISP0_DATA15" 0x1ac 0x00000005 0x00000017 0x4c0 0x0001b0b0 0x0001f8f9;
  Padinfo "DISP0_DATA16" 0x1b0 0x00000005 0x00000017 0x4c4 0x0001b0b0 0x0001f8f9 ].
Definition imx6q_pads_6 : list padinfo := [
  Padinfo "DISP0_DATA17" 0x1b4 0x00000005 0x00000017 0x4c8 0x0001b0b0 0x0001f8f9;
  Padinfo "DISP0_DATA18" 0x1b8 0x00000005 0x00000017 0x4cc 0x0001b0b0 0x0001f8f9;
  Padinfo "DISP0_DATA19" 0x1bc 0x00000005 0x00000017 0x4d0 0x0001b0b0 0x0001f8f9;
  Padinfo "DISP0_DATA20" 0x1c0 0x00000005 0x00000017 0x4d4 0x0001b0b0 0x0001f8f9;
  Padinfo "DISP0_DATA21" 0x1c4 0x00000005 0x00000017 0x4d8 0x0001b0b0 0x0001f8f9;
  Padinfo "DISP0_DATA22" 0x1c8 0x00000005 0x00000017 0x4dc 0x0001b0b0 0x0001f8f9;
  Padinfo "DISP0_DATA23" 0x1cc 0x00000005 0x00000017 0x4e0 0x0001b0b0 0x0001f8f9;
  Padinfo "ENET_MDIO" 0x1d0 0x00000005 0x00000017 0x4e4 0x0001b0b0 0x0001f8f9;
  Padinfo "ENET_REF_CLK" 0x1d4 0x00000005 0x00000017 0x4e8 0x0001b0b0 0x0001f8f9;
  Padinfo "ENET_RX_ER" 0x1d8 0x00000005 0x00000017 0x4ec 0x0001b0b0 0x0001f8f9;
  Padinfo "ENET_CRS_DV" 0x1dc 0x00000005 0x00000017 0x4f0 0x0001b0b0 0x0001f8f9;
  Padinfo "ENET_RX_DATA1" 0x1e0 0x00000005 0x00000017 0x4f4 0x0001b0b0 0x0001f8f9;
  Padinfo "ENET_RX_DATA0" 0x1e4 0x00000005 0x00000017 0x4f8 0x0001b0b0 0x0001f8f9;
  Padinfo "ENET_TX_EN" 0x1e8 0x00000005 0x00000017 0x4fc 0x0001b0b0 0x0001f8f9;
  Padinfo "ENET_TX_DATA1" 0x1ec 0x00000005 0x00000017 0x500 0x0001b0b0 0x0001f8f9;
  Padinfo "ENET_TX_DATA0" 0x1f0 0x00000005 0x00000017 0x504 0x0001b0b0 0x0001f8f9;
  Padinfo "ENET_MDC" 0x1f4 0x00000005 0x00000017 0x508 0x0001b0b0 0x0001f8f9;
  Padinfo "KEY_COL0" 0x1f8 0x00000005 0x00000017 0x5c8 0x0001b0b0 0x0001f8f9 ].
Definition imx6q_pads_7 : list padinfo := [
  Padinfo "KEY_ROW0" 0x1fc 0x00000005 0x00000017 0x5cc 0x0001b0b0 0x0001f8f9;
  Padinfo "KEY_COL1" 0x200 0x00000005 0x00000017 0x5d0 0x0001b0b0 0x0001f8f9;
  Padinfo "KEY_ROW1" 0x204 0x00000005 0x00000017 0x5d4 0x0001b0b0 0x0001f8f9;
  Padinfo "KEY_COL2" 0x208 0x00000005 0x00000017 0x5d8 0x0001b0b0 0x0001f8f9;
  Padinfo "KEY_ROW2" 0x20c 0x00000005 0x00000017 0x5dc 0x0001b0b0 0x0001f8f9;
  Padinfo "KEY_COL3" 0x210 0x00000005 0x00000017 0x5e0 0x0001b0b0 0x0001f8f9;
  Padinfo "KEY_ROW3" 0x214 0x00000005 0x00000017 0x5e4 0x0001b0b0 0x0001f8f9;
  Padinfo "KEY_COL4" 0x218 0x00000005 0x00000017 0x5e8 0x0001b0b0 0x0001f8f9;
  Padinfo "KEY_ROW4" 0x21c 0x00000005 0x00000017 0x5ec 0x0001b0b0 0x0001f8f9;
  Padinfo "GPIO00" 0x220 0x00000005 0x00000017 0x5f0 0x0001b0b0 0x0001f8f9;
  Padinfo "GPIO01" 0x224 0x00000005 0x00000017 0x5f4 0x0001b0b0 0x0001f8f9;
  Padinfo "GPIO09" 0x228 0x00000005 0x00000017 0x5f8 0x0001b0b0 0x0001f8f9;
  Padinfo "GPIO03" 0x22c 0x00000005 0x00000017 0x5fc 0x0001b0b0 0x0001f8f9;
  Padinfo "GPIO06" 0x230 0x00000005 0x00000017 0x600 0x0001b0b0 0x0001f8f9;
  Padinfo "GPIO02" 0x234 0x00000005 0x00000017 0x604 0x0001b0b0 0x0001f8f9;
  Padinfo "GPIO04" 0x238 0x00000005 0x00000017 0x608 0x0001b0b0 0x0001f8f9;
  Padinfo "GPIO05" 0x23c 0x00000005 0x00000017 0x60c 0x0001b0b0 0x0001f8f9;
  Padinfo "GPIO07" 0x240 0x00000005 0x00000017 0x610 0x0001b0b0 0x0001f8f9 ].
Definition imx6q_pads_8 : list padinfo := [
  Padinfo "GPIO08" 0x244 0x00000005 0x00000017 0x614 0x0001b0b0 0x0001f8f9;
  Padinfo "GPIO16" 0x248 0x00000005 0x00000017 0x618 0x0001b0b0 0x0001f8f9;
  Padinfo "GPIO17" 0x24c 0x00000005 0x00000017 0x61c 0x0001b0b0 0x0001f8f9;
  Padinfo "GPIO18" 0x250 0x00000005 0x00000017 0x620 0x0001b0b0 0x0001f8f9;
  Padinfo "GPIO19" 0x254 0x00000005 0x00000017 0x624 0x0001b0b0 0x0001f8f9;
  Padinfo "CSI0_PIXCLK" 0x258 0x00000005 0x00000017 0x628 0x0001b0b0 0x0001f8f9;
  Padinfo "CSI0_HSYNC" 0x25c 0x00000005 0x00000017 0x62c 0x0001b0b0 0x0001f8f9;
  Padinfo "CSI0_DATA_EN" 0x260 0x00000005 0x00000017 0x630 0x0001b0b0 0x0001f8f9;
  Padinfo "CSI0_VSYNC" 0x264 0x00000005 0x00000017 0x634 0x0001b0b0 0x0001f8f9;
  Padinfo "CSI0_DATA04" 0x268 0x00000005 0x00000017 0x638 0x0001b0b0 0x0001f8f9;
  Padinfo "CSI0_DATA05" 0x26c 0x00000005 0x00000017 0x63c 0x0001b0b0 0x0001f8f9;
  Padinfo "CSI0_DATA06" 0x270 0x00000005 0x00000017 0x640 0x0001b0b0 0x0001f8f9;
  Padinfo "CSI0_DATA07" 0x274 0x00000005 0x00000017 0x644 0x0001b0b0 0x0001f8f9;
  Padinfo "CSI0_DATA08" 0x278 0x00000005 0x00000017 0x648 0x0001b0b0 0x0001f8f9;
  Padinfo "CSI0_DATA9" 0x27c 0x00000005 0x00000017 0x64c 0x0001b0b0 0x0001f8f9;
  Padinfo "CSI0_DATA10" 0x280 0x00000005 0x00000017 0x650 0x0001b0b0 0x0001f8f9;
  Padinfo "CSI0_DATA11" 0x284 0x00000005 0x00000017 0x654 0x0001b0b0 0x0001f8f9;
  Padinfo "CSI0_DATA12" 0x288 0x00000005 0x00000017 0x658 0x0001b0b0 0x0001f8f9 ].
Definition imx6q_pads_9 : list padinfo := [
  Padinfo "CSI0_DATA13" 0x28c 0x00000005 0x00000017 0x65c 0x0001b0b0 0x0001f8f9;
  Padinfo "CSI0_DATA14" 0x290 0x00000005 0x00000017 0x660 0x0001b0b0 0x0001f8f9;
  Padinfo "CSI0_DATA15" 0x294 0x00000005 0x00000017 0x664 0x0001b0b0 0x0001f8f9;
  Padinfo "CSI0_DATA16" 0x298 0x00000005 0x00000017 0x668 0x0001b0b0 0x0001f8f9;
  Padinfo "CSI0_DATA17" 0x29c 0x00000005 0x00000017 0x66c 0x0001b0b0 0x0001f8f9;
  Padinfo "CSI0_DATA18" 0x2a0 0x00000005 0x00000017 0x670 0x0001b0b0 0x0001f8f9;
  Padinfo "CSI0_DATA19" 0x2a4 0x00000005 0x00000017 0x674 0x0001b0b0 0x0001f8f9;
  Padinfo "JTAG_TMS" 0 0 0 0x678 0x00007060 0x0001d000;
  Padinfo "SD3_DATA7" 0x2a8 0x00000005 0x00000017 0x690 0x0001b0b0 0x0001f8f9;
  Padinfo "SD3_DATA6" 0x2ac 0x00000005 0x00000017 0x694 0x0001b0b0 0x0001f8f9;
  Padinfo "SD3_DATA5" 0x2b0 0x00000005 0x00000017 0x698 0x0001b0b0 0x0001f8f9;
  Padinfo "SD3_DATA4" 0x2b4 0x00000005 0x00000017 0x69c 0x0001b0b0 0x0001f8f9;
  Padinfo "SD3_CMD" 0x2b8 0x00000005 0x00000017 0x6a0 0x0001b0b0 0x0001f8f9;
  Padinfo "SD3_CLK" 0x2bc 0x00000005 0x00000017 0x6a4 0x0001b0b0 0x0001f8f9;
  Padinfo "SD3_DATA0" 0x2c0 0x00000005 0x00000017 0x6a8 0x0001b0b0 0x0001f8f9;
  Padinfo "SD3_DATA1" 0x2c4 0x00000005 0x00000017 0x6ac 0x0001b0b0 0x0001f8f9;
  Padinfo "SD3_DATA2" 0x2c8 0x00000005 0x00000017 0x6b0 0x0001b0b0 0x0001f8f9;
  Padinfo "SD3_DATA3" 0x2cc 0x00000005 0x00000017 0x6b4 0x0001b0b0 0x0001f8f9 ].
Definition imx6q_pads_10 : list padinfo := [
  Padinfo "SD3_RESET" 0x2d0 0x00000005 0x00000017 0x6b8 0x0001b0b0 0x0001f8f9;
  Padinfo "NAND_CLE" 0x2d4 0x00000005 0x00000017 0x6bc 0x0001b0b0 0x0001f8f9;
  Padinfo "NAND_ALE" 0x2d8 0x00000005 0x00000017 0x6c0 0x0001b0b0 0x0001f8f9;
  Padinfo "NAND_WP_B" 0x2dc 0x00000005 0x00000017 0x6c4 0x0001b0b0 0x0001f8f9;
  Padinfo "NAND_READY_B" 0x2e0 0x00000005 0x00000017 0x6c8 0x0001b0b0 0x0001f8f9;
  Padinfo "NAND_CS0_B" 0x2e4 0x00000005 0x00000017 0x6cc 0x0001b0b0 0x0001f8f9;
  Padinfo "NAND_CS1_B" 0x2e8 0x00000005 0x00000017 0x6d0 0x0001b0b0 0x0001f8f9;
  Padinfo "NAND_CS2_B" 0x2ec 0x00000005 0x00000017 0x6d4 0x0001b0b0 0x0001f8f9;
  Padinfo "NAND_CS3_B" 0x2f0 0x00000005 0x00000017 0x6d8 0x0001b0b0 0x0001f8f9;
  Padinfo "SD4_CMD" 0x2f4 0x00000005 0x00000017 0x6dc 0x0001b0b0 0x0001f8f9;
  Padinfo "SD4_CLK" 0x2f8 0x00000005 0x00000017 0x6e0 0x0001b0b0 0x0001f8f9;
  Padinfo "NAND_DATA00" 0x2fc 0x00000005 0x00000017 0x6e4 0x0001b0b0 0x0001f8f9;
  Padinfo "NAND_DATA01" 0x300 0x00000005 0x00000017 0x6e8 0x0001b0b0 0x0001f8f9;
  Padinfo "NAND_DATA02" 0x304 0x00000005 0x00000017 0x6ec 0x0001b0b0 0x0001f8f9;
  Padinfo "NAND_DATA03" 0x308 0x00000005 0x00000017 0x6f0 0x0001b0b0 0x0001f8f9;
  Padinfo "NAND_DATA04" 0x30c 0x00000005 0x00000017 0x6f4 0x0001b0b0 0x0001f8f9;
  Padinfo "NAND_DATA05" 0x310 0x00000005 0x00000017 0x6f8 0x0001b0b0 0x0001f8f9;
  Padinfo "NAND_DATA06" 0x314 0x00000005 0x00000017 0x6fc 0x0001b0b0 0x0001f8f9 ].
Definition imx6q_pads_11 : list padinfo := [
  Padinfo "NAND_DATA07" 0x318 0x00000005 0x00000017 0x700 0x0001b0b0 0x0001f8f9;
  Padinfo "SD4_DATA0" 0x31c 0x00000005 0x00000017 0x704 0x0001b0b0 0x0001f8f9;
  Padinfo "SD4_DATA1" 0x320 0x00000005 0x00000017 0x708 0x0001b0b0 0x0001f8f9;
  Padinfo "SD4_DATA2" 0x324 0x00000005 0x00000017 0x70c 0x0001b0b0 0x0001f8f9;
  Padinfo "SD4_DATA3" 0x328 0x00000005 0x00000017 0x710 0x0001b0b0 0x0001f8f9;
  Padinfo "SD4_DATA4" 0x32c 0x00000005 0x00000017 0x714 0x0001b0b0 0x0001f8f9;
  Padinfo "SD4_DATA5" 0x330 0x00000005 0x00000017 0x718 0x0001b0b0 0x0001f8f9;
  Padinfo "SD4_DATA6" 0x334 0x00000005 0x00000017 0x71c 0x0001b0b0 0x0001f8f9;
  Padinfo "SD4_DATA7" 0x338 0x00000005 0x00000017 0x720 0x0001b0b0 0x0001f8f9;
  Padinfo "SD1_DATA1" 0x33c 0x00000005 0x00000017 0x724 0x0001b0b0 0x0001f8f9;
  Padinfo "SD1_DATA0" 0x340 0x00000005 0x00000017 0x728 0x0001b0b0 0x0001f8f9;
  Padinfo "SD1_DATA3" 0x344 0x00000005 0x00000017 0x72c 0x0001b0b0 0x0001f8f9;
  Padinfo "SD1_CMD" 0x348 0x00000005 0x00000017 0x730 0x0001b0b0 0x0001f8f9;
  Padinfo "SD1_DATA2" 0x34c 0x00000005 0x00000017 0x734 0x0001b0b0 0x0001f8f9;
  Padinfo "SD1_CLK" 0x350 0x00000005 0x00000017 0x738 0x0001b0b0 0x0001f8f9;
  Padinfo "SD2_CLK" 0x354 0x00000005 0x00000017 0x73c 0x0001b0b0 0x0001f8f9;
  Padinfo "SD2_CMD" 0x358 0x00000005 0x00000017 0x740 0x0001b0b0 0x0001f8f9;
  Padinfo "SD2_DATA3" 0x35c 0x00000005 0x00000017 0x744 0x0001b0b0 0x0001f8f9 ].
Definition imx6q_iomux_padinfo : list padinfo :=
  imx6q_pads_1 ++ imx6q_pads_2 ++ imx6q_pads_3 ++ imx6q_pads_4 ++ imx6q_pads_5 ++ imx6q_pads_6 ++ imx6q_pads_7 ++ imx6q_pads_8 ++ imx6q_pads_9 ++ imx6q_pads_10 ++ imx6q_pads_11.
