(* ===== verification/Fdt.v ===== *)
(** * Flattened device trees (src/fdt.c, src/dt/fdt.h)

    [of_unflatten_dtb] parses a blob into a tree, [of_flatten_dtb] writes a tree
    into a blob, and the reserve map is filled in behind the header. A blob is the
    memory object the pointer leads into: an access outside it is [Undef], whatever
    the sizes in the header say. Memory that [realloc] adds holds arbitrary bytes.
    Running out of memory, which ends the program, is left out. *)

From S2P Require Import Prelude Dt.

(** ** The format *)

Definition FDT_MAGIC : Z := 0xd00dfeed.
Definition FDT_TAGSIZE : Z := 4.
Definition FDT_BEGIN_NODE : Z := 1.
Definition FDT_END_NODE : Z := 2.
Definition FDT_PROP : Z := 3.
Definition FDT_NOP : Z := 4.
Definition FDT_END : Z := 9.

(** [struct fdt_header], in host order. *)
Record fdt_header : Type := FdtHeader {
  h_magic : Z; h_totalsize : Z; h_off_dt_struct : Z; h_off_dt_strings : Z; h_off_mem_rsvmap : Z;
  h_version : Z; h_last_comp_version : Z; h_boot_cpuid_phys : Z; h_size_dt_strings : Z; h_size_dt_struct : Z }.
Definition sizeof_header : Z := 40.

(** Loads of a big-endian word and of a C string. *)
Definition load32 (m : bytes) (ofs : Z) : outcome Z :=
  if Z.of_nat (length m) <? ofs + 4 then Undef else Ok (get_be (sub (Z.to_nat ofs) 4 m)).
Definition string_at (m : bytes) (ofs : Z) : outcome bytes :=
  if Z.of_nat (length m) <? ofs then Undef else of_option (until_nul (drop (Z.to_nat ofs) m)).
(** [strnlen] of the string at [ofs], looking at [n] bytes at most. *)
Definition strnlen_at (m : bytes) (ofs n : Z) : outcome Z :=
  if Z.of_nat (length m) <? ofs then (if n =? 0 then Ok 0 else Undef) else
  let rest := drop (Z.to_nat ofs) m in
  let k := Z.of_nat (strnlen rest) in
  if n <=? k then Ok n else if k =? Z.of_nat (length rest) then Undef else Ok k.
Definition bytes_at (m : bytes) (ofs len : Z) : outcome bytes :=
  if Z.of_nat (length m) <? ofs + len then Undef else Ok (sub (Z.to_nat ofs) (Z.to_nat len) m).

(** [ALIGN(x, 4)] of a [uint32_t]. *)
Definition ALIGN4 (x : Z) : Z := Z.ldiff (x +32 3) 3.

(** ** Unflattening *)

Definition dt_struct_advance (f : fdt_header) (dt size : Z) : Z :=
  let dt := dt +32 size in
  let dt := ALIGN4 dt in
  if h_off_dt_struct f +32 h_size_dt_struct f <? dt then 0 else dt.

(** [dt_string] gives the offset of the string in the blob. *)
Definition dt_string (f : fdt_header) (strstart ofs : Z) : option Z :=
  if h_size_dt_strings f <? ofs then None else Some (strstart + ofs).

(** The variable [node] of [of_unflatten_dtb] in the tree that grows: NULL, before
    the root's node begins and after it ended, or a node with its ancestors,
    innermost first. The open children are not yet in the lists of their parents,
    which they end. *)
Inductive cursor : Type :=
| AtNull (root : device_node)
| At (node : device_node) (parents : list device_node).

Definition begin_node (c : cursor) (pathp : bytes) : cursor :=
  match c with
  | AtNull root => At root []
  | At node parents => At (of_new_node (Some node) pathp) (node :: parents)
  end.

(** [node = node->parent]. *)
Definition end_node (c : cursor) : option cursor :=
  match c with
  | AtNull _ => None
  | At node [] => Some (AtNull node)
  | At node (parent :: parents) => Some (At (add_child node parent) parents)
  end.

Fixpoint close_nodes (node : device_node) (parents : list device_node) : device_node :=
  match parents with [] => node | p :: parents' => close_nodes (add_child node p) parents' end.
Definition cursor_root (c : cursor) : device_node :=
  match c with AtNull root => root | At node parents => close_nodes node parents end.

Definition set_phandle (h : Z) (np : device_node) : device_node :=
  DeviceNode (dn_name np) (dn_full_name np) h (dn_properties np) (dn_children np).

(** A property with the [phandle] it may carry. *)
Definition new_property (node : device_node) (name data : bytes) : device_node :=
  let node := of_new_property node name data in
  if bool_decide (name = cstr "phandle") && (length data =? 4)%nat then set_phandle (get_be data) node else node.

(** One round of the loop: the tree, or the next offset and cursor. *)
Definition unflatten_step (infdt : bytes) (f : fdt_header) (dt : Z) (c : cursor)
  : outcome (device_node + Z * cursor) :=
  tag ← load32 infdt dt;
  if tag =? FDT_BEGIN_NODE then
    let name := dt + 4 in
    let maxlen := u32 (h_off_dt_struct f + h_size_dt_struct f - name) in
    len ← strnlen_at infdt name (maxlen +32 1);
    if maxlen <? len then Err (- ESPIPE) else
    c' ← (match c with
          | AtNull _ => Ok (begin_node c [])
          | At _ _ => pathp ← string_at infdt name; Ok (begin_node c pathp)
          end);
    Ok (inr (dt_struct_advance f dt (4 + len + 1), c'))
  else if tag =? FDT_END_NODE then
    match end_node c with
    | None => Err (- EINVAL)
    | Some c' => Ok (inr (dt_struct_advance f dt FDT_TAGSIZE, c'))
    end
  else if tag =? FDT_PROP then
    len ← load32 infdt (dt + 4);
    nameoff ← load32 infdt (dt + 8);
    match dt_string f (h_off_dt_strings f) nameoff with
    | None => Err (- ESPIPE)
    | Some ofs =>
        name ← string_at infdt ofs;
        (* xzalloc ends the program when the length is negative *)
        if 2 ^ 31 <=? len then Undef else
        data ← bytes_at infdt (dt + 12) len;
        match c with
        | AtNull _ => Undef
        | At node parents => Ok (inr (dt_struct_advance f dt (12 + len), At (new_property node name data) parents))
        end
    end
  else if tag =? FDT_NOP then Ok (inr (dt_struct_advance f dt FDT_TAGSIZE, c))
  else if tag =? FDT_END then Ok (inl (cursor_root c))
  else Err (- EINVAL).

(** [None] is a loop that has not ended after [fuel] rounds. *)
Fixpoint unflatten_loop (fuel : nat) (infdt : bytes) (f : fdt_header) (dt : Z) (c : cursor)
  : option (outcome device_node) :=
  match fuel with
  | O => None
  | S fuel' =>
      match unflatten_step infdt f dt c with
      | Ok (inl root) => Some (Ok root)
      | Ok (inr (dt', c')) => if dt' =? 0 then Some (Err (- ESPIPE)) else unflatten_loop fuel' infdt f dt' c'
      | Err e => Some (Err e)
      | Undef => Some Undef
      end
  end.

(** The fields of the local header [f]; the others stay uninitialised. *)
Definition read_header (infdt : bytes) : outcome fdt_header :=
  totalsize ← load32 infdt 4;
  off_dt_struct ← load32 infdt 8;
  size_dt_struct ← load32 infdt 36;
  off_dt_strings ← load32 infdt 12;
  size_dt_strings ← load32 infdt 32;
  Ok (FdtHeader 0 totalsize off_dt_struct off_dt_strings 0 0 0 0 size_dt_strings size_dt_struct).

(** A blob of [n] bytes needs at most [n + 1] rounds ([unflatten_terminates]). *)
Definition of_unflatten_dtb (infdt : bytes) : outcome device_node :=
  magic ← load32 infdt 0;
  if negb (magic =? FDT_MAGIC) then Err (- EINVAL) else
  version ← load32 infdt 20;
  if negb (version =? 17) then Err (- EINVAL) else
  f ← read_header infdt;
  if h_totalsize f <? h_off_dt_struct f +32 h_size_dt_struct f then Err (- ESPIPE) else
  if h_totalsize f <? h_off_dt_strings f +32 h_size_dt_strings f then Err (- ESPIPE) else
  default Undef (unflatten_loop (S (length infdt)) infdt f (h_off_dt_struct f) (AtNull (of_new_node None []))).

(** ** Flattening *)

Definition BUFSIZE : nat := 65536.
Definition OF_MAX_RESERVE_MAP : Z := 16.

(** [struct fdt]; [dt_size] and [str_size] are the lengths of the blocks. *)
Record fdt : Type := Fdt { f_dt : bytes; dt_nextofs : Z; f_strings : bytes; str_nextofs : Z }.
Definition dt_size (f : fdt) : Z := Z.of_nat (length (f_dt f)).
Definition str_size (f : fdt) : Z := Z.of_nat (length (f_strings f)).

Definition store (m : bytes) (ofs : Z) (data : bytes) : outcome bytes :=
  if Z.of_nat (length m) <? ofs + Z.of_nat (length data) then Undef
  else Ok (splice (Z.to_nat ofs) data m).

Definition dt_next_ofs (curofs len : Z) : Z := ALIGN4 (curofs +32 len).

(** No NUL is stored; a longer string is cut after 1024 bytes. *)
Definition lstrcpy (m : bytes) (dest : Z) (src : bytes) : outcome (Z * bytes) :=
  m' ← store m dest (take 1024 src);
  Ok (if (1024 <=? length src)%nat then - ENOSPC else Z.of_nat (length src), m').

Section Flatten.
(** What [realloc] finds behind the old bytes. *)
Context (garbage : nat -> Byte.byte).

Definition realloc (m : bytes) (n : nat) : bytes := m ++ (garbage <$> seq (length m) (n - length m)).

Definition fdt_ensure_space (f : fdt) (dtsize : Z) : fdt :=
  let f := if str_size f -32 str_nextofs f <? 1024
           then Fdt (f_dt f) (dt_nextofs f) (realloc (f_strings f) (length (f_strings f) * 2)) (str_nextofs f) else f in
  if dt_size f -32 dt_nextofs f <? 1024 +32 dtsize
  then Fdt (realloc (f_dt f) (length (f_dt f) * 2)) (dt_nextofs f) (f_strings f) (str_nextofs f) else f.

Definition dt_add_string (f : fdt) (str : bytes) : outcome (Z * fdt) :=
  let f := fdt_ensure_space f 0 in
  '(len, strings) ← lstrcpy (f_strings f) (str_nextofs f) str;
  if len <? 0 then Ok (- ENOSPC, Fdt (f_dt f) (dt_nextofs f) strings (str_nextofs f))
  else Ok (s32 (str_nextofs f), Fdt (f_dt f) (dt_nextofs f) strings (str_nextofs f +32 (len + 1))).

Definition set_dt (dt : bytes) (f : fdt) : fdt := Fdt dt (dt_nextofs f) (f_strings f) (str_nextofs f).
Definition advance (len : Z) (f : fdt) : fdt :=
  Fdt (f_dt f) (dt_next_ofs (dt_nextofs f) len) (f_strings f) (str_nextofs f).

(** The body of the loop over the properties. Adding the name can move the block
    that [fp] points into. *)
Definition flatten_property (p : property) (f : fdt) : outcome fdt :=
  let f := fdt_ensure_space f (prop_length p) in
  let fp := dt_nextofs f in
  dt ← store (f_dt f) fp (be32 FDT_PROP ++ be32 (prop_length p));
  '(nameoff, f') ← dt_add_string (set_dt dt f) (pr_name p);
  if negb (length (f_dt f') =? length dt)%nat then Undef else
  dt ← store (f_dt f') (fp + 8) (be32 nameoff);
  dt ← store dt (fp + 12) (default [] (pr_value p));
  Ok (advance (12 + prop_length p) (set_dt dt f')).

(** A loop over a list that stops at the first failure. *)
Definition each {A S : Type} (step : A -> S -> outcome S) : list A -> S -> outcome S :=
  fix go l s := match l with [] => Ok s | a :: l' => s' ← step a s; go l' s' end.

(** The length of a name that is too long is not checked. *)
Fixpoint __of_flatten_dtb (node : device_node) (f : fdt) : outcome fdt :=
  let f := fdt_ensure_space f 0 in
  let nh := dt_nextofs f in
  dt ← store (f_dt f) nh (be32 FDT_BEGIN_NODE);
  '(len, dt) ← lstrcpy dt (nh + 4) (dn_name node);
  let f := advance (4 + len + 1) (set_dt dt f) in
  f ← each flatten_property (dn_properties node) f;
  f ← (match node with DeviceNode _ _ _ _ children => each __of_flatten_dtb children f end);
  dt ← store (f_dt f) (dt_nextofs f) (be32 FDT_END_NODE);
  Ok (fdt_ensure_space (advance 4 (set_dt dt f)) 0).

Definition put_header (h : fdt_header) : bytes :=
  be32 (h_magic h) ++ be32 (h_totalsize h) ++ be32 (h_off_dt_struct h) ++ be32 (h_off_dt_strings h) ++
  be32 (h_off_mem_rsvmap h) ++ be32 (h_version h) ++ be32 (h_last_comp_version h) ++
  be32 (h_boot_cpuid_phys h) ++ be32 (h_size_dt_strings h) ++ be32 (h_size_dt_struct h).

(** The whole block; [totalsize] of its header is the part in use. *)
Definition of_flatten_dtb (node : device_node) : outcome bytes :=
  let off_mem_rsvmap := sizeof_header in
  let ofs := off_mem_rsvmap + 16 * OF_MAX_RESERVE_MAP in
  f ← __of_flatten_dtb node (Fdt (zeros BUFSIZE) ofs (zeros BUFSIZE) 0);
  dt ← store (f_dt f) (dt_nextofs f) (be32 FDT_END);
  let f := advance 4 (set_dt dt f) in
  let header := FdtHeader FDT_MAGIC (dt_nextofs f +32 str_nextofs f) ofs (dt_nextofs f) off_mem_rsvmap
                  0x11 0x10 0 (str_nextofs f) (dt_nextofs f -32 ofs) in
  let dt := if dt_size f -32 dt_nextofs f <? str_nextofs f
            then realloc (f_dt f) (Z.to_nat (dt_nextofs f +32 str_nextofs f)) else f_dt f in
  dt ← store dt (dt_nextofs f) (take (Z.to_nat (str_nextofs f)) (f_strings f));
  store dt 0 (put_header header).
End Flatten.

(** ** The reserve map *)

Definition OF_MAX_FREE_RESERVE_MAP : Z := OF_MAX_RESERVE_MAP - 2.

(** [struct of_reserve_map]: the start and the end of each entry. *)
Abbreviation of_reserve_map := (list (Z * Z)).

Definition of_add_reserve_entry (start end_ : Z) (res : of_reserve_map) : Z * of_reserve_map :=
  if OF_MAX_FREE_RESERVE_MAP <=? Z.of_nat (length res) then (- ENOSPC, res) else (0, res ++ [(start, end_)]).

Definition of_clean_reserve_map (res : of_reserve_map) : of_reserve_map := [].

Definition reserve_entry (address size : Z) : bytes := of_write_number address ++ of_write_number size.

(** [__fdt] is the address of the blob. *)
Definition fdt_add_reserve_map (res : of_reserve_map) (__fdt : Z) (fdt : bytes) : outcome bytes :=
  off ← load32 fdt 16;
  totalsize ← load32 fdt 4;
  store fdt off
    (mjoin ((fun e => reserve_entry (fst e) (u64 (snd e - fst e + 1))) <$> res)
     ++ reserve_entry __fdt totalsize ++ reserve_entry 0 0).
