(* ===== verification/FdtLaws.v ===== *)
(** * Laws of flattened device trees

    An encoding of trees as pure functions ([enc_node] for the structure block,
    [strs_node] for the strings), that [of_flatten_dtb] writes it into its buffers
    as long as they are not moved, and that the parser reads a tree back from any
    blob that holds it. *)

From S2P Require Import Prelude Dt Fdt.

(** ** The encoding *)

Definition zlen (l : bytes) : Z := Z.of_nat (length l).

(** Padding to a multiple of four bytes. *)
Definition padding (n : Z) : nat := Z.to_nat ((- n) mod 4).
Definition pad4 (l : bytes) : bytes := l ++ zeros (padding (zlen l)).

Definition enc_prop (so : Z) (p : property) : bytes :=
  pad4 (be32 FDT_PROP ++ be32 (prop_length p) ++ be32 so ++ default [] (pr_value p)).
Definition name_size (p : property) : Z := zlen (pr_name p) + 1.
Fixpoint enc_props (so : Z) (ps : list property) : bytes :=
  match ps with [] => [] | p :: ps' => enc_prop so p ++ enc_props (so + name_size p) ps' end.
Definition strs_props (ps : list property) : bytes := string_list (pr_name <$> ps).

Fixpoint strs_node (n : device_node) : bytes :=
  match n with DeviceNode _ _ _ ps cs => strs_props ps ++ mjoin (map strs_node cs) end.
Definition strs_nodes (cs : list device_node) : bytes := mjoin (map strs_node cs).

Definition enc_list {A} (enc : Z -> A -> bytes) (size : A -> Z) : Z -> list A -> bytes :=
  fix go so l := match l with [] => [] | a :: l' => enc so a ++ go (so + size a) l' end.
Fixpoint enc_node (so : Z) (n : device_node) : bytes :=
  match n with
  | DeviceNode nm _ _ ps cs =>
      pad4 (be32 FDT_BEGIN_NODE ++ nm ++ [0u8]) ++ enc_props so ps
      ++ enc_list enc_node (fun c => zlen (strs_node c)) (so + zlen (strs_props ps)) cs
      ++ be32 FDT_END_NODE
  end.
Definition enc_nodes : Z -> list device_node -> bytes := enc_list enc_node (fun c => zlen (strs_node c)).

(** The trees that the functions of libdt.c make: full names are paths, a phandle
    is the one in the properties, names are C strings short enough to copy. *)
Definition short_name (s : bytes) : bool := bool_decide (cstring s) && (length s <=? 1023)%nat.
Definition prop_ok (p : property) : bool := short_name (pr_name p) && bool_decide (is_Some (pr_value p)).
Definition add_prop (np : device_node) (p : property) : device_node :=
  new_property np (pr_name p) (default [] (pr_value p)).
Definition phandle_of (ps : list property) : Z := dn_phandle (fold_left add_prop ps (of_new_node None [])).
Fixpoint dt_ok (full : bytes) (n : device_node) : bool :=
  match n with
  | DeviceNode nm fn ph ps cs =>
      bool_decide (fn = full) && short_name nm && (ph =? phandle_of ps) && forallb prop_ok ps
      && forallb (fun c => dt_ok (full ++ cstr "/" ++ dn_name c) c) cs
  end.
Definition root_ok (n : device_node) : bool := bool_decide (dn_name n = []) && dt_ok [] n.

(** ** Alignment *)

Lemma BUFSIZE_Z : Z.of_nat BUFSIZE = 65536.
Proof. reflexivity. Qed.
#[local] Opaque BUFSIZE.

Lemma ALIGN4_spec x : 0 <= x < 2 ^ 32 - 3 -> ALIGN4 x = x + (- x) mod 4.
Proof.
  intros Hx. unfold ALIGN4. rewrite u32_small by lia. change 3 with (Z.ones 2) at 2.
  rewrite Z.ldiff_ones_r, Z.shiftl_mul_pow2, Z.shiftr_div_pow2 by lia. dlia.
Qed.

Lemma zlen_app a b : zlen (a ++ b) = zlen a + zlen b.
Proof. unfold zlen. rewrite length_app. lia. Qed.
Lemma zlen_nonneg a : 0 <= zlen a.
Proof. unfold zlen. lia. Qed.
Lemma zlen_be32 v : zlen (be32 v) = 4.
Proof. unfold zlen. by rewrite length_be32. Qed.
Lemma zlen_zeros n : zlen (zeros n) = Z.of_nat n.
Proof. unfold zlen. by rewrite length_zeros. Qed.
Lemma zlen_padding n : Z.of_nat (padding n) = (- n) mod 4.
Proof. unfold padding. pose proof (Z.mod_pos_bound (- n) 4). lia. Qed.
Lemma zlen_pad4 l : zlen (pad4 l) = zlen l + (- zlen l) mod 4.
Proof. unfold pad4. by rewrite zlen_app, zlen_zeros, zlen_padding. Qed.
Lemma pad4_aligned l : zlen (pad4 l) mod 4 = 0.
Proof. rewrite zlen_pad4. dlia. Qed.
Lemma pad4_bounds l : zlen l <= zlen (pad4 l) < zlen l + 4.
Proof. rewrite zlen_pad4. dlia. Qed.
Lemma zlen_cons b l : zlen (b :: l) = 1 + zlen l.
Proof. unfold zlen. simpl length. lia. Qed.
Lemma zlen_nil : zlen [] = 0.
Proof. done. Qed.
#[export] Hint Rewrite zlen_app zlen_be32 zlen_zeros zlen_cons zlen_nil : zlen.
#[export] Hint Rewrite Z2Nat.id using lia : zlen.
(** Arithmetic on the lengths of the encodings. *)
Ltac zl := autorewrite with zlen in *; try lia.

Lemma zeros_split n m : (m <= n)%nat -> zeros n = zeros m ++ zeros (n - m).
Proof. intros. unfold zeros. rewrite <-replicate_add. f_equal. lia. Qed.

Lemma enc_prop_aligned so p : zlen (enc_prop so p) mod 4 = 0.
Proof. apply pad4_aligned. Qed.

Lemma aligned_app a b : zlen a mod 4 = 0 -> zlen b mod 4 = 0 -> zlen (a ++ b) mod 4 = 0.
Proof. intros. rewrite zlen_app. dlia. Qed.

Lemma enc_props_aligned ps : forall so, zlen (enc_props so ps) mod 4 = 0.
Proof. induction ps as [|p ps IH]; intros so; [done|]. apply aligned_app; [apply enc_prop_aligned|apply IH]. Qed.

Lemma enc_node_aligned n : forall so, zlen (enc_node so n) mod 4 = 0.
Proof.
  induction n as [nm fn ph ps cs IH] using device_node_ind. intros so. cbn [enc_node].
  apply aligned_app; [apply pad4_aligned|]. apply aligned_app; [apply enc_props_aligned|].
  apply aligned_app; [|by rewrite zlen_be32]. generalize (so + zlen (strs_props ps)) as s.
  induction IH as [|c cs Hc _ IHcs]; intros s; [done|]. apply aligned_app; [apply Hc|apply IHcs].
Qed.

Lemma strs_props_cons p ps : strs_props (p :: ps) = (pr_name p ++ [0u8]) ++ strs_props ps.
Proof. done. Qed.
Lemma strs_nodes_cons c cs : strs_nodes (c :: cs) = strs_node c ++ strs_nodes cs.
Proof. done. Qed.
Lemma enc_nodes_cons so c cs : enc_nodes so (c :: cs) = enc_node so c ++ enc_nodes (so + zlen (strs_node c)) cs.
Proof. done. Qed.

Lemma enc_nodes_aligned cs : forall so, zlen (enc_nodes so cs) mod 4 = 0.
Proof.
  induction cs as [|c cs IH]; intros so; [done|]. rewrite enc_nodes_cons.
  apply aligned_app; [apply enc_node_aligned|apply IH].
Qed.

(** The room an encoding needs behind what is in use. *)
Lemma enc_prop_length so p : 12 + prop_length p <= zlen (enc_prop so p).
Proof.
  unfold enc_prop. pose proof (pad4_bounds (be32 FDT_PROP ++ be32 (prop_length p) ++ be32 so ++ default [] (pr_value p))) as H.
  rewrite !zlen_app, !zlen_be32 in H. unfold prop_length, zlen in *. lia.
Qed.
(** ** Writing the encoding *)

Section Write.
Context (garbage : nat -> Byte.byte) (B : nat) (BUFSIZE_is : Z.of_nat B = 65536).

(** The buffers with [pre] and [spre] in use. *)
Definition buf (pre spre : bytes) : fdt :=
  Fdt (pre ++ zeros (B - length pre)) (zlen pre) (spre ++ zeros (B - length spre)) (zlen spre).

Definition roomy (n : Z) : Prop := n + 1024 <= Z.of_nat B.

Lemma buf_sizes pre spre : roomy (zlen pre) -> roomy (zlen spre) ->
  dt_size (buf pre spre) = Z.of_nat B /\ str_size (buf pre spre) = Z.of_nat B.
Proof.
  unfold roomy, zlen, dt_size, str_size. intros. pose proof BUFSIZE_is.
  cbn [buf f_dt f_strings]. rewrite !length_app, !length_zeros. lia.
Qed.

Lemma ensure_fits f n : dt_size f = Z.of_nat B -> str_size f = Z.of_nat B ->
  0 <= n -> 0 <= dt_nextofs f -> roomy (dt_nextofs f + n) -> 0 <= str_nextofs f -> roomy (str_nextofs f) ->
  fdt_ensure_space garbage f n = f.
Proof.
  unfold roomy. intros Hd Hs Hn Ho Hp Hos Hr. pose proof BUFSIZE_is as HB.
  unfold fdt_ensure_space. rewrite Hs, (u32_small (Z.of_nat B - str_nextofs f)) by lia. destruct (Z.ltb_spec (Z.of_nat B - str_nextofs f) 1024); [lia|].
  rewrite Hd, !u32_small by lia. destruct (Z.ltb_spec (Z.of_nat B - dt_nextofs f) (1024 + n)); [lia|done].
Qed.

Lemma ensure_buf pre spre n : 0 <= n -> roomy (zlen pre + n) -> roomy (zlen spre) ->
  fdt_ensure_space garbage (buf pre spre) n = buf pre spre.
Proof.
  intros Hn Hp Hs. pose proof (zlen_nonneg pre). pose proof (zlen_nonneg spre).
  destruct (buf_sizes pre spre); [unfold roomy in *; lia|done|]. by apply ensure_fits.
Qed.

Lemma store_end a k ofs d : ofs = zlen a -> (length d <= k)%nat ->
  store (a ++ zeros k) ofs d = Ok ((a ++ d) ++ zeros (k - length d)).
Proof.
  intros -> Hk. unfold store. rewrite length_app, length_zeros. unfold zlen.
  destruct (Z.ltb_spec (Z.of_nat (length a + k)) (Z.of_nat (length a) + Z.of_nat (length d))); [lia|].
  rewrite Nat2Z.id. unfold splice. rewrite take_app_length, drop_app_ge by lia.
  replace (length a + length d - length a)%nat with (length d) by lia.
  unfold zeros. rewrite drop_replicate. by rewrite app_assoc.
Qed.

(** [lstrcpy] of a short string into zeroed memory leaves it terminated. *)
Lemma lstrcpy_end a k ofs s : ofs = zlen a -> short_name s = true -> (length s + 1 <= k)%nat ->
  lstrcpy (a ++ zeros k) ofs s = Ok (zlen s, (a ++ s ++ [0u8]) ++ zeros (k - (length s + 1))).
Proof.
  intros -> Hs Hk. unfold short_name in Hs. apply andb_true_iff in Hs as [_ Hs%Nat.leb_le].
  unfold lstrcpy. rewrite take_ge by lia. rewrite store_end by (done || lia). cbn [mbind outcome_bind].
  destruct (Nat.leb_spec 1024 (length s)); [lia|]. do 2 f_equal.
  rewrite (zeros_split (k - length s) 1) by lia. cbn [zeros replicate].
  rewrite <-!app_assoc. cbn [app]. do 4 f_equal. lia.
Qed.

Lemma advance_buf pre d k S so n : zlen pre mod 4 = 0 -> zlen pre + zlen d + 4 <= Z.of_nat B ->
  n = zlen d -> k = (B - length (pre ++ d))%nat ->
  advance n (Fdt ((pre ++ d) ++ zeros k) (zlen pre) S so)
  = Fdt ((pre ++ pad4 d) ++ zeros (B - length (pre ++ pad4 d))) (zlen (pre ++ pad4 d)) S so.
Proof.
  intros Ha Hb -> ->. pose proof (zlen_nonneg pre). pose proof (zlen_nonneg d). pose proof BUFSIZE_is.
  pose proof (pad4_bounds d). unfold advance, dt_next_ofs. cbn [f_dt dt_nextofs f_strings str_nextofs].
  rewrite u32_small by lia. rewrite ALIGN4_spec by lia. f_equal.
  - unfold pad4. rewrite (zeros_split (B - length (pre ++ d)) (padding (zlen d))).
    + rewrite !length_app, length_zeros. rewrite <-!app_assoc. do 4 f_equal. lia.
    + pose proof (zlen_padding (zlen d)). pose proof (Z.mod_pos_bound (- zlen d) 4). unfold zlen in *. len.
  - rewrite zlen_app, zlen_pad4. dlia.
Qed.

Lemma dt_add_string_spec dt ofs spre s : short_name s = true -> length dt = B ->
  0 <= ofs -> roomy ofs -> roomy (zlen spre + (zlen s + 1)) ->
  dt_add_string garbage (Fdt dt ofs (spre ++ zeros (B - length spre)) (zlen spre)) s
  = Ok (zlen spre, Fdt dt ofs ((spre ++ s ++ [0u8]) ++ zeros (B - length (spre ++ s ++ [0u8])))
                     (zlen (spre ++ s ++ [0u8]))).
Proof.
  intros Hs Hdt Ho Hro Hr. pose proof (zlen_nonneg spre). pose proof (zlen_nonneg s). pose proof BUFSIZE_is.
  unfold roomy in Hr, Hro. unfold dt_add_string. rewrite ensure_fits.
  2:{ unfold dt_size. cbn [f_dt]. by rewrite Hdt. }
  2:{ unfold str_size. cbn [f_strings]. rewrite length_app, length_zeros. unfold zlen in *. lia. }
  2-6: cbn [dt_nextofs str_nextofs]; unfold roomy; lia.
  cbn [f_dt dt_nextofs f_strings str_nextofs].
  rewrite (lstrcpy_end spre) by first [exact eq_refl | assumption | unfold zlen in *; lia]. cbn [mbind outcome_bind].
  destruct (Z.ltb_spec (zlen s) 0); [lia|]. unfold s32. rewrite Z.mod_small by lia. rewrite u32_small by lia.
  assert (zlen (spre ++ s ++ [0u8]) = zlen spre + (zlen s + 1)) as -> by zl.
  assert (B - length (spre ++ s ++ [0u8]) = B - length spre - (length s + 1))%nat as ->
    by (rewrite !length_app; simpl length; lia).
  by replace (zlen spre + 2 ^ 31 - 2 ^ 31) with (zlen spre) by lia.
Qed.

Lemma prop_ok_inv p : prop_ok p = true -> short_name (pr_name p) = true /\ exists v, pr_value p = Some v.
Proof. unfold prop_ok. intros [? [v Hv]%bool_decide_eq_true_1]%andb_true_iff. eauto. Qed.

Lemma flatten_property_spec pre spre p : prop_ok p = true -> zlen pre mod 4 = 0 ->
  roomy (zlen pre + zlen (enc_prop (zlen spre) p)) -> roomy (zlen spre + name_size p) ->
  flatten_property garbage p (buf pre spre)
  = Ok (buf (pre ++ enc_prop (zlen spre) p) (spre ++ pr_name p ++ [0u8])).
Proof.
  intros [Hn [v Hv]]%prop_ok_inv Ha Hp Hs. pose proof (zlen_nonneg pre). pose proof (zlen_nonneg spre).
  pose proof (zlen_nonneg (pr_name p)). pose proof (enc_prop_length (zlen spre) p) as He. pose proof BUFSIZE_is.
  assert (prop_length p = zlen v) as Hl by (unfold prop_length; by rewrite Hv). pose proof (zlen_nonneg v).
  unfold roomy, name_size in *. unfold flatten_property. rewrite ensure_buf by (unfold roomy; lia).
  cbn [buf f_dt dt_nextofs]. set (hdr := be32 FDT_PROP ++ be32 (prop_length p)).
  assert (length hdr = 8%nat) as Hh by (unfold hdr; by rewrite length_app, !length_be32).
  rewrite store_end by (reflexivity || (unfold zlen in *; lia)). cbn [mbind outcome_bind]. unfold set_dt.
  cbn [buf f_strings str_nextofs dt_nextofs]. rewrite dt_add_string_spec.
  2: done.
  2:{ rewrite !length_app, length_zeros. unfold zlen in *. lia. }
  2-4: unfold roomy; lia.
  cbn [mbind outcome_bind f_dt dt_nextofs]. rewrite Nat.eqb_refl. cbn [negb].
  rewrite store_end by (rewrite ?length_be32; unfold zlen in *; rewrite ?length_app; lia). cbn [mbind outcome_bind].
  rewrite Hv. change (default [] (Some v)) with v. rewrite store_end by (rewrite ?length_be32; unfold zlen in *; rewrite ?length_app, ?length_be32; lia).
  cbn [mbind outcome_bind f_strings str_nextofs dt_nextofs]. do 2 f_equal.
  assert (((pre ++ hdr) ++ be32 (zlen spre)) ++ v = pre ++ (hdr ++ be32 (zlen spre) ++ v)) as -> by (by rewrite <-!app_assoc).
  rewrite advance_buf; [|done| | |].
  - unfold buf, enc_prop, hdr. by rewrite Hv, <-!app_assoc.
  - zl. unfold zlen in *. lia.
  - zl. unfold zlen in *. lia.
  - rewrite !length_app, length_be32. unfold zlen in *. lia.
Qed.
Lemma flatten_properties_spec ps : forall pre spre, forallb prop_ok ps = true -> zlen pre mod 4 = 0 ->
  roomy (zlen pre + zlen (enc_props (zlen spre) ps)) -> roomy (zlen spre + zlen (strs_props ps)) ->
  each (flatten_property garbage) ps (buf pre spre)
  = Ok (buf (pre ++ enc_props (zlen spre) ps) (spre ++ strs_props ps)).
Proof.
  induction ps as [|p ps IH]; intros pre spre Hok Ha Hp Hs.
  { cbn. by rewrite !app_nil_r. }
  cbn [forallb] in Hok. apply andb_true_iff in Hok as [Hp1 Hps]. cbn [enc_props] in *.
  rewrite strs_props_cons in *. assert (zlen (spre ++ pr_name p ++ [0u8]) = zlen spre + name_size p) as Hz.
  { unfold name_size. zl. }
  pose proof (zlen_nonneg (enc_props (zlen spre + name_size p) ps)). pose proof (zlen_nonneg (strs_props ps)).
  rewrite !zlen_app in *. unfold name_size, roomy in *.
  rewrite zlen_cons, zlen_nil in *. cbn [each].
  rewrite flatten_property_spec by (first [assumption | unfold roomy, name_size; lia]). cbn [mbind outcome_bind].
  pose proof (enc_prop_aligned (zlen spre) p) as Hpa.
  assert (zlen (spre ++ pr_name p ++ [0u8]) = zlen spre + (zlen (pr_name p) + 1)) as Hz' by zl.
  rewrite IH; [|assumption|by apply aligned_app| |].
  - rewrite Hz'. by rewrite <-!app_assoc.
  - rewrite Hz'. unfold roomy. rewrite zlen_app. lia.
  - rewrite Hz'. unfold roomy. lia.
Qed.

(** The tag and the name of a node. *)
Lemma begin_spec pre spre nm : short_name nm = true -> zlen pre mod 4 = 0 ->
  roomy (zlen pre + zlen nm + 8) ->
  exists dt, store (f_dt (buf pre spre)) (zlen pre) (be32 FDT_BEGIN_NODE) = Ok dt /\
  exists dt', lstrcpy dt (zlen pre + 4) nm = Ok (zlen nm, dt') /\
  advance (4 + zlen nm + 1) (set_dt dt' (buf pre spre)) = buf (pre ++ pad4 (be32 FDT_BEGIN_NODE ++ nm ++ [0u8])) spre.
Proof.
  intros Hn Ha Hp. pose proof BUFSIZE_is. pose proof (zlen_nonneg pre). pose proof (zlen_nonneg nm). unfold roomy in Hp.
  eexists. split.
  { apply store_end; [exact eq_refl|]. rewrite length_be32. unfold zlen in *. lia. }
  eexists. split.
  { apply lstrcpy_end; [|done|]; [zl|]. rewrite length_be32. unfold zlen in *. lia. }
  unfold set_dt, buf. cbn [f_strings str_nextofs dt_nextofs].
  assert ((pre ++ be32 FDT_BEGIN_NODE) ++ nm ++ [0u8] = pre ++ (be32 FDT_BEGIN_NODE ++ nm ++ [0u8])) as -> by (by rewrite <-!app_assoc).
  apply advance_buf; [done|zl|zl|]. rewrite !length_app, length_be32. simpl length. lia.
Qed.

Lemma end_spec pre spre : zlen pre mod 4 = 0 -> roomy (zlen pre + 4) -> forall tag,
  exists dt, store (f_dt (buf pre spre)) (zlen pre) (be32 tag) = Ok dt /\
  advance 4 (set_dt dt (buf pre spre)) = buf (pre ++ be32 tag) spre.
Proof.
  intros Ha Hp tag. pose proof BUFSIZE_is. pose proof (zlen_nonneg pre). unfold roomy in Hp. eexists. split.
  { apply store_end; [exact eq_refl|]. rewrite length_be32. unfold zlen in *. lia. }
  unfold set_dt, buf. cbn [f_strings str_nextofs dt_nextofs].
  rewrite advance_buf by first [assumption | unfold zlen in *; rewrite ?length_app, ?length_be32; lia].
  assert (pad4 (be32 tag) = be32 tag) as ->; [|done].
  unfold pad4, padding. rewrite zlen_be32. cbn. by rewrite app_nil_r.
Qed.

Definition flattens (n : device_node) : Prop := forall pre spre, zlen pre mod 4 = 0 ->
  roomy (zlen pre + zlen (enc_node (zlen spre) n)) -> roomy (zlen spre + zlen (strs_node n)) ->
  __of_flatten_dtb garbage n (buf pre spre) = Ok (buf (pre ++ enc_node (zlen spre) n) (spre ++ strs_node n)).

Lemma flatten_nodes_spec cs : Forall flattens cs -> forall pre spre, zlen pre mod 4 = 0 ->
  roomy (zlen pre + zlen (enc_nodes (zlen spre) cs)) -> roomy (zlen spre + zlen (strs_nodes cs)) ->
  each (__of_flatten_dtb garbage) cs (buf pre spre)
  = Ok (buf (pre ++ enc_nodes (zlen spre) cs) (spre ++ strs_nodes cs)).
Proof.
  induction 1 as [|c cs Hc _ IH]; intros pre spre Ha Hp Hs.
  { cbn. by rewrite !app_nil_r. }
  rewrite enc_nodes_cons, strs_nodes_cons in *. rewrite !zlen_app in *. cbn [each].
  pose proof (zlen_nonneg (enc_nodes (zlen spre + zlen (strs_node c)) cs)). pose proof (zlen_nonneg (strs_nodes cs)).
  rewrite Hc by (first [assumption | unfold roomy in *; lia]). cbn [mbind outcome_bind].
  rewrite IH; [|apply aligned_app; [done|apply enc_node_aligned]| |].
  - rewrite zlen_app. by rewrite <-!app_assoc.
  - rewrite !zlen_app. unfold roomy in *. lia.
  - rewrite !zlen_app. unfold roomy in *. lia.
Qed.

Lemma flatten_node_spec n : forall full, dt_ok full n = true -> flattens n.
Proof.
  induction n as [nm fn ph ps cs IH] using device_node_ind. intros full Hok pre spre Ha Hp Hs.
  cbn [dt_ok] in Hok. repeat (apply andb_true_iff in Hok as [Hok ?]).
  assert (Forall flattens cs) as Hcs.
  { rewrite Stdlib.Lists.List.Forall_forall in *. intros c Hc. rewrite forallb_forall in H. eapply IH; [done|by apply H]. }
  cbn [enc_node strs_node] in *. fold (strs_nodes cs) in *. fold (enc_nodes) in *.
  set (beg := be32 FDT_BEGIN_NODE ++ nm ++ [0u8]) in *.
  pose proof (pad4_bounds beg) as Hb. assert (zlen beg = 5 + zlen nm) as Hbl by (unfold beg; zl).
  pose proof (zlen_nonneg nm). pose proof (zlen_nonneg (enc_props (zlen spre) ps)).
  pose proof (zlen_nonneg (enc_nodes (zlen spre + zlen (strs_props ps)) cs)). pose proof (zlen_nonneg (strs_props ps)).
  pose proof (zlen_nonneg (strs_nodes cs)). pose proof (zlen_nonneg pre). rewrite !zlen_app in Hs. rewrite !zlen_app, zlen_be32 in Hp.
  unfold roomy in Hp, Hs.
  cbn [__of_flatten_dtb dn_name dn_properties]. rewrite ensure_buf by (unfold roomy; lia).
  change (dt_nextofs (buf pre spre)) with (zlen pre).
  destruct (begin_spec pre spre nm) as (dt & -> & dt' & E & Hadv); [done|done|unfold roomy; lia|].
  cbn [mbind outcome_bind]. rewrite E. cbn [mbind outcome_bind].
  rewrite Hadv. fold beg. pose proof (pad4_aligned beg).
  rewrite flatten_properties_spec by (first [assumption | by apply aligned_app | unfold roomy; rewrite ?zlen_app; lia]).
  cbn [mbind outcome_bind]. pose proof (enc_props_aligned ps (zlen spre)).
  rewrite flatten_nodes_spec; [|done|by apply aligned_app; [apply aligned_app|]|unfold roomy; rewrite !zlen_app; lia|unfold roomy; rewrite !zlen_app; lia].
  cbn [mbind outcome_bind]. rewrite (zlen_app spre). set (ecs := enc_nodes _ cs) in *.
  assert (zlen ecs mod 4 = 0) as Hea by apply enc_nodes_aligned.
  edestruct (end_spec (((pre ++ pad4 beg) ++ enc_props (zlen spre) ps) ++ ecs)) as (dt2 & E2 & Hadv2);
    [by apply aligned_app; [apply aligned_app; [apply aligned_app|]|]|unfold roomy; rewrite !zlen_app; lia|].
  change (dt_nextofs (buf ?a ?b)) with (zlen a). rewrite E2. cbn [mbind outcome_bind]. rewrite Hadv2.
  rewrite ensure_buf by (first [lia | unfold roomy; rewrite !zlen_app, ?zlen_be32; lia]).
  by rewrite <-!app_assoc.
Qed.
End Write.

(** ** The blob of a tree *)

Definition struct_start : Z := sizeof_header + 16 * OF_MAX_RESERVE_MAP.
Definition tree_header (n : device_node) : fdt_header :=
  let end_struct := struct_start + zlen (enc_node 0 n) + 4 in
  FdtHeader FDT_MAGIC (end_struct + zlen (strs_node n)) struct_start end_struct sizeof_header 0x11 0x10 0
    (zlen (strs_node n)) (end_struct - struct_start).
Definition blob (n : device_node) : bytes :=
  put_header (tree_header n) ++ zeros 256 ++ enc_node 0 n ++ be32 FDT_END ++ strs_node n.

(** The tree fits into the buffers that [of_flatten_dtb] starts with. *)
Definition tree_fits (n : device_node) : bool :=
  (struct_start + zlen (enc_node 0 n) + 4 + 1024 <=? 65536) && (zlen (strs_node n) + 1024 <=? 65536).

Lemma length_put_header h : zlen (put_header h) = 40.
Proof. unfold put_header. rewrite !zlen_app, !zlen_be32. reflexivity. Qed.

Lemma store_front a b d : zlen d = zlen a -> store (a ++ b) 0 d = Ok (d ++ b).
Proof.
  intros Hl. unfold store, zlen in *. rewrite length_app. destruct (Z.ltb_spec (Z.of_nat (length a + length b)) (0 + Z.of_nat (length d))); [lia|].
  unfold splice. cbn [take app Z.to_nat]. rewrite take_0. cbn [app]. f_equal. f_equal.
  rewrite drop_app_ge by lia. by replace (Z.to_nat 0 + length d - length a)%nat with 0%nat by lia.
Qed.

Lemma store_mid a b d c ofs : ofs = zlen a -> zlen d = zlen b -> store (a ++ b ++ c) ofs d = Ok (a ++ d ++ c).
Proof.
  intros -> Hl. unfold store, zlen in *. rewrite !length_app.
  destruct (Z.ltb_spec (Z.of_nat (length a + (length b + length c))) (Z.of_nat (length a) + Z.of_nat (length d))); [lia|].
  rewrite Nat2Z.id. unfold splice. rewrite take_app_length, drop_app_ge by lia.
  replace (length a + length d - length a)%nat with (length b) by lia. by rewrite drop_app_length.
Qed.

Lemma split_tail (m : bytes) n : (n <= length m)%nat -> exists b c, m = b ++ c /\ length b = n.
Proof. intros. exists (take n m), (drop n m). rewrite take_drop, length_take. split; [done|lia]. Qed.

(** The buffers at the start, with the header and the reserve map in use. *)
Lemma first_buf B : Z.of_nat B = 65536 -> exists pre0, zlen pre0 = 296 /\ pre0 = zeros 40 ++ zeros 256 /\
  Fdt (zeros B) 296 (zeros B) 0 = buf B pre0 [].
Proof.
  intros HB. exists (zeros 40 ++ zeros 256). split; [reflexivity|]. split; [reflexivity|].
  unfold buf. rewrite zlen_app, !zlen_zeros, zlen_nil. cbn [app length]. rewrite Nat.sub_0_r.
  rewrite length_app, !length_zeros. rewrite (zeros_split B (40 + 256)) at 1 by lia.
  rewrite (zeros_split (40 + 256) 40) by lia. replace (40 + 256 - 40)%nat with 256%nat by lia.
  exact eq_refl.
Qed.

Lemma flatten_blob garbage n : root_ok n = true -> tree_fits n = true ->
  exists rest, of_flatten_dtb garbage n = Ok (blob n ++ rest).
Proof.
  intros [_ Hok]%andb_true_iff [Hd%Z.leb_le Hs%Z.leb_le]%andb_true_iff. unfold of_flatten_dtb.
  pose proof BUFSIZE_Z as HB. revert HB. generalize BUFSIZE as B. intros B HB.
  pose proof (zlen_nonneg (enc_node 0 n)). pose proof (zlen_nonneg (strs_node n)).
  change struct_start with 296 in *. destruct (first_buf B HB) as (pre0 & Hp0 & Hz & Hb0).
  change (sizeof_header + 16 * OF_MAX_RESERVE_MAP) with 296. rewrite Hb0.
  pose proof (flatten_node_spec garbage B HB n [] Hok pre0 []) as Hfl. rewrite zlen_nil, Hp0 in Hfl. unfold roomy in Hfl.
  rewrite Hfl; [|exact eq_refl|lia|lia]. clear Hfl.
  cbn [mbind outcome_bind]. set (pre := pre0 ++ enc_node 0 n).
  assert (zlen pre = 296 + zlen (enc_node 0 n)) as Hpre by (unfold pre; rewrite zlen_app; lia).
  assert (zlen pre mod 4 = 0) as Hal by (apply aligned_app; [by rewrite Hp0|apply enc_node_aligned]).
  destruct (end_spec garbage B HB pre ([] ++ strs_node n) Hal ltac:(unfold roomy; lia) FDT_END) as (dt & E & Hadv).
  change (dt_nextofs (buf B pre _)) with (zlen pre). rewrite E. cbn [mbind outcome_bind]. rewrite Hadv. cbn [app].
  set (pre' := pre ++ be32 FDT_END). assert (zlen pre' = zlen pre + 4) as Hp' by (unfold pre'; by rewrite zlen_app, zlen_be32).
  change (dt_nextofs (buf B pre' _)) with (zlen pre'). change (str_nextofs (buf B pre' _)) with (zlen (strs_node n)).
  change (f_strings (buf B pre' _)) with (strs_node n ++ zeros (B - length (strs_node n))).
  assert (take (Z.to_nat (zlen (strs_node n))) (strs_node n ++ zeros (B - length (strs_node n))) = strs_node n) as ->
    by (unfold zlen; by rewrite Nat2Z.id, take_app_length).
  set (m := if _ <? _ then _ else _).
  assert (exists b c, m = pre' ++ b ++ c /\ zlen b = zlen (strs_node n)) as (b & c & -> & Hb).
  { assert (exists t, m = pre' ++ t /\ zlen (strs_node n) <= zlen t) as (t & -> & Ht).
    { subst m. unfold dt_size. cbn [buf f_dt]. rewrite length_app, length_zeros.
      destruct (Z.ltb_spec (Z.of_nat (length pre' + (B - length pre')) -32 zlen pre') (zlen (strs_node n))) as [Hlt|Hge].
      - unfold realloc. eexists. split; [by rewrite <-app_assoc|]. rewrite zlen_app. unfold zlen at 3.
        rewrite length_fmap, length_seq. rewrite u32_small by lia.
        rewrite !length_app, length_zeros. unfold zlen in *. rewrite length_zeros. lia.
      - eexists. split; [reflexivity|]. rewrite zlen_zeros. rewrite u32_small in Hge by (unfold zlen in *; lia). unfold zlen in *. lia. }
    destruct (split_tail t (length (strs_node n))) as (b & c & -> & Hb); [unfold zlen in *; lia|].
    exists b, c. split; [done|]. unfold zlen. lia. }
  rewrite (store_mid pre' b (strs_node n) c) by done. cbn [mbind outcome_bind].
  exists c. rewrite Hp', Hpre. unfold pre', pre. rewrite Hz, <-!app_assoc.
  rewrite store_front by (by rewrite length_put_header). unfold blob. rewrite <-!app_assoc. do 3 f_equal.
  unfold tree_header. change struct_start with 296.
  rewrite !u32_small by lia. f_equal; lia.
Qed.
