(* ===== verification/FdtParse.v ===== *)
(** * Parsing flattened device trees

    What the parser does at each part of the encoding of FdtLaws.v, the round trip
    of a tree through a blob, that the parser ends on every blob, and what it does
    with damaged ones. *)

From S2P Require Import Prelude Dt Fdt FdtLaws.

(** ** Blobs that hold given bytes at an offset *)

Definition has (m : bytes) (p : Z) (d : bytes) : Prop := exists a b, m = a ++ d ++ b /\ zlen a = p.

Lemma has_app m p a b : has m p (a ++ b) -> has m p a /\ has m (p + zlen a) b.
Proof.
  intros (x & y & -> & <-). split.
  - exists x, (b ++ y). by rewrite <-!app_assoc.
  - exists (x ++ a), y. rewrite <-!app_assoc. split; [done|apply zlen_app].
Qed.

Lemma has_range m p d : has m p d -> 0 <= p /\ p + zlen d <= zlen m.
Proof. intros (a & b & -> & <-). pose proof (zlen_nonneg a). pose proof (zlen_nonneg b). zl. Qed.

Lemma has_sub m p d : has m p d -> sub (Z.to_nat p) (length d) m = d.
Proof. intros (a & b & -> & <-). unfold zlen. rewrite Nat2Z.id, sub_app_skip. by apply take_app_length. Qed.

Lemma has_drop m p d : has m p d -> exists r, drop (Z.to_nat p) m = d ++ r.
Proof. intros (a & b & -> & <-). exists b. unfold zlen. by rewrite Nat2Z.id, drop_app_length. Qed.

Lemma load32_has m p v : has m p (be32 v) -> load32 m p = Ok (u32 v).
Proof.
  intros H. pose proof (has_range _ _ _ H) as Hr. rewrite zlen_be32 in Hr. unfold load32, zlen in *.
  destruct (Z.ltb_spec (Z.of_nat (length m)) (p + 4)); [lia|]. apply has_sub in H. rewrite length_be32 in H.
  by rewrite H, get_be_be32.
Qed.

Lemma string_at_has m p s : cstring s -> has m p (s ++ [0u8]) -> string_at m p = Ok s.
Proof.
  intros Hs H. pose proof (has_range _ _ _ H) as Hr. pose proof (zlen_nonneg (s ++ [0u8])). unfold string_at, zlen in *.
  destruct (Z.ltb_spec (Z.of_nat (length m)) p); [lia|]. destruct (has_drop _ _ _ H) as [r ->].
  rewrite <-app_assoc. cbn [app]. by rewrite (until_nul_app s r Hs).
Qed.

Lemma strnlen_at_has m p s n : cstring s -> has m p (s ++ [0u8]) -> zlen s < n -> strnlen_at m p n = Ok (zlen s).
Proof.
  intros Hs H Hn. pose proof (has_range _ _ _ H) as Hr. rewrite zlen_app in Hr. pose proof (zlen_nonneg s).
  change (zlen [0u8]) with 1 in Hr. unfold strnlen_at, zlen in *.
  destruct (Z.ltb_spec (Z.of_nat (length m)) p); [lia|]. destruct (has_drop _ _ _ H) as [r ->].
  rewrite <-app_assoc. cbn [app]. rewrite (strnlen_cstring s r Hs), length_app. cbn [length].
  destruct (Z.leb_spec n (Z.of_nat (length s))); [lia|].
  destruct (Z.eqb_spec (Z.of_nat (length s)) (Z.of_nat (length s + S (length r)))); [lia|done].
Qed.

Lemma bytes_at_has m p d : has m p d -> bytes_at m p (zlen d) = Ok d.
Proof.
  intros H. pose proof (has_range _ _ _ H) as Hr. unfold bytes_at. fold (zlen m).
  destruct (Z.ltb_spec (zlen m) (p + zlen d)); [lia|]. unfold zlen. rewrite Nat2Z.id. by rewrite has_sub.
Qed.

Lemma has_pad4 m p d : has m p (pad4 d) -> has m p d.
Proof. unfold pad4. by intros [H _]%has_app. Qed.

(** ** Filling a node *)

Lemma add_prop_step nm fn ph ps0 cs pp : prop_ok pp = true ->
  add_prop (DeviceNode nm fn ph ps0 cs) pp
  = DeviceNode nm fn (dn_phandle (add_prop (DeviceNode [] [] ph [] []) pp)) (ps0 ++ [pp]) cs.
Proof.
  intros [_ [v Hv]]%prop_ok_inv. destruct pp as [name val]. cbn [pr_value] in Hv. subst val.
  unfold add_prop, new_property, of_new_property, set_properties. cbn [pr_name pr_value].
  by destruct (bool_decide _ && _).
Qed.

Lemma phandle_congr ps : forall a b, dn_phandle a = dn_phandle b ->
  dn_phandle (fold_left add_prop ps a) = dn_phandle (fold_left add_prop ps b).
Proof.
  induction ps as [|pp ps IH]; intros a b Hab; cbn [fold_left]; [done|]. apply IH.
  unfold add_prop, new_property. by destruct (bool_decide _ && _).
Qed.

Lemma fold_add_prop ps : forall nm fn ph ps0 cs, forallb prop_ok ps = true ->
  fold_left add_prop ps (DeviceNode nm fn ph ps0 cs)
  = DeviceNode nm fn (dn_phandle (fold_left add_prop ps (DeviceNode nm fn ph ps0 cs))) (ps0 ++ ps) cs.
Proof.
  induction ps as [|pp ps IH]; intros nm fn ph ps0 cs Hok; cbn [fold_left] in *; [by rewrite app_nil_r|].
  apply andb_true_iff in Hok as [Hpp Hps]. rewrite (add_prop_step nm fn ph ps0 cs pp Hpp).
  rewrite IH at 1 by done. by rewrite <-app_assoc.
Qed.

Lemma fold_add_child cs : forall nm fn ph ps cs0,
  fold_left (fun np c => add_child c np) cs (DeviceNode nm fn ph ps cs0) = DeviceNode nm fn ph ps (cs0 ++ cs).
Proof.
  induction cs as [|c cs IH]; intros; cbn [fold_left]; [by rewrite app_nil_r|].
  unfold add_child at 2. cbn [dn_name dn_full_name dn_phandle dn_properties dn_children]. by rewrite IH, <-app_assoc.
Qed.

(** A well-formed node is what its properties and children fill a new node to. *)
Lemma filled_node full nm fn ph ps cs : dt_ok full (DeviceNode nm fn ph ps cs) = true ->
  fold_left (fun np c => add_child c np) cs (fold_left add_prop ps (DeviceNode nm full 0 [] []))
  = DeviceNode nm fn ph ps cs.
Proof.
  cbn [dt_ok]. intros [[[[->%bool_decide_eq_true_1 _]%andb_true_iff ->%Z.eqb_eq]%andb_true_iff Hps]%andb_true_iff _]%andb_true_iff.
  rewrite fold_add_prop, fold_add_child by done. cbn [app]. f_equal. by apply phandle_congr.
Qed.

(** ** One round at each tag *)

Section Parse.
Context (m : bytes) (f : fdt_header) (E : Z).
Context (HE : h_off_dt_struct f + h_size_dt_struct f = E) (HEr : 0 <= E < 2 ^ 31).

Lemma advance_at p d : p mod 4 = 0 -> 0 <= p -> p + zlen (pad4 d) <= E ->
  dt_struct_advance f p (zlen d) = p + zlen (pad4 d).
Proof.
  intros Ha Hp Hl. pose proof (zlen_nonneg d). rewrite zlen_pad4 in *.
  pose proof (Z.mod_pos_bound (- zlen d) 4). unfold dt_struct_advance. rewrite (u32_small (p + zlen d)) by lia.
  rewrite ALIGN4_spec by lia. rewrite HE, u32_small by lia.
  assert ((- (p + zlen d)) mod 4 = (- zlen d) mod 4) as -> by dlia.
  destruct (Z.ltb_spec E (p + zlen d + (- zlen d) mod 4)); lia.
Qed.

Lemma pad4_tag v : pad4 (be32 v) = be32 v.
Proof. unfold pad4, padding. rewrite zlen_be32. cbn. by rewrite app_nil_r. Qed.

Lemma step_begin p nm c : has m p (pad4 (be32 FDT_BEGIN_NODE ++ nm ++ [0u8])) -> cstring nm -> p mod 4 = 0 ->
  let d := pad4 (be32 FDT_BEGIN_NODE ++ nm ++ [0u8]) in p + zlen d <= E ->
  unflatten_step m f p c = Ok (inr (p + zlen d, begin_node c nm)).
Proof.
  intros H Hn Ha d Hl. pose proof (has_range _ _ _ H) as Hr. unfold d in *.
  pose proof (pad4_bounds (be32 FDT_BEGIN_NODE ++ nm ++ [0u8])) as Hb.
  pose proof (has_pad4 _ _ _ H) as [Ht Hs]%has_app. rewrite zlen_be32 in Hs.
  assert (zlen (be32 FDT_BEGIN_NODE ++ nm ++ [0u8]) = 4 + zlen nm + 1) as Hz by zl.
  pose proof (zlen_nonneg nm). unfold unflatten_step. rewrite (load32_has _ _ _ Ht).
  change (u32 FDT_BEGIN_NODE) with 1. cbn [mbind outcome_bind Z.eqb FDT_BEGIN_NODE Pos.eqb].
  rewrite HE. rewrite (u32_small (E - (p + 4))) by lia. rewrite (u32_small (E - (p + 4) + 1)) by lia.
  rewrite (strnlen_at_has m (p + 4) nm) by (done || lia). cbn [mbind outcome_bind].
  destruct (Z.ltb_spec (E - (p + 4)) (zlen nm)); [lia|]. rewrite <-Hz, advance_at by lia.
  destruct c; cbn [mbind outcome_bind]; [done|]. by rewrite (string_at_has m (p + 4) nm).
Qed.

Lemma step_end p c c' : has m p (be32 FDT_END_NODE) -> p mod 4 = 0 -> p + 4 <= E -> end_node c = Some c' ->
  unflatten_step m f p c = Ok (inr (p + 4, c')).
Proof.
  intros H Ha Hl Hc. pose proof (has_range _ _ _ H). unfold unflatten_step. rewrite (load32_has _ _ _ H).
  change (u32 FDT_END_NODE) with 2. cbn [mbind outcome_bind]. cbn [Z.eqb FDT_BEGIN_NODE FDT_END_NODE Pos.eqb].
  rewrite Hc. pose proof (advance_at p (be32 0)) as A. rewrite pad4_tag, zlen_be32 in A.
  unfold FDT_TAGSIZE. by rewrite A by lia.
Qed.

Lemma step_prop p so pp node parents :
  has m p (enc_prop so pp) -> has m (h_off_dt_strings f + so) (pr_name pp ++ [0u8]) -> prop_ok pp = true ->
  0 <= so <= h_size_dt_strings f -> h_size_dt_strings f < 2 ^ 32 -> p mod 4 = 0 -> p + zlen (enc_prop so pp) <= E ->
  unflatten_step m f p (At node parents)
  = Ok (inr (p + zlen (enc_prop so pp), At (add_prop node pp) parents)).
Proof.
  intros H Hs Hok Hso Hsz Ha Hl. apply prop_ok_inv in Hok as [Hn [v Hv]].
  apply andb_true_iff in Hn as [Hn%bool_decide_eq_true_1 _]. pose proof (has_range _ _ _ H) as Hr.
  assert (prop_length pp = zlen v) as Hlen by (unfold prop_length; by rewrite Hv). pose proof (zlen_nonneg v).
  pose proof (enc_prop_length so pp) as Hge. unfold enc_prop in *. rewrite Hv in *. change (default [] (Some v)) with v in *.
  set (body := be32 FDT_PROP ++ be32 (prop_length pp) ++ be32 so ++ v) in *.
  assert (zlen body = 12 + prop_length pp) as Hbl by (unfold body; zl).
  pose proof (has_pad4 _ _ _ H) as Hb. unfold body in Hb. apply has_app in Hb as [Ht Hb]. apply has_app in Hb as [Hl1 Hb].
  apply has_app in Hb as [Hl2 Hb]. rewrite !zlen_be32 in *. unfold unflatten_step. rewrite (load32_has _ _ _ Ht).
  change (u32 FDT_PROP) with 3. cbn [mbind outcome_bind]. cbn [Z.eqb FDT_BEGIN_NODE FDT_END_NODE FDT_PROP Pos.eqb].
  rewrite (load32_has _ _ _ Hl1). cbn [mbind outcome_bind].
  replace (p + 8) with (p + 4 + 4) by lia. rewrite (load32_has _ _ _ Hl2). cbn [mbind outcome_bind].
  rewrite (u32_small so), (u32_small (prop_length pp)) by lia. unfold dt_string.
  destruct (Z.ltb_spec (h_size_dt_strings f) so); [lia|]. rewrite (string_at_has _ _ _ Hn Hs). cbn [mbind outcome_bind].
  destruct (Z.leb_spec (2 ^ 31) (prop_length pp)); [lia|]. replace (p + 12) with (p + 4 + 4 + 4) by lia.
  rewrite Hlen at 1. rewrite (bytes_at_has _ _ _ Hb). cbn [mbind outcome_bind]. rewrite <-Hbl.
  rewrite advance_at by lia. unfold add_prop. by rewrite Hv.
Qed.

(** ** The loop over the encoding of a tree *)

Fixpoint rounds (n : device_node) : nat :=
  match n with DeviceNode _ _ _ ps cs => S (length ps + (sum_list (map rounds cs) + 1)) end.

Lemma loop_step fuel p c p' c' : unflatten_step m f p c = Ok (inr (p', c')) -> p' <> 0 ->
  unflatten_loop (S fuel) m f p c = unflatten_loop fuel m f p' c'.
Proof. intros H Hp. cbn [unflatten_loop]. rewrite H. by destruct (Z.eqb_spec p' 0). Qed.

Context (Hstr : 0 <= h_size_dt_strings f < 2 ^ 32).

Lemma loop_props ps : forall fuel p so node parents, forallb prop_ok ps = true ->
  has m p (enc_props so ps) -> has m (h_off_dt_strings f + so) (strs_props ps) ->
  0 <= so -> so + zlen (strs_props ps) <= h_size_dt_strings f -> p mod 4 = 0 -> 0 <= p -> p + zlen (enc_props so ps) <= E ->
  unflatten_loop (length ps + fuel) m f p (At node parents)
  = unflatten_loop fuel m f (p + zlen (enc_props so ps)) (At (fold_left add_prop ps node) parents).
Proof.
  induction ps as [|pp ps IH]; intros fuel p so node parents Hok H Hs Hso Hsl Ha Hp Hl.
  { cbn [enc_props length fold_left]. rewrite zlen_nil. by rewrite Z.add_0_r. }
  cbn [forallb enc_props length fold_left] in *. apply andb_true_iff in Hok as [Hpp Hps].
  rewrite strs_props_cons in *. apply has_app in H as [H1 H2]. apply has_app in Hs as [Hs1 Hs2].
  rewrite zlen_app in Hl, Hsl. assert (zlen (pr_name pp ++ [0u8]) = name_size pp) as Hns by (unfold name_size; zl).
  rewrite Hns in *. pose proof (zlen_nonneg (pr_name pp)). pose proof (zlen_nonneg (strs_props ps)).
  pose proof (zlen_nonneg (enc_props (so + name_size pp) ps)). pose proof (enc_prop_length so pp).
  pose proof (enc_prop_aligned so pp). assert (0 <= prop_length pp) by (unfold prop_length; lia).
  assert (0 < name_size pp) by (unfold name_size; lia).
  cbn [Nat.add]. erewrite loop_step; [|apply (step_prop p so pp); (done || lia)|lia].
  rewrite IH with (so := so + name_size pp); [|done|done|by rewrite Z.add_assoc|lia|lia|dlia|lia|lia].
  by rewrite zlen_app, Z.add_assoc.
Qed.
Definition parses (n : device_node) : Prop := forall fuel p so parent parents,
  dt_ok (dn_full_name parent ++ cstr "/" ++ dn_name n) n = true ->
  has m p (enc_node so n) -> has m (h_off_dt_strings f + so) (strs_node n) ->
  0 <= so -> so + zlen (strs_node n) <= h_size_dt_strings f -> p mod 4 = 0 -> 0 <= p -> p + zlen (enc_node so n) <= E ->
  unflatten_loop (rounds n + fuel) m f p (At parent parents)
  = unflatten_loop fuel m f (p + zlen (enc_node so n)) (At (add_child n parent) parents).

Lemma loop_nodes cs : Forall parses cs -> forall fuel p so node parents,
  forallb (fun c => dt_ok (dn_full_name node ++ cstr "/" ++ dn_name c) c) cs = true ->
  has m p (enc_nodes so cs) -> has m (h_off_dt_strings f + so) (strs_nodes cs) ->
  0 <= so -> so + zlen (strs_nodes cs) <= h_size_dt_strings f -> p mod 4 = 0 -> 0 <= p -> p + zlen (enc_nodes so cs) <= E ->
  unflatten_loop (sum_list (map rounds cs) + fuel) m f p (At node parents)
  = unflatten_loop fuel m f (p + zlen (enc_nodes so cs)) (At (fold_left (fun np c => add_child c np) cs node) parents).
Proof.
  induction 1 as [|c cs Hc _ IH]; intros fuel p so node parents Hok H Hs Hso Hsl Ha Hp Hl.
  { cbn [enc_nodes enc_list map sum_list fold_left]. rewrite zlen_nil. by rewrite Z.add_0_r. }
  rewrite enc_nodes_cons, strs_nodes_cons in *. apply has_app in H as [H1 H2]. apply has_app in Hs as [Hs1 Hs2].
  rewrite zlen_app in Hl, Hsl. cbn [forallb map fold_left] in *. apply andb_true_iff in Hok as [Hok1 Hok2].
  pose proof (zlen_nonneg (enc_node so c)). pose proof (zlen_nonneg (strs_node c)).
  pose proof (zlen_nonneg (strs_nodes cs)). pose proof (zlen_nonneg (enc_nodes (so + zlen (strs_node c)) cs)).
  pose proof (enc_node_aligned c so). cbn [sum_list]. rewrite <-Nat.add_assoc.
  rewrite (Hc _ p so node parents) by (done || lia).
  rewrite IH with (so := so + zlen (strs_node c)); [|done|done|by rewrite Z.add_assoc|lia|lia|dlia|lia|lia].
  by rewrite zlen_app, Z.add_assoc.
Qed.

(** The body of a node and its end tag. *)
Lemma loop_body full nm fn ph ps cs fuel p so parents : Forall parses cs ->
  dt_ok full (DeviceNode nm fn ph ps cs) = true ->
  let body := enc_props so ps ++ enc_nodes (so + zlen (strs_props ps)) cs ++ be32 FDT_END_NODE in
  has m p body -> has m (h_off_dt_strings f + so) (strs_props ps ++ strs_nodes cs) ->
  0 <= so -> so + zlen (strs_props ps ++ strs_nodes cs) <= h_size_dt_strings f ->
  p mod 4 = 0 -> 0 <= p -> p + zlen body <= E -> forall c', end_node (At (DeviceNode nm fn ph ps cs) parents) = Some c' ->
  unflatten_loop (length ps + (sum_list (map rounds cs) + 1) + fuel) m f p (At (DeviceNode nm full 0 [] []) parents)
  = unflatten_loop fuel m f (p + zlen body) c'.
Proof.
  intros Hcs Hok body H Hs Hso Hsl Ha Hp Hl c' Hc'. unfold body in *. clear body.
  pose proof (filled_node _ _ _ _ _ _ Hok) as Hfill. cbn [dt_ok] in Hok. repeat (apply andb_true_iff in Hok as [Hok ?]).
  apply has_app in H as [H1' H2']. apply has_app in H2' as [H2' H3']. apply has_app in Hs as [Hs1 Hs2].
  rewrite !zlen_app, zlen_be32 in *. set (ecs := enc_nodes (so + zlen (strs_props ps)) cs) in *.
  pose proof (zlen_nonneg (enc_props so ps)). pose proof (zlen_nonneg ecs). pose proof (zlen_nonneg (strs_props ps)).
  pose proof (zlen_nonneg (strs_nodes cs)). pose proof (enc_props_aligned ps so).
  assert (zlen ecs mod 4 = 0) as Hea by apply enc_nodes_aligned.
  rewrite <-Nat.add_assoc. rewrite (loop_props ps _ p so) by (done || lia).
  rewrite <-Nat.add_assoc. rewrite (loop_nodes cs Hcs _ _ (so + zlen (strs_props ps))); [|..|done|by rewrite Z.add_assoc|lia|lia|dlia|lia|fold ecs; lia].
  2:{ rewrite fold_add_prop by done. cbn [dn_full_name]. done. }
  rewrite Hfill. fold ecs. cbn [Nat.add]. erewrite loop_step; [|apply step_end; [done|dlia|lia|done]|lia].
  f_equal. lia.
Qed.

Lemma parses_all n : parses n.
Proof.
  induction n as [nm fn ph ps cs IH] using device_node_ind.
  intros fuel p so parent parents Hok H Hs Hso Hsl Ha Hp Hl. cbn [enc_node strs_node dn_name rounds] in *.
  fold (strs_nodes cs) in *. fold (enc_nodes) in *.
  apply has_app in H as [Hb H]. set (beg := be32 FDT_BEGIN_NODE ++ nm ++ [0u8]) in *.
  set (body := enc_props so ps ++ _) in *. rewrite zlen_app in *.
  assert (cstring nm) as Hnm.
  { cbn [dt_ok] in Hok. repeat (apply andb_true_iff in Hok as [Hok ?]).
    match goal with X : short_name nm = true |- _ => apply andb_true_iff in X as [X _]; by apply bool_decide_eq_true_1 in X end. }
  pose proof (zlen_nonneg body). pose proof (pad4_aligned beg). pose proof (pad4_bounds beg).
  assert (zlen beg = 5 + zlen nm) by (unfold beg; zl). pose proof (zlen_nonneg nm).
  cbn [Nat.add]. erewrite loop_step; [|apply step_begin; (done || (fold beg; lia))|fold beg; lia]. fold beg.
  cbn [begin_node of_new_node].
  rewrite (loop_body (dn_full_name parent ++ cstr "/" ++ nm) nm fn ph ps cs fuel (p + zlen (pad4 beg)) so (parent :: parents) IH Hok)
    with (c' := At (add_child (DeviceNode nm fn ph ps cs) parent) parents); (done || dlia || idtac).
  - f_equal. unfold body. lia.
  - rewrite zlen_app. lia.
  - fold body. lia.
Qed.
End Parse.

(** ** The whole blob *)

Lemma rounds_size n : forall so, Z.of_nat (rounds n) <= zlen (enc_node so n).
Proof.
  induction n as [nm fn ph ps cs IH] using device_node_ind. intros so. cbn [rounds enc_node]. fold (enc_nodes).
  rewrite !zlen_app, zlen_be32. pose proof (pad4_bounds (be32 FDT_BEGIN_NODE ++ nm ++ [0u8])) as Hb.
  rewrite !zlen_app, zlen_be32 in Hb. pose proof (zlen_nonneg nm). change (zlen [0u8]) with 1 in Hb.
  assert (Z.of_nat (length ps) <= zlen (enc_props so ps)) as Hps.
  { clear. revert so. induction ps as [|p ps IH]; intros so; [done|]. cbn [enc_props length]. rewrite zlen_app.
    specialize (IH (so + name_size p)). pose proof (enc_prop_length so p). assert (0 <= prop_length p) by (unfold prop_length; lia). lia. }
  assert (forall s, Z.of_nat (sum_list (map rounds cs)) <= zlen (enc_nodes s cs)) as Hcs.
  { clear -IH. induction IH as [|c cs Hc _ IHcs]; intros s; [done|]. rewrite enc_nodes_cons, zlen_app. cbn [map sum_list].
    change (id (rounds c)) with (rounds c). specialize (Hc s). specialize (IHcs (s + zlen (strs_node c))). lia. }
  specialize (Hcs (so + zlen (strs_props ps))). lia.
Qed.

Lemma has_header m h : has m 0 (put_header h) ->
  load32 m 0 = Ok (u32 (h_magic h)) /\ load32 m 20 = Ok (u32 (h_version h)) /\
  read_header m = Ok (FdtHeader 0 (u32 (h_totalsize h)) (u32 (h_off_dt_struct h)) (u32 (h_off_dt_strings h))
                        0 0 0 0 (u32 (h_size_dt_strings h)) (u32 (h_size_dt_struct h))).
Proof.
  unfold put_header. intros H. do 9 (let X := fresh in apply has_app in H as [X H]; rewrite zlen_be32 in H).
  unfold read_header.
  repeat (match goal with |- context [load32 m ?k] =>
            match goal with X : has m ?p (be32 ?v) |- _ => change p with k in X; rewrite (load32_has m k v X) end end;
          cbn [mbind outcome_bind]).
  done.
Qed.

(** A block that holds the header and the parts of the encoding, whatever its
    reserve map and what lies behind it. *)
Lemma parse_tree m n : root_ok n = true -> tree_fits n = true ->
  has m 0 (put_header (tree_header n)) -> has m struct_start (enc_node 0 n ++ be32 FDT_END ++ strs_node n) ->
  of_unflatten_dtb m = Ok n.
Proof.
  intros [Hname%bool_decide_eq_true_1 Hok]%andb_true_iff [Hd%Z.leb_le Hs%Z.leb_le]%andb_true_iff Hh H.
  pose proof (zlen_nonneg (enc_node 0 n)). pose proof (zlen_nonneg (strs_node n)).
  change struct_start with 296 in *. unfold of_unflatten_dtb. destruct (has_header _ _ Hh) as (-> & -> & ->). cbn [mbind outcome_bind].
  unfold tree_header. cbn [h_magic h_version h_totalsize h_off_dt_struct h_size_dt_struct h_off_dt_strings h_size_dt_strings].
  change struct_start with 296. change (u32 FDT_MAGIC) with FDT_MAGIC. change (u32 17) with 17. change (u32 296) with 296.
  rewrite Z.eqb_refl. cbn [negb Z.eqb Pos.eqb]. remember (296 + zlen (enc_node 0 n) + 4) as e eqn:He.
  rewrite (u32_small (e + zlen (strs_node n))), (u32_small (e - 296)), (u32_small e), (u32_small (zlen (strs_node n))) by lia.
  rewrite !u32_small by lia. destruct (Z.ltb_spec (e + zlen (strs_node n)) (296 + (e - 296))); [lia|].
  destruct (Z.ltb_spec (e + zlen (strs_node n)) (e + zlen (strs_node n))); [lia|].
  set (f := FdtHeader _ _ _ _ _ _ _ _ _ _). pose proof (rounds_size n 0) as Hr. pose proof (has_range _ _ _ H) as [_ Hlen].
  rewrite !zlen_app, zlen_be32 in Hlen. apply has_app in H as [Hn H]. apply has_app in H as [Hend Hstr].
  rewrite zlen_be32 in Hstr. replace (296 + zlen (enc_node 0 n) + 4) with (e + 0) in Hstr by lia.
  assert (exists k, S (length m) = rounds n + S k)%nat as [k ->].
  { exists (length m - rounds n)%nat. unfold zlen in *. lia. }
  destruct n as [nm fn ph ps cs]. cbn [dn_name] in Hname. subst nm. cbn [enc_node strs_node rounds] in *.
  fold (strs_nodes cs) in *. fold (enc_nodes) in *. apply has_app in Hn as [Hb Hbody].
  set (beg := be32 FDT_BEGIN_NODE ++ [] ++ [0u8]) in *. set (body := enc_props 0 ps ++ _) in *. rewrite zlen_app in *.
  change (zlen (pad4 beg)) with 8 in *. pose proof (zlen_nonneg body).
  assert (HE : h_off_dt_struct f + h_size_dt_struct f = e) by (unfold f; cbn [h_off_dt_struct h_size_dt_struct]; lia).
  assert (HEr : 0 <= e < 2 ^ 31) by lia.
  assert (0 <= h_size_dt_strings f < 2 ^ 32) as Hsz by (unfold f; cbn [h_size_dt_strings]; rewrite zlen_app; lia).
  cbn [Nat.add]. erewrite loop_step; [|apply (step_begin m f e HE HEr 296 []); [done|unfold cstring; set_solver|done|]; change (zlen (pad4 _)) with 8; lia|].
  2:{ change (zlen (pad4 _)) with 8. lia. }
  change (zlen (pad4 _)) with 8. cbn [begin_node of_new_node].
  rewrite (loop_body m f e HE HEr Hsz [] [] fn ph ps cs (S k) (296 + 8) 0 [])
    with (c' := AtNull (DeviceNode [] fn ph ps cs)); try (done || lia).
  - fold body. cbn [unflatten_loop]. unfold unflatten_step. rewrite Z.add_assoc in Hend.
    rewrite (load32_has _ _ _ Hend). reflexivity.
  - rewrite Stdlib.Lists.List.Forall_forall. intros c _. by apply parses_all with (E := e).
  - fold body. lia.
Qed.

Lemma blob_has n rest : has (blob n ++ rest) 0 (put_header (tree_header n)) /\
  has (blob n ++ rest) struct_start (enc_node 0 n ++ be32 FDT_END ++ strs_node n).
Proof.
  unfold blob. split.
  - exists [], (zeros 256 ++ (enc_node 0 n ++ be32 FDT_END ++ strs_node n) ++ rest). split; [|done].
    cbn [app]. by rewrite <-!app_assoc.
  - exists (put_header (tree_header n) ++ zeros 256), rest. rewrite <-!app_assoc. split; [done|].
    by rewrite zlen_app, length_put_header, zlen_zeros.
Qed.

Lemma zlen_blob n : zlen (blob n) = h_totalsize (tree_header n).
Proof.
  unfold blob. rewrite !zlen_app, length_put_header, zlen_zeros, zlen_be32. cbn [h_totalsize tree_header].
  change struct_start with 296. lia.
Qed.

Lemma load32_total n rest : tree_fits n = true -> load32 (blob n ++ rest) 4 = Ok (zlen (blob n)).
Proof.
  intros [Hd%Z.leb_le Hs%Z.leb_le]%andb_true_iff. destruct (blob_has n rest) as [Hh _]. unfold put_header in Hh.
  apply has_app in Hh as [_ Hh]. apply has_app in Hh as [Hh _]. rewrite zlen_be32 in Hh.
  rewrite (load32_has _ 4 _ Hh), zlen_blob, u32_small; [done|].
  rewrite <-zlen_blob. pose proof (zlen_nonneg (blob n)). rewrite zlen_blob in *. cbn [tree_header h_totalsize] in *. lia.
Qed.

(** ** Termination *)

Lemma advance_forward f dt size : 0 <= dt -> 4 <= size -> dt + size < 2 ^ 32 - 3 ->
  dt_struct_advance f dt size = 0 \/ dt + 4 <= dt_struct_advance f dt size.
Proof.
  intros Hd Hs Hb. unfold dt_struct_advance. rewrite (u32_small (dt + size)) by lia.
  rewrite ALIGN4_spec by lia. pose proof (Z.mod_pos_bound (- (dt + size)) 4). destruct (_ <? _); [by left|right; lia].
Qed.

Lemma strnlen_at_le m ofs n k : strnlen_at m ofs n = Ok k -> 0 <= ofs -> 0 <= n ->
  0 <= k /\ (k = 0 \/ ofs + k <= zlen m).
Proof.
  unfold strnlen_at, zlen. intros H Ho Hn. pose proof (strnlen_le (drop (Z.to_nat ofs) m)) as Hl. rewrite length_drop in *.
  destruct (Z.ltb_spec (Z.of_nat (length m)) ofs) as [|Hin].
  { destruct (n =? 0); [|done]. injection H as <-. lia. }
  destruct (Z.leb_spec n (Z.of_nat (strnlen (drop (Z.to_nat ofs) m)))); [injection H as <-; lia|].
  destruct (_ =? _); [done|]. injection H as <-. lia.
Qed.

(** A round that goes on moves forward, inside the blob. *)
Lemma step_forward m f dt c dt' c' : zlen m < 2 ^ 31 -> 0 <= dt ->
  unflatten_step m f dt c = Ok (inr (dt', c')) -> dt + 4 <= zlen m /\ (dt' = 0 \/ dt + 4 <= dt').
Proof.
  intros Hm Hd. unfold unflatten_step. destruct (load32 m dt) as [tag|?|] eqn:Et; [|done..].
  assert (dt + 4 <= zlen m) as Hin.
  { unfold load32, zlen in *. destruct (Z.ltb_spec (Z.of_nat (length m)) (dt + 4)); [done|lia]. }
  cbn [mbind outcome_bind]. intros H. split; [done|]. revert H. destruct (tag =? FDT_BEGIN_NODE).
  - destruct (strnlen_at m (dt + 4) _) as [len|?|] eqn:El; [|done..]. cbn [mbind outcome_bind].
    apply strnlen_at_le in El; [|lia|apply u32_range]. destruct (_ <? len); [done|].
    intros H. assert (dt_struct_advance f dt (4 + len + 1) = dt') as <-.
    { destruct c; cbn [mbind outcome_bind] in H; [by simplify_eq|].
      destruct (string_at m (dt + 4)); cbn [mbind outcome_bind] in H; by simplify_eq. }
    apply advance_forward; lia.
  - destruct (tag =? FDT_END_NODE).
    { destruct (end_node c); [|done]. intros [= <- _]. apply advance_forward; unfold FDT_TAGSIZE; lia. }
    destruct (tag =? FDT_PROP).
    + destruct (load32 m (dt + 4)) as [len|?|] eqn:Elen; [|done..]. cbn [mbind outcome_bind].
      destruct (load32 m (dt + 8)) as [nameoff|?|]; [|done..]. cbn [mbind outcome_bind].
      destruct (dt_string f _ nameoff) as [ofs|]; [|done]. destruct (string_at m ofs) as [nm|?|]; [|done..]. cbn [mbind outcome_bind].
      destruct (2 ^ 31 <=? len); [done|]. destruct (bytes_at m (dt + 12) len) as [data|?|] eqn:Eb; [|done..]. cbn [mbind outcome_bind].
      destruct c; [done|]. intros [= <- _]. assert (0 <= len) as Hlen.
      { unfold load32 in Elen. destruct (_ <? _); [done|]. injection Elen as <-. apply get_be_range. }
      unfold bytes_at in Eb. fold (zlen m) in Eb. destruct (Z.ltb_spec (zlen m) (dt + 12 + len)); [done|].
      apply advance_forward; lia.
    + destruct (tag =? FDT_NOP); [intros [= <- _]; apply advance_forward; unfold FDT_TAGSIZE; lia|].
      by destruct (tag =? FDT_END).
Qed.

Lemma loop_ends m f : zlen m < 2 ^ 31 -> forall fuel dt c, 0 <= dt -> zlen m - dt <= Z.of_nat fuel ->
  exists r, forall fuel', (S fuel <= fuel')%nat -> unflatten_loop fuel' m f dt c = Some r.
Proof.
  intros Hm. induction fuel as [|fuel IH]; intros dt c Hd Hf.
  all: destruct (unflatten_step m f dt c) as [[root|[dt' c']]|e|] eqn:Es.
  all: try (eexists; intros [|fuel'] Hl; [lia|]; cbn [unflatten_loop]; rewrite Es; reflexivity).
  all: pose proof (step_forward m f dt c dt' c' Hm Hd Es) as [Hin Hdt'].
  1: lia.
  destruct (Z.eqb_spec dt' 0) as [->|Hne].
  { eexists. intros [|fuel'] Hl; [lia|]. cbn [unflatten_loop]. rewrite Es. reflexivity. }
  destruct (IH dt' c') as [r Hr]; [lia|lia|]. exists r. intros [|fuel'] Hl; [lia|].
  cbn [unflatten_loop]. rewrite Es. destruct (Z.eqb_spec dt' 0); [done|]. apply Hr. lia.
Qed.

(** ** The reserve map *)

Lemma length_reserve_entry a s : length (reserve_entry a s) = 16%nat.
Proof. unfold reserve_entry, of_write_number, be_cell. by rewrite !length_app, !length_rev, !length_le_split. Qed.

Lemma length_reserve_map (res : of_reserve_map) addr total :
  length (mjoin ((fun e => reserve_entry (fst e) (u64 (snd e - fst e + 1))) <$> res)
    ++ reserve_entry addr total ++ reserve_entry 0 0) = (16 * (length res + 2))%nat.
Proof.
  rewrite !length_app, !length_reserve_entry. induction res as [|e res IH]; [done|].
  rewrite fmap_cons. change (mjoin (?x :: ?l)) with (x ++ mjoin l). rewrite length_app, length_reserve_entry. cbn [length]. lia.
Qed.

Lemma add_reserve_le r s e : (length r <= 14)%nat -> (length (snd (of_add_reserve_entry s e r)) <= 14)%nat.
Proof.
  intros Hr. unfold of_add_reserve_entry, OF_MAX_FREE_RESERVE_MAP, OF_MAX_RESERVE_MAP.
  destruct (Z.leb_spec (16 - 2) (Z.of_nat (length r))); cbn [snd]; [done|]. rewrite length_app. cbn [length]. lia.
Qed.

(** ** Claims *)

(** C6: a tree as the functions of libdt.c make it, that fits into the initial
    buffers, flattens to a blob whose [totalsize] is the part in use, and that part
    alone, or with anything behind it, unflattens to the same tree: names, full
    names, phandles, properties with their values, and the order of everything. *)
Theorem fdt_roundtrip garbage n : root_ok n = true -> tree_fits n = true ->
  exists b, of_flatten_dtb garbage n = Ok b /\
  exists total, load32 b 4 = Ok total /\ total <= zlen b /\
  forall rest, of_unflatten_dtb (take (Z.to_nat total) b ++ rest) = Ok n.
Proof.
  intros Hok Hfit. destruct (flatten_blob garbage n Hok Hfit) as [rest ->]. eexists. split; [done|].
  exists (zlen (blob n)). pose proof (zlen_nonneg rest). split; [|split].
  - by apply load32_total.
  - rewrite zlen_app. lia.
  - intros rest'. unfold zlen. rewrite Nat2Z.id, take_app_length. destruct (blob_has n rest'). by apply parse_tree.
Qed.

(** C35: the parser ends on every blob below 2 GiB, whatever its contents: some
    number of rounds, at most one more than the bytes of the blob, gives the result
    that any larger number gives. *)
Theorem unflatten_terminates infdt f dt c : zlen infdt < 2 ^ 31 -> 0 <= dt ->
  exists r, forall fuel, (S (length infdt) <= fuel)%nat -> unflatten_loop fuel infdt f dt c = Some r.
Proof. intros Hm Hd. apply loop_ends; [done|done|]. unfold zlen. lia. Qed.

(** The reserve map that [of_add_reserve_entry] lets grow always has room in a
    flattened blob: adding it succeeds, and the blob holds the same tree as before. *)
Theorem reserve_map_fits n reqs rest addr : root_ok n = true -> tree_fits n = true ->
  let res := fold_left (fun r e => snd (of_add_reserve_entry (fst e) (snd e) r)) reqs [] in
  exists b, fdt_add_reserve_map res addr (blob n ++ rest) = Ok b /\ of_unflatten_dtb b = Ok n /\
    take 40 b = take 40 (blob n ++ rest) /\ drop 296 b = drop 296 (blob n ++ rest).
Proof.
  intros Hok Hfit res. assert (length res <= 14)%nat as Hlen.
  { assert (forall r, (length r <= 14)%nat ->
      (length (fold_left (fun r e => snd (of_add_reserve_entry (fst e) (snd e) r)) reqs r) <= 14)%nat) as H;
      [|apply H; simpl; lia].
    clear. induction reqs as [|e reqs IH]; intros r Hr; cbn [fold_left]; [done|]. apply IH. by apply add_reserve_le. }
  destruct (blob_has n rest) as [Hh _]. unfold fdt_add_reserve_map, put_header in *.
  do 4 (let X := fresh in apply has_app in Hh as [X Hh]; rewrite zlen_be32 in Hh). apply has_app in Hh as [Hrsv _].
  cbn [tree_header h_off_mem_rsvmap] in Hrsv. rewrite (load32_has _ 16 _ Hrsv). cbn [mbind outcome_bind].
  rewrite (load32_has _ 4 _ ltac:(eassumption)). cbn [mbind outcome_bind]. change (u32 sizeof_header) with 40.
  set (map := mjoin _ ++ _ ++ _). assert (length map = 16 * (length res + 2))%nat as Hml by apply length_reserve_map.
  assert (blob n ++ rest = put_header (tree_header n) ++ zeros (length map) ++ zeros (256 - length map)
    ++ (enc_node 0 n ++ be32 FDT_END ++ strs_node n) ++ rest) as ->.
  { unfold blob. rewrite <-!app_assoc, (zeros_split 256 (length map)) by lia. by rewrite <-!app_assoc. }
  rewrite (store_mid (put_header _) (zeros (length map)) map) by (by rewrite ?length_put_header, ?zlen_zeros).
  eexists. split; [done|].
  assert (forall x y, zlen x = 256 -> take 40 (put_header (tree_header n) ++ x ++ y) = put_header (tree_header n) /\
    drop 296 (put_header (tree_header n) ++ x ++ y) = y) as Hparts.
  { intros x y Hx. pose proof (length_put_header (tree_header n)) as Hp. unfold zlen in *.
    split; [by rewrite take_app_le by lia; rewrite take_ge by lia|].
    rewrite app_assoc, drop_app_ge by (rewrite length_app; lia).
    rewrite length_app. by replace (296 - (length (put_header (tree_header n)) + length x))%nat with 0%nat by lia. }
  split; [apply parse_tree; [done|done| |]|].
  - by exists [], (map ++ zeros (256 - length map) ++ (enc_node 0 n ++ be32 FDT_END ++ strs_node n) ++ rest).
  - exists (put_header (tree_header n) ++ map ++ zeros (256 - length map)), rest. rewrite <-!app_assoc. split; [done|].
    rewrite !zlen_app, length_put_header, zlen_zeros. change struct_start with 296. unfold zlen. lia.
  - rewrite (app_assoc map), (app_assoc (zeros (length map))).
    destruct (Hparts (map ++ zeros (256 - length map)) ((enc_node 0 n ++ be32 FDT_END ++ strs_node n) ++ rest)) as [-> ->];
      [rewrite zlen_app, zlen_zeros; unfold zlen; lia|].
    destruct (Hparts (zeros (length map) ++ zeros (256 - length map)) ((enc_node 0 n ++ be32 FDT_END ++ strs_node n) ++ rest)) as [-> ->];
      [rewrite zlen_app, !zlen_zeros; lia|done].
Qed.

(** ** Witnesses and damaged blobs *)

Definition ex_tree : device_node :=
  DeviceNode [] [] 0 [Property (cstr "magic") (Some (be32 5))]
    [DeviceNode (cstr "a@0") (cstr "/a@0") 7
       [Property (cstr "phandle") (Some (be32 7)); Property (cstr "flag") (Some [])] [];
     DeviceNode (cstr "b") (cstr "/b") 0 [] [DeviceNode (cstr "c") (cstr "/b/c") 0 [] []]].

Lemma fdt_roundtrip_witness :
  exists b, of_flatten_dtb (fun _ => Byte.x55) ex_tree = Ok b /\
  exists total, load32 b 4 = Ok total /\ total <= zlen b /\
  forall rest, of_unflatten_dtb (take (Z.to_nat total) b ++ rest) = Ok ex_tree.
Proof. apply (fdt_roundtrip (fun _ => Byte.x55) ex_tree); vm_compute; reflexivity. Defined.

Definition ex_header : fdt_header := FdtHeader FDT_MAGIC 44 40 44 40 17 16 0 0 4.

Lemma unflatten_terminates_witness :
  exists r, forall fuel, (13 <= fuel)%nat ->
    unflatten_loop fuel (be32 FDT_NOP ++ be32 FDT_NOP ++ be32 FDT_END) ex_header 0 (AtNull ex_tree) = Some r.
Proof.
  apply (unflatten_terminates (be32 FDT_NOP ++ be32 FDT_NOP ++ be32 FDT_END) ex_header 0 (AtNull ex_tree)).
  - vm_compute. reflexivity.
  - lia.
Defined.

Lemma reserve_map_fits_witness :
  exists b, fdt_add_reserve_map [(0x1000, 0x1fff)] 0x8000 (blob ex_tree ++ []) = Ok b /\ of_unflatten_dtb b = Ok ex_tree /\
    take 40 b = take 40 (blob ex_tree ++ []) /\ drop 296 b = drop 296 (blob ex_tree ++ []).
Proof. apply (reserve_map_fits ex_tree [(0x1000, 0x1fff)] [] 0x8000); vm_compute; reflexivity. Defined.

(** A structure block that ends without [FDT_END] passes every check of the header,
    and the next tag is read behind the blob. *)
Example unflatten_overread : of_unflatten_dtb (put_header ex_header ++ be32 FDT_NOP) = Undef.
Proof. vm_compute. reflexivity. Qed.

(** The name in a property may lie behind the blob as well: its offset is compared
    with the size of the strings, not the string itself. *)
Example unflatten_name_overread :
  let h := FdtHeader FDT_MAGIC 76 40 72 40 17 16 0 4 32 in
  of_unflatten_dtb (put_header h ++ be32 FDT_BEGIN_NODE ++ zeros 4 ++ be32 FDT_PROP ++ be32 0 ++ be32 4
    ++ be32 FDT_END_NODE ++ be32 FDT_END ++ zeros 4 ++ cstr "name") = Undef.
Proof. vm_compute. reflexivity. Qed.

(** A property before the first node is stored through a NULL pointer. *)
Example unflatten_early_property :
  let h := FdtHeader FDT_MAGIC 57 40 56 40 17 16 0 1 16 in
  of_unflatten_dtb (put_header h ++ be32 FDT_PROP ++ be32 0 ++ be32 0 ++ be32 FDT_END ++ [0u8]) = Undef.
Proof. vm_compute. reflexivity. Qed.

(** A name that is copied into memory [realloc] added is not terminated. *)
Example lstrcpy_unterminated :
  match lstrcpy [Byte.x55; Byte.x55; Byte.x55; 0u8] 0 (cstr "a") with
  | Ok (_, m) => string_at m 0 = Ok (cstr "aUU")
  | _ => False
  end.
Proof. vm_compute. reflexivity. Qed.

(** The error code of a name that is too long is taken as its length, so that the
    next tag overwrites the node's. *)
Example flatten_long_name : dt_next_ofs 296 (4 + - ENOSPC + 1) = 276.
Proof. vm_compute. reflexivity. Qed.
