(* ===== verification/Proc.v ===== *)
(** * Reading the tree of the running system (src/libdt.c, src/dt/common.h)

    [read_file], and [of_read_proc_devicetree] with [scan_proc_dir]: the blob of the
    firmware, or the directories in which the kernel shows the tree, one file for
    every property. A directory is the list of what [readdir] gives, with what
    [stat], [open] and [read] answer for every entry. *)

From S2P Require Import Prelude Dt Fdt FdtLaws FdtParse.

(** ** Files *)

(** A file: its size for [stat], and what is read from it, or the error of [open] or
    of [read]. *)
Record file : Type := File { st_size : nat; f_read : outcome bytes }.

(** [read_file]: the whole file and a NUL behind it, [None] for NULL. The file
    itself is [None] when [stat] fails. *)
Definition read_file (f : option file) : option bytes :=
  match f with
  | None => None
  | Some f =>
      match f_read f with
      | Ok data => if (length data <? st_size f)%nat then None else Some (take (st_size f) data ++ [0u8])
      | _ => None
      end
  end.

(** A file with a flattened tree is read back to the tree. *)
Lemma read_flattened garbage n b : root_ok n = true -> tree_fits n = true -> of_flatten_dtb garbage n = Ok b ->
  exists fdt, read_file (Some (File (length b) (Ok b))) = Some fdt /\ of_unflatten_dtb fdt = Ok n.
Proof.
  intros Hok Hfit Hb. destruct (flatten_blob garbage n Hok Hfit) as [rest Hrest].
  assert (b = blob n ++ rest) as -> by congruence. exists (blob n ++ rest ++ [0u8]). split.
  - unfold read_file. cbn [f_read st_size]. rewrite Nat.ltb_irrefl, take_ge by lia. by rewrite <-app_assoc.
  - destruct (blob_has n (rest ++ [0u8])) as [H1 H2]. exact (parse_tree _ n Hok Hfit H1 H2).
Qed.

(** ** Directories *)

#[local] Unset Elimination Schemes.
Inductive dirent : Type :=
| RegFile (name : bytes) (f : file)
| SubDir (name : bytes) (opens : outcome unit) (entries : list dirent)
| OtherFile (name : bytes)
| NoStat (name : bytes) (err : Z).
#[local] Set Elimination Schemes.

Definition d_name (d : dirent) : bytes :=
  match d with RegFile n _ | SubDir n _ _ | OtherFile n | NoStat n _ => n end.
Definition hidden (d : dirent) : bool := bool_decide (head (d_name d) = Some Byte.x2e).

(** A regular file becomes a property. One [read] fills the buffer, which is as
    large as [stat] says; a shorter file leaves NULs. *)
Definition scan_file (name : bytes) (f : file) (node : device_node) : outcome (Z * device_node) :=
  match f_read f with
  | Undef => Undef
  | Err e => Ok (e, node)
  | Ok data =>
      let buf := take (st_size f) data ++ zeros (st_size f - length data) in
      let node := of_new_property node name buf in
      if bool_decide (name = cstr "phandle") then
        if (length buf <? 4)%nat then Undef else Ok (0, set_phandle (get_be (take 4 buf)) node)
      else Ok (0, node)
  end.

(** The loop of [scan_proc_dir] over the entries with [scan] for one of them; an
    error leaves the node as it is then. *)
Definition scan_with (scan : dirent -> device_node -> outcome (Z * device_node)) :=
  fix go (entries : list dirent) (node : device_node) : outcome (Z * device_node) :=
    match entries with
    | [] => Ok (0, node)
    | d :: entries' =>
        if hidden d then go entries' node else
        '(ret, node) ← scan d node;
        if ret =? 0 then go entries' node else Ok (ret, node)
    end.

(** One entry; the result of the scan of a directory below is not looked at. *)
Fixpoint scan_entry (d : dirent) (node : device_node) : outcome (Z * device_node) :=
  match d with
  | RegFile name f => scan_file name f node
  | SubDir name opens entries =>
      let new := of_new_node (Some node) name in
      match opens with
      | Undef => Undef
      | Err _ => Ok (0, add_child new node)
      | Ok _ => '(_, new) ← scan_with scan_entry entries new; Ok (0, add_child new node)
      end
  | OtherFile _ => Ok (0, node)
  | NoStat _ err => Ok (- err, node)
  end.

(** [scan_proc_dir] of a directory that may not open. *)
Definition scan_proc_dir (dir : outcome (list dirent)) (node : device_node) : outcome (Z * device_node) :=
  match dir with
  | Undef => Undef
  | Err e => Ok (e, node)
  | Ok entries => scan_with scan_entry entries node
  end.

(** The second directory is scanned into what the first one left. *)
Definition of_read_proc_devicetree (firmware_fdt : option file) (base proc : outcome (list dirent)) : outcome device_node :=
  match read_file firmware_fdt with
  | Some fdt => of_unflatten_dtb fdt
  | None =>
      let root := of_new_node None [] in
      '(ret, root) ← scan_proc_dir base root;
      if ret =? 0 then Ok root else
      '(ret, root) ← scan_proc_dir proc root;
      if ret =? 0 then Ok root else Err ret
  end.

(** ** The directories of a tree *)

Definition prop_data (p : property) : bytes := default [] (pr_value p).
Definition prop_file (p : property) : dirent :=
  RegFile (pr_name p) (File (length (prop_data p)) (Ok (prop_data p))).

(** A listing of the directory of a node in the order of the tree: the directory itself
    and the one above it, a file for every property, a directory for every child. *)
Fixpoint proc_entries (np : device_node) : list dirent :=
  match np with
  | DeviceNode _ _ _ ps cs =>
      OtherFile (cstr ".") :: OtherFile (cstr "..") :: map prop_file ps
      ++ map (fun c => SubDir (dn_name c) (Ok tt) (proc_entries c)) cs
  end.

(** No name is hidden, a phandle is a number of 32 bits. *)
Definition visible (name : bytes) : bool := negb (bool_decide (head name = Some Byte.x2e)).
Definition phandle_size (p : property) : bool :=
  implb (bool_decide (pr_name p = cstr "phandle")) (length (prop_data p) =? 4)%nat.
Fixpoint proc_ok (np : device_node) : bool :=
  match np with
  | DeviceNode _ _ _ ps cs =>
      forallb (fun p => visible (pr_name p) && phandle_size p) ps
      && forallb (fun c => visible (dn_name c) && proc_ok c) cs
  end.

Lemma scan_with_app scan es1 es2 : forall node,
  scan_with scan (es1 ++ es2) node
  = '(ret, node') ← scan_with scan es1 node; if ret =? 0 then scan_with scan es2 node' else Ok (ret, node').
Proof.
  induction es1 as [|d es1 IH]; intros node; [done|]. cbn [app scan_with]. destruct (hidden d); [apply IH|].
  destruct (scan d node) as [[ret node']| |]; [|done|done]. cbn [mbind outcome_bind].
  destruct (ret =? 0) eqn:E; [apply IH|]. cbn [mbind outcome_bind]. by rewrite E.
Qed.

Lemma visible_hidden d : visible (d_name d) = true -> hidden d = false.
Proof. unfold visible, hidden. by destruct (bool_decide _). Qed.

Lemma scan_files ps : forall node, forallb (fun p => visible (pr_name p) && phandle_size p) ps = true ->
  scan_with scan_entry (map prop_file ps) node = Ok (0, fold_left add_prop ps node).
Proof.
  induction ps as [|p ps IH]; intros node; [done|]. cbn [map forallb scan_with fold_left].
  intros [[Hv Hp]%andb_true_iff Hps]%andb_true_iff. rewrite visible_hidden by done.
  cbn [scan_entry prop_file]. unfold scan_file. cbn [f_read st_size].
  rewrite take_ge, Nat.sub_diag by lia. cbn [zeros replicate]. rewrite app_nil_r.
  unfold phandle_size in Hp. unfold add_prop, new_property. fold (prop_data p).
  case_bool_decide as E; cbn [implb andb] in *.
  - apply Nat.eqb_eq in Hp. rewrite Hp. cbn [Nat.ltb Nat.leb Nat.eqb mbind outcome_bind Z.eqb].
    rewrite take_ge by lia. by apply IH.
  - cbn [mbind outcome_bind Z.eqb]. by apply IH.
Qed.

(** The scan of the directory of a node fills a new node to it. *)
Definition scans (np : device_node) : Prop := forall full, dt_ok full np = true -> proc_ok np = true ->
  scan_with scan_entry (proc_entries np) (DeviceNode (dn_name np) full 0 [] []) = Ok (0, np).

Lemma scan_children cs : Forall scans cs -> forall node, forallb (fun c => visible (dn_name c) && proc_ok c) cs = true ->
  forallb (fun c => dt_ok (dn_full_name node ++ cstr "/" ++ dn_name c) c) cs = true ->
  scan_with scan_entry (map (fun c => SubDir (dn_name c) (Ok tt) (proc_entries c)) cs) node
  = Ok (0, fold_left (fun np c => add_child c np) cs node).
Proof.
  induction 1 as [|c cs Hc _ IH]; intros node; [done|]. cbn [map forallb scan_with fold_left].
  intros [[Hv Hp]%andb_true_iff Hcs]%andb_true_iff [Hd Hds]%andb_true_iff. rewrite visible_hidden by done.
  cbn [scan_entry of_new_node]. rewrite (Hc _ Hd Hp). cbn [mbind outcome_bind Z.eqb]. by apply IH.
Qed.

Lemma scan_node np : scans np.
Proof.
  induction np as [nm fn ph ps cs IH] using device_node_ind. intros full Hok Hp.
  pose proof (filled_node _ _ _ _ _ _ Hok) as Hfill. cbn [dn_name] in *.
  cbn [proc_ok] in Hp. apply andb_true_iff in Hp as [Hps Hcs].
  cbn [dt_ok] in Hok. apply andb_true_iff in Hok as [Hok Hds]. apply andb_true_iff in Hok as [_ Hpo].
  cbn [proc_entries]. change (OtherFile (cstr ".") :: OtherFile (cstr "..") :: ?l) with ([OtherFile (cstr "."); OtherFile (cstr "..")] ++ l).
  rewrite scan_with_app. change (scan_with scan_entry [OtherFile (cstr "."); OtherFile (cstr "..")] ?n) with (Ok (0, n)).
  cbn [mbind outcome_bind Z.eqb]. rewrite scan_with_app, scan_files by done. cbn [mbind outcome_bind Z.eqb].
  rewrite scan_children; [by rewrite Hfill|done|done|]. rewrite fold_add_prop by done. exact Hds.
Qed.

Lemma read_proc_entries np proc : root_ok np = true -> proc_ok np = true ->
  of_read_proc_devicetree None (Ok (proc_entries np)) proc = Ok np.
Proof.
  unfold root_ok. intros [Hn%bool_decide_eq_true_1 Hok]%andb_true_iff Hp.
  pose proof (scan_node np [] Hok Hp) as H. rewrite Hn in H.
  unfold of_read_proc_devicetree, scan_proc_dir. cbn [read_file of_new_node]. by rewrite H.
Qed.

(** Without a blob from the firmware, reading directories that show a tree in its order
    gives the tree, with its names, paths, phandles, properties and the order of
    everything. *)
Theorem proc_tree_read np proc (Hok : root_ok np = true) (Hp : proc_ok np = true) :
  of_read_proc_devicetree None (Ok (proc_entries np)) proc = Ok np.
Proof. by apply read_proc_entries. Qed.

Definition ex_proc_tree : device_node :=
  DeviceNode [] [] 0 [Property (cstr "model") (Some (cstr "board" ++ [0u8]))]
    [DeviceNode (cstr "gpio") (cstr "/gpio") 7 [Property (cstr "phandle") (Some (be32 7)); Property (cstr "flag") (Some [])] []].

Lemma proc_tree_read_witness :
  of_read_proc_devicetree None (Ok (proc_entries ex_proc_tree)) (Err (- ENOENT)) = Ok ex_proc_tree.
Proof. apply (proc_tree_read ex_proc_tree (Err (- ENOENT))); vm_compute; reflexivity. Defined.

(** ** Listings in any order *)

(** Directories do not promise an order, and the kernel shows a file [name] for nodes
    that have no such property. *)
Definition made_up (extra : list property) : Prop := extra = [] \/ exists v, extra = [Property (cstr "name") (Some v)].

(** A listing of the directory of a node: the directory itself and the one above it, a
    file for every property and perhaps the file [name], a directory for every child;
    in some order, and no two of the same name. *)
Inductive shows : device_node -> list dirent -> Prop :=
| Shows nm fn ph ps cs extra dirs es :
    made_up extra -> Forall2 (fun c d => exists es', d = SubDir (dn_name c) (Ok tt) es' /\ shows c es') cs dirs ->
    NoDup (d_name <$> es) ->
    es ≡ₚ [OtherFile (cstr "."); OtherFile (cstr "..")] ++ map prop_file (extra ++ ps) ++ dirs ->
    shows (DeviceNode nm fn ph ps cs) es.

(** The same tree up to the order of properties and children and the files [name]. *)
Inductive same_tree : device_node -> device_node -> Prop :=
| SameTree nm fn ph ps ps' cs cs1 cs' extra :
    made_up extra -> ps' ≡ₚ extra ++ ps -> Forall2 same_tree cs cs1 -> cs' ≡ₚ cs1 ->
    same_tree (DeviceNode nm fn ph ps cs) (DeviceNode nm fn ph ps' cs').

(** What the entries of a directory become, below the node with the path [fn]. *)
Definition file_prop (d : dirent) : option property :=
  match d with
  | RegFile name f => match f_read f with Ok data => Some (Property name (Some data)) | _ => None end
  | _ => None
  end.
Definition sub_tree (fn : bytes) (d : dirent) : option device_node :=
  match d with
  | SubDir name _ es =>
      match scan_with scan_entry es (DeviceNode name (fn ++ cstr "/" ++ name) 0 [] []) with Ok (_, c) => Some c | _ => None end
  | _ => None
  end.

Lemma same_tree_name n m : same_tree n m -> dn_name m = dn_name n.
Proof. by destruct 1. Qed.

(** A tree with the entries of its nodes in the order of the listings. *)
Definition sub_dir (d : dirent) : option (bytes * list dirent) :=
  match d with SubDir name _ es => Some (name, es) | _ => None end.
Inductive listed : list dirent -> device_node -> Prop :=
| Listed es nm fn ph cs :
    Forall2 (fun d c => dn_name c = fst d /\ listed (snd d) c) (omap sub_dir es) cs ->
    listed es (DeviceNode nm fn ph (omap file_prop es) cs).

(** Entries that are read without an error. *)
Definition readable (fn : bytes) (d : dirent) : Prop :=
  match d with
  | RegFile name f => visible name = true /\
      exists data, f = File (length data) (Ok data) /\ (name = cstr "phandle" -> length data = 4%nat)
  | SubDir name opens es => visible name = true /\ opens = Ok tt /\
      exists c, scan_with scan_entry es (DeviceNode name (fn ++ cstr "/" ++ name) 0 [] []) = Ok (0, c) /\
        dn_name c = name /\ listed es c
  | OtherFile _ => True
  | NoStat _ _ => False
  end.

(** Whatever the order, every entry does its part. *)
Lemma scan_readable es : forall nm fn ph ps cs, Forall (readable fn) es ->
  scan_with scan_entry es (DeviceNode nm fn ph ps cs)
  = Ok (0, DeviceNode nm fn (dn_phandle (fold_left add_prop (omap file_prop es) (DeviceNode nm fn ph [] [])))
             (ps ++ omap file_prop es) (cs ++ omap (sub_tree fn) es)).
Proof.
  induction es as [|d es IH]; intros nm fn ph ps cs; [intros _; cbn; by rewrite !app_nil_r|].
  intros [Hd Hes]%Forall_cons_1. cbn [scan_with]. destruct d as [name f|name opens sub|name|name e]; cbn [readable] in Hd; [| | |done].
  - destruct Hd as (Hv & data & -> & Hph). rewrite visible_hidden by done. cbn [scan_entry omap list_omap file_prop sub_tree f_read].
    unfold scan_file. cbn [f_read st_size]. rewrite take_ge, Nat.sub_diag by lia. cbn [zeros replicate]. rewrite app_nil_r.
    unfold of_new_property, set_properties, set_phandle. cbn [dn_name dn_full_name dn_phandle dn_properties dn_children fold_left].
    unfold add_prop at 2. unfold new_property, of_new_property, set_properties, set_phandle. cbn [pr_name pr_value default id].
    case_bool_decide as E; cbn [andb].
    + rewrite Hph by done. cbn [Nat.ltb Nat.leb Nat.eqb mbind outcome_bind Z.eqb]. rewrite take_ge by (rewrite Hph; done).
      cbn [dn_name dn_full_name dn_phandle dn_properties dn_children]. rewrite IH, <-app_assoc by done. do 3 f_equal. by apply phandle_congr.
    + cbn [mbind outcome_bind Z.eqb]. rewrite IH, <-app_assoc by done. do 3 f_equal. by apply phandle_congr.
  - destruct Hd as (Hv & -> & c & Hc & _). rewrite visible_hidden by done. cbn [scan_entry omap list_omap file_prop sub_tree of_new_node dn_full_name].
    rewrite Hc. cbn [mbind outcome_bind Z.eqb]. unfold add_child. cbn [dn_name dn_full_name dn_phandle dn_properties dn_children].
    by rewrite IH, <-app_assoc.
  - destruct (hidden (OtherFile name)); cbn [scan_entry omap list_omap file_prop sub_tree mbind outcome_bind Z.eqb]; by apply IH.
Qed.

Lemma readable_listed fn es : Forall (readable fn) es ->
  Forall2 (fun d c => dn_name c = fst d /\ listed (snd d) c) (omap sub_dir es) (omap (sub_tree fn) es).
Proof.
  induction 1 as [|d es Hd _ IH]; [constructor|]. destruct d as [name f|name opens sub|name|name e]; [exact IH| |exact IH|done].
  destruct Hd as (_ & _ & c & Hc & Hl). cbn [omap list_omap sub_dir sub_tree]. rewrite Hc. by constructor.
Qed.

(** One property at most is the phandle. *)
Lemma phandle_perm ps ps' : ps ≡ₚ ps' -> NoDup (pr_name <$> ps) -> forall a,
  dn_phandle (fold_left add_prop ps a) = dn_phandle (fold_left add_prop ps' a).
Proof.
  induction 1 as [|p ps ps' _ IH|p q ps|ps1 ps2 ps3 H12 IH1 _ IH2]; intros Hn a; cbn [fold_left]; [done| | |].
  - apply list.NoDup_cons in Hn as [_ Hn]. by apply IH.
  - apply list.NoDup_cons in Hn as [Hpq _]. apply phandle_congr. unfold add_prop, new_property, of_new_property, set_properties, set_phandle.
    destruct (bool_decide (pr_name p = cstr "phandle") && _) eqn:Ep, (bool_decide (pr_name q = cstr "phandle") && _) eqn:Eq; try done.
    apply andb_true_iff in Ep as [Ep%bool_decide_eq_true_1 _]. apply andb_true_iff in Eq as [Eq%bool_decide_eq_true_1 _].
    destruct Hpq. cbn. rewrite Ep, Eq. by left.
  - rewrite IH1 by done. apply IH2. by rewrite <-H12.
Qed.

Lemma made_up_phandle extra a : made_up extra -> dn_phandle (fold_left add_prop extra a) = dn_phandle a.
Proof. by intros [->|[v ->]]. Qed.

Lemma omap_files ps : forallb prop_ok ps = true -> omap file_prop (map prop_file ps) = ps.
Proof.
  induction ps as [|[n v] ps IH]; [done|]. cbn [forallb map]. intros [[_ [w Hw]]%prop_ok_inv Hps]%andb_true_iff. cbn [pr_value] in Hw. subst v.
  cbn. by rewrite IH.
Qed.
Lemma omap_made_up extra : made_up extra -> omap file_prop (map prop_file extra) = extra.
Proof. by intros [->|[v ->]]. Qed.
Lemma omap_file_trees fn ps : omap (sub_tree fn) (map prop_file ps) = [].
Proof. by induction ps. Qed.
Lemma prop_names ps : d_name <$> map prop_file ps = pr_name <$> ps.
Proof. induction ps as [|p ps IH]; [done|]. cbn. by rewrite IH. Qed.

(** The children of a node that is shown are read, each to its tree. *)
Lemma shown_children fn cs dirs :
  Forall2 (fun c d => exists es m, d = SubDir (dn_name c) (Ok tt) es /\ visible (dn_name c) = true /\
    scan_with scan_entry es (DeviceNode (dn_name c) (fn ++ cstr "/" ++ dn_name c) 0 [] []) = Ok (0, m) /\ same_tree c m /\ listed es m) cs dirs ->
  Forall (readable fn) dirs /\ omap file_prop dirs = [] /\ Forall2 same_tree cs (omap (sub_tree fn) dirs).
Proof.
  induction 1 as [|c d cs dirs (es & m & -> & Hv & Hs & Ht & Hl) _ (Hr & Hf & Hcs)]; [done|]. split; [|split; [done|]].
  - constructor; [|done]. cbn. split; [done|]. split; [done|]. exists m. split; [done|]. split; [by apply same_tree_name|done].
  - cbn [omap list_omap sub_tree]. rewrite Hs. by constructor.
Qed.

(** Whatever listing shows a tree, the scan reads the tree in the order of the listing. *)
Lemma scan_shows np : forall full es, dt_ok full np = true -> proc_ok np = true -> shows np es ->
  exists m, scan_with scan_entry es (DeviceNode (dn_name np) full 0 [] []) = Ok (0, m) /\ same_tree np m /\ listed es m.
Proof.
  induction np as [nm fn ph ps cs IH] using device_node_ind. intros full es Hok Hp Hs.
  inversion Hs as [? ? ? ? ? extra dirs ? Hx Hdirs Hnd Hes]; subst. cbn [dn_name].
  cbn [proc_ok] in Hp. apply andb_true_iff in Hp as [Hps Hcs].
  cbn [dt_ok] in Hok. apply andb_true_iff in Hok as [Hok Hds]. apply andb_true_iff in Hok as [Hok Hpo].
  apply andb_true_iff in Hok as [Hok ->%Z.eqb_eq]. apply andb_true_iff in Hok as [->%bool_decide_eq_true_1 _].
  destruct (shown_children full cs dirs) as (Hr & Hf & Hst).
  { clear Hs Hes Hnd Hpo Hps. revert Hcs Hds IH. induction Hdirs as [|c d cs dirs (es' & -> & Hc) _ IHd]; [constructor|].
    cbn [forallb]. intros [[Hv Hpc]%andb_true_iff Hcs]%andb_true_iff [Hdc Hds]%andb_true_iff [IHc IH]%Forall_cons_1.
    constructor; [|by apply IHd]. destruct (IHc _ es' Hdc Hpc Hc) as (m & Hm & Ht). by exists es', m. }
  assert (Hread : Forall (readable full) es).
  { rewrite Hes. repeat (constructor; [done|]). apply Forall_app. split; [|done]. rewrite map_app. apply Forall_app. split.
    - destruct Hx as [->|[v ->]]; constructor; [|done]. split; [done|]. by exists v.
    - clear -Hps Hpo. induction ps as [|p ps IH]; [done|]. cbn [forallb] in *.
      apply andb_true_iff in Hps as [[Hv Hz]%andb_true_iff Hps]. apply andb_true_iff in Hpo as [Hp Hpo]. constructor; [|by apply IH].
      split; [done|]. exists (prop_data p). split; [done|]. intros E. unfold phandle_size in Hz. rewrite bool_decide_eq_true_2 in Hz by done. by apply Nat.eqb_eq in Hz. }
  rewrite scan_readable by done. eexists. split; [done|]. cbn [app]. split; [|constructor; by apply readable_listed].
  assert (Hfiles : omap file_prop es ≡ₚ extra ++ ps).
  { rewrite Hes, !omap_app, Hf, app_nil_r, map_app, omap_app. cbn [omap list_omap file_prop app]. by rewrite omap_made_up, omap_files. }
  assert (Htrees : omap (sub_tree full) es ≡ₚ omap (sub_tree full) dirs).
  { rewrite Hes, !omap_app, omap_file_trees. done. }
  assert (Hph : dn_phandle (fold_left add_prop (omap file_prop es) (DeviceNode nm full 0 [] [])) = phandle_of ps).
  { rewrite (phandle_perm _ _ Hfiles), fold_left_app.
    - unfold phandle_of. apply phandle_congr. by rewrite made_up_phandle.
    - rewrite Hfiles. rewrite Hes in Hnd. rewrite !fmap_app in Hnd. apply list.NoDup_app in Hnd as (_ & _ & Hnd).
      apply list.NoDup_app in Hnd as (Hnd & _). by rewrite !prop_names, <-fmap_app in Hnd. }
  rewrite Hph. by eapply SameTree.
Qed.

Lemma read_shown np es proc : root_ok np = true -> proc_ok np = true -> shows np es ->
  exists m, of_read_proc_devicetree None (Ok es) proc = Ok m /\ same_tree np m /\ listed es m.
Proof.
  intros Hok Hp Hs. unfold root_ok in Hok. apply andb_true_iff in Hok as [Hn%bool_decide_eq_true_1 Hok].
  destruct (scan_shows np [] es Hok Hp Hs) as (m & Hm & Ht). rewrite Hn in Hm. exists m. split; [|done].
  unfold of_read_proc_devicetree, scan_proc_dir. cbn [read_file of_new_node]. by rewrite Hm.
Qed.

(** Without a blob from the firmware, reading directories that show a tree gives that
    tree, but for the files [name] and with properties and children in the order of the
    listings. *)
Theorem shown_tree_read np es proc (Hok : root_ok np = true) (Hp : proc_ok np = true) (Hs : shows np es) :
  exists m, of_read_proc_devicetree None (Ok es) proc = Ok m /\ same_tree np m /\ listed es m.
Proof. by apply read_shown. Qed.

(** The directories of the tree above, with the children first and files [name]. *)
Definition ex_sub_listing : list dirent :=
  [OtherFile (cstr "."); OtherFile (cstr ".."); RegFile (cstr "name") (File 5 (Ok (cstr "gpio" ++ [0u8])));
   RegFile (cstr "flag") (File 0 (Ok [])); RegFile (cstr "phandle") (File 4 (Ok (be32 7)))].
Definition ex_listing : list dirent :=
  [SubDir (cstr "gpio") (Ok tt) ex_sub_listing; OtherFile (cstr "."); RegFile (cstr "model") (File 6 (Ok (cstr "board" ++ [0u8]))); OtherFile (cstr "..");
   RegFile (cstr "name") (File 1 (Ok [0u8]))].

Lemma names_unique es : bool_decide (NoDup (d_name <$> es)) = true -> NoDup (d_name <$> es).
Proof. by intros H%bool_decide_eq_true_1. Qed.
Lemma ex_listing_shows : shows ex_proc_tree ex_listing.
Proof.
  eapply (Shows _ _ _ _ _ [Property (cstr "name") (Some [0u8])] [SubDir (cstr "gpio") (Ok tt) ex_sub_listing]).
  - right. by eexists.
  - constructor; [|constructor]. eexists. split; [reflexivity|].
    eapply (Shows _ _ _ _ _ [Property (cstr "name") (Some (cstr "gpio" ++ [0u8]))] []); [right; by eexists|constructor| |].
    + apply names_unique. vm_compute. reflexivity.
    + cbn [map app]. do 3 constructor. apply perm_swap.
  - apply names_unique. vm_compute. reflexivity.
  - unfold ex_listing. cbn [map app]. solve_Permutation.
Qed.

Lemma shown_tree_read_witness :
  exists m, of_read_proc_devicetree None (Ok ex_listing) (Err (- ENOENT)) = Ok m /\ same_tree ex_proc_tree m /\ listed ex_listing m.
Proof. apply (shown_tree_read ex_proc_tree ex_listing (Err (- ENOENT))); [vm_compute; reflexivity..|exact ex_listing_shows]. Defined.

(** When the scan of the first directory fails in its middle, the second one is
    read into what it left. *)
Example proc_scan_twice :
  let broken := [RegFile (cstr "model") (File 1 (Ok [0u8])); RegFile (cstr "serial") (File 4 (Err (- 13)))] in
  let fine := [RegFile (cstr "model") (File 1 (Ok [0u8]))] in
  of_read_proc_devicetree None (Ok broken) (Ok fine)
  = Ok (DeviceNode [] [] 0 [Property (cstr "model") (Some [0u8]); Property (cstr "model") (Some [0u8])] []).
Proof. reflexivity. Qed.
