(* ===== verification/Dtblint.v ===== *)
(** * dtblint (src/dtblint.c, src/dtblint-imx-pinmux.c)

    The checks of a device tree blob: the pins of the i.MX pin multiplexers against
    the tables of their registers, and the polarity of two kinds of reset lines.
    What is printed is a list of messages. *)

From S2P Require Import Prelude Dt Fdt FdtLaws FdtParse Tree Proc PinTables.

(** ** Pads *)

Definition IMX_PAD_SION : Z := 0x40000000.
Definition IOMUXC_CONFIG_SION : Z := Z.shiftl 1 4.

(** [struct socinfo]; the size is the length of the table. *)
Definition socinfo : Type := list padinfo.

Fixpoint find_padinfo (offset : Z) (soc : socinfo) : option padinfo :=
  match soc with
  | [] => None
  | p :: soc' => if swmux_regoffset p =? offset then Some p else find_padinfo offset soc'
  end.

(** What is printed; names are those of the pad or the path of the node. *)
Inductive message : Type :=
| NoPinsProperty (node : bytes)
| PinsInvalid (node : bytes)
| UnknownPad (mux_reg : Z)
| WrongPadRegister (pad : string)
| ConfigWithoutRegister (pad : string)
| UseConfigValue (value : Z) (pad : string)
| ReservedBits (pad : string) (bits : Z)
| PhyResetPolarity (node : bytes)
| PcieResetPolarity (node : bytes).

(** Complement of 32 bits. *)
Definition not32 (x : Z) : Z := Z.lxor x 0xffffffff.

(** The six cells of a pin as the loop of [parse_function] holds them. *)
Record pin : Type := Pin { mux_reg : Z; conf_reg : Z; input_reg : Z; mux_mode : Z; input_val : Z; config : Z }.

Definition read_pin (cs : list Z) : pin :=
  let cell i := nth i cs 0 in
  let conf_reg := if cell 1%nat =? 0 then -1 else cell 1%nat in
  let config := cell 5%nat in
  Pin (cell 0%nat) conf_reg (cell 2%nat)
    (if negb (Z.land config IMX_PAD_SION =? 0) then Z.lor (cell 3%nat) IOMUXC_CONFIG_SION else cell 3%nat)
    (cell 4%nat) (Z.land config (not32 IMX_PAD_SION)).

(** The sanity checks of one pin. *)
Definition check_pin (soc : socinfo) (pin : pin) : list message :=
  match find_padinfo (mux_reg pin) soc with
  | None => [UnknownPad (mux_reg pin)]
  | Some padinfo =>
      (if conf_reg pin =? swpad_regoffset padinfo then [] else [WrongPadRegister (padname padinfo)])
      ++ (if conf_reg pin =? -1 then
            if config pin =? 0x80000000 then [] else [ConfigWithoutRegister (padname padinfo)]
          else if config pin =? 0x80000000 then [UseConfigValue (swpad_reset_default padinfo) (padname padinfo)]
          else
            let bits := Z.land (Z.lxor (config pin) (swpad_reset_default padinfo)) (not32 (swpad_writeable_mask padinfo)) in
            if bits =? 0 then [] else [ReservedBits (padname padinfo) bits])
  end.

(** The loop over [n] pins of six cells. *)
Fixpoint check_pins (n : nat) (soc : socinfo) (cs : list Z) : list message :=
  match n with
  | O => []
  | S n' => check_pin soc (read_pin (take 6 cs)) ++ check_pins n' soc (drop 6 cs)
  end.

Definition parse_function (funcnode : device_node) (soc : socinfo) : Z * list message :=
  match of_get_property funcnode (cstr "fsl,pins") with
  | None => (- EINVAL, [NoPinsProperty (dn_full_name funcnode)])
  | Some value =>
      let size := length value in
      if (size =? 0)%nat || negb (size mod 24 =? 0)%nat then (- EINVAL, [PinsInvalid (dn_full_name funcnode)])
      else (0, check_pins (size / 24) soc (cells 4 (size / 4) value))
  end.

Definition iomux_id : list (string * socinfo) :=
  [("fsl,imx25-iomuxc"%string, imx25_iomux_padinfo); ("fsl,imx6dl-iomuxc"%string, imx6dl_iomux_padinfo);
   ("fsl,imx6q-iomuxc"%string, imx6q_iomux_padinfo)].

(** ** Loops over nodes *)

(** [for_each_compatible_node]: every search starts at the node found last. *)
Fixpoint for_each_compatible_node (fuel : nat) (root : device_node) (from : node_ref) (compat : bytes)
    (body : device_node -> outcome (list message)) : outcome (list message) :=
  match fuel with
  | O => Undef
  | S fuel' =>
      dn ← of_find_compatible_node root from compat;
      match dn with
      | None => Ok []
      | Some p =>
          a ← (match node_at root p with Some np => body np | None => Undef end);
          b ← for_each_compatible_node fuel' root p compat body; Ok (a ++ b)
      end
  end.
Definition tree_size (root : device_node) : nat := length (flat [] root).

(** The loop over a table around it. *)
Fixpoint for_each_entry {A} (body : A -> outcome (list message)) (l : list A) : outcome (list message) :=
  match l with
  | [] => Ok []
  | x :: l' => a ← body x; b ← for_each_entry body l'; Ok (a ++ b)
  end.

(** The children of a pin multiplexer: functions, or groups of functions. *)
Definition check_iomuxc (soc : socinfo) (np : device_node) : list message :=
  mjoin ((fun npc => if of_property_read_bool npc (cstr "fsl,pins") then snd (parse_function npc soc)
                     else mjoin ((fun npcc => snd (parse_function npcc soc)) <$> dn_children npc)) <$> dn_children np).

Definition dtblint_imx_pinmux (root : device_node) : outcome (list message) :=
  for_each_entry (fun id => for_each_compatible_node (S (tree_size root)) root [] (cstr (fst id))
                              (fun np => Ok (check_iomuxc (snd id) np))) iomux_id.

(** ** Reset lines *)

Definition fsl_fec_compatibles : list string :=
  ["fsl,imx25-fec"; "fsl,imx27-fec"; "fsl,imx28-fec"; "fsl,imx6q-fec"; "fsl,imx6sx-fec"; "fsl,mvf600-fec"]%string.
Definition fsl_pcie_compatibles : list string :=
  ["fsl,imx6q-pcie"; "fsl,imx6sx-pcie"; "fsl,imx6qp-pcie"; "fsl,imx7d-pcie"]%string.

(** What both loops do with a node: the flag of the line against the property. *)
Definition check_reset (root : device_node) (gpio active_high : bytes) (msg : message) (np : device_node)
  : outcome (list message) :=
  let active_high_property := of_property_read_bool np active_high in
  '(ret, out_args) ← of_parse_phandle_with_args root np gpio (cstr "#gpio-cells") 0;
  if ret <? 0 then Ok [] else
  match out_args with
  | None => Undef
  | Some a =>
      if (length (pa_args a) <? 2)%nat then Ok [] else
      let active_high_gpio_flag := nth 1 (pa_args a) 0 =? 0 in
      Ok (if eqb active_high_gpio_flag active_high_property then [] else [msg])
  end.

Definition fsl_fec_reset_polarity (root : device_node) : outcome (list message) :=
  for_each_entry (fun compat => for_each_compatible_node (S (tree_size root)) root [] (cstr compat)
    (fun np => check_reset root (cstr "phy-reset-gpios") (cstr "phy-reset-active-high") (PhyResetPolarity (dn_full_name np)) np))
    fsl_fec_compatibles.
Definition fsl_pcie_reset_polarity (root : device_node) : outcome (list message) :=
  for_each_entry (fun compat => for_each_compatible_node (S (tree_size root)) root [] (cstr compat)
    (fun np => check_reset root (cstr "reset-gpio") (cstr "reset-gpio-active-high") (PcieResetPolarity (dn_full_name np)) np))
    fsl_pcie_compatibles.

(** [main] from the tree on, and [main]: the exit code and the messages. *)
Definition dtblint_tree (root : device_node) : outcome (list message) :=
  _ ← of_set_root_node (Some root) (OfState None []);
  a ← dtblint_imx_pinmux root; b ← fsl_fec_reset_polarity root; c ← fsl_pcie_reset_polarity root;
  Ok (a ++ b ++ c).

(** ** The tables *)

Lemma find_padinfo_some off soc e : find_padinfo off soc = Some e -> e ∈ soc /\ swmux_regoffset e = off.
Proof.
  induction soc as [|p soc IH]; [done|]. cbn. destruct (Z.eqb_spec (swmux_regoffset p) off).
  - intros [= <-]. split; [by left|done].
  - intros H. destruct (IH H). split; [by right|done].
Qed.

(** Every entry is the one its offset finds, registers are words of a page, masks
    and values have 32 bits. *)
Definition register_ok (off : Z) : bool := (0 <=? off) && (off <? 4096) && (off mod 4 =? 0).
Definition word_ok (v : Z) : bool := (0 <=? v) && (v <? 2 ^ 32).
Definition padinfo_ok (soc : socinfo) (e : padinfo) : bool :=
  bool_decide (find_padinfo (swmux_regoffset e) soc = Some e)
  && register_ok (swmux_regoffset e) && ((swpad_regoffset e =? -1) || register_ok (swpad_regoffset e))
  && word_ok (swpad_reset_default e) && word_ok (swpad_writeable_mask e).
Definition soc_ok (soc : socinfo) : bool := forallb (padinfo_ok soc) soc.

Lemma iomux_id_ok id : id ∈ iomux_id -> soc_ok (snd id) = true.
Proof.
  assert (H : forallb (fun id => soc_ok (snd id)) iomux_id = true) by (vm_compute; reflexivity).
  rewrite forallb_forall in H. intros Hid. apply H. by apply list_elem_of_In.
Qed.

Lemma soc_entry soc e : soc_ok soc = true -> e ∈ soc -> padinfo_ok soc e = true.
Proof. unfold soc_ok. rewrite forallb_forall. intros H He. by apply H, list_elem_of_In. Qed.

Lemma find_padinfo_iff soc off e : soc_ok soc = true ->
  find_padinfo off soc = Some e <-> e ∈ soc /\ swmux_regoffset e = off.
Proof.
  intros Hs. split; [apply find_padinfo_some|]. intros [He <-]. pose proof (soc_entry _ _ Hs He) as H.
  unfold padinfo_ok in H. do 4 apply andb_true_iff in H as [H _]. by apply bool_decide_eq_true_1 in H.
Qed.

Lemma soc_entry_mask soc e : soc_ok soc = true -> e ∈ soc -> 0 <= swpad_writeable_mask e < 2 ^ 32.
Proof.
  intros Hs He. pose proof (soc_entry _ _ Hs He) as H. unfold padinfo_ok, word_ok in H.
  apply andb_true_iff in H as [_ H]. lia.
Qed.

(** ** Reserved bits *)

Lemma not32_bit m i : 0 <= m < 2 ^ 32 -> 0 <= i -> Z.testbit (not32 m) i = (i <? 32) && negb (Z.testbit m i).
Proof.
  intros Hm Hi. unfold not32. rewrite Z.lxor_spec. change 0xffffffff with (Z.ones 32).
  destruct (Z.ltb_spec i 32).
  - rewrite Z.ones_spec_low by lia. by destruct (Z.testbit m i).
  - rewrite Z.ones_spec_high by lia. destruct (Z.eq_dec m 0) as [->|]; [by rewrite Z.bits_0|].
    rewrite Z.bits_above_log2; [done|lia|]. apply Z.log2_lt_pow2; [lia|].
    assert (2 ^ 32 <= 2 ^ i) by (apply Z.pow_le_mono_r; lia). lia.
Qed.

(** The configuration leaves the bits that cannot be written as they are. *)
Definition keeps_reserved (e : padinfo) (config : Z) : Prop :=
  forall i, 0 <= i < 32 -> Z.testbit (swpad_writeable_mask e) i = false ->
  Z.testbit config i = Z.testbit (swpad_reset_default e) i.

Lemma reserved_bits_zero e config : 0 <= swpad_writeable_mask e < 2 ^ 32 ->
  Z.land (Z.lxor config (swpad_reset_default e)) (not32 (swpad_writeable_mask e)) = 0 <-> keeps_reserved e config.
Proof.
  intros Hm. unfold keeps_reserved. split.
  - intros H i Hi Hb. apply (f_equal (fun z => Z.testbit z i)) in H.
    rewrite Z.land_spec, Z.lxor_spec, not32_bit, Z.bits_0, Hb in H by lia.
    rewrite (proj2 (Z.ltb_lt i 32)) in H by lia. cbn [negb andb] in H. rewrite andb_true_r in H. by apply xorb_eq in H.
  - intros H. apply Z.bits_inj'. intros i Hi. rewrite Z.land_spec, Z.lxor_spec, not32_bit, Z.bits_0 by lia.
    destruct (Z.ltb_spec i 32); [|by rewrite andb_false_r].
    destruct (Z.testbit (swpad_writeable_mask e) i) eqn:Hb; cbn [negb andb]; [by rewrite andb_false_r|].
    rewrite H by (done || lia). by rewrite xorb_nilpotent.
Qed.

(** ** The verdict on a function *)

(** What a pin needs to pass without a message. *)
Definition pin_fits (soc : socinfo) (p : pin) : Prop :=
  exists e, e ∈ soc /\ swmux_regoffset e = mux_reg p /\ swpad_regoffset e = conf_reg p
  /\ (conf_reg p = -1 -> config p = 0x80000000)
  /\ (conf_reg p <> -1 -> config p <> 0x80000000 /\ keeps_reserved e (config p)).

Lemma check_pin_clean soc p : soc_ok soc = true -> check_pin soc p = [] <-> pin_fits soc p.
Proof.
  intros Hs. unfold check_pin, pin_fits. destruct (find_padinfo (mux_reg p) soc) as [e|] eqn:Ef.
  - apply find_padinfo_iff in Ef as [He Hm]; [|done]. pose proof (soc_entry_mask _ _ Hs He) as Hw.
    pose proof (reserved_bits_zero e (config p) Hw) as Hr. split.
    + intros [H1 H2]%app_eq_nil. exists e. split; [done|]. split; [done|].
      destruct (Z.eqb_spec (conf_reg p) (swpad_regoffset e)); [|done]. split; [done|].
      destruct (Z.eqb_spec (conf_reg p) (-1)); destruct (Z.eqb_spec (config p) 0x80000000); try done.
      destruct (Z.eqb_spec (Z.land (Z.lxor (config p) (swpad_reset_default e)) (not32 (swpad_writeable_mask e))) 0) as [Hb|]; [|done].
      split; [done|]. intros _. split; [done|]. by apply Hr.
    + intros (e' & He' & Hm' & Hp & H1 & H2).
      assert (e' = e) as ->.
      { assert (Some e' = Some e); [|congruence]. rewrite <-(proj2 (find_padinfo_iff soc (mux_reg p) e' Hs)) by done.
        by apply find_padinfo_iff. }
      rewrite (proj2 (Z.eqb_eq _ _) (eq_sym Hp)). cbn [app]. destruct (Z.eqb_spec (conf_reg p) (-1)) as [E|E].
      * by rewrite (proj2 (Z.eqb_eq _ _) (H1 E)).
      * destruct (H2 E) as [Hc Hk]. rewrite (proj2 (Z.eqb_neq _ _) Hc). apply Hr in Hk. by rewrite Hk.
  - split; [done|]. intros (e & He & Hm & _).
    assert (find_padinfo (mux_reg p) soc = Some e) by (by apply find_padinfo_iff). congruence.
Qed.

Lemma check_pins_all soc pins : Forall (fun p => length p = 6%nat) pins ->
  check_pins (length pins) soc (mjoin pins) = mjoin ((fun p => check_pin soc (read_pin p)) <$> pins).
Proof.
  induction 1 as [|p pins Hp _ IH]; [done|]. rewrite fmap_cons. change (mjoin (?x :: ?l)) with (x ++ mjoin l).
  cbn [length check_pins]. rewrite take_app_length', drop_app_length' by done. by rewrite IH.
Qed.

Lemma length_join pins : Forall (fun p : list Z => length p = 6%nat) pins -> length (mjoin pins) = (length pins * 6)%nat.
Proof.
  induction 1 as [|p pins Hp _ IH]; [done|]. change (mjoin (p :: pins)) with (p ++ mjoin pins).
  rewrite length_app, IH, Hp. done.
Qed.

(** C17: a list of pins is taken apart into its pins and each of them checked, and
    against the tables of the program no message means exactly that each pin is in
    the table with its two registers, and that its value changes no bit that cannot
    be written (or that there is no register and no value). *)
Theorem parse_function_verdict np id pins (Hid : id ∈ iomux_id) (Hne : pins <> [])
    (Hpins : Forall (fun p => length p = 6%nat /\ Forall (fun v => 0 <= v < 2 ^ 32) p) pins)
    (Hv : of_get_property np (cstr "fsl,pins") = Some (mjoin (be_cell 4 <$> mjoin pins))) :
  exists ms, parse_function np (snd id) = (0, ms)
  /\ ms = mjoin ((fun p => check_pin (snd id) (read_pin p)) <$> pins)
  /\ (ms = [] <-> Forall (fun p => pin_fits (snd id) (read_pin p)) pins).
Proof.
  assert (H6 : Forall (fun p => length p = 6%nat) pins) by (eapply Forall_impl; [|exact Hpins]; cbn; tauto).
  assert (Hw : Forall (fun v => 0 <= v < 2 ^ (8 * Z.of_nat 4)) (mjoin pins)).
  { clear -Hpins. induction Hpins as [|p pins [_ Hp] _ IH]; [constructor|].
    change (mjoin (p :: pins)) with (p ++ mjoin pins). apply Forall_app. by split. }
  eexists. split; [|split; [reflexivity|]].
  - unfold parse_function. rewrite Hv, length_cells, length_join by done.
    assert (0 < length pins)%nat by (by destruct pins; [|cbn; lia]).
    rewrite (proj2 (Nat.eqb_neq _ 0)) by lia. replace (length pins * 6 * 4)%nat with (length pins * 24)%nat by lia.
    rewrite Nat.Div0.mod_mul, Nat.div_mul by lia. cbn [Nat.eqb negb orb]. f_equal.
    replace (length pins * 24 / 4)%nat with (length (mjoin pins)).
    2:{ rewrite length_join by done. replace (length pins * 24)%nat with (length pins * 6 * 4)%nat by lia. by rewrite Nat.div_mul by lia. }
    pose proof (cells_app 4 (mjoin pins) [] Hw) as E. rewrite app_nil_r in E. rewrite E. by apply check_pins_all.
  - pose proof (iomux_id_ok _ Hid) as Hs. clear -Hs. induction pins as [|p pins IH]; [by split; [constructor|]|].
    rewrite fmap_cons. change (mjoin (?x :: ?l)) with (x ++ mjoin l). rewrite list.Forall_cons. rewrite <-IH, <-check_pin_clean by done.
    split; [apply app_eq_nil|]. by intros [-> ->].
Qed.

(** Two pins of the i.MX25: A13 as it is after reset but for its one writeable bit,
    and A10, which has no pad register, with a value nevertheless. *)
Definition ex_pins : list (list Z) := [[0x00c; 0x22c; 0; 0; 0; 0x00]; [0x008; 0; 0; 0; 0; 0x20]].
Definition ex_function : device_node :=
  DeviceNode (cstr "uart") (cstr "/iomuxc/uart") 0 [Property (cstr "fsl,pins") (Some (mjoin (be_cell 4 <$> mjoin ex_pins)))] [].

Lemma parse_function_verdict_witness :
  parse_function ex_function imx25_iomux_padinfo = (0, [ConfigWithoutRegister "A10"])
  /\ ~ Forall (fun p => pin_fits imx25_iomux_padinfo (read_pin p)) ex_pins.
Proof.
  destruct (parse_function_verdict ex_function ("fsl,imx25-iomuxc"%string, imx25_iomux_padinfo) ex_pins) as (ms & Hp & Hm & Hiff).
  - left.
  - discriminate.
  - repeat constructor; lia.
  - reflexivity.
  - cbn [snd] in *. assert (Hms : ms = [ConfigWithoutRegister "A10"]) by (rewrite Hm; vm_compute; reflexivity).
    rewrite Hms in *. split; [exact Hp|]. intros H%Hiff. discriminate H.
Defined.

(** ** Every compatible node is visited *)

Lemma nodes_behind_split from m pre l : forall k, NoDup k.*1 -> k = pre ++ (from, m) :: l -> nodes_behind from k = l.
Proof.
  induction pre as [|[p n] pre IH]; intros k Hn ->; cbn [app nodes_behind]; [by rewrite decide_True|].
  rewrite fmap_app, fmap_cons in Hn. cbn [fst app fmap list_fmap] in Hn. apply list.NoDup_cons in Hn as [Hp Hn].
  rewrite decide_False by (intros ->; set_solver). apply IH; [|done]. by rewrite fmap_app.
Qed.

Section Visit.
Context (root : device_node) (compat : bytes) (c : device_node -> bool) (body : device_node -> outcome (list message)).
Context (Hc : forall p np, node_at root p = Some np -> of_device_is_compatible np compat = Ok (c np)).

Lemma visit_from l : forall fuel pre from m, flat [] root = pre ++ (from, m) :: l -> (length l < fuel)%nat ->
  for_each_compatible_node fuel root from compat body
  = for_each_entry (fun n => if c (snd n) then body (snd n) else Ok []) l.
Proof.
  induction l as [|[p np] l IH]; intros [|fuel] pre from m Hf Hl; try (cbn in Hl; lia); cbn [for_each_compatible_node];
    unfold of_find_compatible_node, of_tree_nodes_from;
    rewrite (nodes_behind_split _ _ _ _ _ (flat_nodup root []) Hf); [done|].
  assert (Hp : node_at root p = Some np).
  { assert (Hi : (p, np) ∈ flat [] root) by (rewrite Hf; set_solver). apply elem_of_flat in Hi as (r & -> & Hr). done. }
  assert (Hf' : flat [] root = (pre ++ [(from, m)]) ++ (p, np) :: l) by (by rewrite <-app_assoc).
  cbn [find_node for_each_entry snd length] in *. rewrite (Hc _ _ Hp). cbn [mbind outcome_bind]. destruct (c np).
  - cbn [mbind outcome_bind]. rewrite Hp. rewrite (IH fuel _ _ _ Hf') by lia. done.
  - specialize (IH (S fuel) _ _ _ Hf' ltac:(lia)). cbn [for_each_compatible_node] in IH.
    unfold of_find_compatible_node, of_tree_nodes_from in IH.
    rewrite (nodes_behind_split _ _ _ _ _ (flat_nodup root []) Hf') in IH. rewrite IH.
    cbn [mbind outcome_bind]. destruct (for_each_entry _ l); done.
Qed.

Lemma visit_all : for_each_compatible_node (S (tree_size root)) root [] compat body
  = for_each_entry (fun n => if c (snd n) then body (snd n) else Ok []) (of_tree_nodes_from root []).
Proof.
  unfold of_tree_nodes_from, tree_size. pose proof (flat_eq [] root) as Hf. rewrite Hf. cbn [nodes_behind].
  rewrite decide_True by done. apply (visit_from _ _ [] [] root); [done|]. cbn [length]. lia.
Qed.
End Visit.

Lemma for_each_entry_ok {A} (body : A -> outcome (list message)) l :
  (forall x, x ∈ l -> exists ms, body x = Ok ms) ->
  exists ms, for_each_entry body l = Ok ms
  /\ forall m, m ∈ ms <-> exists x ms', x ∈ l /\ body x = Ok ms' /\ m ∈ ms'.
Proof.
  induction l as [|x l IH]; intros H.
  { exists []. split; [done|]. intros m. split; [by intros ?%not_elem_of_nil|]. by intros (? & ? & ?%not_elem_of_nil & _). }
  destruct (H x) as [a Ha]; [by left|]. destruct IH as (b & Hb & Hm); [intros y Hy; apply H; by right|].
  exists (a ++ b). cbn [for_each_entry]. rewrite Ha, Hb. split; [done|]. intros m. rewrite elem_of_app, Hm. split.
  - intros [Hin|(y & ms & Hy & Hms & Hin)]; [exists x, a|exists y, ms]; repeat split; try done; [by left|by right].
  - intros (y & ms & [->|Hy]%elem_of_cons & Hms & Hin); [left; congruence|right; by exists y, ms].
Qed.

(** The entries of a loop one by one. *)
Ltac each_entry ms Hms Hm :=
  match goal with
  | |- context [for_each_entry ?body ?l] => destruct (for_each_entry_ok body l) as (ms & Hms & Hm)
  end.

(** ** Values that can be compared *)

(** The compatible strings of every node end in a NUL. *)
Definition terminated (np : device_node) : bool :=
  match of_get_property np (cstr "compatible") with
  | None => true
  | Some v => (length v =? 0)%nat || bool_decide (list.last v = Some 0u8)
  end.
Definition tree_terminated (root : device_node) : bool := forallb (fun n => terminated (snd n)) (flat [] root).

Lemma compatible_loop_total fuel : forall cp compat, cp = [] \/ list.last cp = Some 0u8 ->
  exists b, compatible_loop fuel cp compat = Ok b.
Proof.
  induction fuel as [|fuel IH]; intros cp compat H; [by eexists|]. cbn [compatible_loop].
  destruct H as [->|H]; [by eexists|]. destruct (length cp =? 0)%nat; [by eexists|].
  destruct (until_nul_last _ H) as [s Hs]. rewrite Hs. destruct (of_node_cmp s compat); [by eexists|]. apply IH.
  apply until_nul_split in Hs as [r ->]. rewrite drop_string. rewrite last_app_cons, last_cons in H.
  destruct r; [by left|right]. by destruct (list.last _) eqn:E; [|apply last_None in E].
Qed.

Lemma is_compatible_total np compat : terminated np = true -> exists b, of_device_is_compatible np compat = Ok b.
Proof.
  unfold terminated, of_device_is_compatible. destruct (of_get_property np (cstr "compatible")) as [v|]; [|by eexists].
  intros [H%Nat.eqb_eq|H%bool_decide_eq_true_1]%orb_true_iff; apply compatible_loop_total; [left|by right].
  by apply length_zero_iff_nil.
Qed.

Definition compatible_with (compat : bytes) (np : device_node) : bool :=
  match of_device_is_compatible np compat with Ok b => b | _ => false end.

Lemma terminated_at root p np : tree_terminated root = true -> node_at root p = Some np -> terminated np = true.
Proof.
  unfold tree_terminated. rewrite forallb_forall. intros H Hp. apply (H (p, np)). apply list_elem_of_In, elem_of_flat. by exists p.
Qed.

Lemma compatible_with_ok root compat p np : tree_terminated root = true -> node_at root p = Some np ->
  of_device_is_compatible np compat = Ok (compatible_with compat np).
Proof.
  intros Ht Hp. unfold compatible_with. by destruct (is_compatible_total np compat (terminated_at _ _ _ Ht Hp)) as [b ->].
Qed.

(** The loop for one compatible string gathers what the body says on the nodes. *)
Lemma visit_spec root compat body : tree_terminated root = true ->
  (forall np, exists ms, body np = Ok ms) ->
  exists ms, for_each_compatible_node (S (tree_size root)) root [] compat body = Ok ms
  /\ forall m, m ∈ ms <-> exists p np ms', p <> [] /\ node_at root p = Some np
                           /\ of_device_is_compatible np compat = Ok true /\ body np = Ok ms' /\ m ∈ ms'.
Proof.
  intros Ht Hb. rewrite (visit_all root compat (compatible_with compat) body) by (intros p np; by apply compatible_with_ok).
  destruct (for_each_entry_ok (fun n => if compatible_with compat (snd n) then body (snd n) else Ok []) (of_tree_nodes_from root []))
    as (ms & -> & Hm).
  { intros [p np] _. cbn [snd]. destruct (compatible_with compat np); [apply Hb|by eexists]. }
  exists ms. split; [done|]. intros m. rewrite Hm. split.
  - intros ([p np] & ms' & [Hp Hn]%elem_of_tree_nodes & Hms & Hin). cbn [snd] in Hms.
    destruct (compatible_with compat np) eqn:E; [|injection Hms as <-; by apply not_elem_of_nil in Hin].
    exists p, np, ms'. rewrite (compatible_with_ok _ _ _ _ Ht Hn), E. done.
  - intros (p & np & ms' & Hp & Hn & Hcmp & Hms & Hin). exists (p, np), ms'. split; [by apply elem_of_tree_nodes|].
    cbn [snd]. rewrite (compatible_with_ok root _ p) in Hcmp by done. injection Hcmp as ->. done.
Qed.

(** C16: the check of the pins ends on every tree and reaches every multiplexer of a
    kind it knows, wherever it is (the root apart): what is printed is what the
    checks of the multiplexers say, all of it and nothing else. *)
Theorem pinmux_visits root (Ht : tree_terminated root = true) :
  exists ms, dtblint_imx_pinmux root = Ok ms
  /\ forall m, m ∈ ms <-> exists id p np, id ∈ iomux_id /\ p <> [] /\ node_at root p = Some np
       /\ of_device_is_compatible np (cstr (fst id)) = Ok true /\ m ∈ check_iomuxc (snd id) np.
Proof.
  unfold dtblint_imx_pinmux. pose proof (fun id : string * socinfo =>
    visit_spec root (cstr (fst id)) (fun np => Ok (check_iomuxc (snd id) np)) Ht ltac:(by eexists)) as Hv.
  each_entry ms Hms Hm; [intros id _; destruct (Hv id) as (ms & Hms & _); by exists ms|].
  exists ms. split; [exact Hms|]. intros m. rewrite Hm. split.
  - intros (id & ms' & Hid & Hms' & Hin). destruct (Hv id) as (ms2 & H2 & Hm2).
    replace ms' with ms2 in Hin by congruence. apply Hm2 in Hin as (p & np & ms3 & Hp & Hn & Hc & [= <-] & Hin).
    by exists id, p, np.
  - intros (id & p & np & Hid & Hp & Hn & Hc & Hin). destruct (Hv id) as (ms2 & H2 & Hm2).
    exists id, ms2. split; [done|]. split; [done|]. apply Hm2. by exists p, np, (check_iomuxc (snd id) np).
Qed.

(** A board with a pin multiplexer that has the function from above. *)
Definition ex_board : device_node :=
  DeviceNode [] [] 0 []
    [DeviceNode (cstr "iomuxc") (cstr "/iomuxc") 0 [Property (cstr "compatible") (Some (cstr "fsl,imx25-iomuxc" ++ [0u8]))]
       [ex_function]].

Lemma pinmux_visits_witness : exists ms, dtblint_imx_pinmux ex_board = Ok ms /\ ConfigWithoutRegister "A10" ∈ ms.
Proof.
  destruct (pinmux_visits ex_board) as (ms & H & Hm); [vm_compute; reflexivity|]. exists ms. split; [exact H|]. apply Hm.
  exists ("fsl,imx25-iomuxc"%string, imx25_iomux_padinfo), [0%nat],
    (DeviceNode (cstr "iomuxc") (cstr "/iomuxc") 0 [Property (cstr "compatible") (Some (cstr "fsl,imx25-iomuxc" ++ [0u8]))] [ex_function]).
  split; [left|]. split; [discriminate|]. split; [reflexivity|]. split; [vm_compute; reflexivity|].
  replace (check_iomuxc _ _) with [ConfigWithoutRegister "A10"] by (vm_compute; reflexivity). left.
Defined.

(** ** The whole program *)












Example lint_board : dtblint_tree ex_board = Ok [ConfigWithoutRegister "A10"].
Proof. vm_compute. reflexivity. Qed.
