(* ===== verification/Print.v ===== *)
(** * Printing device trees (src/libdt.c, src/fdtdump.c)

    The text of a tree as [of_print_nodes] writes it, with the guess whether a
    value is a list of strings, a list of cells or bytes. The text is the list of
    bytes sent to the standard output. *)

From S2P Require Import Prelude Text Dt Fdt FdtLaws FdtParse Proc.

(** ** Text *)

(** [isprint] of the C locale. *)
Definition isprint (b : Byte.byte) : bool := (32 <=? bval b) && (bval b <=? 126).

(** ** Values *)

(** The loop of [is_printable_string]; a step behind the value would read there. *)
Fixpoint printable_loop (s : bytes) : outcome bool :=
  match s with
  | [] => Undef
  | b :: s' =>
      if bool_decide (b = 0u8) then
        match s' with
        | [] => Ok true
        | c :: _ => if bool_decide (c = 0u8) then Ok false else printable_loop s'
        end
      else if isprint b then printable_loop s' else Ok false
  end.
Definition is_printable_string (data : bytes) : outcome bool :=
  if (length data =? 0)%nat then Ok false
  else if negb (bool_decide (list.last data = Some 0u8)) then Ok false else printable_loop data.

(** The strings of a value, with what stands between them; [j] is the offset. *)
Fixpoint print_strings (fuel j : nat) (data : bytes) : outcome bytes :=
  match fuel with
  | O => Ok []
  | S fuel' =>
      if (length data =? 0)%nat then Ok [] else
      match until_nul data with
      | None => Undef
      | Some s =>
          r ← print_strings fuel' (j + length s + 1) (drop (length s + 1) data);
          Ok ((if (0 <? j)%nat then [Byte.x22] ++ cstr ", " ++ [Byte.x22] else []) ++ s ++ r)
      end
  end.

(** Items with a space between them. *)
Fixpoint spaced (items : list bytes) : bytes :=
  match items with
  | [] => []
  | [x] => x
  | x :: items' => x ++ cstr " " ++ spaced items'
  end.

Definition of_print_property (data : bytes) : outcome bytes :=
  if (length data =? 0)%nat then Ok [] else
  str ← is_printable_string data;
  if (str : bool) then s ← print_strings (S (length data)) 0 data; Ok ([Byte.x22] ++ s ++ [Byte.x22])
  else if (length data mod 4 =? 0)%nat then
    Ok (cstr "<" ++ spaced ((fun c => cstr "0x" ++ hex c) <$> cells 4 (length data / 4) data) ++ cstr ">")
  else Ok (cstr "[" ++ spaced (hex02 <$> data) ++ cstr "]").

(** ** Nodes *)

Definition tabs (indent : nat) : bytes := replicate indent Byte.x09.
Definition newline : bytes := [Byte.x0a].

Definition print_property (indent : nat) (p : property) : outcome bytes :=
  v ← (if prop_length p =? 0 then Ok [] else s ← of_print_property (default [] (pr_value p)); Ok (cstr " = " ++ s));
  Ok (tabs (indent + 1) ++ pr_name p ++ v ++ cstr ";" ++ newline).

(** The texts of a list, one behind the other. *)
Definition print_all {A} (print : A -> outcome bytes) : list A -> outcome bytes :=
  fix go l := match l with [] => Ok [] | x :: l' => a ← print x; b ← go l'; Ok (a ++ b) end.

Fixpoint of_print_nodes (indent : nat) (node : device_node) : outcome bytes :=
  match node with
  | DeviceNode name _ _ properties children =>
      ps ← print_all (print_property indent) properties;
      ns ← print_all (of_print_nodes (indent + 1)) children;
      Ok (tabs indent ++ name ++ cstr " {" ++ newline ++ ps ++ ns ++ tabs indent ++ cstr "};" ++ newline)
  end.

(** ** fdtdump *)

Definition EXIT_FAILURE : Z := 1.

(** The end of [main], with the exit code and the standard output. *)
Definition dump (root : outcome device_node) : outcome (Z * bytes) :=
  match root with
  | Ok root => s ← of_print_nodes 0 root; Ok (0, cstr "/dts-v1/;" ++ newline ++ cstr "/" ++ s)
  | Err _ => Ok (EXIT_FAILURE, [])
  | Undef => Undef
  end.

(** [dtbfile] is the file that the argument names, if there is one; without it the
    tree of the running system is printed. *)
Definition fdtdump (dtbfile : option (option file)) (firmware_fdt : option file) (base proc : outcome (list dirent))
  : outcome (Z * bytes) :=
  dump (match dtbfile with
        | Some f => match read_file f with Some fdt => of_unflatten_dtb fdt | None => Err (- ENOENT) end
        | None => of_read_proc_devicetree firmware_fdt base proc
        end).

(** ** Lists of strings *)

(** A string of printable characters. *)
Definition printable (s : bytes) : bool := forallb isprint s.

(** Strings that are recognised in a value: only the first one may be empty. *)
Definition printable_strings (ss : list bytes) : bool :=
  forallb printable ss && forallb (fun s => negb (length s =? 0)%nat) (tail ss) && negb (length ss =? 0)%nat.

Lemma isprint_not_nul b : isprint b = true -> b <> 0u8.
Proof. by intros H ->. Qed.

Lemma printable_cstring s : printable s = true -> cstring s.
Proof.
  unfold printable, cstring. induction s as [|b s IH]; cbn; [set_solver|]. intros [Hb%isprint_not_nul Hs]%andb_true_iff.
  apply IH in Hs. set_solver.
Qed.

Lemma printable_loop_string s l : printable s = true -> printable_loop (s ++ 0u8 :: l) = printable_loop (0u8 :: l).
Proof.
  unfold printable. induction s as [|b s IH]; [done|]. cbn [forallb app]. intros [Hb Hs]%andb_true_iff.
  cbn [printable_loop]. rewrite bool_decide_eq_false_2 by (by apply isprint_not_nul). rewrite Hb. by apply IH.
Qed.

Lemma printable_loop_list ss : forall s, forallb printable (s :: ss) = true ->
  forallb (fun s => negb (length s =? 0)%nat) ss = true -> printable_loop (string_list (s :: ss)) = Ok true.
Proof.
  induction ss as [|s' ss IH]; intros s Hp Hne; cbn [forallb] in Hp; apply andb_true_iff in Hp as [Hs Hss];
    rewrite string_list_cons, printable_loop_string by done; [done|].
  cbn [forallb] in Hne. apply andb_true_iff in Hne as [Hs' Hne]. specialize (IH s' Hss Hne).
  destruct s' as [|c s']; [done|]. rewrite string_list_cons in *. cbn [app printable_loop] in *.
  cbn [forallb printable] in Hss. apply andb_true_iff in Hss as [[Hc _]%andb_true_iff _].
  rewrite (bool_decide_eq_false_2 (c = 0u8)) in * by (by apply isprint_not_nul). by rewrite bool_decide_eq_true_2.
Qed.

Lemma last_string_list ss : ss <> [] -> list.last (string_list ss) = Some 0u8.
Proof.
  induction ss as [|s ss IH]; [done|]. intros _. rewrite string_list_cons, last_app_cons, last_cons.
  destruct ss as [|s' ss]; [done|]. by rewrite IH.
Qed.

(** Only lists of strings are accepted, and the loop stays inside the value. *)
Lemma printable_loop_inv l : printable_loop l = Ok true ->
  exists s ss, l = string_list (s :: ss) /\ printable_strings (s :: ss) = true.
Proof.
  unfold printable_strings. induction l as [|b l IH]; [done|]. cbn [printable_loop]. case_bool_decide as Hb; [subst b|].
  - destruct l as [|c l]; [intros _; by exists [], []|]. case_bool_decide as Hc; [done|]. intros H.
    destruct (IH H) as (s & ss & Hl & Hs). exists [], (s :: ss). rewrite (string_list_cons []), <-Hl. split; [done|].
    cbn [forallb tail length Nat.eqb negb] in *. rewrite !andb_true_r in *. apply andb_true_iff in Hs as [-> ->]. rewrite !andb_true_r.
    destruct s as [|x s]; [|done]. rewrite string_list_cons in Hl. cbn in Hl. congruence.
  - destruct (isprint b) eqn:Ep; [|done]. intros H. destruct (IH H) as (s & ss & -> & Hs). exists (b :: s), ss.
    rewrite !string_list_cons. split; [done|]. cbn [forallb printable tail length] in *. by rewrite Ep.
Qed.

Lemma printable_loop_total l : l <> [] -> list.last l = Some 0u8 -> exists b, printable_loop l = Ok b.
Proof.
  induction l as [|b l IH]; [done|]. intros _ Hl. cbn [printable_loop]. rewrite last_cons in Hl.
  destruct l as [|c l].
  - injection Hl as ->. rewrite bool_decide_eq_true_2 by done. by eexists.
  - destruct (list.last (c :: l)) eqn:E; [|by apply last_None in E]. injection Hl as ->.
    specialize (IH ltac:(done) eq_refl). repeat case_match; by eauto.
Qed.

Lemma print_strings_list ss : forall fuel j, Forall cstring ss -> (length ss < fuel)%nat -> (0 < j)%nat ->
  print_strings fuel j (string_list ss)
  = Ok (mjoin ((fun s => [Byte.x22] ++ cstr ", " ++ [Byte.x22] ++ s) <$> ss)).
Proof.
  induction ss as [|s ss IH]; intros [|fuel] j Hs Hf Hj; try (cbn in Hf; lia); [done|].
  apply Forall_cons_1 in Hs as [Hs Hss]. rewrite string_list_cons. cbn [print_strings].
  rewrite length_app. cbn [length]. rewrite (proj2 (Nat.eqb_neq _ 0)) by lia. rewrite until_nul_app by done.
  rewrite drop_string, IH by (done || cbn in Hf; lia). cbn [mbind outcome_bind].
  rewrite (proj2 (Nat.ltb_lt 0 j)) by done. rewrite fmap_cons. change (mjoin (?x :: ?l)) with (x ++ mjoin l). by rewrite <-!app_assoc.
Qed.

(** The strings as they are printed. *)
Definition quoted (ss : list bytes) : bytes :=
  match ss with
  | [] => []
  | s :: ss => [Byte.x22] ++ s ++ mjoin ((fun s => [Byte.x22] ++ cstr ", " ++ [Byte.x22] ++ s) <$> ss) ++ [Byte.x22]
  end.

(** The guess is decided for every value without a read behind it, and says
    yes for exactly the lists of strings of printable characters of which at most
    the first is empty; such a list is printed as its strings in quotes. *)
Theorem print_strings_quoted :
  (forall data, exists b, is_printable_string data = Ok b
     /\ (b = true <-> exists ss, data = string_list ss /\ printable_strings ss = true))
  /\ (forall ss, printable_strings ss = true -> of_print_property (string_list ss) = Ok (quoted ss)).
Proof.
  assert (Hyes : forall ss, printable_strings ss = true -> is_printable_string (string_list ss) = Ok true).
  { intros [|s ss]; [done|]. intros Hs. unfold is_printable_string.
    rewrite string_list_cons at 1. rewrite length_app. cbn [length]. rewrite (proj2 (Nat.eqb_neq _ 0)) by lia.
    rewrite last_string_list by done. rewrite bool_decide_eq_true_2 by done. cbn [negb].
    unfold printable_strings in Hs. cbn [tail] in Hs. do 2 apply andb_true_iff in Hs as [Hs ?]. by apply printable_loop_list. }
  split.
  - intros data. unfold is_printable_string. destruct data as [|x data]; cbn [length Nat.eqb].
    { exists false. split; [done|]. split; [done|]. intros ([|s ss] & Hd & Hs); [done|].
      rewrite string_list_cons in Hd. by destruct s. }
    case_bool_decide as Hl; cbn [negb].
    + destruct (printable_loop_total (x :: data)) as [b Hb]; [done|done|]. exists b. split; [done|]. split.
      * intros ->. destruct (printable_loop_inv _ Hb) as (s & ss & ? & ?). by exists (s :: ss).
      * intros (ss & Hd & Hs). pose proof (Hyes ss Hs) as H. unfold is_printable_string in H. rewrite <-Hd in H.
        cbn [length Nat.eqb] in H. rewrite bool_decide_eq_true_2 in H by done. cbn [negb] in H. congruence.
    + exists false. split; [done|]. split; [done|]. intros ([|s ss] & Hd & Hs); [done|].
      destruct Hl. rewrite Hd. by apply last_string_list.
  - intros ss Hs. unfold of_print_property. rewrite (Hyes ss Hs). destruct ss as [|s ss]; [done|].
    assert (Hc : Forall cstring (s :: ss)).
    { apply Forall_forall. intros t Ht. apply printable_cstring. unfold printable_strings in Hs.
      do 2 apply andb_true_iff in Hs as [Hs ?]. rewrite forallb_forall in Hs. by apply Hs. }
    pose proof (length_string_list (s :: ss)) as Hlen. apply Forall_cons_1 in Hc as [Hc Hcs].
    rewrite string_list_cons in *. cbn [print_strings]. rewrite length_app in *. cbn [length] in *.
    rewrite (proj2 (Nat.eqb_neq _ 0)) by lia. cbn [mbind outcome_bind].
    rewrite until_nul_app by done.
    rewrite drop_string, print_strings_list by (done || lia). cbn [mbind outcome_bind Nat.ltb Nat.leb app quoted].
    by rewrite <-app_assoc.
Qed.

(** ** The whole program *)

Lemma print_strings_total fuel : forall j data, data = [] \/ list.last data = Some 0u8 ->
  exists s, print_strings fuel j data = Ok s.
Proof.
  induction fuel as [|fuel IH]; intros j data Hd; [by eexists|]. cbn [print_strings].
  destruct Hd as [->|Hd]; [by eexists|]. destruct (length data =? 0)%nat; [by eexists|].
  destruct (until_nul_last _ Hd) as [s Hs]. rewrite Hs. apply until_nul_split in Hs as [r ->].
  rewrite drop_string. rewrite last_app_cons, last_cons in Hd.
  destruct (IH (j + length s + 1)%nat r) as [t ->]; [|by eexists].
  destruct r; [by left|right]. by destruct (list.last _) eqn:E; [|apply last_None in E].
Qed.

Lemma print_property_total data : exists s, of_print_property data = Ok s.
Proof.
  unfold of_print_property. destruct (length data =? 0)%nat; [by eexists|].
  unfold is_printable_string. destruct (length data =? 0)%nat eqn:E0; [destruct (_ mod _ =? 0)%nat; by eexists|].
  apply Nat.eqb_neq in E0. case_bool_decide as Hl; cbn [negb mbind outcome_bind].
  2:{ destruct (_ mod _ =? 0)%nat; by eexists. }
  destruct (printable_loop_total data) as [b ->]; [by intros ->|done|]. cbn [mbind outcome_bind].
  destruct b; [|destruct (_ mod _ =? 0)%nat; by eexists].
  destruct (print_strings_total (S (length data)) 0 data) as [s ->]; [by right|]. by eexists.
Qed.

Lemma print_all_total {A} (print : A -> outcome bytes) l : Forall (fun x => exists s, print x = Ok s) l ->
  exists s, print_all print l = Ok s.
Proof. induction 1 as [|x l [a Ha] _ [b Hb]]; [by eexists|]. cbn. rewrite Ha, Hb. by eexists. Qed.

Lemma print_nodes_total np : forall indent, exists s, of_print_nodes indent np = Ok s.
Proof.
  induction np as [nm fn ph ps cs IH] using device_node_ind. intros indent.
  destruct (print_all_total (print_property indent) ps) as [a Ha].
  { apply Forall_true. intros p. unfold print_property. destruct (prop_length p =? 0); [by eexists|].
    destruct (print_property_total (default [] (pr_value p))) as [s ->]. by eexists. }
  destruct (print_all_total (of_print_nodes (indent + 1)) cs) as [b Hb].
  { induction IH; constructor; auto. }
  cbn [of_print_nodes]. rewrite Ha. cbn [mbind outcome_bind]. rewrite Hb. by eexists.
Qed.

(** C39: every tree has a text. Of a file with a blob, [fdtdump] prints the text of the tree
    that the blob was made of. Of the running kernel, which shows the tree in directories
    that list their entries in any order, perhaps with files [name], it prints the text of
    the same tree with the properties and the children of every node in the order of its
    listing, and with the properties [name] that are listed. *)
Theorem fdtdump_sources garbage n b fw base proc es (Hok : root_ok n = true) (Hfit : tree_fits n = true)
    (Hp : proc_ok n = true) (Hb : of_flatten_dtb garbage n = Ok b) (Hs : shows n es) :
  exists s m s', of_print_nodes 0 n = Ok s /\ same_tree n m /\ listed es m /\ of_print_nodes 0 m = Ok s'
  /\ fdtdump (Some (Some (File (length b) (Ok b)))) fw base proc = Ok (0, cstr "/dts-v1/;" ++ newline ++ cstr "/" ++ s)
  /\ fdtdump None None (Ok es) proc = Ok (0, cstr "/dts-v1/;" ++ newline ++ cstr "/" ++ s').
Proof.
  destruct (read_shown n es proc Hok Hp Hs) as (m & Hm & Ht).
  destruct (print_nodes_total n 0) as [s Es], (print_nodes_total m 0) as [s' Es'].
  destruct Ht as [Ht Hl]. exists s, m, s'. do 4 (split; [done|]). unfold fdtdump. rewrite Hm. unfold dump. rewrite Es'. split; [|done].
  destruct (read_flattened garbage n b Hok Hfit Hb) as (fdt & Hf & Hu). by rewrite Hf, Hu, Es.
Qed.

Lemma fdtdump_sources_witness : exists b s m s',
  of_flatten_dtb (fun _ => 0u8) ex_proc_tree = Ok b /\ of_print_nodes 0 ex_proc_tree = Ok s /\ same_tree ex_proc_tree m /\ listed ex_listing m
  /\ of_print_nodes 0 m = Ok s'
  /\ fdtdump (Some (Some (File (length b) (Ok b)))) None (Err (- ENOENT)) (Err (- ENOENT)) = Ok (0, cstr "/dts-v1/;" ++ newline ++ cstr "/" ++ s)
  /\ fdtdump None None (Ok ex_listing) (Err (- ENOENT)) = Ok (0, cstr "/dts-v1/;" ++ newline ++ cstr "/" ++ s').
Proof.
  destruct (flatten_blob (fun _ => 0u8) ex_proc_tree) as [rest Hr]; [vm_compute; reflexivity..|].
  destruct (fdtdump_sources (fun _ => 0u8) ex_proc_tree _ None (Err (- ENOENT)) (Err (- ENOENT)) ex_listing
    ltac:(vm_compute; reflexivity) ltac:(vm_compute; reflexivity) ltac:(vm_compute; reflexivity) Hr ex_listing_shows) as (s & m & s' & H).
  exists (blob ex_proc_tree ++ rest), s, m, s'. split; [exact Hr|exact H].
Defined.

Example fdtdump_text :
  fdtdump None None (Ok (proc_entries ex_proc_tree)) (Err (- ENOENT))
  = Ok (0, cstr "/dts-v1/;" ++ newline ++ cstr "/ {" ++ newline
      ++ tabs 1 ++ cstr "model = " ++ [Byte.x22] ++ cstr "board" ++ [Byte.x22] ++ cstr ";" ++ newline
      ++ tabs 1 ++ cstr "gpio {" ++ newline ++ tabs 2 ++ cstr "phandle = <0x7>;" ++ newline
      ++ tabs 2 ++ cstr "flag;" ++ newline ++ tabs 1 ++ cstr "};" ++ newline ++ cstr "};" ++ newline).
Proof. reflexivity. Qed.
