(* ===== verification/Variables.v ===== *)
(** * The types of state variables (src/barebox-state/state_variables.c)

    For each type the functions that make a variable from its node, read its
    value and default from a node, write them to a node, and the callbacks run
    when a value is set. The parameters of the device model, whose registration
    dt/common.h stubs out, are not represented. *)

From S2P Require Import Prelude StateVar Dt.

(** [enum state_convert]. *)
Inductive state_convert : Type :=
| STATE_CONVERT_FROM_NODE
| STATE_CONVERT_FROM_NODE_CREATE
| STATE_CONVERT_TO_NODE
| STATE_CONVERT_FIXUP.

#[global] Instance state_convert_eq_dec : EqDecision state_convert.
Proof. solve_decision. Defined.

(** A write followed by the rest of an export, which an error ends. *)
Definition then_write (r : Z * device_node) (k : device_node -> Z * device_node) : Z * device_node :=
  let (ret, np) := r in if negb (ret =? 0) then (ret, np) else k np.

(** ** uint8 and uint32 *)

Definition state_uint32_export (value value_default : Z) (node : device_node) (conv : state_convert)
  : Z * device_node :=
  then_write (if negb (value_default =? 0) then of_property_write_u32 node (cstr "default") value_default
              else (0, node)) (fun node =>
  if decide (conv = STATE_CONVERT_FIXUP) then (0, node)
  else of_property_write_u32 node (cstr "value") value).

Definition state_uint32_import (value_default : Z) (node : device_node) : Z * var_data :=
  let value_default := match of_property_read_u32 node (cstr "default") with Ok v => v | _ => value_default end in
  let value := match of_property_read_u32 node (cstr "value") with Ok v => v | _ => value_default end in
  (0, StateUint32 value value_default).

(** The callbacks: the result and whether the state is now dirty. *)
Definition state_set_dirty : Z * bool := (0, true).
Definition state_uint8_set (value : Z) : Z * bool :=
  if 255 <? value then (- ERANGE, false) else state_set_dirty.

(** A new variable, before [state_convert_node_variable] names and places it. *)
Definition new_var (vtype : state_variable_type) (size : Z) (d : var_data) : state_variable :=
  StateVariable vtype [] 0 size d.

Definition state_uint8_create (vtype : state_variable_type) (node : device_node) : outcome state_variable :=
  Ok (new_var vtype 1 (StateUint32 0 0)).
Definition state_uint32_create (vtype : state_variable_type) (node : device_node) : outcome state_variable :=
  Ok (new_var vtype 4 (StateUint32 0 0)).

(** ** enum32 *)

Definition state_enum32_export (value value_default : Z) (names : list bytes) (node : device_node)
    (conv : state_convert) : Z * device_node :=
  then_write (if negb (value_default =? 0) then of_property_write_u32 node (cstr "default") value_default
              else (0, node)) (fun node =>
  then_write (of_set_property node (cstr "names") (string_list names) true) (fun node =>
  if decide (conv = STATE_CONVERT_FIXUP) then (0, node)
  else of_property_write_u32 node (cstr "value") value)).

Definition wrong_size (value : option bytes) : bool :=
  match value with Some v => negb (length v =? 4)%nat | None => false end.

Definition state_enum32_import (value value_default : Z) (names : list bytes) (node : device_node)
  : Z * var_data :=
  let v := of_get_property node (cstr "value") in
  if wrong_size v then (- EINVAL, StateEnum32 value value_default names) else
  let d := of_get_property node (cstr "default") in
  if wrong_size d then (- EINVAL, StateEnum32 value value_default names) else
  let value_default := match d with Some d => get_be d | None => value_default end in
  let value := match v with Some v => get_be v | None => value_default end in
  (0, StateEnum32 value value_default names).

(** The loop that copies the names, from index [i] on. *)
Fixpoint enum32_names (todo : nat) (i : Z) (node : device_node) : outcome (list bytes) :=
  match todo with
  | O => Ok []
  | S todo' =>
      name ← of_property_read_string_index node (cstr "names") i;
      names ← enum32_names todo' (i + 1) node;
      Ok (name :: names)
  end.

Definition state_enum32_create (vtype : state_variable_type) (node : device_node) : outcome state_variable :=
  match of_property_count_strings node (cstr "names") with
  | Undef => Undef
  | Err _ => Err (- EINVAL)
  | Ok num_names =>
      names ← enum32_names (Z.to_nat num_names) 0 node;
      Ok (new_var vtype 4 (StateEnum32 0 0 names))
  end.

(** ** MAC addresses *)

Definition is_zero_ether_addr (addr : bytes) : bool := forallb (fun b => bval b =? 0) (take 6 addr).

Definition state_mac_export (value value_default : bytes) (node : device_node) (conv : state_convert)
  : Z * device_node :=
  then_write (if negb (is_zero_ether_addr value_default)
              then of_property_write_u8_array node (cstr "default") value_default else (0, node)) (fun node =>
  if decide (conv = STATE_CONVERT_FIXUP) then (0, node)
  else of_property_write_u8_array node (cstr "value") value).

Definition state_mac_import (value_default : bytes) (node : device_node) : Z * var_data :=
  let value_default := match of_property_read_u8_array node (cstr "default") 6 with Ok v => v | _ => value_default end in
  let value := match of_property_read_u8_array node (cstr "value") 6 with Ok v => v | _ => value_default end in
  (0, StateMac value value_default).

Definition state_mac_create (vtype : state_variable_type) (node : device_node) : outcome state_variable :=
  Ok (new_var vtype 6 (StateMac (zeros 6) (zeros 6))).

(** ** Strings *)

Definition state_string_export (value value_default : option bytes) (node : device_node)
    (conv : state_convert) : Z * device_node :=
  then_write match value_default with
             | Some d => of_property_write_string node (cstr "default") d
             | None => (0, node)
             end (fun node =>
  if decide (conv = STATE_CONVERT_FIXUP) then (0, node)
  else match value with
       | Some v => of_property_write_string node (cstr "value") v
       | None => (0, node)
       end).

Definition state_string_import (size : Z) (value value_default : option bytes) (raw : bytes)
    (node : device_node) : Z * var_data :=
  let value_default :=
    match of_property_read_string node (cstr "default") with Ok d => Some d | _ => value_default end in
  if match value_default with Some d => size <? Z.of_nat (length d) | None => false end
  then (- EILSEQ, StateString value value_default raw) else
  let v := match of_property_read_string node (cstr "value") with Ok v => Some v | _ => value_default end in
  match v with
  | Some v => let (ret, raw) := state_string_copy_to_raw size raw v in
              (ret, StateString value value_default raw)
  | None => (0, StateString value value_default raw)
  end.

(** [state_string_set] after the parameter [value] has been assigned, and
    [state_string_get], which refreshes it. *)
Definition state_string_set (size : Z) (value : bytes) (value_default : option bytes) (raw : bytes)
  : (Z * bool) * var_data :=
  let (ret, raw) := state_string_copy_to_raw size raw value in
  ((if negb (ret =? 0) then (ret, false) else state_set_dirty), StateString (Some value) value_default raw).

(** [raw[0]] of a string of no bytes lies behind its object ([Undef]). *)
Definition state_string_get (size : Z) (value_default : option bytes) (raw : bytes) : outcome var_data :=
  match raw with
  | [] => Undef
  | _ => Ok (StateString (Some (take (strnlen (take (Z.to_nat size) raw)) raw)) value_default raw)
  end.

Definition state_string_create (vtype : state_variable_type) (node : device_node) : outcome state_variable :=
  match of_property_read_u32_array node (cstr "reg") 2 with
  | Ok start_size =>
      let size := nth 1 start_size 0 in
      if 4096 <? size then Err (- EILSEQ)
      else Ok (new_var vtype size (StateString None None (zeros (Z.to_nat size))))
  | Err e => Err e
  | Undef => Undef
  end.

(** ** The table [types] *)

Definition type_name (t : state_variable_type) : bytes :=
  match t with
  | STATE_VARIABLE_TYPE_UINT8 => cstr "uint8"
  | STATE_VARIABLE_TYPE_UINT32 => cstr "uint32"
  | STATE_VARIABLE_TYPE_ENUM32 => cstr "enum32"
  | STATE_VARIABLE_TYPE_MAC => cstr "mac"
  | STATE_VARIABLE_TYPE_STRING => cstr "string"
  end.
Definition types : list state_variable_type :=
  [STATE_VARIABLE_TYPE_UINT8; STATE_VARIABLE_TYPE_UINT32; STATE_VARIABLE_TYPE_ENUM32;
   STATE_VARIABLE_TYPE_MAC; STATE_VARIABLE_TYPE_STRING].

Fixpoint find_type (ts : list state_variable_type) (name : bytes) : option state_variable_type :=
  match ts with
  | [] => None
  | t :: ts' => if bool_decide (name = type_name t) then Some t else find_type ts' name
  end.
Definition state_find_type_by_name (name : bytes) : option state_variable_type := find_type types name.

(** [vtype->create], [vtype->import] and [vtype->export]. *)
Definition vtype_create (vtype : state_variable_type) (node : device_node) : outcome state_variable :=
  match vtype with
  | STATE_VARIABLE_TYPE_UINT8 => state_uint8_create vtype node
  | STATE_VARIABLE_TYPE_UINT32 => state_uint32_create vtype node
  | STATE_VARIABLE_TYPE_ENUM32 => state_enum32_create vtype node
  | STATE_VARIABLE_TYPE_MAC => state_mac_create vtype node
  | STATE_VARIABLE_TYPE_STRING => state_string_create vtype node
  end.

Definition vtype_import (sv : state_variable) (node : device_node) : Z * state_variable :=
  let (ret, d) := match sv_data sv with
                  | StateUint32 _ d => state_uint32_import d node
                  | StateEnum32 v d names => state_enum32_import v d names node
                  | StateMac _ d => state_mac_import d node
                  | StateString v d raw => state_string_import (sv_size sv) v d raw node
                  end in (ret, set_data d sv).

Definition vtype_export (sv : state_variable) (node : device_node) (conv : state_convert) : Z * device_node :=
  match sv_data sv with
  | StateUint32 v d => state_uint32_export v d node conv
  | StateEnum32 v d names => state_enum32_export v d names node conv
  | StateMac v d => state_mac_export v d node conv
  | StateString v d _ => state_string_export v d node conv
  end.

(** ** The type invariant *)

Lemma read_u32_range np name v : of_property_read_u32 np name = Ok v -> 0 <= v < 2 ^ 32.
Proof.
  unfold of_property_read_u32, of_property_read_u32_array, of_property_read_array.
  destruct (of_find_property_value_of_size np name _) as [val| |]; [|done|done]. cbn [mbind outcome_bind].
  destruct (length val <? 1 * 4)%nat; [done|]. cbn [cells nth mbind outcome_bind]. intros [= <-].
  pose proof (get_be_range (take 4 val)) as H.
  assert (2 ^ (8 * Z.of_nat (length (take 4 val))) <= 2 ^ 32)
    by (apply Z.pow_le_mono_r; [lia|]; rewrite length_take; lia). lia.
Qed.

Lemma read_u32_array_range np name sz vs : of_property_read_u32_array np name sz = Ok vs ->
  Forall (fun v => 0 <= v < 2 ^ 32) vs /\ length vs = sz.
Proof.
  unfold of_property_read_u32_array, of_property_read_array.
  destruct (of_find_property_value_of_size np name _) as [val| |]; [|done|done]. cbn [mbind outcome_bind].
  destruct (length val <? sz * 4)%nat; [done|]. intros [= <-]. revert val. induction sz as [|sz IH]; intros val; [by split|].
  cbn [cells length]. destruct (IH (drop 4 val)) as [H1 H2]. split; [constructor; [|done]|lia].
  pose proof (get_be_range (take 4 val)) as H.
  assert (2 ^ (8 * Z.of_nat (length (take 4 val))) <= 2 ^ 32)
    by (apply Z.pow_le_mono_r; [lia|]; rewrite length_take; lia). lia.
Qed.

Lemma read_u8_array_length np name sz v : of_property_read_u8_array np name sz = Ok v -> length v = sz.
Proof.
  unfold of_property_read_u8_array.
  destruct (of_find_property_value_of_size np name _) as [val| |]; [|done|done]. cbn [mbind outcome_bind].
  destruct (Nat.ltb_spec (length val) sz); [done|]. intros [= <-]. rewrite length_take. lia.
Qed.

Lemma read_string_cstring np name s : of_property_read_string np name = Ok s -> cstring s.
Proof.
  unfold of_property_read_string. destruct (of_string_value np name) as [v| |]; [|done|done].
  cbn [mbind outcome_bind]. intros [= <-]. apply take_strnlen_cstring.
Qed.

Lemma get_be_4 b : length b = 4%nat -> 0 <= get_be b < 2 ^ 32.
Proof. intros H. pose proof (get_be_range b) as Hr. by rewrite H in Hr. Qed.

Lemma wrong_size_4 o b : wrong_size o = false -> o = Some b -> length b = 4%nat.
Proof. intros H ->. simpl in H. by destruct (Nat.eqb_spec (length b) 4). Qed.

Lemma string_copy_length size raw src : length raw = Z.to_nat size -> 0 <= size ->
  length (snd (state_string_copy_to_raw size raw src)) = Z.to_nat size.
Proof.
  intros Hr Hs. unfold state_string_copy_to_raw. destruct (Z.ltb_spec size (Z.of_nat (length src))); [done|].
  cbn [snd]. rewrite !length_splice; rewrite ?length_splice, ?length_zeros; lia.
Qed.

Lemma create_wf vtype node sv : vtype_create vtype node = Ok sv ->
  data_wf sv /\ sv_type sv = vtype /\ sv_start sv = 0.
Proof.
  destruct vtype; cbn [vtype_create]; try (intros [= <-]; repeat split; simpl; lia).
  - unfold state_enum32_create. destruct (of_property_count_strings _ _); [|done|done].
    destruct (enum32_names _ _ _); cbn [mbind outcome_bind]; intros; simplify_eq. repeat split; simpl; lia.
  - unfold state_string_create. destruct (of_property_read_u32_array node (cstr "reg") 2) as [vs| |] eqn:E; [|done|done].
    apply read_u32_array_range in E as [Hv Hl]. destruct vs as [|s0 [|s1 [|]]]; try done.
    apply Forall_cons_1 in Hv as [H0 Hv]. apply Forall_cons_1 in Hv as [H1 _]. cbn [nth].
    destruct (Z.ltb_spec 4096 s1); [done|]. intros [= <-]. unfold data_wf, new_var.
    cbn [sv_type sv_data sv_size sv_start]. split; [|done]. rewrite length_zeros. split; [lia|]. split; [lia|]. split; intros s; discriminate.
Qed.

Lemma enum32_import_wf v d names node : 0 <= v < 2 ^ 32 -> 0 <= d < 2 ^ 32 ->
  exists v' d', snd (state_enum32_import v d names node) = StateEnum32 v' d' names /\
    0 <= v' < 2 ^ 32 /\ 0 <= d' < 2 ^ 32.
Proof.
  intros Hv0 Hd0. unfold state_enum32_import.
  destruct (wrong_size (of_get_property node (cstr "value"))) eqn:Ev; [by exists v, d|].
  destruct (wrong_size (of_get_property node (cstr "default"))) eqn:Ed; [by exists v, d|].
  pose proof (fun b => wrong_size_4 _ b Ev) as Hv. pose proof (fun b => wrong_size_4 _ b Ed) as Hdd.
  assert (0 <= match of_get_property node (cstr "default") with Some x => get_be x | None => d end < 2 ^ 32) as Hdef.
  { destruct (of_get_property node (cstr "default")); [|done]. apply get_be_4. by apply Hdd. }
  eexists _, _. split; [done|]. split; [|done].
  destruct (of_get_property node (cstr "value")); [|done]. apply get_be_4. by apply Hv.
Qed.

Lemma string_import_wf sz v d raw node : 0 <= sz -> length raw = Z.to_nat sz -> (forall s, d = Some s -> cstring s) ->
  exists d' raw', snd (state_string_import sz v d raw node) = StateString v d' raw' /\
    length raw' = Z.to_nat sz /\ (forall s, d' = Some s -> cstring s).
Proof.
  intros Hs Hr Hd. unfold state_string_import.
  set (df := match of_property_read_string node (cstr "default") with Ok d => Some d | _ => d end).
  assert (forall s, df = Some s -> cstring s) as Hdf.
  { unfold df. intros s E. destruct (of_property_read_string node (cstr "default")) eqn:Er; [|by apply Hd..].
    simplify_eq. by eapply read_string_cstring. }
  destruct (match df with Some d => sz <? Z.of_nat (length d) | None => false end); [by exists df, raw|].
  destruct (match of_property_read_string node (cstr "value") with Ok v => Some v | _ => df end) as [x|];
    [|by exists df, raw].
  pose proof (string_copy_length sz raw x Hr Hs) as Hl.
  destruct (state_string_copy_to_raw sz raw x) as [ret raw']. by exists df, raw'.
Qed.

Lemma import_wf sv node : data_wf sv -> data_wf (snd (vtype_import sv node)).
Proof.
  destruct sv as [t n st sz d]. unfold data_wf, vtype_import. cbn [sv_type sv_data sv_size].
  assert (forall name o, 0 <= o < 2 ^ 32 ->
    0 <= match of_property_read_u32 node name with Ok v => v | _ => o end < 2 ^ 32) as H32.
  { intros name o Ho. destruct (of_property_read_u32 node name) eqn:E; try done. by eapply read_u32_range. }
  assert (forall name o, length o = 6%nat ->
    length match of_property_read_u8_array node name 6 with Ok v => v | _ => o end = 6%nat) as H6.
  { intros name o Ho. destruct (of_property_read_u8_array node name 6) eqn:E; try done. by eapply read_u8_array_length. }
  destruct t, d as [v d|v d names|v d|v d raw]; try tauto; intros Hd.
  - destruct Hd as (? & ? & ?). cbn [snd state_uint32_import set_data sv_type sv_size sv_data]. auto 6.
  - destruct Hd as (? & ? & ?). cbn [snd state_uint32_import set_data sv_type sv_size sv_data]. auto 6.
  - destruct Hd as (? & Hv & Hdf). destruct (enum32_import_wf v d names node Hv Hdf) as (v' & d' & E & ?).
    destruct (state_enum32_import v d names node) as [r x]. cbn [snd] in E. by subst x.
  - destruct Hd as (? & ? & ?). cbn [snd state_mac_import set_data sv_type sv_size sv_data]. auto 6.
  - destruct Hd as (Hs & Hr & Hv & Hdf). destruct (string_import_wf sz v d raw node (proj1 Hs) Hr Hdf) as (d' & raw' & E & ?).
    destruct (state_string_import sz v d raw node) as [r x]. cbn [snd] in E. subst x.
    cbn [snd set_data sv_type sv_size sv_data]. tauto.
Qed.

(** ** Export and import *)

(** What a variable that is exported keeps: strings are exported from the
    parameter [value], and keep [raw]. *)
Definition exportable (sv : state_variable) : Prop :=
  match sv_data sv with
  | StateEnum32 _ _ names => names <> [] /\ Forall cstring names
  | StateString v d raw =>
      (exists s, v = Some s /\ Z.of_nat (length s) <= sv_size sv /\
        raw = s ++ zeros (Z.to_nat (sv_size sv) - length s)) /\
      (forall s, d = Some s -> Z.of_nat (length s) <= sv_size sv)
  | _ => True
  end.
Definition same_value (a b : var_data) : Prop :=
  match a, b with
  | StateString _ d raw, StateString _ d' raw' => d = d' /\ raw = raw'
  | _, _ => a = b
  end.

Lemma enum32_names_list node ss : Forall cstring ss ->
  (forall i, 0 <= i -> of_property_read_string_index node (cstr "names") i
    = match ss !! Z.to_nat i with Some s => Ok s | None => Err (- ENODATA) end) ->
  forall pre todo, ss = pre ++ todo -> enum32_names (length todo) (Z.of_nat (length pre)) node = Ok todo.
Proof.
  intros Hs Hread pre todo. revert pre. induction todo as [|s todo IH]; intros pre E; [done|].
  cbn [length enum32_names]. rewrite Hread by lia. rewrite Nat2Z.id, E, list_lookup_middle by done.
  cbn [mbind outcome_bind].
  replace (Z.of_nat (length pre) + 1) with (Z.of_nat (length (pre ++ [s]))) by (rewrite length_app; simpl; lia).
  rewrite IH; [done|]. by rewrite <-app_assoc.
Qed.

(** A node without the properties that an export writes. *)
Definition bare_node (node : device_node) : Prop :=
  props_unique node /\ of_find_property node (cstr "default") = None /\
  of_find_property node (cstr "value") = None /\ of_find_property node (cstr "names") = None.

(** What an export leaves of a node: the optional default, for enumerations the
    names, and the value, as the readers find them. *)
Definition exported (node node' : device_node) (default names value : option bytes) : Prop :=
  props_unique node' /\
  of_find_property node' (cstr "default") = (fun d => Property (cstr "default") (Some d)) <$> default /\
  of_find_property node' (cstr "names") = (fun d => Property (cstr "names") (Some d)) <$> names /\
  of_find_property node' (cstr "value") = (fun d => Property (cstr "value") (Some d)) <$> value /\
  (forall x, x <> cstr "default" -> x <> cstr "names" -> x <> cstr "value" ->
    of_find_property node' x = of_find_property node x).

Lemma exported_wr node default names value : bare_node node ->
  exported node
    (let n1 := match default with Some d => wr node (cstr "default") d | None => node end in
     let n2 := match names with Some d => wr n1 (cstr "names") d | None => n1 end in
     match value with Some d => wr n2 (cstr "value") d | None => n2 end) default names value.
Proof.
  intros (Hu & Hd & Hv & Hn). unfold exported.
  destruct default, names, value; cbn zeta; repeat split;
    repeat first [ by apply wr_unique | rewrite wr_same | rewrite wr_other | apply wr_unique | done
                 | progress intros ].
Qed.

Lemma then_write_ok np k : then_write (0, np) k = k np.
Proof. done. Qed.

(** One write of an export after the other. *)
Ltac write_steps :=
  repeat first [ rewrite write_u32_wr | rewrite write_u8_wr | rewrite write_string_wr | rewrite set_property_wr
               | rewrite then_write_ok; cbv beta | rewrite decide_False by done ].

Lemma export_spec sv node : bare_node node -> data_wf sv ->
  exists default names value,
    let node' := snd (vtype_export sv node STATE_CONVERT_TO_NODE) in
    fst (vtype_export sv node STATE_CONVERT_TO_NODE) = 0 /\ exported node node' default names value /\
    match sv_data sv with
    | StateUint32 v d =>
        default = (if negb (d =? 0) then Some (be_cell 4 d) else None) /\ value = Some (be_cell 4 v)
    | StateEnum32 v d ns =>
        default = (if negb (d =? 0) then Some (be_cell 4 d) else None) /\ value = Some (be_cell 4 v) /\
        names = Some (string_list ns)
    | StateMac v d => default = (if negb (is_zero_ether_addr d) then Some d else None) /\ value = Some v
    | StateString v d _ => default = (fun s => s ++ [0u8]) <$> d /\ value = (fun s => s ++ [0u8]) <$> v
    end.
Proof.
  intros Hb _. unfold vtype_export. destruct (sv_data sv) as [v d|v d ns|v d|v d raw].
  - exists (if negb (d =? 0) then Some (be_cell 4 d) else None), None, (Some (be_cell 4 v)).
    unfold state_uint32_export. pose proof (exported_wr node (if negb (d =? 0) then Some (be_cell 4 d) else None) None (Some (be_cell 4 v)) Hb).
    destruct (negb (d =? 0)); write_steps; done.
  - exists (if negb (d =? 0) then Some (be_cell 4 d) else None), (Some (string_list ns)), (Some (be_cell 4 v)).
    unfold state_enum32_export.
    pose proof (exported_wr node (if negb (d =? 0) then Some (be_cell 4 d) else None) (Some (string_list ns)) (Some (be_cell 4 v)) Hb).
    destruct (negb (d =? 0)); write_steps; done.
  - exists (if negb (is_zero_ether_addr d) then Some d else None), None, (Some v).
    unfold state_mac_export. pose proof (exported_wr node (if negb (is_zero_ether_addr d) then Some d else None) None (Some v) Hb).
    destruct (negb (is_zero_ether_addr d)); write_steps; done.
  - exists ((fun s => s ++ [0u8]) <$> d), None, ((fun s => s ++ [0u8]) <$> v).
    unfold state_string_export. pose proof (exported_wr node ((fun s => s ++ [0u8]) <$> d) None ((fun s => s ++ [0u8]) <$> v) Hb).
    destruct d as [d|], v as [v|]; write_steps; done.
Qed.

Lemma zero_ether_addr a : length a = 6%nat -> is_zero_ether_addr a = true -> a = zeros 6.
Proof.
  intros Hl H. unfold is_zero_ether_addr in H. rewrite take_ge in H by lia. rewrite <- Hl. clear Hl.
  induction a as [|b a IH]; [done|]. cbn [forallb] in H. apply andb_true_iff in H as [Hb H].
  cbn [length zeros replicate]. f_equal; [|by apply IH]. apply Z.eqb_eq in Hb. by apply bval_inj.
Qed.

(** Importing a default that is only written when it is set. *)
Lemma read_default_u32 node d : 0 <= d < 2 ^ 32 ->
  of_find_property node (cstr "default") =
    (fun x => Property (cstr "default") (Some x)) <$> (if negb (d =? 0) then Some (be_cell 4 d) else None) ->
  match of_property_read_u32 node (cstr "default") with Ok v => v | _ => 0 end = d.
Proof.
  intros Hd. destruct (Z.eqb_spec d 0) as [->|]; simpl; intros Hf.
  - by destruct (read_missing _ _ Hf) as (-> & _).
  - by rewrite (read_u32_found _ _ d Hd Hf).
Qed.

Lemma read_u32_array_same a b name sz : of_find_property a name = of_find_property b name ->
  of_property_read_u32_array a name sz = of_property_read_u32_array b name sz.
Proof.
  intros E. unfold of_property_read_u32_array, of_property_read_array, of_find_property_value_of_size. by rewrite E.
Qed.

Lemma import_uint32 node v d : 0 <= v < 2 ^ 32 -> 0 <= d < 2 ^ 32 ->
  of_find_property node (cstr "default") =
    (fun x => Property (cstr "default") (Some x)) <$> (if negb (d =? 0) then Some (be_cell 4 d) else None) ->
  of_find_property node (cstr "value") = Some (Property (cstr "value") (Some (be_cell 4 v))) ->
  state_uint32_import 0 node = (0, StateUint32 v d).
Proof.
  intros Hv Hd Hfd Hfv. unfold state_uint32_import. rewrite (read_default_u32 _ _ Hd Hfd).
  by rewrite (read_u32_found _ _ v Hv Hfv).
Qed.

Lemma import_enum32 node v d ns : 0 <= v < 2 ^ 32 -> 0 <= d < 2 ^ 32 ->
  of_find_property node (cstr "default") =
    (fun x => Property (cstr "default") (Some x)) <$> (if negb (d =? 0) then Some (be_cell 4 d) else None) ->
  of_find_property node (cstr "value") = Some (Property (cstr "value") (Some (be_cell 4 v))) ->
  state_enum32_import 0 0 ns node = (0, StateEnum32 v d ns).
Proof.
  intros Hv Hd Hfd Hfv. unfold state_enum32_import. rewrite (find_get _ _ _ Hfv).
  unfold wrong_size. rewrite length_be_cell, get_be_cell by done. cbn [Nat.eqb negb].
  destruct (Z.eqb_spec d 0) as [->|]; simpl in Hfd.
  - destruct (read_missing _ _ Hfd) as (_ & _ & _ & ->). done.
  - rewrite (find_get _ _ _ Hfd), length_be_cell, get_be_cell by done. done.
Qed.

Lemma import_mac node v d : length v = 6%nat -> length d = 6%nat ->
  of_find_property node (cstr "default") =
    (fun x => Property (cstr "default") (Some x)) <$> (if negb (is_zero_ether_addr d) then Some d else None) ->
  of_find_property node (cstr "value") = Some (Property (cstr "value") (Some v)) ->
  state_mac_import (zeros 6) node = (0, StateMac v d).
Proof.
  intros Hv Hd Hfd Hfv. unfold state_mac_import. pose proof (read_u8_found node (cstr "value") v) as Rv. rewrite Hv in Rv.
  rewrite (Rv eq_refl Hfv). f_equal. f_equal.
  destruct (is_zero_ether_addr d) eqn:Ez; simpl in Hfd.
  - destruct (read_missing _ _ Hfd) as (_ & _ & -> & _). symmetry. by apply zero_ether_addr.
  - pose proof (read_u8_found node (cstr "default") d) as Rd. rewrite Hd in Rd. by rewrite (Rd eq_refl Hfd).
Qed.

Lemma import_string node sz s d : 0 <= sz -> cstring s -> Z.of_nat (length s) <= sz ->
  (forall x, d = Some x -> cstring x /\ Z.of_nat (length x) <= sz) ->
  of_find_property node (cstr "default") =
    (fun x => Property (cstr "default") (Some x)) <$> ((fun x => x ++ [0u8]) <$> d) ->
  of_find_property node (cstr "value") = Some (Property (cstr "value") (Some (s ++ [0u8]))) ->
  state_string_import sz None None (zeros (Z.to_nat sz)) node
  = (0, StateString None d (s ++ zeros (Z.to_nat sz - length s))).
Proof.
  intros Hsz Hs Hl Hd Hfd Hfv. unfold state_string_import. rewrite (read_string_found _ _ s Hs Hfv).
  assert (match of_property_read_string node (cstr "default") with Ok x => Some x | _ => None end = d) as ->.
  { destruct d as [d|]; simpl in Hfd; [by rewrite (read_string_found _ _ d (proj1 (Hd d eq_refl)) Hfd)|].
    by destruct (read_missing _ _ Hfd) as (_ & -> & _). }
  destruct d as [d|]; [destruct (Hd d eq_refl); destruct (Z.ltb_spec sz (Z.of_nat (length d))); [lia|]|].
  all: rewrite string_copy_fits by (rewrite ?length_zeros; done); done.
Qed.

(** ** Claims *)

(** C34: the variables the code makes are in order and importing keeps them so: a
    new variable of every type has memory of its type's size and 32-bit numbers,
    and reading any node into it, whether that succeeds or fails, neither changes
    its type and size nor breaks this. *)
Theorem variables_wf vtype node sv node' :
  vtype_create vtype node = Ok sv ->
  data_wf sv /\ sv_type sv = vtype /\ data_wf (snd (vtype_import sv node')) /\
  sv_type (snd (vtype_import sv node')) = vtype /\ sv_size (snd (vtype_import sv node')) = sv_size sv.
Proof.
  intros Hc. destruct (create_wf _ _ _ Hc) as (Hw & Ht & _). split; [done|]. split; [done|].
  split; [by apply import_wf|]. rewrite <- Ht. unfold vtype_import.
  match goal with |- context [let (_, _) := ?x in _] => by destruct x end.
Qed.

(** Exporting a variable to a node and making a variable of its type from that
    node gives its size, its value and its default back, for every type; for
    strings under the condition that the exported parameter has been refreshed
    from the memory. *)
Theorem variable_roundtrip sv node :
  bare_node node -> data_wf sv -> exportable sv ->
  of_property_read_u32_array node (cstr "reg") 2 = Ok [sv_start sv; sv_size sv] ->
  exists node' sv0 sv1, vtype_export sv node STATE_CONVERT_TO_NODE = (0, node') /\
    vtype_create (sv_type sv) node' = Ok sv0 /\ vtype_import sv0 node' = (0, sv1) /\
    sv_size sv1 = sv_size sv /\ same_value (sv_data sv1) (sv_data sv).
Proof.
  intros Hb Hw He Hreg. destruct (export_spec sv node Hb Hw) as (df & ns & vl & Hret & Hex & Hd).
  destruct (vtype_export sv node STATE_CONVERT_TO_NODE) as [ret node']. cbn [fst snd] in *. subst ret.
  destruct Hex as (Hu & Fd & Fn & Fv & Fo). exists node'.
  destruct sv as [t n st sz d]. unfold data_wf, exportable in *. cbn [sv_type sv_size sv_data sv_start] in *.
  destruct t, d as [v d|v d names|v d|v d raw]; try tauto.
  - destruct Hw as (-> & Hv & Hdf), Hd as [-> ->]. eexists _, _. split; [done|]. split; [done|].
    unfold vtype_import. cbn [sv_data new_var]. by rewrite (import_uint32 node' v d Hv Hdf Fd Fv).
  - destruct Hw as (-> & Hv & Hdf), Hd as [-> ->]. eexists _, _. split; [done|]. split; [done|].
    unfold vtype_import. cbn [sv_data new_var]. by rewrite (import_uint32 node' v d Hv Hdf Fd Fv).
  - destruct Hw as (-> & Hv & Hdf), Hd as (-> & -> & ->), He as [Hne Hs].
    destruct (string_list_readers node' (cstr "names") names Hne Hs (find_get _ _ _ Fn)) as [Hc Hidx].
    pose proof (enum32_names_list node' names Hs Hidx [] names eq_refl) as En.
    eexists _, _. split; [done|]. split.
    { cbn [vtype_create]. unfold state_enum32_create. rewrite Hc, Nat2Z.id. change (Z.of_nat (length (@nil bytes))) with 0 in En. rewrite En. done. }
    unfold vtype_import. cbn [sv_data new_var]. by rewrite (import_enum32 node' v d names Hv Hdf Fd Fv).
  - destruct Hw as (-> & Hv & Hdf), Hd as [-> ->]. eexists _, _. split; [done|]. split; [done|].
    unfold vtype_import. cbn [sv_data new_var]. by rewrite (import_mac node' v d Hv Hdf Fd Fv).
  - destruct Hw as (Hsz & Hr & Hcv & Hcd), Hd as [-> ->], He as [(s & -> & Hl & ->) Hdl].
    eexists _, _. split; [done|]. split.
    { cbn [vtype_create]. unfold state_string_create.
      rewrite (read_u32_array_same node' node) by (apply Fo; discriminate). rewrite Hreg. cbn [nth].
      destruct (Z.ltb_spec 4096 sz); [lia|]. done. }
    unfold vtype_import. cbn [sv_data new_var sv_size].
    rewrite (import_string node' sz s d); [done|lia|by apply Hcv|done| |done|done].
    intros x Hx. split; [by apply Hcd|by apply Hdl].
Qed.

(** A string variable loaded from a backend, whose parameter has not been read
    since: its value is not exported, whatever its memory holds. *)
Lemma string_export_stale node d : bare_node node ->
  of_find_property (snd (state_string_export None d node STATE_CONVERT_TO_NODE)) (cstr "value") = None.
Proof.
  intros Hb. pose proof (exported_wr node ((fun s => s ++ [0u8]) <$> d) None None Hb) as (_ & _ & _ & Hv & _).
  unfold state_string_export. destruct d as [d|]; write_steps; exact Hv.
Qed.

Definition ex_reg (start size : Z) : device_node :=
  snd (of_property_write_u32_array (DeviceNode (cstr "v@0") (cstr "/state/v@0") 0 [] []) (cstr "reg") [start; size]).

Lemma variables_wf_witness :
  let sv := new_var STATE_VARIABLE_TYPE_STRING 8 (StateString None None (zeros 8)) in
  data_wf sv /\ sv_type sv = STATE_VARIABLE_TYPE_STRING /\ data_wf (snd (vtype_import sv ex_node)) /\
  sv_type (snd (vtype_import sv ex_node)) = STATE_VARIABLE_TYPE_STRING /\
  sv_size (snd (vtype_import sv ex_node)) = sv_size sv.
Proof.
  apply (variables_wf STATE_VARIABLE_TYPE_STRING (ex_reg 16 8)
    (new_var STATE_VARIABLE_TYPE_STRING 8 (StateString None None (zeros 8))) ex_node).
  vm_compute. reflexivity.
Defined.

Lemma variable_roundtrip_witness :
  let sv := StateVariable STATE_VARIABLE_TYPE_STRING (cstr "v") 16 4
              (StateString (Some (cstr "ab")) (Some (cstr "abcd")) (cstr "ab" ++ zeros 2)) in
  exists node' sv0 sv1, vtype_export sv (ex_reg 16 4) STATE_CONVERT_TO_NODE = (0, node') /\
    vtype_create (sv_type sv) node' = Ok sv0 /\ vtype_import sv0 node' = (0, sv1) /\
    sv_size sv1 = sv_size sv /\ same_value (sv_data sv1) (sv_data sv).
Proof.
  apply (variable_roundtrip
    (StateVariable STATE_VARIABLE_TYPE_STRING (cstr "v") 16 4
       (StateString (Some (cstr "ab")) (Some (cstr "abcd")) (cstr "ab" ++ zeros 2))) (ex_reg 16 4)).
  - split; [unfold props_unique; evaluate|]. repeat split; vm_compute; reflexivity.
  - split; [simpl; lia|]. split; [reflexivity|]. split; intros s [= <-]; evaluate.
  - split.
    + exists (cstr "ab"). split; [reflexivity|]. split; [simpl; lia|reflexivity].
    + intros s [= <-]. simpl. lia.
  - vm_compute. reflexivity.
Defined.
