(* ===== verification/State.v ===== *)
(** * States (src/barebox-state/state.c)

    A state is the variables that its node describes, a format and a storage.
    This file models reading the variables and their values from a node,
    writing them to a new node, saving and loading. Formats and buckets are
    reached through classes, as the code reaches them through pointers. *)

From Stdlib Require Import Sorted.
From S2P Require Import Prelude Sysfile Bucket DirectBucket CircularBucket StateVar Storage RawFormat StorageExamples Dt Variables.

(** The rest of [struct state_backend_format]: [pack] and [unpack], on the path, the
    magic and the variables of the state. [None] is undefined behaviour. *)
Class FormatPack (F : Type) := {
  format_pack : F -> bytes -> Z -> list state_variable -> option (Z * bytes * F);
  format_unpack : F -> bytes -> Z -> list state_variable -> bytes -> Z -> option (Z * list state_variable * F)
}.

(** [bucket->wrong_magic]. *)
Class WrongMagic (B : Type) := wrong_magic : B -> bool.
#[export] Instance direct_wrong_magic : WrongMagic direct := d_wrong_magic.
#[export] Instance circular_wrong_magic : WrongMagic circular := c_wrong_magic.

(** [struct state], without what belongs to the device model. *)
Record state (B F : Type) : Type := State {
  s_of_path : bytes;
  s_magic : Z;
  s_keep_prev_content : bool;
  s_variables : list state_variable;
  s_dirty : bool;
  s_init_from_defaults : bool;
  s_format : F;
  s_storage : storage B
}.
Arguments State {B F}. Arguments s_of_path {B F}. Arguments s_magic {B F}.
Arguments s_keep_prev_content {B F}. Arguments s_variables {B F}. Arguments s_dirty {B F}.
Arguments s_init_from_defaults {B F}. Arguments s_format {B F}. Arguments s_storage {B F}.

Section SaveLoad.
Context {B F : Type} `{BucketOps B} `{WrongMagic B} `{FormatVerify F} `{FormatPack F}.

Definition with_format (fmt : F) (s : state B F) : state B F :=
  State (s_of_path s) (s_magic s) (s_keep_prev_content s) (s_variables s) (s_dirty s)
    (s_init_from_defaults s) fmt (s_storage s).
Definition with_storage (st : storage B) (s : state B F) : state B F :=
  State (s_of_path s) (s_magic s) (s_keep_prev_content s) (s_variables s) (s_dirty s)
    (s_init_from_defaults s) (s_format s) st.
Definition with_dirty (d : bool) (s : state B F) : state B F :=
  State (s_of_path s) (s_magic s) (s_keep_prev_content s) (s_variables s) d
    (s_init_from_defaults s) (s_format s) (s_storage s).
Definition with_variables (vars : list state_variable) (s : state B F) : state B F :=
  State (s_of_path s) (s_magic s) (s_keep_prev_content s) vars (s_dirty s)
    (s_init_from_defaults s) (s_format s) (s_storage s).
Definition with_init_from_defaults (i : bool) (s : state B F) : state B F :=
  State (s_of_path s) (s_magic s) (s_keep_prev_content s) (s_variables s) (s_dirty s)
    i (s_format s) (s_storage s).

Definition state_save (s : state B F) (f : file) : option (Z * state B F * file) :=
  if negb (s_dirty s) then Some (0, s, f) else
  match format_pack (s_format s) (s_of_path s) (s_magic s) (s_variables s) with
  | None => None
  | Some (ret, buf, fmt) =>
      let s := with_format fmt s in
      if negb (ret =? 0) then Some (ret, s, f) else
      if s_keep_prev_content s && existsb (fun b => wrong_magic (b_impl b)) (st_buckets (s_storage s))
      then Some (- EPERM, s, f) else
      let '(ret, st, f) := state_storage_write (s_storage s) buf f in
      let s := with_storage st s in
      if negb (ret =? 0) then Some (ret, s, f) else Some (0, with_dirty false s, f)
  end.

Definition state_do_load (s : state B F) (flags : Z) (f : file) : option (Z * state B F * file) :=
  match state_storage_read (s_storage s) (s_format s) (s_magic s) flags f with
  | None => None
  | Some ((ret, data), st, fmt, f) =>
      let s := with_format fmt (with_storage st s) in
      if negb (ret =? 0) then Some (ret, with_dirty true s, f) else
      match data with
      | None => None
      | Some (buf, len) =>
          match format_unpack (s_format s) (s_of_path s) (s_magic s) (s_variables s) buf len with
          | None => None
          | Some (ret, vars, fmt) =>
              let s := with_format fmt (with_variables vars s) in
              if negb (ret =? 0) then Some (ret, with_dirty true s, f)
              else Some (0, with_dirty false (with_init_from_defaults false s), f)
          end
      end
  end.

Definition state_load (s : state B F) (f : file) : option (Z * state B F * file) := state_do_load s 0 f.
Definition state_load_no_auth (s : state B F) (f : file) : option (Z * state B F * file) :=
  state_do_load s STATE_FLAG_NO_AUTHENTICATION f.
End SaveLoad.

(** The raw format behind the interface. *)
Definition raw_format_pack garbage keystore_get_secret : FormatPack raw_format := {|
  format_pack raw of_path magic vars := backend_format_raw_pack garbage keystore_get_secret raw magic vars;
  format_unpack raw of_path magic vars buf len :=
    match backend_format_raw_unpack vars buf with Some (ret, vars) => Some (ret, vars, raw) | None => None end
|}.

(** ** Between a state and its node *)

(** The name up to the [@], and the dotted path of a variable. *)
Fixpoint strip_address (name : bytes) : bytes :=
  match name with
  | [] => []
  | b :: name' => if decide (b = Byte.x40) then [] else b :: strip_address name'
  end.
Definition variable_name (parent_name node_name : bytes) : bytes :=
  parent_name ++ (if (length parent_name =? 0)%nat then [] else cstr ".") ++ strip_address node_name.

(** The type that the import and export functions of a [vtype] expect behind a
    variable: for another one they read and write the wrong structure. *)
Definition type_fits (vtype : state_variable_type) (sv : state_variable) : bool :=
  match vtype, sv_data sv with
  | STATE_VARIABLE_TYPE_UINT8, StateUint32 _ _ | STATE_VARIABLE_TYPE_UINT32, StateUint32 _ _
  | STATE_VARIABLE_TYPE_ENUM32, StateEnum32 _ _ _ | STATE_VARIABLE_TYPE_MAC, StateMac _ _
  | STATE_VARIABLE_TYPE_STRING, StateString _ _ _ => true
  | _, _ => false
  end.

(** A variable placed by its node. *)
Definition place_var (name : bytes) (start : Z) (sv : state_variable) : state_variable :=
  StateVariable (sv_type sv) name start (sv_size sv) (sv_data sv).

(** The first variable of a name, replaced. *)
Fixpoint update_var (vars : list state_variable) (name : bytes) (sv' : state_variable) : list state_variable :=
  match vars with
  | [] => []
  | sv :: vars' => if bool_decide (sv_name sv = name) then sv' :: vars' else sv :: update_var vars' name sv'
  end.

(** The part of [state_convert_node_variable] behind its children when it makes
    a variable. The import works on the variable that the list already holds. *)
Definition convert_create (vtype : state_variable_type) (node : device_node) (name : bytes)
    (vars : list state_variable) : option (Z * list state_variable) :=
  match vtype_create vtype node with
  | Undef => None
  | Err e => Some (e, vars)
  | Ok sv =>
      match of_property_read_u32_array node (cstr "reg") 2 with
      | Undef => None
      | Err e => Some (e, vars)
      | Ok start_size =>
          if negb (nth 1 start_size 0 =? sv_size sv) then Some (- EOVERFLOW, vars) else
          let (ret, sv) := vtype_import (place_var name (nth 0 start_size 0) sv) node in
          Some (ret, state_add_var sv vars)
      end
  end.

(** The same when it reads values into variables that exist. *)
Definition convert_import (vtype : state_variable_type) (node : device_node) (name : bytes)
    (vars : list state_variable) : option (Z * list state_variable) :=
  match state_find_var vars name with
  | None => Some (0, vars)
  | Some sv =>
      if negb (type_fits vtype sv) then None else
      let (ret, sv) := vtype_import sv node in Some (ret, update_var vars name sv)
  end.

(** What the node itself asks for, after its children. *)
Definition convert_from_own (create : bool) (node : device_node) (name : bytes) (vars : list state_variable)
  : option (Z * list state_variable) :=
  match of_property_read_string node (cstr "type") with
  | Undef => None
  | Err e => Some ((if negb (length (dn_children node) =? 0)%nat && (e =? - EINVAL) then 0 else e), vars)
  | Ok type_name =>
      match state_find_type_by_name type_name with
      | None => Some (- ENOENT, vars)
      | Some vtype => if create then convert_create vtype node name vars else convert_import vtype node name vars
      end
  end.

(** A step on every child until one fails. *)
Section Children.
Context {A : Type} (step : device_node -> A -> option (Z * A)).
Fixpoint each_child (cs : list device_node) (a : A) : option (Z * A) :=
  match cs with
  | [] => Some (0, a)
  | c :: cs' =>
      match step c a with
      | None => None
      | Some (ret, a) => if negb (ret =? 0) then Some (ret, a) else each_child cs' a
      end
  end.
End Children.

(** [state_convert_node_variable] from a node. *)
Fixpoint convert_from (create : bool) (node : device_node) (parent_name : bytes) (vars : list state_variable)
  {struct node} : option (Z * list state_variable) :=
  let name := variable_name parent_name (dn_name node) in
  match node with
  | DeviceNode _ _ _ _ children =>
      match each_child (fun c vars => convert_from create c name vars) children vars with
      | None => None
      | Some (ret, vars) => if negb (ret =? 0) then Some (ret, vars) else convert_from_own create node name vars
      end
  end.

(** The properties of a new node for a variable, and the export behind them. *)
Definition convert_export (conv : state_convert) (vtype : state_variable_type) (sv : state_variable)
    (new_node : device_node) : option (Z * device_node) :=
  let (ret, new_node) := of_property_write_string new_node (cstr "type") (type_name vtype) in
  if negb (ret =? 0) then Some (ret, new_node) else
  let (ret, new_node) := of_property_write_u32_array new_node (cstr "reg") [sv_start sv; sv_size sv] in
  if negb (ret =? 0) then Some (ret, new_node) else
  if negb (type_fits vtype sv) then None else Some (vtype_export sv new_node conv).

Definition convert_to_own (conv : state_convert) (vars : list state_variable) (node : device_node) (name : bytes)
    (new_node : device_node) : option (Z * device_node) :=
  match of_property_read_string node (cstr "type") with
  | Undef => None
  | Err e =>
      if negb (length (dn_children node) =? 0)%nat && (e =? - EINVAL) then
        if decide (conv = STATE_CONVERT_FIXUP) then
          let (ret, new_node) := of_property_write_u32 new_node (cstr "#address-cells") 1 in
          if negb (ret =? 0) then Some (ret, new_node) else
          let (ret, new_node) := of_property_write_u32 new_node (cstr "#size-cells") 1 in
          if negb (ret =? 0) then Some (ret, new_node) else Some (0, new_node)
        else Some (0, new_node)
      else Some (e, new_node)
  | Ok type_name =>
      match state_find_type_by_name type_name with
      | None => Some (- ENOENT, new_node)
      | Some vtype =>
          match state_find_var vars name with
          | None => Some (0, new_node)
          | Some sv => convert_export conv vtype sv new_node
          end
      end
  end.

(** [state_convert_node_variable] to a node: the parent with the new node. *)
Fixpoint convert_to (conv : state_convert) (vars : list state_variable) (node : device_node)
    (parent_name : bytes) (parent : device_node) {struct node} : option (Z * device_node) :=
  let name := variable_name parent_name (dn_name node) in
  match node with
  | DeviceNode node_name _ _ _ children =>
      match each_child (fun c new_node => convert_to conv vars c name new_node) children
              (of_new_node (Some parent) node_name) with
      | None => None
      | Some (ret, new_node) =>
          if negb (ret =? 0) then Some (ret, add_child new_node parent) else
          prod_map id (fun n => add_child n parent) <$> convert_to_own conv vars node name new_node
      end
  end.

(** [state_to_node]: the new node, which the code has added to its parent when there is
    one; [state_root] is the node the path of the state finds. *)
Definition state_to_node (parent state_root : option device_node) (magic : Z) (vars : list state_variable)
    (conv : state_convert) : outcome device_node :=
  match state_root with
  | None => Err (- ENODEV)
  | Some state_root =>
      let root := of_new_node parent (dn_name state_root) in
      let (ret, root) := of_property_write_u32 root (cstr "magic") magic in
      if negb (ret =? 0) then Err ret else
      match each_child (fun c root => convert_to conv vars c [] root) (dn_children state_root) root with
      | None => Undef
      | Some (ret, root) => if negb (ret =? 0) then Err ret else Ok root
      end
  end.

(** The check for overlapping neighbours. *)
Fixpoint overlap_check (last_sv : state_variable) (vars : list state_variable) (ret : Z) : Z :=
  match vars with
  | [] => ret
  | sv :: vars' =>
      overlap_check sv vars'
        (if sv_start last_sv +32 sv_size last_sv -32 1 <? sv_start sv then ret else Z.lor ret (- EINVAL))
  end.

(** [state_from_node]: the result and the path, magic and variables. *)
Definition state_from_node (create : bool) (of_path : bytes) (state_magic : Z) (vars : list state_variable)
    (node : device_node) : option (Z * (bytes * Z * list state_variable)) :=
  match of_property_read_u32 node (cstr "magic") with
  | Undef => None
  | Err e => Some (e, (of_path, state_magic, vars))
  | Ok magic =>
      if negb create && negb (state_magic =? 0) && negb (state_magic =? magic)
      then Some (- EINVAL, (of_path, state_magic, vars)) else
      let of_path := if create then dn_full_name node else of_path in
      let state_magic := if create then magic else state_magic in
      match each_child (fun c vars => convert_from create c [] vars) (dn_children node) vars with
      | None => None
      | Some (ret, vars) =>
          if negb (ret =? 0) then Some (ret, (of_path, state_magic, vars)) else
          let ret := match create, vars with
                     | true, sv :: vars' => overlap_check sv vars' ret
                     | _, _ => ret
                     end in
          Some (ret, (of_path, state_magic, vars))
      end
  end.

(** [state_read_mac]. *)
Definition state_read_mac (vars : list state_variable) (name : bytes) : Z * bytes :=
  match state_find_var vars name with
  | None => (- ENOENT, [])
  | Some svar =>
      if negb (bool_decide (sv_type svar = STATE_VARIABLE_TYPE_MAC)) then (- EINVAL, [])
      else (0, take 6 (sv_raw svar))
  end.

(** ** Invariants of reading from a node *)

Lemma each_child_ind {A} (P : A -> Prop) (step : device_node -> A -> option (Z * A)) cs :
  Forall (fun c => forall a r a', P a -> step c a = Some (r, a') -> P a') cs ->
  forall a r a', P a -> each_child step cs a = Some (r, a') -> P a'.
Proof.
  induction 1 as [|c cs Hc Hcs IH]; intros a r a' Ha; simpl; [by intros [= _ <-]|].
  destruct (step c a) as [[ret a1]|] eqn:E; [|done].
  destruct (negb (ret =? 0)); [intros [= <- <-]; by eapply Hc|]. by eapply IH, Hc.
Qed.

(** A list that the create pass may build: every variable in order, by start. *)
Definition vars_ok (vars : list state_variable) : Prop := Forall sv_wf vars /\ StronglySorted start_le vars.

Lemma import_frame sv node : sv_start (snd (vtype_import sv node)) = sv_start sv /\
  sv_size (snd (vtype_import sv node)) = sv_size sv /\ sv_name (snd (vtype_import sv node)) = sv_name sv /\
  sv_type (snd (vtype_import sv node)) = sv_type sv.
Proof. unfold vtype_import. match goal with |- context [let (_, _) := ?x in _] => by destruct x end. Qed.

Lemma convert_create_ok vtype node name vars r vars' :
  vars_ok vars -> convert_create vtype node name vars = Some (r, vars') -> vars_ok vars'.
Proof.
  intros [Hw Hs]. unfold convert_create. destruct (vtype_create vtype node) as [sv|e|] eqn:Ec;
    [|intros [= _ <-]; done|done].
  destruct (of_property_read_u32_array node (cstr "reg") 2) as [ss|e|] eqn:Er; [|intros [= _ <-]; done|done].
  destruct (negb (nth 1 ss 0 =? sv_size sv)); [intros [= _ <-]; done|].
  destruct (create_wf _ _ _ Ec) as (Hd & _ & _).
  apply read_u32_array_range in Er as [Hr Hl]. destruct ss as [|s0 ss]; [done|]. apply Forall_cons_1 in Hr as [H0 _].
  cbn [nth]. set (sv1 := place_var name s0 sv).
  pose proof (import_wf sv1 node Hd) as Hw1. pose proof (import_frame sv1 node) as (Hst & _ & _ & _).
  destruct (vtype_import sv1 node) as [ret sv2]. cbn [snd] in *. intros [= _ <-]. split.
  - unfold state_add_var. rewrite list_add_sort_perm. constructor; [|done]. split; [done|]. by rewrite Hst.
  - by apply state_add_var_sorted.
Qed.

Lemma convert_from_ok node : forall parent_name vars r vars',
  vars_ok vars -> convert_from true node parent_name vars = Some (r, vars') -> vars_ok vars'.
Proof.
  induction node as [n fn ph ps cs IH] using device_node_ind. intros parent_name vars r vars' Hok. cbn [convert_from].
  set (name := variable_name parent_name (dn_name (DeviceNode n fn ph ps cs))).
  destruct (each_child _ cs vars) as [[ret vars1]|] eqn:E; [|done].
  assert (vars_ok vars1) as Hok1.
  { revert E. apply each_child_ind; [|done]. eapply Forall_weaken; [apply IH|]. intros c Hc a r' a' Ha. by apply Hc. }
  destruct (negb (ret =? 0)); [intros [= _ <-]; done|]. unfold convert_from_own.
  destruct (of_property_read_string _ _) as [tn|e|]; [|intros [= _ <-]; done|done].
  destruct (state_find_type_by_name tn); [|intros [= _ <-]; done]. by apply convert_create_ok.
Qed.

(** Importing keeps the place, name and type of every variable. *)
Definition same_var (a b : state_variable) : Prop :=
  sv_start b = sv_start a /\ sv_size b = sv_size a /\ sv_name b = sv_name a /\ sv_type b = sv_type a /\
  (sv_wf a -> sv_wf b).

#[export] Instance same_var_preorder : PreOrder same_var.
Proof.
  split; [by intros a|]. intros a b c (E1 & E2 & E3 & E4 & E5) (F1 & F2 & F3 & F4 & F5).
  split; [congruence|]. split; [congruence|]. split; [congruence|]. split; [congruence|auto].
Qed.

Lemma update_var_same vars name sv sv' :
  state_find_var vars name = Some sv -> same_var sv sv' -> Forall2 same_var vars (update_var vars name sv').
Proof.
  intros Hf Hs. induction vars as [|x vars IH]; simpl in *; [done|].
  case_bool_decide; [simplify_eq; by constructor|]. constructor; [done|by apply IH].
Qed.

Lemma convert_import_same vtype node name vars r vars' :
  convert_import vtype node name vars = Some (r, vars') -> Forall2 same_var vars vars'.
Proof.
  unfold convert_import. destruct (state_find_var vars name) as [sv|] eqn:Ef; [|intros [= _ <-]; done].
  destruct (negb (type_fits vtype sv)); [done|].
  pose proof (import_frame sv node) as (E1 & E2 & E3 & E4). pose proof (import_wf sv node) as Hw.
  destruct (vtype_import sv node) as [ret sv'] eqn:Ei. cbn [snd] in *. intros [= _ <-].
  eapply update_var_same; [done|]. split; [done|]. split; [done|]. split; [done|]. split; [done|].
  intros [H1 H2]. split; [by apply Hw|by rewrite E1].
Qed.

Lemma convert_from_same node : forall parent_name vars r vars',
  convert_from false node parent_name vars = Some (r, vars') -> Forall2 same_var vars vars'.
Proof.
  induction node as [n fn ph ps cs IH] using device_node_ind. intros parent_name vars r vars'. cbn [convert_from].
  set (name := variable_name parent_name (dn_name (DeviceNode n fn ph ps cs))).
  destruct (each_child _ cs vars) as [[ret vars1]|] eqn:E; [|done].
  assert (Forall2 same_var vars vars1) as H1.
  { revert E. apply (each_child_ind (Forall2 same_var vars)); [|done].
    eapply Forall_weaken; [apply IH|]. intros c Hc a r' a' Ha Hstep. etrans; [apply Ha|]. by eapply Hc. }
  destruct (negb (ret =? 0)); [intros [= _ <-]; done|]. unfold convert_from_own.
  destruct (of_property_read_string _ _) as [tn|e|]; [|intros [= _ <-]; done|done].
  destruct (state_find_type_by_name tn); [|intros [= _ <-]; done].
  intros Hi. etrans; [apply H1|]. by eapply convert_import_same.
Qed.

(** *** Overlaps *)

Lemma overlap_check_mono vars : forall last_sv ret, ret < 0 -> overlap_check last_sv vars ret < 0.
Proof.
  induction vars as [|sv vars IH]; intros last_sv ret Hr; simpl; [done|]. apply IH.
  destruct (sv_start last_sv +32 sv_size last_sv -32 1 <? sv_start sv); [done|]. apply Z.lor_neg. by left.
Qed.

Lemma overlap_check_layout vars : forall sv, Forall sv_wf (sv :: vars) ->
  Forall (fun x => sv_start x + sv_size x <= 2 ^ 32) (sv :: vars) ->
  overlap_check sv vars 0 = 0 -> layout (sv :: vars).
Proof.
  induction vars as [|x vars IH]; intros sv Hw Hb Hc.
  { apply layout_cons; [constructor|]. intros i j a b _ Hi. by rewrite lookup_nil in Hi. }
  simpl in Hc. apply Forall_cons_1 in Hw as [Hsw Hw], Hb as [Hsb Hb]. cbn beta in Hsb.
  destruct (Z.ltb_spec (sv_start sv +32 sv_size sv -32 1) (sv_start x)) as [Hlt|Hge].
  2:{ pose proof (overlap_check_mono vars x (Z.lor 0 (- EINVAL)) ltac:(reflexivity)). lia. }
  pose proof (IH x Hw Hb Hc) as Hl. pose proof (sv_size_range sv Hsw) as Hsz. destruct Hsw as [_ Hst].
  apply Forall_cons_1 in Hw as [Hxw Hw]. pose proof (sv_size_range x Hxw). destruct Hxw as [_ Hxs].
  assert (sv_start sv + sv_size sv <= sv_start x) as Hbx.
  { destruct (decide (sv_start sv + sv_size sv = 0)) as [->|]; [lia|].
    destruct (decide (sv_start sv + sv_size sv = 2 ^ 32)) as [E|].
    - rewrite E in Hlt. vm_compute (2 ^ 32) in Hlt. change (u32 (u32 4294967296 - 1)) with (2 ^ 32 - 1) in Hlt. lia.
    - rewrite (u32_small (sv_start sv + sv_size sv)), u32_small in Hlt by lia. lia. }
  apply layout_cons; [|done]. constructor; [exact Hbx|].
  apply layout_cons_inv in Hl as [Hl _]. eapply Forall_weaken; [apply Hl|]. unfold sv_before. intros; lia.
Qed.

Lemma read_u32_error np name : of_property_read_u32 np name <> Err 0.
Proof.
  unfold of_property_read_u32, of_property_read_u32_array, of_property_read_array, of_find_property_value_of_size.
  destruct (of_find_property np name) as [pp|]; [|done]. destruct (pr_value pp); [|done].
  destruct (prop_length pp <? _); [done|]. cbn [mbind outcome_bind]. by destruct (_ <? _)%nat.
Qed.

(** What a new state is. *)
Lemma state_from_node_new of_path0 magic0 node of_path magic vars :
  state_from_node true of_path0 magic0 [] node = Some (0, (of_path, magic, vars)) ->
  Forall sv_wf vars /\ StronglySorted start_le vars /\ of_path = dn_full_name node /\
  of_property_read_u32 node (cstr "magic") = Ok magic /\
  (Forall (fun x => sv_start x + sv_size x <= 2 ^ 32) vars -> layout vars).
Proof.
  unfold state_from_node. destruct (of_property_read_u32 node (cstr "magic")) as [m|e|] eqn:Em; [|intros H|done].
  2:{ injection H as -> -> -> <-. by destruct (read_u32_error _ _ Em). }
  cbn [negb andb]. destruct (each_child _ (dn_children node) []) as [[ret vs]|] eqn:E; [|done].
  assert (vars_ok vs) as [Hw Hs].
  { revert E. apply each_child_ind; [|split; constructor]. apply Forall_forall. intros c _ a r a' Ha.
    by apply convert_from_ok. }
  destruct (Z.eqb_spec ret 0) as [->|]; cbn [negb]; [|intros [= ? _ _ _]; done].
  intros H. injection H as Hret <- <- <-. split; [done|]. split; [done|]. split; [done|]. split; [done|].
  intros Hb. destruct vs as [|sv vs]; [intros i j a b _ Hi; by rewrite lookup_nil in Hi|].
  by apply overlap_check_layout.
Qed.

(** ** Claims *)

(** C15: what [state_from_node] accepts as a new state is well formed: every
    variable has memory of its type's size and a 32-bit start, the list is sorted
    by start, the path and magic are the node's, and, when no variable ends
    behind 2^32, no two variables overlap. *)
Theorem state_from_node_layout of_path0 magic0 node of_path magic vars :
  state_from_node true of_path0 magic0 [] node = Some (0, (of_path, magic, vars)) ->
  Forall sv_wf vars /\ StronglySorted start_le vars /\ of_path = dn_full_name node /\
  of_property_read_u32 node (cstr "magic") = Ok magic /\
  (Forall (fun x => sv_start x + sv_size x <= 2 ^ 32) vars -> layout vars).
Proof. apply state_from_node_new. Qed.

(** Reading values from a node into a state that exists never changes the
    place, name or type of a variable and keeps every variable in order, whatever
    the node holds and whether reading succeeds; a magic that differs is refused
    and changes nothing. *)
Theorem state_from_node_import of_path magic vars node ret of_path' magic' vars' :
  state_from_node false of_path magic vars node = Some (ret, (of_path', magic', vars')) ->
  of_path' = of_path /\ magic' = magic /\ Forall2 same_var vars vars' /\
  (forall m, of_property_read_u32 node (cstr "magic") = Ok m -> magic <> 0 -> m <> magic ->
    ret = - EINVAL /\ vars' = vars).
Proof.
  unfold state_from_node. destruct (of_property_read_u32 node (cstr "magic")) as [m|e|] eqn:Em; [| |done].
  2:{ intros H. by injection H as -> -> -> ->. }
  cbn [negb andb]. destruct (negb (magic =? 0) && negb (magic =? m)) eqn:Emm.
  { intros H. injection H as <- -> -> ->. done. }
  destruct (each_child _ (dn_children node) vars) as [[r vs]|] eqn:E; [|done].
  assert (Forall2 same_var vars vs) as Hv.
  { revert E. apply (each_child_ind (Forall2 same_var vars)); [|done].
    apply Forall_forall. intros c _ a r' a' Ha Hs. etrans; [apply Ha|]. by eapply convert_from_same. }
  intros H. assert (of_path' = of_path /\ magic' = magic /\ vars' = vs) as (-> & -> & ->).
  { destruct (negb (r =? 0)); by injection H as _ -> -> ->. }
  split; [done|]. split; [done|]. split; [done|]. intros m' [= <-] Hm Hne.
  destruct (Z.eqb_spec magic 0), (Z.eqb_spec magic m); simpl in Emm; congruence.
Qed.

Section SaveLoadLaws.
Context {B : Type} {HO : BucketOps B} {HV : BucketView B} {HL : BucketLaws B} {HM : WrongMagic B}.
Context (garbage : bytes -> bytes) (ks : bytes -> Z * bytes).
#[local] Instance the_verify : FormatVerify raw_format := raw_format_verify garbage ks.
#[local] Instance the_laws : FormatLaws raw_format := raw_format_laws garbage ks.
#[local] Instance the_pack : FormatPack raw_format := raw_format_pack garbage ks.

(** What the claim below says, of any way to find the storage again, with the
    storage that is left, what its buckets hold, and the variables that are loaded. *)
Lemma save_load (s : state B raw_format) sv f :
  s_dirty s = true -> s_keep_prev_content s = false ->
  raw_ok ks (s_format s) -> (is_Some (rf_algo (s_format s)) -> exists m, raw_mac ks (s_format s) = inr m) ->
  0 <= s_magic s < 2 ^ 32 -> Forall sv_wf (s_variables s) -> layout (s_variables s) ->
  list.last (s_variables s) = Some sv -> sv_start sv + sv_size sv < 2 ^ 16 ->
  storage_ok (s_storage s) f -> st_buckets (s_storage s) <> [] -> st_readonly (s_storage s) = false ->
  (forall d, Z.of_nat (length d) <= 48 + (sv_start sv + sv_size sv) -> buckets_fit (st_buckets (s_storage s)) d) ->
  healthy f ->
  exists s1 f1, state_save s f = Some (0, s1, f1) /\ s_dirty s1 = false /\ s_variables s1 = s_variables s /\ (healthy f1 /\ same_device f f1) /\
  storage_ok (s_storage s1) f1 /\ same_places (st_buckets (s_storage s)) (st_buckets (s_storage s1)) /\
  (exists buf, Forall (holds buf f1) (st_buckets (s_storage s1)) /\ forall p, hdr_data_len (buf ++ zeros p) = sv_start sv + sv_size sv) /\
  forall st2 f2 fmt vars' flags, reopened (s_storage s1) f1 st2 f2 -> raw_ok ks fmt ->
    rf_algo fmt = rf_algo (s_format s) -> rf_secret_name fmt = rf_secret_name (s_format s) ->
    Forall sv_wf vars' -> Forall2 same_shape (s_variables s) vars' ->
  exists s3 f3, state_do_load (State (s_of_path s) (s_magic s) false vars' true true fmt st2) flags f2 = Some (0, s3, f3) /\
    sv_bytes <$> s_variables s3 = sv_bytes <$> s_variables s /\
    s_dirty s3 = false /\ s_init_from_defaults s3 = false /\
    s_variables s3 = zip_with (fun a b => sv_write_raw (sv_bytes a) b) (s_variables s) vars' /\ same_medium f2 f3.
Proof.
  intros Hdirty Hkeep Hok Hmac Hm Hw Hl Hlast Hsz Hst Hne Hro Hfit Hf.
  destruct (pack_reads garbage ks (s_format s) (s_magic s) (s_variables s) sv Hok Hmac Hm Hw Hl Hlast Hsz)
    as (buf & raw1 & Ep & Hok1 & Ha & Hsn & H0 & Hlen & Hpad).
  set (len := 16 + (sv_start sv + sv_size sv)) in *.
  assert (forall fmt flags, raw_ok ks fmt -> rf_algo fmt = rf_algo (s_format s) ->
    rf_secret_name fmt = rf_secret_name (s_format s) ->
    forall c, is_copy buf c -> verify fmt (s_magic s) flags c = Some len) as Hver.
  { intros fmt flags Hfo Hfa Hfs c [p ->]. destruct (Hpad (zeros p)) as (Hv & Edl & _).
    change (raw_accepts garbage ks fmt (s_magic s) (buf ++ zeros p) flags = Some len).
    rewrite raw_valid_verifies by (done || by apply (raw_valid_same ks (s_format s) fmt)). rewrite Edl. f_equal. unfold len. lia. }
  assert (Hfit' : buckets_fit (st_buckets (s_storage s)) buf) by (apply Hfit; lia).
  destruct (write_spec (s_storage s) buf f Hst Hne Hro Hfit' Hf) as (bs1 & f1 & Ew & Hf1 & Hok2 & Hp & Hh & Hdev).
  exists (with_dirty false (with_storage (set_buckets bs1 (s_storage s)) (with_format raw1 s))), f1.
  split; [|split; [|split; [|split; [done|split; [exact Hok2|split; [exact Hp|split]]]]]].
  - unfold state_save. rewrite Hdirty. cbn [negb format_pack the_pack raw_format_pack]. rewrite Ep.
    cbn [Z.eqb negb with_format s_keep_prev_content s_storage]. rewrite Hkeep. cbn [andb]. by rewrite Ew.
  - done.
  - done.
  - exists buf. split; [exact Hh|]. intros p. by destruct (Hpad (zeros p)) as (_ & -> & _).
  - intros st2 f2 fmt vars' flags Hre Hfo Hfa Hfs Hw' Hshape.
    destruct (reopened_read fmt (s_magic s) flags (set_buckets bs1 (s_storage s)) f1 st2 f2 buf len)
      as (c & st3 & fmt3 & f3 & [p ->] & Er & _ & Hsm); [exact Hfo|done| |done| |lia|by apply Hver|exact Hre|].
    { cbn. intros ->. apply Forall2_length in Hp. by destruct (st_buckets (s_storage s)). }
    { by eapply buckets_fit_room, buckets_fit_places. }
    destruct (Hpad (zeros p)) as (_ & _ & Hu). destruct (Hu vars' Hw' Hshape) as (vars'' & Eu & Ez & Evs & _).
    eexists _, f3. split.
    + unfold state_do_load. cbn [s_storage s_format s_magic]. rewrite Er.
      cbn [Z.eqb negb with_storage with_format s_format s_variables format_unpack the_pack raw_format_pack]. by rewrite Eu.
    + by do 3 (split; [done|]).
Qed.

(** C2: saving a state in the raw format and loading it in another process, on
    any lawful buckets, restores the bytes of every variable, if the variables end below
    64 KiB, which the 16 bits of the length in the header allow: the save succeeds and
    leaves the state clean, and a state with variables of the same layout and the same
    secret that opens the storage loads them, with or without authentication. *)
Theorem state_save_load (s : state B raw_format) sv f :
  s_dirty s = true -> s_keep_prev_content s = false ->
  raw_ok ks (s_format s) -> (is_Some (rf_algo (s_format s)) -> exists m, raw_mac ks (s_format s) = inr m) ->
  0 <= s_magic s < 2 ^ 32 -> Forall sv_wf (s_variables s) -> layout (s_variables s) ->
  list.last (s_variables s) = Some sv -> sv_start sv + sv_size sv < 2 ^ 16 ->
  storage_ok (s_storage s) f -> st_buckets (s_storage s) <> [] -> st_readonly (s_storage s) = false ->
  (forall d, Z.of_nat (length d) <= 48 + (sv_start sv + sv_size sv) -> buckets_fit (st_buckets (s_storage s)) d) ->
  healthy f ->
  exists s1 f1, state_save s f = Some (0, s1, f1) /\ s_dirty s1 = false /\
  forall script fmt vars' flags, Forall benign script -> raw_ok ks fmt ->
    rf_algo fmt = rf_algo (s_format s) -> rf_secret_name fmt = rf_secret_name (s_format s) ->
    Forall sv_wf vars' -> Forall2 same_shape (s_variables s) vars' ->
  exists st2 f2 s3 f3, storage_open (s_storage s1) (with_script script f1) = (st2, f2) /\
    state_do_load (State (s_of_path s) (s_magic s) false vars' true true fmt st2) flags f2 = Some (0, s3, f3) /\
    sv_bytes <$> s_variables s3 = sv_bytes <$> s_variables s /\
    s_dirty s3 = false /\ s_init_from_defaults s3 = false.
Proof.
  intros Hdirty Hkeep Hok Hmac Hm Hw Hl Hlast Hsz Hst Hne Hro Hfit Hf.
  destruct (save_load s sv f Hdirty Hkeep Hok Hmac Hm Hw Hl Hlast Hsz Hst Hne Hro Hfit Hf)
    as (s1 & f1 & Hs & Hd & _ & _ & Hok1 & _ & _ & Hload).
  exists s1, f1. split; [done|]. split; [done|]. intros script fmt vars' flags Hsc Hfo Hfa Hfs Hw' Hsh.
  destruct (open_reopened _ f1 script Hok1 Hsc) as (st2 & f2 & Ho & Hre).
  destruct (Hload st2 f2 fmt vars' flags Hre Hfo Hfa Hfs Hw' Hsh) as (s3 & f3 & El & Hb & H1 & H2 & _).
  by exists st2, f2, s3, f3.
Qed.
End SaveLoadLaws.

(** The type of a value comes from the node that is read, as it does when the
    node has been loaded from a backend in the dtb format: a node that names
    another type than the variable's makes the import work on the wrong
    structure. *)
Example import_type_confusion :
  let sv := StateVariable STATE_VARIABLE_TYPE_UINT32 (cstr "a") 0 4 (StateUint32 1 0) in
  let node := DeviceNode [] [] 0 [Property (cstr "magic") (Some (zeros 4))]
    [DeviceNode (cstr "a@0") [] 0 [Property (cstr "type") (Some (cstr "string" ++ [0u8]))] []] in
  state_from_node false [] 0 [sv] node = None.
Proof. vm_compute. reflexivity. Qed.

(** Two variables of which the first wraps around 2^32 overlap and are accepted. *)
Definition ex_var_node (name : string) (type : string) (start size : Z) : device_node :=
  DeviceNode (cstr name) [] 0
    [Property (cstr "type") (Some (cstr type ++ [0u8]));
     Property (cstr "reg") (Some (be_cell 4 start ++ be_cell 4 size))] [].
Definition ex_state_node (cs : list device_node) : device_node :=
  DeviceNode (cstr "state") (cstr "/state") 0 [Property (cstr "magic") (Some (be_cell 4 0x1234))] cs.

Example overlap_wraps :
  match state_from_node true [] 0 []
    (ex_state_node [ex_var_node "a" "string" 0xfffffff0 0x20; ex_var_node "b" "uint32" 0xfffffff8 4]) with
  | Some (ret, (_, _, vars)) => ret = 0 /\ (sv_start <$> vars) = [0xfffffff0; 0xfffffff8]
  | None => False
  end.
Proof. vm_compute. done. Qed.

(** ** Witnesses *)

Definition ex_tree : device_node :=
  ex_state_node [ex_var_node "boots@0" "uint32" 0 4; ex_var_node "mac@8" "mac" 8 6].
Definition ex_tree_vars : list state_variable :=
  match state_from_node true [] 0 [] ex_tree with Some (_, (_, _, vars)) => vars | None => [] end.

Lemma state_from_node_layout_witness :
  Forall sv_wf ex_tree_vars /\ StronglySorted start_le ex_tree_vars /\ cstr "/state" = dn_full_name ex_tree /\
  of_property_read_u32 ex_tree (cstr "magic") = Ok 0x1234 /\
  (Forall (fun x => sv_start x + sv_size x <= 2 ^ 32) ex_tree_vars -> layout ex_tree_vars).
Proof.
  apply (state_from_node_layout [] 0 ex_tree (cstr "/state") 0x1234 ex_tree_vars). vm_compute. reflexivity.
Defined.

Lemma state_from_node_import_witness :
  cstr "/state" = cstr "/state" /\ 5 = 5 /\ Forall2 same_var ex_tree_vars ex_tree_vars /\
  (forall m, of_property_read_u32 ex_tree (cstr "magic") = Ok m -> 5 <> 0 -> m <> 5 ->
    - EINVAL = - EINVAL /\ ex_tree_vars = ex_tree_vars).
Proof.
  apply (state_from_node_import (cstr "/state") 5 ex_tree_vars ex_tree (- EINVAL) (cstr "/state") 5 ex_tree_vars).
  vm_compute. reflexivity.
Defined.


(** A state over the medium of StorageExamples.v. *)
Section SaveLoadExample.
#[local] Existing Instance StorageExamples.ex_ops.
#[local] Existing Instance StorageExamples.ex_view.
#[local] Existing Instance StorageExamples.ex_laws.
#[local] Instance ex_verify : FormatVerify raw_format := raw_format_verify id ex_secret.
#[local] Instance ex_pack : FormatPack raw_format := raw_format_pack id ex_secret.

Definition ex_state : state direct raw_format :=
  State (cstr "/state") 0x1234 false ex_vars true true ex_plain StorageExamples.ex_storage.

Lemma state_save_load_witness :
  exists s1 f1, state_save ex_state StorageExamples.ex_blank = Some (0, s1, f1) /\ s_dirty s1 = false /\
  forall script fmt vars' flags, Forall benign script -> raw_ok ex_secret fmt ->
    rf_algo fmt = rf_algo (s_format ex_state) -> rf_secret_name fmt = rf_secret_name (s_format ex_state) ->
    Forall sv_wf vars' -> Forall2 same_shape (s_variables ex_state) vars' ->
  exists st2 f2 s3 f3, storage_open (s_storage s1) (with_script script f1) = (st2, f2) /\
    state_do_load (State (s_of_path ex_state) (s_magic ex_state) false vars' true true fmt st2) flags f2 = Some (0, s3, f3) /\
    sv_bytes <$> s_variables s3 = sv_bytes <$> s_variables ex_state /\
    s_dirty s3 = false /\ s_init_from_defaults s3 = false.
Proof.
  apply (state_save_load id ex_secret ex_state
    (StateVariable STATE_VARIABLE_TYPE_UINT8 (cstr "flag") 8 1 (StateUint32 1 0)) StorageExamples.ex_blank).
  - reflexivity.
  - reflexivity.
  - reflexivity.
  - intros [a E]. discriminate E.
  - simpl. lia.
  - apply ex_vars_wf.
  - apply ex_vars_layout.
  - reflexivity.
  - simpl. lia.
  - by apply StorageExamples.ex_wf.
  - discriminate.
  - reflexivity.
  - intros d Hd. apply StorageExamples.ex_fits. simpl in Hd. lia.
  - constructor.
Defined.
End SaveLoadExample.
