(* ===== verification/StateNode.v ===== *)
(** * A state and the node it is saved as

    The variables that [state_to_node] writes to a tree are what [state_from_node]
    reads back from it into a state of the same layout, and the tree is one that
    fdt.c flattens and unflattens without loss. *)

From S2P Require Import Prelude StateVar Dt Variables State Fdt FdtLaws FdtParse.

(** ** The properties an export leaves *)

(** The names that the export functions use. *)
Definition plain_name (s : bytes) : bool :=
  existsb (fun x => bool_decide (s = x))
    [cstr "type"; cstr "reg"; cstr "default"; cstr "names"; cstr "value"; cstr "magic";
     cstr "#address-cells"; cstr "#size-cells"].
Definition plain (ps : list property) : Prop :=
  Forall (fun p => plain_name (pr_name p) = true /\ is_Some (pr_value p)) ps.

(** A node with other properties, all plain if they were plain before. *)
Definition grows (a b : device_node) : Prop :=
  dn_name b = dn_name a /\ dn_full_name b = dn_full_name a /\ dn_phandle b = dn_phandle a /\
  dn_children b = dn_children a /\ (plain (dn_properties a) -> plain (dn_properties b)).

#[export] Instance grows_preorder : PreOrder grows.
Proof.
  split; [done|]. intros a b c (E1 & E2 & E3 & E4 & E5) (F1 & F2 & F3 & F4 & F5).
  repeat split; try congruence. auto.
Qed.

Lemma delete_prop_plain ps name : plain ps -> plain (delete_prop ps name).
Proof.
  induction 1 as [|p ps Hp Hps IH]; [constructor|]. cbn [delete_prop]. case_bool_decide; [done|by constructor].
Qed.

Lemma wr_grows np name data : plain_name name = true -> grows np (wr np name data).
Proof.
  intros Hn. repeat split. intros Hp. apply Forall_app. split; [by apply delete_prop_plain|].
  by repeat constructor.
Qed.

Lemma then_write_grows np r k : grows np (snd r) -> (forall np', grows np np' -> grows np (snd (k np'))) ->
  grows np (snd (then_write r k)).
Proof. intros Hr Hk. unfold then_write. destruct r as [ret np']. destruct (negb (ret =? 0)); [done|by apply Hk]. Qed.

Lemma export_grows sv np conv : grows np (snd (vtype_export sv np conv)).
Proof.
  unfold vtype_export, state_uint32_export, state_enum32_export, state_mac_export, state_string_export.
  assert (forall np' name d, grows np np' -> plain_name name = true -> grows np (wr np' name d)) as Hw.
  { intros np' name d Hg Hn. etrans; [apply Hg|by apply wr_grows]. }
  destruct (sv_data sv) as [v d|v d ns|v d|v d raw].
  all: repeat first
    [ apply then_write_grows; [|intros np' Hg]
    | rewrite write_u32_wr | rewrite write_u8_wr | rewrite write_string_wr | rewrite set_property_wr
    | case_decide | match goal with |- context [if ?b then _ else _] => destruct b end
    | match goal with |- context [match ?o with Some _ => _ | None => _ end] => destruct o end
    | apply Hw; [|reflexivity] | done ].
Qed.

(** Plain properties carry no phandle. *)
Lemma phandle_of_plain ps : plain ps -> phandle_of ps = 0.
Proof.
  unfold phandle_of. assert (forall np, plain ps -> dn_phandle (fold_left add_prop ps np) = dn_phandle np) as H;
    [|intros; by apply H].
  intros np H. revert np. induction H as [|p ps [Hp _] Hps IH]; intros np; [done|]. cbn [fold_left]. rewrite IH.
  unfold add_prop, new_property. rewrite bool_decide_eq_false_2; [done|]. intros E. rewrite E in Hp. by vm_compute in Hp.
Qed.

Lemma plain_name_short s : plain_name s = true -> short_name s = true.
Proof.
  intros [x [Hx ->%bool_decide_eq_true_1]]%existsb_exists. simpl in Hx.
  repeat destruct Hx as [<-|Hx]; (done || vm_compute; reflexivity).
Qed.

Lemma plain_props_ok ps : plain ps -> forallb prop_ok ps = true.
Proof.
  induction 1 as [|p ps [Hn Hv] _ IH]; [done|]. cbn [forallb]. rewrite IH, andb_true_r.
  unfold prop_ok. rewrite (plain_name_short _ Hn). by apply bool_decide_eq_true_2.
Qed.

(** ** Importing what was exported *)

Definition default_fits (sv : state_variable) : Prop :=
  match sv_data sv with
  | StateString _ (Some d) _ => Z.of_nat (length d) <= sv_size sv
  | _ => True
  end.

(** A variable of the same place and type, in order. *)
Definition shape (a b : state_variable) : Prop :=
  sv_name b = sv_name a /\ sv_type b = sv_type a /\ sv_start b = sv_start a /\ sv_size b = sv_size a /\
  sv_wf b /\ default_fits b.

(** What [export_spec] says of the properties that an export of [a] writes. *)
Definition export_props (a : state_variable) (df ns vl : option bytes) : Prop :=
  match sv_data a with
  | StateUint32 v d => df = (if negb (d =? 0) then Some (be_cell 4 d) else None) /\ vl = Some (be_cell 4 v)
  | StateEnum32 v d names =>
      df = (if negb (d =? 0) then Some (be_cell 4 d) else None) /\ vl = Some (be_cell 4 v) /\ ns = Some (string_list names)
  | StateMac v d => df = (if negb (is_zero_ether_addr d) then Some d else None) /\ vl = Some v
  | StateString v d _ => df = (fun s => s ++ [0u8]) <$> d /\ vl = (fun s => s ++ [0u8]) <$> v
  end.

Lemma import_value a b np df ns vl node :
  sv_wf a -> exportable a -> shape a b -> exported node np df ns vl -> export_props a df ns vl ->
  exists d', vtype_import b np = (0, set_data d' b) /\ sv_bytes (set_data d' b) = sv_bytes a /\
    default_fits (set_data d' b).
Proof.
  intros [Ha _] He (En & Et & Est & Esz & [Hb _] & Hfit) (_ & Fd & _ & Fv & _) Hp.
  destruct a as [ta na sa za da], b as [tb nb sb zb db].
  cbn [sv_type sv_name sv_start sv_size sv_data] in *. subst tb nb sb zb.
  unfold data_wf, exportable, export_props, default_fits, vtype_import, sv_bytes, set_data, sv_raw in *.
  cbn [sv_type sv_name sv_start sv_size sv_data] in *.
  destruct ta, da as [v d|v d names|v d|v d raw]; try tauto; destruct db as [v' d'|v' d' names'|v' d'|v' d' raw']; try tauto.
  - destruct Ha as (-> & Hv & _), Hp as [_ ->]. unfold state_uint32_import. rewrite (read_u32_found np _ v Hv Fv). by eexists.
  - destruct Ha as (-> & Hv & _), Hp as [_ ->]. unfold state_uint32_import. rewrite (read_u32_found np _ v Hv Fv). by eexists.
  - destruct Ha as (-> & Hv & Hd), Hp as (-> & -> & _). unfold state_enum32_import. rewrite (find_get _ _ _ Fv).
    unfold wrong_size at 1. rewrite length_be_cell, get_be_cell by done. cbn [Nat.eqb negb].
    destruct (negb (d =? 0)); simpl in Fd.
    + rewrite (find_get _ _ _ Fd). unfold wrong_size. rewrite length_be_cell. by eexists.
    + destruct (read_missing _ _ Fd) as (_ & _ & _ & ->). by eexists.
  - destruct Ha as (-> & Hv & _), Hp as [_ ->]. unfold state_mac_import.
    pose proof (read_u8_found np (cstr "value") v) as Rv. rewrite Hv in Rv. rewrite (Rv eq_refl Fv).
    eexists. split; [done|]. split; [|done]. by rewrite !take_app_le by (rewrite ?Hv; simpl; lia).
  - destruct Ha as (Hsz & Hr & Hcv & Hcd), Hb as (_ & Hr' & _ & _), Hp as [-> ->], He as [(s & -> & Hl & ->) Hdl].
    unfold state_string_import. cbn [fmap option_fmap option_map] in Fv. rewrite (read_string_found np _ s (Hcv s eq_refl) Fv).
    set (df := match of_property_read_string np (cstr "default") with Ok d => Some d | _ => d' end).
    assert (match df with Some x => Z.of_nat (length x) <= za | None => True end) as Hdf.
    { unfold df. destruct d as [d|]; simpl in Fd.
      - rewrite (read_string_found np _ d (Hcd d eq_refl) Fd). by apply Hdl.
      - destruct (read_missing _ _ Fd) as (_ & -> & _). by destruct d'. }
    assert (match df with Some x => za <? Z.of_nat (length x) | None => false end = false) as ->.
    { destruct df as [x|]; [|done]. by destruct (Z.ltb_spec za (Z.of_nat (length x))); [lia|]. }
    rewrite string_copy_fits by done. eexists. split; [done|]. split; [done|]. by destruct df.
Qed.

Lemma import_exported a b np df ns vl node :
  sv_wf a -> exportable a -> shape a b -> exported node np df ns vl -> export_props a df ns vl ->
  exists b', vtype_import b np = (0, b') /\ sv_bytes b' = sv_bytes a /\ shape a b'.
Proof.
  intros Ha He Hs Hx Hp. destruct (import_value a b np df ns vl node Ha He Hs Hx Hp) as (d' & E & Hv & Hf).
  exists (set_data d' b). split; [done|]. split; [done|]. destruct Hs as (En & Et & Est & Esz & [Hb Hst] & _).
  pose proof (import_wf b np Hb) as Hw. rewrite E in Hw. cbn [snd] in Hw.
  do 4 (split; [done|]). split; [by split|done].
Qed.

(** ** The tree of a state and its image *)

Section RoundTrip.
(** The variables that are saved. *)
Context (vars : list state_variable).
Context (Hwf : Forall sv_wf vars) (Hexp : Forall exportable vars) (Hnames : NoDup (sv_name <$> vars)).

(** The type of a node's own variable. *)
Definition own_type (node : device_node) : outcome (option state_variable_type) :=
  match of_property_read_string node (cstr "type") with
  | Ok tn => match state_find_type_by_name tn with Some t => Ok (Some t) | None => Err (- ENOENT) end
  | Err e => if negb (length (dn_children node) =? 0)%nat && (e =? - EINVAL) then Ok None else Err e
  | Undef => Undef
  end.

(** Every node with a type describes a variable of that type, and names are short
    enough for fdt.c: what [state_from_node] has made sure of when it made the
    variables from this tree. *)
Definition typed_ok (node : device_node) (name : bytes) : bool :=
  match own_type node with
  | Ok None => true
  | Ok (Some t) =>
      match state_find_var vars name with Some a => bool_decide (sv_type a = t) | None => false end
  | _ => false
  end.
Fixpoint node_ok (parent_name : bytes) (node : device_node) : bool :=
  let name := variable_name parent_name (dn_name node) in
  match node with
  | DeviceNode nm _ _ _ children => forallb (node_ok name) children && short_name nm && typed_ok node name
  end.

(** The names of the variables that a tree describes. *)
Definition own_names (node : device_node) (name : bytes) : list bytes :=
  match own_type node with Ok (Some _) => [name] | _ => [] end.
Fixpoint var_names (parent_name : bytes) (node : device_node) : list bytes :=
  let name := variable_name parent_name (dn_name node) in
  match node with DeviceNode _ _ _ _ children => mjoin (map (var_names name) children) ++ own_names node name end.

(** A list of variables of the same shape that agrees on some names. *)
Definition agree (names : list bytes) (vars' : list state_variable) : Prop :=
  Forall2 (fun a b => shape a b /\ (sv_name a ∈ names -> sv_bytes b = sv_bytes a)) vars vars'.

Definition image_ok (parent_name : bytes) (node : device_node) : Prop :=
  forall parent, node_ok parent_name node = true ->
  exists new, convert_to STATE_CONVERT_TO_NODE vars node parent_name parent = Some (0, add_child new parent) /\
    dt_ok (dn_full_name parent ++ cstr "/" ++ dn_name new) new = true /\
    forall names vars', agree names vars' ->
    exists vars'', convert_from false new parent_name vars' = Some (0, vars'') /\
      agree (names ++ var_names parent_name node) vars''.

Lemma agree_weaken names names' vars' : agree names vars' -> names' ⊆ names -> agree names' vars'.
Proof.
  unfold agree. clear Hwf Hexp Hnames. intros H Hs. induction H as [|a b l l' [Hsh Hv] _ IH]; [constructor|]. constructor; [|done]. split; [done|]. intros Hin. apply Hv. set_solver.
Qed.

Lemma agree_update vs vs' names name a :
  Forall2 (fun a b => shape a b /\ (sv_name a ∈ names -> sv_bytes b = sv_bytes a)) vs vs' ->
  NoDup (sv_name <$> vs) -> state_find_var vs name = Some a ->
  exists b, state_find_var vs' name = Some b /\ shape a b /\ a ∈ vs /\
  forall b', shape a b' -> sv_bytes b' = sv_bytes a ->
    Forall2 (fun a b => shape a b /\ (sv_name a ∈ names ++ [name] -> sv_bytes b = sv_bytes a)) vs (update_var vs' name b').
Proof.
  induction 1 as [|x y vs vs' [Hsh Hv] Hrest IH]; [done|]. cbn [state_find_var update_var].
  intros [Hx Hnd]%list.NoDup_cons Hf. destruct Hsh as [En Hsh]. rewrite En.
  destruct (bool_decide_reflect (sv_name x = name)) as [Hxn|Hxn].
  - injection Hf as ->. exists y. split; [done|]. split; [by split|]. split; [set_solver|]. intros b' Hb' Hbytes.
    constructor; [by split|]. apply Forall2_same_length_lookup_2; [by eapply Forall2_length|].
    intros i u w Hu Hw. destruct (Forall2_lookup_lr _ _ _ _ _ _ Hrest Hu Hw) as [Hs Hvs]. split; [done|].
    intros Hin. apply Hvs. apply elem_of_app in Hin as [?|Hin%list_elem_of_singleton]; [done|].
    destruct Hx. rewrite Hxn, <-Hin. apply list_elem_of_fmap. exists u. split; [done|]. by eapply list_elem_of_lookup_2.
  - destruct (IH Hnd Hf) as (b & Hb & Hs & Hin & Hup). exists b. split; [done|]. split; [done|]. split; [set_solver|].
    intros b' Hb' Hbytes. constructor; [|by apply Hup]. split; [by split|]. intros Hin'. apply Hv. set_solver.
Qed.

(** Importing into the variable of a name that the saved list has. *)
Lemma agree_import names vars' name a np df ns vl node : agree names vars' -> state_find_var vars name = Some a ->
  exported node np df ns vl -> export_props a df ns vl ->
  exists vars'', convert_import (sv_type a) np name vars' = Some (0, vars'') /\ agree (names ++ [name]) vars''.
Proof.
  intros Hag Hf Hx Hp. destruct (agree_update vars vars' names name a Hag Hnames Hf) as (b & Hb & Hs & Hin & Hup).
  rewrite list.Forall_forall in Hwf, Hexp.
  destruct (import_exported a b np df ns vl node) as (b' & E & Hv & Hs'); [by apply Hwf|by apply Hexp|done..|].
  unfold convert_import. rewrite Hb. assert (type_fits (sv_type a) b = true) as ->.
  { destruct Hs as (_ & Et & _ & _ & [Hw _] & _). rewrite <-Et. unfold data_wf in Hw. unfold type_fits.
    by destruct (sv_type b), (sv_data b). }
  cbn [negb]. rewrite E. eexists. split; [done|]. by apply Hup.
Qed.
Lemma type_name_cstring t : cstring (type_name t).
Proof. destruct t; evaluate. Qed.
Lemma find_type_name t : state_find_type_by_name (type_name t) = Some t.
Proof. by destruct t. Qed.

(** The node of a variable, as [convert_export] begins it. *)
Definition var_node (nm fn : bytes) (news : list device_node) (t : state_variable_type) (a : state_variable) : device_node :=
  wr (wr (DeviceNode nm fn 0 [] news) (cstr "type") (type_name t ++ [0u8])) (cstr "reg")
    (mjoin (be_cell 4 <$> [sv_start a; sv_size a])).

Lemma var_node_spec nm fn news t a : let np := var_node nm fn news t a in
  bare_node np /\ grows (DeviceNode nm fn 0 [] news) np /\
  of_find_property np (cstr "type") = Some (Property (cstr "type") (Some (type_name t ++ [0u8]))).
Proof.
  cbn zeta. unfold var_node. assert (props_unique (DeviceNode nm fn 0 [] news)) as Hu by (unfold props_unique; constructor).
  assert (forall name d, props_unique (wr (DeviceNode nm fn 0 [] news) name d)) as Hu1 by (intros; by apply wr_unique).
  split; [split; [by apply wr_unique|]|split].
  - repeat split; rewrite !wr_other by (done || apply Hu1); done.
  - etrans; by apply wr_grows.
  - rewrite wr_other by (done || apply Hu1). by apply wr_same.
Qed.

Lemma image_own node name nm fn news : typed_ok node name = true -> length news = length (dn_children node) ->
  exists new, convert_to_own STATE_CONVERT_TO_NODE vars node name (DeviceNode nm fn 0 [] news) = Some (0, new) /\
    grows (DeviceNode nm fn 0 [] news) new /\
    forall names vars', agree names vars' ->
    exists vars'', convert_from_own false new name vars' = Some (0, vars'') /\ agree (names ++ own_names node name) vars''.
Proof.
  intros Ht Hl. unfold typed_ok, own_names, own_type in *. unfold convert_to_own.
  destruct (of_property_read_string node (cstr "type")) as [tn|e|]; [|destruct (negb (length (dn_children node) =? 0)%nat && (e =? - EINVAL)) eqn:Hc; [|done]|done].
  - destruct (state_find_type_by_name tn) as [t|]; [|done]. destruct (state_find_var vars name) as [a|] eqn:Ef; [|done].
    apply bool_decide_eq_true_1 in Ht. assert (a ∈ vars) as Hin.
    { pose proof (state_find_var_spec vars name) as S. rewrite Ef in S. destruct S as (pre & post & -> & _). set_solver. }
    assert (data_wf a) as Hw by (rewrite list.Forall_forall in Hwf; by apply Hwf).
    destruct (var_node_spec nm fn news t a) as (Hb & Hg & Hty).
    destruct (export_spec a _ Hb Hw) as (df & ns & vl & Hret & Hx & Hp).
    exists (snd (vtype_export a (var_node nm fn news t a) STATE_CONVERT_TO_NODE)). split; [|split].
    + unfold convert_export. rewrite write_string_wr. cbn [Z.eqb negb]. unfold of_property_write_u32_array, of_property_write.
      cbn [Z.eqb negb]. fold (var_node nm fn news t a). assert (type_fits t a = true) as ->.
      { rewrite <-Ht. unfold data_wf in Hw. unfold type_fits. by destruct (sv_type a), (sv_data a). }
      cbn [negb]. by destruct (vtype_export a _ _) as [r n]; cbn [fst snd] in *; subst r.
    + etrans; [apply Hg|apply export_grows].
    + intros names vars' Hag. unfold convert_from_own.
      rewrite (read_string_found _ _ (type_name t)); [|apply type_name_cstring|].
      2:{ destruct Hx as (_ & _ & _ & _ & Fo). by rewrite Fo. }
      rewrite find_type_name. subst t. exact (agree_import names vars' name a _ df ns vl _ Hag Ef Hx Hp).
  - exists (DeviceNode nm fn 0 [] news). split; [by rewrite decide_False|]. split; [done|]. intros names vars' Hag.
    exists vars'. rewrite app_nil_r. split; [|done]. unfold convert_from_own, of_property_read_string, of_string_value.
    cbn [of_find_property dn_properties find_prop mbind outcome_bind dn_children]. rewrite Hl.
    apply andb_true_iff in Hc as [-> _]. done.
Qed.
Lemma image_children cs : Forall (fun c => forall pn, image_ok pn c) cs -> forall name np, forallb (node_ok name) cs = true ->
  exists news, each_child (fun c n => convert_to STATE_CONVERT_TO_NODE vars c name n) cs np
                 = Some (0, fold_left (fun n c => add_child c n) news np) /\
    length news = length cs /\
    forallb (fun c => dt_ok (dn_full_name np ++ cstr "/" ++ dn_name c) c) news = true /\
    forall names vars', agree names vars' ->
    exists vars'', each_child (fun c vs => convert_from false c name vs) news vars' = Some (0, vars'') /\
      agree (names ++ mjoin (map (var_names name) cs)) vars''.
Proof.
  induction 1 as [|c cs Hc _ IH]; intros name np Hok.
  { exists []. repeat split. intros names vars' Hag. exists vars'. split; [done|]. cbn. by rewrite app_nil_r. }
  cbn [forallb] in Hok. apply andb_true_iff in Hok as [Hok1 Hok2].
  destruct (Hc name np Hok1) as (new & E & Hdt & Hfrom). destruct (IH name (add_child new np) Hok2) as (news & E2 & Hl & Hdts & Hfroms).
  exists (new :: news). split; [|split; [|split]].
  - cbn [each_child fold_left]. rewrite E. cbn [Z.eqb negb]. done.
  - cbn [length]. by rewrite Hl.
  - cbn [forallb]. by rewrite Hdt.
  - intros names vars' Hag. destruct (Hfrom names vars' Hag) as (vars1 & E1 & Hag1).
    destruct (Hfroms _ vars1 Hag1) as (vars2 & E3 & Hag2). exists vars2. split.
    + cbn [each_child]. rewrite E1. cbn [Z.eqb negb]. done.
    + cbn [map]. change (mjoin (?x :: ?l)) with (x ++ mjoin l). by rewrite app_assoc.
Qed.

Lemma image_node node : forall parent_name, image_ok parent_name node.
Proof.
  induction node as [nm fn ph ps cs IH] using device_node_ind. intros pn parent Hok. cbn [node_ok dn_name] in Hok.
  set (name := variable_name pn nm) in *. apply andb_true_iff in Hok as [[Hcs Hshort]%andb_true_iff Hty].
  destruct (image_children cs IH name (of_new_node (Some parent) nm) Hcs) as (news & E & Hl & Hdt & Hfrom).
  set (full := dn_full_name parent ++ cstr "/" ++ nm) in *. cbn [of_new_node] in *. fold full in E, Hdt.
  rewrite fold_add_child in E. cbn [app dn_full_name] in *.
  destruct (image_own (DeviceNode nm fn ph ps cs) name nm full news Hty Hl) as (new & E2 & (Gn & Gf & Gh & Gc & Gp) & Hown).
  specialize (Gp ltac:(constructor)). destruct new as [nm' fn' ph' ps' cs']. cbn [dn_name dn_full_name dn_phandle dn_children dn_properties] in *.
  subst nm' fn' ph' cs'. exists (DeviceNode nm full 0 ps' news). split; [|split].
  - cbn [convert_to dn_name of_new_node]. fold name full. rewrite E. cbn [Z.eqb negb]. rewrite E2. reflexivity.
  - cbn [dt_ok dn_name]. fold full. rewrite bool_decide_eq_true_2 by done. rewrite Hshort, (phandle_of_plain _ Gp), (plain_props_ok _ Gp), Hdt. done.
  - intros names vars' Hag. destruct (Hfrom names vars' Hag) as (vars1 & E3 & Hag1).
    destruct (Hown _ vars1 Hag1) as (vars2 & E4 & Hag2). exists vars2. split.
    + cbn [convert_from dn_name]. fold name. rewrite E3. cbn [Z.eqb negb]. done.
    + cbn [var_names dn_name]. fold name. by rewrite app_assoc.
Qed.

(** The whole tree. *)
Lemma state_image root magic : forallb (node_ok []) (dn_children root) = true ->
  Forall (fun a => sv_name a ∈ mjoin (map (var_names []) (dn_children root))) vars ->
  exists n, state_to_node None (Some root) magic vars STATE_CONVERT_TO_NODE = Ok n /\ root_ok n = true /\
  forall of_path vars', 0 <= magic < 2 ^ 32 -> Forall2 shape vars vars' ->
  exists vars'', state_from_node false of_path magic vars' n = Some (0, (of_path, magic, vars'')) /\
    sv_bytes <$> vars'' = sv_bytes <$> vars /\ Forall2 shape vars vars''.
Proof.
  intros Hok Hall. unfold state_to_node. cbn [of_new_node]. rewrite write_u32_wr. cbn [Z.eqb negb].
  set (np := wr (DeviceNode [] [] 0 [] []) (cstr "magic") (be_cell 4 magic)).
  assert (exists ps, np = DeviceNode [] [] 0 ps [] /\ plain ps /\
    of_find_property np (cstr "magic") = Some (Property (cstr "magic") (Some (be_cell 4 magic)))) as (ps & Enp & Hps & Hmag).
  { eexists. split; [reflexivity|]. split; [by repeat constructor|]. apply wr_same. constructor. }
  destruct (image_children (dn_children root)) with (name := @nil Byte.byte) (np := np) as (news & E & Hl & Hdt & Hfrom).
  { apply Stdlib.Lists.List.Forall_forall. intros c _ pn. apply image_node. }
  { done. }
  rewrite E. cbn [Z.eqb negb]. rewrite Enp, fold_add_child in *. eexists. split; [reflexivity|]. split.
  - unfold root_ok. cbn [dn_name dt_ok]. rewrite !bool_decide_eq_true_2 by done. rewrite (phandle_of_plain _ Hps), (plain_props_ok _ Hps).
    cbn [app dn_full_name] in *. by rewrite Hdt.
  - intros of_path vars' Hm Hsh. unfold state_from_node.
    rewrite (read_u32_found _ _ magic Hm) by exact Hmag. rewrite Z.eqb_refl, andb_false_r. cbn [negb dn_children app].
    destruct (Hfrom [] vars') as (vars'' & E2 & Hag).
    { eapply Forall2_same_length_lookup_2; [by eapply Forall2_length|]. intros i a b Ha Hb.
      split; [by eapply (Forall2_lookup_lr _ _ _ _ _ _ Hsh)|]. set_solver. }
    rewrite E2. cbn [Z.eqb negb]. exists vars''. split; [done|].
    cbn [app] in Hag. unfold agree in Hag. clear -Hag Hall. generalize (mjoin (map (var_names []) (dn_children root))), Hag, Hall.
    clear. intros names Hag Hall. induction Hag as [|a b l l' [Hs Hv] _ IH]; [done|].
    apply Forall_cons_1 in Hall as [Ha Hall]. destruct (IH Hall) as [E F]. split; [|by constructor].
    cbn [fmap list_fmap]. by rewrite Hv, E.
Qed.
End RoundTrip.

(** ** Trees that made a state *)

(** Every name of a tree is short enough for fdt.c. *)
Fixpoint names_short (node : device_node) : bool :=
  match node with DeviceNode nm _ _ _ children => short_name nm && forallb names_short children end.

(** The name and the type of each variable a tree describes. *)
Definition own_vars (node : device_node) (name : bytes) : list (bytes * state_variable_type) :=
  match own_type node with Ok (Some t) => [(name, t)] | _ => [] end.
Fixpoint tree_vars (parent_name : bytes) (node : device_node) : list (bytes * state_variable_type) :=
  let name := variable_name parent_name (dn_name node) in
  match node with DeviceNode _ _ _ _ children => mjoin (map (tree_vars name) children) ++ own_vars node name end.
(** No node of it is refused for its type. *)
Fixpoint types_ok (node : device_node) : bool :=
  match node with
  | DeviceNode _ _ _ _ children => forallb types_ok children && match own_type node with Ok _ => true | _ => false end
  end.

Definition var_key (a : state_variable) : bytes * state_variable_type := (sv_name a, sv_type a).

Lemma mjoin_fst {A} (f : A -> list (bytes * state_variable_type)) g cs : Forall (fun c => g c = (f c).*1) cs ->
  mjoin (map g cs) = (mjoin (map f cs)).*1.
Proof.
  induction 1 as [|c cs Hc _ IH]; [done|]. cbn [map]. change (mjoin (?x :: ?l)) with (x ++ mjoin l).
  by rewrite Hc, IH, fmap_app.
Qed.

Lemma var_names_tree node : forall pn, var_names pn node = (tree_vars pn node).*1.
Proof.
  induction node as [nm fn ph ps cs IH] using device_node_ind. intros pn. cbn [var_names tree_vars].
  rewrite fmap_app. f_equal; [|unfold own_names, own_vars; by destruct (own_type _) as [[t|]| |]].
  apply mjoin_fst. eapply Forall_weaken; [apply IH|]. auto.
Qed.

(** The errors of the readers are not zero. *)
Lemma value_of_size_error np name n : of_find_property_value_of_size np name n <> Err 0.
Proof.
  unfold of_find_property_value_of_size. destruct (of_find_property np name) as [pp|]; [|done].
  destruct (pr_value pp); [|done]. by destruct (_ <? n).
Qed.
Lemma read_string_error np name : of_property_read_string np name <> Err 0.
Proof.
  unfold of_property_read_string, of_string_value. destruct (of_find_property np name) as [pp|]; [|done].
  destruct (pr_value pp); [|done]. by destruct (_ <=? _).
Qed.
Lemma read_array_error np name sz : of_property_read_u32_array np name sz <> Err 0.
Proof.
  unfold of_property_read_u32_array, of_property_read_array.
  pose proof (value_of_size_error np name (u32 (Z.of_nat sz * Z.of_nat 4))) as H.
  destruct (of_find_property_value_of_size np name _); cbn [mbind outcome_bind]; [|congruence|done].
  by destruct (_ <? _)%nat.
Qed.
Lemma string_index_error fuel p i index : string_index_loop fuel p i index <> Err 0.
Proof.
  revert p i. induction fuel as [|fuel IH]; intros p i; cbn [string_index_loop]; [done|].
  destruct (length p =? 0)%nat; [done|]. destruct (until_nul p); [|done]. by destruct (i =? index).
Qed.
Lemma read_index_error np name i : of_property_read_string_index np name i <> Err 0.
Proof.
  unfold of_property_read_string_index, of_string_value. destruct (of_find_property np name) as [pp|]; [|done].
  destruct (pr_value pp); [|done]. destruct (_ <=? _); cbn [mbind outcome_bind]; [done|apply string_index_error].
Qed.
Lemma enum32_names_error todo : forall i node, enum32_names todo i node <> Err 0.
Proof.
  induction todo as [|todo IH]; intros i node; cbn [enum32_names]; [done|].
  destruct (of_property_read_string_index node (cstr "names") i) as [s|e|] eqn:E; cbn [mbind outcome_bind]; [|intros [= ->]|done].
  - pose proof (IH (i + 1) node). destruct (enum32_names todo (i + 1) node); cbn [mbind outcome_bind]; congruence.
  - by apply read_index_error in E.
Qed.
Lemma create_error t node : vtype_create t node <> Err 0.
Proof.
  destruct t; cbn [vtype_create]; try done.
  - unfold state_enum32_create. destruct (of_property_count_strings _ _) as [n| |]; [|done|done].
    pose proof (enum32_names_error (Z.to_nat n) 0 node).
    destruct (enum32_names _ _ _); cbn [mbind outcome_bind]; congruence.
  - unfold state_string_create. pose proof (read_array_error node (cstr "reg") 2).
    destruct (of_property_read_u32_array _ _ _); [|congruence|done]. by destruct (4096 <? _).
Qed.

(** What the create pass leaves: the variables of the tree besides the old ones. *)
Lemma convert_create_keys t node name vars vars' : convert_create t node name vars = Some (0, vars') ->
  (var_key <$> vars') ≡ₚ (var_key <$> vars) ++ [(name, t)].
Proof.
  unfold convert_create. pose proof (create_error t node) as He.
  destruct (vtype_create t node) as [sv|e|] eqn:Ec; [|intros H; by simplify_eq|done].
  pose proof (read_array_error node (cstr "reg") 2) as Hr.
  destruct (of_property_read_u32_array node (cstr "reg") 2) as [ss|e|]; [|intros H; by simplify_eq|done].
  destruct (negb (nth 1 ss 0 =? sv_size sv)); [done|]. destruct (create_wf _ _ _ Ec) as (_ & Ht & _).
  pose proof (import_frame (place_var name (nth 0 ss 0) sv) node) as (_ & _ & En & Et).
  destruct (vtype_import _ node) as [r sv1]. cbn [snd] in *. intros H. simplify_eq.
  unfold state_add_var. rewrite list_add_sort_perm. cbn [fmap list_fmap]. unfold var_key at 1. rewrite En, Et.
  cbn [place_var sv_name sv_type]. apply Permutation_cons_append.
Qed.

Lemma create_own_keys node name vars vars' : convert_from_own true node name vars = Some (0, vars') ->
  (match own_type node with Ok _ => true | _ => false end) = true /\
  (var_key <$> vars') ≡ₚ (var_key <$> vars) ++ own_vars node name.
Proof.
  unfold convert_from_own, own_vars, own_type. pose proof (read_string_error node (cstr "type")) as Hr.
  destruct (of_property_read_string node (cstr "type")) as [tn|e|]; [| |done].
  - destruct (state_find_type_by_name tn) as [t|]; [|done]. intros H. split; [done|]. by eapply convert_create_keys.
  - destruct (negb (length (dn_children node) =? 0)%nat && (e =? - EINVAL)); intros H; simplify_eq.
    split; [done|]. by rewrite app_nil_r.
Qed.

Lemma create_children_keys cs : Forall (fun node => forall pn vars vars', convert_from true node pn vars = Some (0, vars') ->
    types_ok node = true /\ (var_key <$> vars') ≡ₚ (var_key <$> vars) ++ tree_vars pn node) cs ->
  forall name vars vars', each_child (fun c vars => convert_from true c name vars) cs vars = Some (0, vars') ->
  forallb types_ok cs = true /\ (var_key <$> vars') ≡ₚ (var_key <$> vars) ++ mjoin (map (tree_vars name) cs).
Proof.
  induction 1 as [|c cs Hc _ IH]; intros name vars vars'; cbn [each_child].
  { intros [= <-]. split; [done|]. by rewrite app_nil_r. }
  destruct (convert_from true c name vars) as [[r v]|] eqn:Ec; [|done].
  destruct (Z.eqb_spec r 0) as [->|]; cbn [negb]; [|intros H; by simplify_eq]. intros E.
  destruct (Hc _ _ _ Ec) as [Ht Hp], (IH _ _ _ E) as [Hts Hps]. split; [cbn [forallb]; by rewrite Ht|].
  rewrite Hps, Hp. cbn [map]. change (mjoin (?x :: ?l)) with (x ++ mjoin l). by rewrite app_assoc.
Qed.

Lemma create_keys node : forall pn vars vars', convert_from true node pn vars = Some (0, vars') ->
  types_ok node = true /\ (var_key <$> vars') ≡ₚ (var_key <$> vars) ++ tree_vars pn node.
Proof.
  induction node as [nm fn ph ps cs IH] using device_node_ind. intros pn vars vars'. cbn [convert_from types_ok tree_vars dn_name].
  set (name := variable_name pn nm). destruct (each_child _ cs vars) as [[ret vars1]|] eqn:E; [|done].
  destruct (Z.eqb_spec ret 0) as [->|Hne]; cbn [negb]; [|intros H; by simplify_eq].
  destruct (create_children_keys cs IH name vars vars1 E) as [-> Hp].
  intros [-> Ho]%create_own_keys. split; [done|]. rewrite Ho, Hp. by rewrite app_assoc.
Qed.

Lemma find_var_unique vars a : NoDup (sv_name <$> vars) -> a ∈ vars -> state_find_var vars (sv_name a) = Some a.
Proof.
  intros Hnd Ha. induction vars as [|x vars IH]; [by apply not_elem_of_nil in Ha|].
  apply list.NoDup_cons in Hnd as [Hx Hnd]. cbn [state_find_var]. apply elem_of_cons in Ha as [->|Ha].
  - by rewrite bool_decide_eq_true_2.
  - rewrite bool_decide_eq_false_2; [by apply IH|]. intros E. destruct Hx. rewrite E. apply list_elem_of_fmap. by exists a.
Qed.

Lemma tree_node_ok vars node : NoDup (sv_name <$> vars) -> forall pn,
  types_ok node = true -> names_short node = true -> tree_vars pn node ⊆ var_key <$> vars -> node_ok vars pn node = true.
Proof.
  intros Hnd. induction node as [nm fn ph ps cs IH] using device_node_ind. intros pn.
  cbn [types_ok names_short tree_vars node_ok dn_name]. set (name := variable_name pn nm).
  intros [Htc Hto]%andb_true_iff [Hs Hsc]%andb_true_iff Hsub. rewrite Hs, andb_true_r. apply andb_true_iff. split.
  - clear Hto Hs. assert (mjoin (map (tree_vars name) cs) ⊆ var_key <$> vars) as Hsub' by set_solver. clear Hsub.
    induction IH as [|c cs Hc _ IHcs]; [done|]. cbn [forallb map] in *. change (mjoin (?x :: ?l)) with (x ++ mjoin l) in *.
    apply andb_true_iff in Htc as [? ?], Hsc as [? ?]. rewrite Hc, IHcs; set_solver.
  - unfold typed_ok, own_vars in *. destruct (own_type _) as [[t|]|e|]; [|done..].
    assert ((name, t) ∈ var_key <$> vars) as Hin by set_solver. apply list_elem_of_fmap in Hin as (a & [= En Et] & Ha).
    rewrite En, (find_var_unique vars a Hnd Ha), Et. by apply bool_decide_eq_true_2.
Qed.

Lemma shape_keys vars vars' : Forall2 shape vars vars' -> var_key <$> vars' = var_key <$> vars.
Proof.
  induction 1 as [|a b l l' (En & Et & _) _ IH]; [done|]. cbn [fmap list_fmap]. unfold var_key at 1 3. by rewrite En, Et, IH.
Qed.

Lemma key_names vars : sv_name <$> vars = (var_key <$> vars).*1.
Proof. rewrite <-list_fmap_compose. done. Qed.

(** A state that [state_from_node] made: its tree describes its variables. *)
Lemma made_state_tree root of_path0 magic0 of_path magic vars :
  state_from_node true of_path0 magic0 [] root = Some (0, (of_path, magic, vars)) ->
  0 <= magic < 2 ^ 32 /\ forallb types_ok (dn_children root) = true /\
  (var_key <$> vars) ≡ₚ mjoin (map (tree_vars []) (dn_children root)).
Proof.
  unfold state_from_node. destruct (of_property_read_u32 root (cstr "magic")) as [m|e|] eqn:Em; [|intros H|done].
  2:{ injection H as -> _ _ _. by destruct (read_u32_error _ _ Em). }
  cbn [negb andb]. destruct (each_child _ (dn_children root) []) as [[ret vs]|] eqn:E; [|done].
  destruct (Z.eqb_spec ret 0) as [->|]; cbn [negb]; [|intros H; by simplify_eq]. intros H.
  assert (m = magic /\ vs = vars) as [-> ->] by (by injection H). split; [by eapply read_u32_range|].
  apply (create_children_keys (dn_children root)) in E; [done|]. apply Stdlib.Lists.List.Forall_forall. intros c _. apply create_keys.
Qed.

Lemma state_image_made root of_path0 magic0 of_path magic vars0 vars :
  state_from_node true of_path0 magic0 [] root = Some (0, (of_path, magic, vars0)) ->
  forallb names_short (dn_children root) = true -> NoDup (sv_name <$> vars0) ->
  Forall2 shape vars0 vars -> Forall exportable vars ->
  exists n, state_to_node None (Some root) magic vars STATE_CONVERT_TO_NODE = Ok n /\ root_ok n = true /\
  forall vars', Forall2 shape vars vars' ->
  exists vars'', state_from_node false of_path magic vars' n = Some (0, (of_path, magic, vars'')) /\
    sv_bytes <$> vars'' = sv_bytes <$> vars /\ Forall2 shape vars vars''.
Proof.
  intros Hmade Hshort Hnd Hsh Hexp. destruct (made_state_tree _ _ _ _ _ _ Hmade) as (Hm & Htypes & Hkeys).
  rewrite key_names, <-(shape_keys _ _ Hsh) in Hnd. rewrite <-(shape_keys _ _ Hsh) in Hkeys. rewrite <-key_names in Hnd.
  assert (Forall sv_wf vars) as Hwf by (clear -Hsh; induction Hsh as [|a b l l' (_ & _ & _ & _ & Hw & _)]; by constructor).
  destruct (state_image vars Hwf Hexp Hnd root magic) as (n & En & Hrok & Hread).
  - assert (mjoin (map (tree_vars []) (dn_children root)) ⊆ var_key <$> vars) as Hsub by (rewrite Hkeys; done).
    clear -Htypes Hshort Hnd Hsub. induction (dn_children root) as [|c cs IH]; [done|]. cbn [forallb map] in *.
    change (mjoin (?x :: ?l)) with (x ++ mjoin l) in *. apply andb_true_iff in Htypes as [? ?], Hshort as [? ?].
    rewrite (tree_node_ok vars c Hnd), IH; set_solver.
  - assert (mjoin (map (var_names []) (dn_children root)) = (mjoin (map (tree_vars []) (dn_children root))).*1) as ->.
    { apply mjoin_fst, Stdlib.Lists.List.Forall_forall. intros c _. apply var_names_tree. }
    apply list.Forall_forall. intros a Ha. rewrite <-Hkeys, <-key_names. apply list_elem_of_fmap. by exists a.
  - exists n. split; [done|]. split; [done|]. intros vars' Hv. by apply Hread.
Qed.

(** ** Claims *)

(** C11: the node a state is saved as holds the state. For every state that was made
    from a tree with distinct names, whatever values its variables have now, if its
    enumerations have names and every string has been set or read since it was loaded (a
    string that was not has no [value] to export, and is lost; [exportable]):
    [state_to_node] succeeds, its tree is one that fdt.c flattens without loss, and
    reading it into any state of the same layout succeeds and gives every variable
    the saved bytes. *)
Theorem state_node_roundtrip root of_path0 magic0 of_path magic vars0 vars :
  state_from_node true of_path0 magic0 [] root = Some (0, (of_path, magic, vars0)) ->
  forallb names_short (dn_children root) = true -> NoDup (sv_name <$> vars0) ->
  Forall2 shape vars0 vars -> Forall exportable vars ->
  exists n, state_to_node None (Some root) magic vars STATE_CONVERT_TO_NODE = Ok n /\ root_ok n = true /\
  forall vars', Forall2 shape vars vars' ->
  exists vars'', state_from_node false of_path magic vars' n = Some (0, (of_path, magic, vars'')) /\
    sv_bytes <$> vars'' = sv_bytes <$> vars /\ Forall2 shape vars vars''.
Proof. apply state_image_made. Qed.

(** The example of State.v after a value has been set. *)
Definition ex_tree_now : list state_variable :=
  match ex_tree_vars with sv :: l => set_data (StateUint32 7 0) sv :: l | [] => [] end.

Lemma ex_tree_made : state_from_node true [] 0 [] State.ex_tree = Some (0, (cstr "/state", 0x1234, ex_tree_vars)).
Proof. vm_compute. reflexivity. Qed.

Lemma ex_tree_shape : Forall2 shape ex_tree_vars ex_tree_now.
Proof. repeat constructor; vm_compute; (done || (intros; discriminate)). Qed.

Lemma state_node_roundtrip_witness :
  exists n, state_to_node None (Some State.ex_tree) 0x1234 ex_tree_now STATE_CONVERT_TO_NODE = Ok n /\ root_ok n = true /\
  forall vars', Forall2 shape ex_tree_now vars' ->
  exists vars'', state_from_node false (cstr "/state") 0x1234 vars' n = Some (0, (cstr "/state", 0x1234, vars'')) /\
    sv_bytes <$> vars'' = sv_bytes <$> ex_tree_now /\ Forall2 shape ex_tree_now vars''.
Proof.
  apply (state_node_roundtrip State.ex_tree [] 0 (cstr "/state") 0x1234 ex_tree_vars ex_tree_now ex_tree_made).
  - vm_compute. reflexivity.
  - evaluate.
  - apply ex_tree_shape.
  - repeat constructor.
Defined.
