(* ===== verification/DtbFormat.v ===== *)
(** * The dtb format (src/barebox-state/backend_format_dtb.c)

    A state stored as a flattened device tree, without a checksum. The format keeps
    the tree of the last buffer it verified, and unpacks that one. *)

From S2P Require Import Prelude Sysfile Bucket StateVar Storage Dt Tree Variables State Fdt FdtLaws FdtParse StateNode.

(** [struct state_backend_format_dtb]. *)
Record dtb_format : Type := DtbFormat { fdtb_root : option device_node }.

(** The result, the length in [*lenp] and the format. *)
Definition state_backend_format_dtb_verify (fdtb : dtb_format) (magic : Z) (buf : bytes) (len flags : Z)
  : outcome (Z * Z * dtb_format) :=
  dtb_len ← load32 buf 4;
  if len <? dtb_len then Ok (- EINVAL, len, fdtb) else
  match of_unflatten_dtb buf with
  | Undef => Undef
  | Err e => Ok (e, len, DtbFormat None)
  | Ok root => Ok (0, dtb_len, DtbFormat (Some root))
  end.

(** [state_from_node] of the NULL node finds no magic. *)
Definition state_backend_format_dtb_unpack (fdtb : dtb_format) (of_path : bytes) (magic : Z)
    (vars : list state_variable) (buf : bytes) (len : Z) : outcome (Z * list state_variable * dtb_format) :=
  fdtb ← (match fdtb_root fdtb with
          | Some _ => Ok fdtb
          | None => '(_, _, fdtb) ← state_backend_format_dtb_verify fdtb 0 buf len 0; Ok fdtb
          end);
  match fdtb_root fdtb with
  | None => Ok (- EINVAL, vars, DtbFormat None)
  | Some root =>
      match state_from_node false of_path magic vars root with
      | None => Undef
      | Some (ret, (_, _, vars')) => Ok (ret, vars', DtbFormat None)
      end
  end.

(** The result with the buffer and the length to store. [state_root] is the node
    that the path of the state finds. *)
Definition state_backend_format_dtb_pack (garbage : nat -> Byte.byte) (fdtb : dtb_format)
    (state_root : option device_node) (magic : Z) (vars : list state_variable)
  : outcome (Z * option (bytes * Z) * dtb_format) :=
  match state_to_node None state_root magic vars STATE_CONVERT_TO_NODE with
  | Undef => Undef
  | Err e => Ok (e, None, fdtb)
  | Ok root =>
      buf ← of_flatten_dtb garbage root;
      len ← load32 buf 4;
      Ok (0, Some (buf, len), DtbFormat (Some root))
  end.

Definition backend_format_dtb_create : dtb_format := DtbFormat None.

(** ** The format behind the interfaces *)

#[export] Instance dtb_format_verify : FormatVerify dtb_format := {|
  format_verify fdtb magic buf len flags :=
    match state_backend_format_dtb_verify fdtb magic buf len flags with Ok r => Some r | _ => None end
|}.

(** The path of a state is looked up in the global tree. *)
Definition dtb_format_pack (garbage : nat -> Byte.byte) (root_node : option device_node) : FormatPack dtb_format := {|
  format_pack fdtb of_path magic vars :=
    let state_root := of_find_node_by_path root_node (Some of_path) ≫= fun p => root_node ≫= fun root => node_at root p in
    match state_backend_format_dtb_pack garbage fdtb state_root magic vars with
    | Ok (ret, Some (buf, len), fdtb) => Some (ret, take (Z.to_nat len) buf, fdtb)
    | Ok (ret, None, fdtb) => Some (ret, [], fdtb)
    | _ => None
    end;
  format_unpack fdtb of_path magic vars buf len :=
    match state_backend_format_dtb_unpack fdtb of_path magic vars buf len with Ok r => Some r | _ => None end
|}.

(** ** Verifying and unpacking a stored tree *)

Lemma verify_blob_len fdtb magic n rest len flags : root_ok n = true -> tree_fits n = true -> zlen (blob n) <= len ->
  state_backend_format_dtb_verify fdtb magic (blob n ++ rest) len flags = Ok (0, zlen (blob n), DtbFormat (Some n)).
Proof.
  intros Hok Hfit Hlen. destruct (blob_has n rest) as [Hh Hn]. unfold state_backend_format_dtb_verify.
  rewrite (load32_total n rest Hfit). cbn [mbind outcome_bind].
  rewrite (proj2 (Z.ltb_ge len (zlen (blob n))) Hlen). by rewrite (parse_tree _ n Hok Hfit Hh Hn).
Qed.

Lemma verify_blob fdtb magic n rest flags : root_ok n = true -> tree_fits n = true ->
  state_backend_format_dtb_verify fdtb magic (blob n ++ rest) (zlen (blob n ++ rest)) flags
  = Ok (0, zlen (blob n), DtbFormat (Some n)).
Proof. intros Hok Hfit. apply verify_blob_len; [done..|]. rewrite zlen_app. pose proof (zlen_nonneg rest). lia. Qed.

Lemma blob_pos n : tree_fits n = true -> 0 < zlen (blob n).
Proof.
  intros Hfit. pose proof (load32_total n [] Hfit) as H. rewrite app_nil_r in H. destruct (blob n) as [|b l]; [by vm_compute in H|].
  unfold zlen. cbn [length]. lia.
Qed.

Lemma unpack_kept n of_path magic vars buf len ret p m vars' :
  state_from_node false of_path magic vars n = Some (ret, (p, m, vars')) ->
  state_backend_format_dtb_unpack (DtbFormat (Some n)) of_path magic vars buf len = Ok (ret, vars', DtbFormat None).
Proof. intros H. unfold state_backend_format_dtb_unpack. cbn [fdtb_root mbind outcome_bind]. by rewrite H. Qed.

(** When several copies have been verified, the one that is unpacked is the last,
    not the one whose buffer [state_storage_read] passes. *)
Lemma dtb_unpacks_last n1 n2 fdtb magic flags of_path smagic vars :
  root_ok n1 = true -> tree_fits n1 = true -> root_ok n2 = true -> tree_fits n2 = true ->
  exists f1 f2, state_backend_format_dtb_verify fdtb magic (blob n1) (zlen (blob n1)) flags = Ok (0, zlen (blob n1), f1) /\
    state_backend_format_dtb_verify f1 magic (blob n2) (zlen (blob n2)) flags = Ok (0, zlen (blob n2), f2) /\
    state_backend_format_dtb_unpack f2 of_path smagic vars (blob n1) (zlen (blob n1))
    = match state_from_node false of_path smagic vars n2 with
      | Some (ret, (_, _, vars')) => Ok (ret, vars', DtbFormat None)
      | None => Undef
      end.
Proof.
  intros H1 F1 H2 F2. exists (DtbFormat (Some n1)), (DtbFormat (Some n2)).
  pose proof (verify_blob fdtb magic n1 [] flags H1 F1) as V1. pose proof (verify_blob (DtbFormat (Some n1)) magic n2 [] flags H2 F2) as V2.
  rewrite app_nil_r in V1, V2. split; [done|]. split; done.
Qed.

(** ** Verdicts on copies of one tree *)

Section OneTree.
Context (n : device_node) (Hok : root_ok n = true) (Hfit : tree_fits n = true).

(** The blob of [n] is what is accepted. *)
Definition dtb_accepts (fdtb : dtb_format) (magic : Z) (c : bytes) (flags : Z) : option Z :=
  match state_backend_format_dtb_verify fdtb magic c (zlen c) flags with
  | Ok (ret, len, _) => if (ret =? 0) && bool_decide (take (Z.to_nat len) c = blob n) then Some len else None
  | _ => None
  end.
(** A copy is safe when looking at it stays inside it and no other tree is found. *)
Definition dtb_safe (fdtb : dtb_format) (magic : Z) (c : bytes) (flags : Z) : Prop :=
  match state_backend_format_dtb_verify fdtb magic c (zlen c) flags with
  | Ok (ret, len, _) => ret = 0 -> take (Z.to_nat len) c = blob n
  | _ => False
  end.
(** The tree that is kept is [n] or none. *)
Definition dtb_keeps (fdtb : dtb_format) : Prop := fdtb_root fdtb = None \/ fdtb_root fdtb = Some n.

Lemma dtb_verify_same f1 f2 magic c flags ret len fmt :
  state_backend_format_dtb_verify f1 magic c (zlen c) flags = Ok (ret, len, fmt) ->
  exists fmt', state_backend_format_dtb_verify f2 magic c (zlen c) flags = Ok (ret, len, fmt').
Proof.
  unfold state_backend_format_dtb_verify. destruct (load32 c 4) as [l| |]; cbn [mbind outcome_bind]; [|done|done].
  destruct (zlen c <? l); [intros [= <- <- _]; by eexists|].
  destruct (of_unflatten_dtb c); [| |done]; intros [= <- <- _]; by eexists.
Qed.

Lemma dtb_same f1 f2 magic c flags :
  dtb_accepts f1 magic c flags = dtb_accepts f2 magic c flags /\ (dtb_safe f1 magic c flags <-> dtb_safe f2 magic c flags).
Proof.
  unfold dtb_accepts, dtb_safe.
  destruct (state_backend_format_dtb_verify f1 magic c (zlen c) flags) as [[[r l] x]|e|] eqn:E1,
    (state_backend_format_dtb_verify f2 magic c (zlen c) flags) as [[[r' l'] x']|e'|] eqn:E2; try done;
    try (destruct (dtb_verify_same _ f2 _ _ _ _ _ _ E1) as [y E]; congruence);
    try (destruct (dtb_verify_same _ f1 _ _ _ _ _ _ E2) as [y E]; congruence).
  destruct (dtb_verify_same _ f2 _ _ _ _ _ _ E1) as [y E]. rewrite E in E2. by injection E2 as -> -> ->.
Qed.

Lemma dtb_accepts_copy fdtb magic flags padding : dtb_accepts fdtb magic (blob n ++ padding) flags = Some (zlen (blob n)).
Proof.
  unfold dtb_accepts. rewrite verify_blob by done.
  assert (take (Z.to_nat (zlen (blob n))) (blob n ++ padding) = blob n) as -> by (unfold zlen; rewrite Nat2Z.id; apply take_app_length).
  rewrite bool_decide_eq_true_2 by done. done.
Qed.

Definition dtb_laws : FormatLaws dtb_format.
Proof.
  refine (@Build_FormatLaws dtb_format dtb_format_verify dtb_keeps dtb_safe dtb_accepts _ _).
  - intros fmt magic c flags. unfold dtb_accepts, dtb_safe.
    destruct (state_backend_format_dtb_verify fmt magic c (zlen c) flags) as [[[r l] x]|e|]; [|by intros []|by intros []].
    case_bool_decide; [done|]. rewrite andb_false_r. by intros [].
  - intros fmt magic c flags Hk Hs. pose proof Hs as Hs'. unfold dtb_safe in Hs'. cbn [format_verify dtb_format_verify].
    fold (zlen c). destruct (state_backend_format_dtb_verify fmt magic c (zlen c) flags) as [[[r l] x]|e|] eqn:E; [|done|done].
    exists r, l, x. split; [done|]. unfold dtb_accepts. rewrite E. split; [|split].
    + destruct (Z.eqb_spec r 0) as [->|Hr]; cbn [andb]; [|done]. by rewrite bool_decide_eq_true_2 by auto.
    + destruct (decide (r = 0)) as [->|Hr].
      * specialize (Hs' eq_refl).
        assert (c = blob n ++ drop (Z.to_nat l) c) as Ec by (rewrite <-Hs'; symmetry; apply take_drop).
        rewrite Ec, verify_blob in E by done. injection E as <- <-. by right.
      * revert E. unfold state_backend_format_dtb_verify. destruct (load32 c 4) as [len| |]; cbn [mbind outcome_bind]; [|done|done].
        destruct (zlen c <? len); [by intros [= _ _ <-]|].
        destruct (of_unflatten_dtb c); [by intros [= <- _ _]| |done]. intros [= _ _ <-]. by left.
    + intros m y fl. apply dtb_same.
Defined.
End OneTree.

(** ** From one process to the next *)

Section SaveLoad.
Context {B : Type} {HO : BucketOps B} {HV : BucketView B} {HL : BucketLaws B} {HM : WrongMagic B}.
Context (garbage : nat -> Byte.byte) (root_node : device_node).
#[local] Instance save_pack : FormatPack dtb_format := dtb_format_pack garbage (Some root_node).

(** C12: saving a state in the dtb format and loading it in another process, on any
    lawful buckets, restores the bytes of every variable, if every string has been set or
    read since it was loaded (the value of one that was not is not saved) and every
    enumeration has names, which is [exportable]: the save succeeds and leaves the state
    clean, and a state with variables of the same layout that opens the storage, with
    whatever errors the medium corrects, loads them, although every bucket that is
    verified replaces the tree that the format keeps. *)
Theorem dtb_state_save_load (s : state B dtb_format) p node of_path0 magic0 vars0 f
    (Hdirty : s_dirty s = true) (Hkeep : s_keep_prev_content s = false)
    (Hfind : of_find_node_by_path (Some root_node) (Some (s_of_path s)) = Some p) (Hnode : node_at root_node p = Some node)
    (Hmade : state_from_node true of_path0 magic0 [] node = Some (0, (s_of_path s, s_magic s, vars0)))
    (Hshort : forallb names_short (dn_children node) = true) (Hnd : NoDup (sv_name <$> vars0))
    (Hshape : Forall2 shape vars0 (s_variables s)) (Hexp : Forall exportable (s_variables s))
    (Hfit : forall n, state_to_node None (Some node) (s_magic s) (s_variables s) STATE_CONVERT_TO_NODE = Ok n ->
      tree_fits n = true /\ buckets_fit (st_buckets (s_storage s)) (blob n))
    (Hst : storage_ok (s_storage s) f) (Hne : st_buckets (s_storage s) <> []) (Hro : st_readonly (s_storage s) = false)
    (Hf : healthy f) :
  exists s1 f1, state_save s f = Some (0, s1, f1) /\ s_dirty s1 = false /\
  forall script vars' flags, Forall benign script -> Forall2 shape (s_variables s) vars' ->
  exists st2 f2 s3 f3, storage_open (s_storage s1) (with_script script f1) = (st2, f2) /\
    state_do_load (State (s_of_path s) (s_magic s) false vars' true true backend_format_dtb_create st2) flags f2 = Some (0, s3, f3) /\
    sv_bytes <$> s_variables s3 = sv_bytes <$> s_variables s /\ s_dirty s3 = false /\ s_init_from_defaults s3 = false.
Proof.
  destruct (state_image_made node of_path0 magic0 (s_of_path s) (s_magic s) vars0 (s_variables s)) as (n & En & Hok & Hread);
    [done..|]. destruct (Hfit n En) as [Hn Hb]. destruct (flatten_blob garbage n Hok Hn) as [rest Ef].
  pose (laws := dtb_laws n Hok Hn). set (d := blob n) in *.
  assert (Hver : forall fmt flags c, is_copy d c -> @verify dtb_format _ laws fmt (s_magic s) flags c = Some (zlen d)).
  { intros fmt flags c [x ->]. by apply dtb_accepts_copy. }
  assert (Hlen : 0 < zlen d <= Z.of_nat (length d)) by (split; [by apply blob_pos|done]).
  assert (Hpack : format_pack (s_format s) (s_of_path s) (s_magic s) (s_variables s) = Some (0, d, DtbFormat (Some n))).
  { cbn [format_pack save_pack dtb_format_pack]. rewrite Hfind. cbn [mbind option_bind]. rewrite Hnode.
    unfold state_backend_format_dtb_pack. rewrite En, Ef. cbn [mbind outcome_bind]. rewrite (load32_total n rest Hn : load32 (d ++ rest) 4 = Ok (zlen d)). cbn [mbind outcome_bind].
    unfold zlen. by rewrite Nat2Z.id, take_app_length. }
  destruct (write_spec (s_storage s) d f Hst Hne Hro Hb Hf) as (bs1 & f1 & Ew & Hf1 & Hok2 & Hp & Hh & _).
  eexists _, f1. split; [|split].
  - unfold state_save. rewrite Hdirty. cbn [negb]. rewrite Hpack. cbn [Z.eqb negb with_format s_keep_prev_content s_storage].
    rewrite Hkeep. cbn [andb]. by rewrite Ew.
  - done.
  - intros script vars' flags Hs Hsh.
    destruct (open_reopened _ f1 script Hok2 Hs) as (st2 & f2 & Ho & Hre).
    destruct (@reopened_read B dtb_format HO HV HL dtb_format_verify laws backend_format_dtb_create (s_magic s) flags
      (set_buckets bs1 (s_storage s)) f1 st2 f2 d (zlen d))
      as (c & st3 & fmt3 & f3 & [x ->] & Er & Hk & _); [exact (or_introl eq_refl)|done| |done| |done|by apply Hver|exact Hre|].
    { cbn. intros ->. apply Forall2_length in Hp. by destruct (st_buckets (s_storage s)). }
    { by eapply buckets_fit_room, buckets_fit_places. }
    destruct (Hread vars' Hsh) as (vars'' & Efrom & Ebytes & _).
    assert (Hun : format_unpack fmt3 (s_of_path s) (s_magic s) vars' (d ++ zeros x) (zlen d) = Some (0, vars'', DtbFormat None)).
    { cbn [format_unpack save_pack dtb_format_pack]. destruct fmt3 as [[m|]]; destruct Hk as [Hk|Hk]; try done; cbn in Hk.
      - injection Hk as ->. by rewrite (unpack_kept n _ _ _ _ _ 0 (s_of_path s) (s_magic s) vars'').
      - unfold state_backend_format_dtb_unpack. cbn [fdtb_root].
        rewrite (verify_blob_len _ 0 n (zeros x) (zlen d) 0 Hok Hn ltac:(done)
          : state_backend_format_dtb_verify (DtbFormat None) 0 (d ++ zeros x) (zlen d) 0 = _).
        cbn [mbind outcome_bind fdtb_root]. by rewrite Efrom. }
    eexists st2, f2, _, f3. split; [exact Ho|]. split.
    + unfold state_do_load. cbn [s_storage s_format s_magic]. rewrite Er.
      cbn [Z.eqb negb with_storage with_format s_format s_variables s_of_path s_magic]. by rewrite Hun.
    + done.
Qed.
End SaveLoad.

(** ** Claims *)

(** A state saved in the dtb format is what a process of the same layout loads:
    packing succeeds, a copy of the packed bytes, padded or not, passes
    verification with the packed length, and unpacking it gives every variable its
    bytes back, as long as the tree fits into the initial buffers of fdt.c. *)
Theorem dtb_save_load garbage root of_path0 magic0 of_path magic vars0 vars fdtb :
  state_from_node true of_path0 magic0 [] root = Some (0, (of_path, magic, vars0)) ->
  forallb names_short (dn_children root) = true -> NoDup (sv_name <$> vars0) ->
  Forall2 shape vars0 vars -> Forall exportable vars ->
  exists n, state_to_node None (Some root) magic vars STATE_CONVERT_TO_NODE = Ok n /\ (tree_fits n = true ->
  exists buf len, state_backend_format_dtb_pack garbage fdtb (Some root) magic vars
      = Ok (0, Some (buf, len), DtbFormat (Some n)) /\
  forall padding fdtb' flags vars', Forall2 shape vars vars' ->
  let copy := take (Z.to_nat len) buf ++ padding in
  exists fdtb2 vars'', state_backend_format_dtb_verify fdtb' magic copy (zlen copy) flags = Ok (0, len, fdtb2) /\
    state_backend_format_dtb_unpack fdtb2 of_path magic vars' copy len = Ok (0, vars'', DtbFormat None) /\
    sv_bytes <$> vars'' = sv_bytes <$> vars).
Proof.
  intros Hmade Hshort Hnd Hsh Hexp.
  destruct (state_image_made root of_path0 magic0 of_path magic vars0 vars) as (n & En & Hok & Hread); [done..|].
  exists n. split; [done|]. intros Hfit. destruct (flatten_blob garbage n Hok Hfit) as [rest Ef].
  exists (blob n ++ rest), (zlen (blob n)). split.
  - unfold state_backend_format_dtb_pack. rewrite En, Ef. cbn [mbind outcome_bind]. by rewrite (load32_total n rest Hfit).
  - intros padding fdtb' flags vars' Hv copy. destruct (Hread vars' Hv) as (vars'' & Er & Eb & _).
    assert (copy = blob n ++ padding) as -> by (unfold copy, zlen; by rewrite Nat2Z.id, take_app_length).
    exists (DtbFormat (Some n)), vars''. split; [by apply verify_blob|]. split; [by eapply unpack_kept|done].
Qed.

Lemma dtb_save_load_witness :
  exists n, state_to_node None (Some State.ex_tree) 0x1234 ex_tree_now STATE_CONVERT_TO_NODE = Ok n /\ (tree_fits n = true ->
  exists buf len, state_backend_format_dtb_pack (fun _ => Byte.x55) backend_format_dtb_create (Some State.ex_tree) 0x1234 ex_tree_now
      = Ok (0, Some (buf, len), DtbFormat (Some n)) /\
  forall padding fdtb' flags vars', Forall2 shape ex_tree_now vars' ->
  let copy := take (Z.to_nat len) buf ++ padding in
  exists fdtb2 vars'', state_backend_format_dtb_verify fdtb' 0x1234 copy (zlen copy) flags = Ok (0, len, fdtb2) /\
    state_backend_format_dtb_unpack fdtb2 (cstr "/state") 0x1234 vars' copy len = Ok (0, vars'', DtbFormat None) /\
    sv_bytes <$> vars'' = sv_bytes <$> ex_tree_now).
Proof.
  apply (dtb_save_load (fun _ => Byte.x55) State.ex_tree [] 0 (cstr "/state") 0x1234 ex_tree_vars ex_tree_now
    backend_format_dtb_create ex_tree_made).
  - vm_compute. reflexivity.
  - evaluate.
  - apply ex_tree_shape.
  - repeat constructor.
Defined.

(** The tree of the example does fit. *)
Example ex_tree_fits :
  match state_to_node None (Some State.ex_tree) 0x1234 ex_tree_now STATE_CONVERT_TO_NODE with
  | Ok n => tree_fits n
  | _ => false
  end = true.
Proof. vm_compute. reflexivity. Qed.


(** The state of the example on two strides of a kilobyte. *)
Section StateExample.
#[local] Existing Instance StorageExamples.ex_ops.
#[local] Existing Instance StorageExamples.ex_view.
#[local] Existing Instance StorageExamples.ex_laws.

Definition ex_root : device_node := DeviceNode [] [] 0 [] [State.ex_tree].
Definition ex_kilo (n : Z) : bucket DirectBucket.direct := Bucket (DirectBucket.Direct (1024 * n) 1024 false false) n (1024 * n) None 0 false.
Definition ex_dtb_state : state DirectBucket.direct dtb_format :=
  State (cstr "/state") 0x1234 false ex_tree_now true true backend_format_dtb_create
    (Storage [ex_kilo 0; ex_kilo 1] None 1024 0 0 false).
Definition ex_kilos : file := File (zeros 2048) false [] [].
#[local] Instance ex_dtb_pack : FormatPack dtb_format := dtb_format_pack (fun _ => Byte.x55) (Some ex_root).

Lemma ex_kilos_ok : storage_ok (s_storage ex_dtb_state) ex_kilos.
Proof.
  split.
  - repeat constructor; cbn -[zeros]; unfold DirectBucket.sizeof_direct_meta; rewrite ?length_zeros; lia || done.
  - split; [|split; [constructor|done]]. constructor; [left; vm_compute; lia|constructor].
Qed.

Definition ex_image : device_node :=
  match state_to_node None (Some State.ex_tree) 0x1234 ex_tree_now STATE_CONVERT_TO_NODE with Ok n => n | _ => ex_root end.
Lemma ex_image_made : state_to_node None (Some State.ex_tree) 0x1234 ex_tree_now STATE_CONVERT_TO_NODE = Ok ex_image.
Proof. vm_compute. reflexivity. Qed.
Lemma ex_image_fits : tree_fits ex_image = true /\ (length (blob ex_image) <= 1016)%nat.
Proof. split; [vm_compute; reflexivity|apply Nat.leb_le; vm_compute; reflexivity]. Qed.
Lemma ex_kilos_fit d : (length d <= 1016)%nat -> buckets_fit (st_buckets (s_storage ex_dtb_state)) d.
Proof. intros H. repeat constructor; cbn; unfold DirectBucket.sizeof_direct_meta; lia. Qed.

Lemma dtb_state_save_load_witness :
  exists s1 f1, state_save ex_dtb_state ex_kilos = Some (0, s1, f1) /\ s_dirty s1 = false /\
  forall script vars' flags, Forall benign script -> Forall2 shape ex_tree_now vars' ->
  exists st2 f2 s3 f3, storage_open (s_storage s1) (with_script script f1) = (st2, f2) /\
    state_do_load (State (cstr "/state") 0x1234 false vars' true true backend_format_dtb_create st2) flags f2 = Some (0, s3, f3) /\
    sv_bytes <$> s_variables s3 = sv_bytes <$> ex_tree_now /\ s_dirty s3 = false /\ s_init_from_defaults s3 = false.
Proof.
  apply (dtb_state_save_load (fun _ => Byte.x55) ex_root ex_dtb_state [0%nat] State.ex_tree [] 0 ex_tree_vars ex_kilos).
  - reflexivity.
  - reflexivity.
  - vm_compute. reflexivity.
  - reflexivity.
  - apply ex_tree_made.
  - vm_compute. reflexivity.
  - evaluate.
  - apply ex_tree_shape.
  - repeat constructor.
  - intros n E. pose proof (eq_trans (eq_sym E) ex_image_made) as En. injection En as ->.
    destruct ex_image_fits as [H1 H2]. split; [exact H1|by apply ex_kilos_fit].
  - apply ex_kilos_ok.
  - discriminate.
  - reflexivity.
  - constructor.
Defined.
End StateExample.
