(* ===== verification/Devices.v ===== *)
(** * The device behind a node (src/libdt.c)

    How [of_cdev_find] and its helpers find the file, the offset and the size of the
    partition that a node of the tree describes. What udev, [stat] and sysfs answer
    is a record of the system; the devices are in the order in which udev lists
    them. *)

From S2P Require Import Prelude Text Dt Tree.

(** ** The system *)

(** What libudev knows of a device. A NULL result is [None]. *)
Record udev_device : Type := UdevDevice {
  ud_syspath : bytes;
  ud_sysname : bytes;
  ud_subsystem : bytes;
  ud_devtype : option bytes;
  ud_devnode : option bytes;
  ud_sysattr : bytes -> option bytes;
  ud_property : bytes -> option bytes
}.

(** What [stat] says of a path that names something: the kind of file, and the device
    that a device file stands for. *)
Inductive file_kind : Type := BlockFile | CharFile | OtherFile.
Record file_status : Type := FileStatus { st_kind : file_kind; st_major : Z; st_minor : Z }.

(** All devices, whether one is another or below it, what [stat] says of a path, and
    the device of a path in sysfs. *)
Record system : Type := System {
  sy_devices : list udev_device;
  sy_below : udev_device -> udev_device -> bool;
  sy_stat : bytes -> option file_status;
  udev_device_new_from_syspath : bytes -> option udev_device
}.

(** [struct cdev]. *)
Record cdev : Type := Cdev {
  devpath : bytes;
  cd_offset : Z;
  cd_size : Z;
  is_gpt_partitioned : bool;
  is_block_disk : bool
}.
Definition set_devpath (p : bytes) (c : cdev) : cdev := Cdev p (cd_offset c) (cd_size c) (is_gpt_partitioned c) (is_block_disk c).
Definition set_offset (o : Z) (c : cdev) : cdev := Cdev (devpath c) o (cd_size c) (is_gpt_partitioned c) (is_block_disk c).
Definition set_size (s : Z) (c : cdev) : cdev := Cdev (devpath c) (cd_offset c) s (is_gpt_partitioned c) (is_block_disk c).
Definition set_gpt (g : bool) (c : cdev) : cdev := Cdev (devpath c) (cd_offset c) (cd_size c) g (is_block_disk c).
Definition set_disk (d : bool) (c : cdev) : cdev := Cdev (devpath c) (cd_offset c) (cd_size c) (is_gpt_partitioned c) d.

(** [strdup]; of NULL it is undefined. *)
Definition strdup (s : option bytes) : outcome bytes := of_option s.

Section Devices.
(** [CONFIG_TEST_LOOPBACK], and the system. *)
Context (loopback : bool) (sys : system).

(** A list of devices: those below [parent] if there is one, of the [subsystems]
    if there are any. *)
Definition udev_enumerate (parent : option udev_device) (subsystems : list bytes) : list udev_device :=
  filter (fun d => Is_true (match parent with Some p => sy_below sys p d | None => true end
                   && (match subsystems with [] => true | _ => existsb (fun s => bool_decide (ud_subsystem d = s)) subsystems end)))
    (sy_devices sys).

(** ** Devices by node *)

Definition udev_device_get_of_path (dev : udev_device) : option bytes :=
  match ud_property dev (cstr "OF_FULLNAME") with
  | Some of_path => Some of_path
  | None =>
      if loopback && bool_decide (ud_subsystem dev = cstr "block") && bool_decide (take 4 (ud_sysname dev) = cstr "loop")
      then Some (ud_sysname dev) else None
  end.

(** [udev_of_devices], which is filled at the first use. *)
Definition of_scan_udev_devices : list (bytes * udev_device) :=
  omap (fun dev => (fun of_path => (of_path, dev)) <$> udev_device_get_of_path dev)
    (udev_enumerate None ([cstr "platform"; cstr "i2c"; cstr "spi"; cstr "mtd"; cstr "amba"]
                          ++ (if loopback then [cstr "block"] else []))).

Definition of_find_device_by_node_path (of_full_path : bytes) : option udev_device :=
  snd <$> find (fun u => bool_decide (fst u = of_full_path)) of_scan_udev_devices.

Definition of_find_device_by_node (np : device_node) : outcome (option udev_device) :=
  match of_find_device_by_node_path (dn_full_name np) with
  | Some dev => Ok (Some dev)
  | None =>
      if loopback then
        match of_property_read_string np (cstr "barebox,filename") with
        | Ok filename =>
            Ok (if bool_decide (take 5 filename = cstr "/dev/") then of_find_device_by_node_path (drop 5 filename) else None)
        | Err _ => Ok None
        | Undef => Undef
        end
      else Ok None
  end.

(** ** Attributes *)

Definition device_find_mtd_partition (dev : udev_device) (name : bytes) : option udev_device :=
  find (fun part => bool_decide (ud_sysattr part (cstr "name") = Some name)) (udev_enumerate (Some dev) []).

Definition udev_device_parse_sysattr_u64 (dev : udev_device) (attr : bytes) : Z + Z :=
  match ud_sysattr dev attr with
  | None => inl (- EINVAL)
  | Some str =>
      let (value, endptr) := strtoul 0 str in
      match str, endptr with _ :: _, [] => inr value | _, _ => inl (- EINVAL) end
  end.

Definition udev_device_is_mtd (dev : udev_device) : bool := bool_decide (ud_devtype dev = Some (cstr "mtd")).

Definition eeprom_path (dev : udev_device) : bytes := ud_syspath dev ++ cstr "/eeprom".
Definition udev_device_is_eeprom (dev : udev_device) : bool := bool_decide (is_Some (sy_stat sys (eeprom_path dev))).

(** The result and what is stored in [*devpath] and [*outsize]. *)
Definition udev_parse_mtd (dev : udev_device) (c : cdev) : Z * cdev :=
  if negb (udev_device_is_mtd dev) then (- EINVAL, c) else
  match udev_device_parse_sysattr_u64 dev (cstr "size") with
  | inl ret => (ret, c)
  | inr size =>
      let c := set_size size c in
      match ud_devnode dev with
      | None => (- ENOENT, c)
      | Some outpath => (0, set_devpath outpath c)
      end
  end.
Definition udev_parse_eeprom (dev : udev_device) (c : cdev) : Z * cdev :=
  if bool_decide (is_Some (sy_stat sys (eeprom_path dev))) then (0, set_devpath (eeprom_path dev) c) else (- ENOENT, c).

(** ** Block devices *)

Definition region_contains (starta enda startb endb : Z) : bool := (starta <=? startb) && (endb <=? enda).

(** The start and the size of a partition in bytes. *)
Definition partition_place (part : udev_device) : option (Z * Z) :=
  match udev_device_parse_sysattr_u64 part (cstr "start"), udev_device_parse_sysattr_u64 part (cstr "size") with
  | inr partstart, inr partsize => Some (u64 (partstart * 512), u64 (partsize * 512))
  | _, _ => None
  end.
Definition part_matches (start size : Z) (c : cdev) : bool :=
  region_contains (s64 start) (s64 (start + size)) (cd_offset c) (s64 (cd_offset c + cd_size c)).

(** The loop over the block devices: the best match and the new offset. *)
Fixpoint block_loop (devs : list udev_device) (best_match : option udev_device) (c : cdev) : option udev_device * cdev :=
  match devs with
  | [] => (best_match, c)
  | part :: devs' =>
      match ud_devtype part with
      | None => block_loop devs' best_match c
      | Some devtype =>
          if bool_decide (devtype = cstr "disk") && negb (bool_decide (is_Some best_match)) then
            if cd_size c =? 0 then (Some part, c) else block_loop devs' (Some part) c
          else if negb (cd_size c =? 0) && bool_decide (devtype = cstr "partition") then
            match partition_place part with
            | None => block_loop devs' best_match c
            | Some (partstart, partsize) =>
                if part_matches partstart partsize c
                then (Some part, set_offset (s64 (cd_offset c - partstart)) c)
                else block_loop devs' best_match c
            end
          else block_loop devs' best_match c
      end
  end.

Definition cdev_from_block_device (dev : udev_device) (c : cdev) : outcome (Z * cdev) :=
  let (best_match, c) := block_loop (udev_enumerate (Some dev) [cstr "block"]) None c in
  match best_match with
  | None => Ok (- ENODEV, c)
  | Some b =>
      path ← strdup (ud_devnode b);
      Ok (0, set_gpt (bool_decide (ud_property b (cstr "ID_PART_TABLE_TYPE") = Some (cstr "gpt"))) (set_devpath path c))
  end.

Definition of_find_mtd_device (parent : udev_device) : option udev_device :=
  head (udev_enumerate (Some parent) [cstr "mtd"]).

(** [strcasecmp]. *)
Definition tolower (b : Byte.byte) : Byte.byte := if (65 <=? bval b) && (bval b <=? 90) then byte_of (bval b + 32) else b.
Definition strcasecmp (a b : bytes) : bool := bool_decide (tolower <$> a = tolower <$> b).

(** The property that holds the identifier that is looked for. *)
Definition uuid_property (type_uuid : bool) (devtype : bytes) : option bytes :=
  if type_uuid then Some (cstr "ID_PART_ENTRY_TYPE")
  else if bool_decide (devtype = cstr "disk") then Some (cstr "ID_PART_TABLE_UUID")
  else if bool_decide (devtype = cstr "partition") then Some (cstr "ID_PART_ENTRY_UUID")
  else None.
Definition has_uuid (uuid : bytes) (type_uuid : bool) (device : udev_device) : bool :=
  match ud_devtype device ≫= (fun t => uuid_property type_uuid t ≫= ud_property device) with
  | Some dev_uuid => strcasecmp dev_uuid uuid
  | None => false
  end.
Definition of_find_device_by_uuid (parent : option udev_device) (uuid : bytes) (type_uuid : bool) : option udev_device :=
  find (has_uuid uuid type_uuid) (udev_enumerate parent [cstr "block"]).

(** ** Finding the device of a partition *)

Definition no_cdev : cdev := Cdev [] 0 0 false false.

(** The node is a device itself. *)
Definition cdev_of_device (dev : udev_device) (c : cdev) : outcome (Z * cdev) :=
  if udev_device_is_eeprom dev then Ok (udev_parse_eeprom dev c) else
  let (ret, c) := udev_parse_mtd dev c in
  if ret =? 0 then Ok (0, c) else
  '(ret, c) ← cdev_from_block_device dev c;
  Ok (if ret =? 0 then (0, set_disk true c) else (- ENODEV, c)).

(** [partuuid]: [None] when the property is missing. *)
Definition cdev_of_partuuid (partition_node : device_node) (c : cdev) : outcome (option (Z * cdev)) :=
  match of_property_read_string partition_node (cstr "partuuid") with
  | Undef => Undef
  | Err _ => Ok None
  | Ok uuid =>
      match of_find_device_by_uuid None uuid false with
      | None => Ok (Some (- ENODEV, c))
      | Some dev =>
          match udev_device_parse_sysattr_u64 dev (cstr "size") with
          | inl _ => Ok (Some (- EINVAL, c))
          | inr partsize =>
              path ← strdup (ud_devnode dev); Ok (Some (0, set_devpath path (set_size (u64 (partsize * 512)) c)))
          end
      end
  end.

(** The device that is partitioned. *)
Definition partitioned_device (node : device_node) : outcome (Z + udev_device) :=
  byuuid ← of_device_is_compatible node (cstr "barebox,storage-by-uuid");
  if (byuuid : bool) then
    match of_property_read_string node (cstr "uuid") with
    | Undef => Undef
    | Err _ => Ok (inl (- ENODEV))
    | Ok uuid => Ok (match of_find_device_by_uuid None uuid false with Some dev => inr dev | None => inl (- ENODEV) end)
    end
  else
    dev ← of_find_device_by_node node;
    Ok (match dev with Some dev => inr dev | None => inl (- ENODEV) end).

(** The partition of a device that was found. *)
Definition cdev_of_partition (root : device_node) (p : node_ref) (partition_node : device_node) (dev : udev_device) (c : cdev)
  : outcome (Z * cdev) :=
  match of_find_mtd_device dev with
  | Some _ =>
      match of_property_read_string partition_node (cstr "label") with
      | Undef => Undef
      | Err ret => Ok (ret, c)
      | Ok partname =>
          Ok (match device_find_mtd_partition dev partname with
              | None => (- ENODEV, c)
              | Some partdev => udev_parse_mtd partdev c
              end)
      end
  | None =>
      if udev_device_is_eeprom dev then
        let (ret, c) := udev_parse_eeprom dev c in
        if negb (ret =? 0) then Ok (ret, c) else
        '(ret, offset, size) ← of_parse_partition root p;
        Ok (ret, if ret =? 0 then set_size size (set_offset offset c) else c)
      else
        '(ret, offset, size) ← of_parse_partition root p;
        if negb (ret =? 0) then Ok (ret, c) else cdev_from_block_device dev (set_size size (set_offset offset c))
  end.

(** [node->parent], which is read also when it is NULL. *)
Definition parent_of (root : device_node) (p : node_ref) : outcome (node_ref * device_node) :=
  q ← of_option (of_get_parent p); n ← of_option (node_at root q); Ok (q, n).

Definition __of_cdev_find (root : device_node) (p : node_ref) : outcome (Z * cdev) :=
  let c := no_cdev in
  partition_node ← of_option (node_at root p);
  dev ← of_find_device_by_node partition_node;
  match dev with
  | Some dev => cdev_of_device dev c
  | None =>
      '(q, node) ← parent_of root p;
      fixed ← of_device_is_compatible node (cstr "fixed-partitions");
      short ← (if (fixed : bool) then cdev_of_partuuid partition_node c else Ok None);
      match short with
      | Some r => Ok r
      | None =>
          node ← (if of_node_cmp (dn_name node) (cstr "partitions") then '(_, n) ← parent_of root q; Ok n else Ok node);
          d ← partitioned_device node;
          match d with
          | inl ret => Ok (ret, c)
          | inr dev => cdev_of_partition root p partition_node dev c
          end
      end
  end.

(** The path, the offset and the size. *)
Definition of_get_devicepath (root : device_node) (p : node_ref) : outcome (Z + bytes * Z * Z) :=
  '(ret, c) ← __of_cdev_find root p;
  Ok (if negb (ret =? 0) then inl ret else inr (devpath c, cd_offset c, cd_size c)).

Definition of_cdev_find (root : device_node) (p : node_ref) : outcome (Z + cdev) :=
  '(ret, c) ← __of_cdev_find root p; Ok (if negb (ret =? 0) then inl ret else inr c).

Definition cdev_to_devpath (c : cdev) : bytes * Z * Z := (devpath c, cd_offset c, cd_size c).

(** [udev_from_devpath]: by the number of the device, with a path of 64 bytes. *)
Definition udev_from_devpath (devpath : bytes) : option udev_device :=
  st ← sy_stat sys devpath;
  type ← match st_kind st with BlockFile => Some (cstr "block") | CharFile => Some (cstr "char") | OtherFile => None end;
  if st_major st =? 0 then None else
  udev_device_new_from_syspath sys
    (take 63 (cstr "/sys/dev/" ++ type ++ cstr "/" ++ dec (st_major st) ++ cstr ":" ++ dec (st_minor st))).

Definition cdev_find_child_by_gpt_typeuuid (c : cdev) (typeuuid : bytes) : outcome (Z + cdev) :=
  if negb (is_gpt_partitioned c) then Ok (inl (- EINVAL)) else
  match udev_from_devpath (devpath c) with
  | None => Ok (inl (- ENOENT))
  | Some parent =>
      match of_find_device_by_uuid (Some parent) typeuuid true with
      | None => Ok (inl (- ENOENT))
      | Some child =>
          match udev_device_parse_sysattr_u64 child (cstr "size") with
          | inl _ => Ok (inl (- ENOENT))
          | inr size => path ← strdup (ud_devnode child); Ok (inr (Cdev path 0 (u64 (size * 512)) false false))
          end
      end
  end.
Definition cdev_is_block_disk (c : cdev) : bool := is_block_disk c.
End Devices.

(** ** The region on a block device *)

(** Where [c'] is on the device [b], when it was the region of [c] on the disk. *)
Definition on_disk (c c' : cdev) (b : udev_device) : Prop :=
  ud_devtype b = Some (cstr "disk") /\ cd_offset c' = cd_offset c.
Definition on_partition (c c' : cdev) (b : udev_device) : Prop :=
  ud_devtype b = Some (cstr "partition") /\ exists start size, partition_place b = Some (start, size) /\
  cd_offset c' = cd_offset c - start /\ 0 <= cd_offset c' /\ cd_offset c' + cd_size c' <= size.

(** A partition ends where 63 bits can say it. *)
Definition small_partition (d : udev_device) : Prop :=
  forall start size, partition_place d = Some (start, size) -> start + size < 2 ^ 63.

Lemma partition_place_range d start size : partition_place d = Some (start, size) -> 0 <= start /\ 0 <= size.
Proof. unfold partition_place. repeat case_match; try done. intros [= <- <-]. split; apply u64_range. Qed.

Lemma part_matches_spec start size c : 0 <= start -> 0 <= size -> start + size < 2 ^ 63 ->
  0 <= cd_offset c -> 0 <= cd_size c -> cd_offset c + cd_size c < 2 ^ 63 ->
  part_matches start size c = true <-> start <= cd_offset c /\ cd_offset c + cd_size c <= start + size.
Proof.
  intros. unfold part_matches, region_contains. rewrite !s64_small by lia. rewrite andb_true_iff, !Z.leb_le. done.
Qed.

Lemma block_loop_spec devs c : 0 <= cd_offset c -> 0 <= cd_size c -> cd_offset c + cd_size c < 2 ^ 63 ->
  Forall small_partition devs ->
  forall best b c', match best with Some x => ud_devtype x = Some (cstr "disk") | None => True end ->
  block_loop devs best c = (Some b, c') ->
  cd_size c' = cd_size c /\ (on_disk c c' b \/ cd_size c <> 0 /\ on_partition c c' b).
Proof.
  intros Ho Hs Hend. induction 1 as [|part devs Hp _ IH]; intros best b c' Hb; cbn [block_loop].
  { intros [= -> <-]. split; [done|]. by left. }
  destruct (ud_devtype part) as [ty|] eqn:Et; [|by apply IH].
  case_bool_decide as Hd; cbn [andb].
  - subst ty. destruct (negb _); [|rewrite andb_false_r; by apply IH].
    destruct (cd_size c =? 0); [intros [= <- <-]|by apply IH]. split; [done|]. by left.
  - destruct (Z.eqb_spec (cd_size c) 0) as [|Hz]; cbn [negb andb]; [by apply IH|].
    case_bool_decide as Hpt; [|by apply IH]. subst ty.
    destruct (partition_place part) as [[start size]|] eqn:Epl; [|by apply IH].
    destruct (part_matches start size c) eqn:Em; [|by apply IH]. intros [= <- <-].
    destruct (partition_place_range _ _ _ Epl). specialize (Hp _ _ Epl).
    apply part_matches_spec in Em; [|done..]. split; [done|]. right. split; [done|]. split; [done|].
    exists start, size. cbn [set_offset cd_offset cd_size]. rewrite s64_small by lia. split; [done|]. lia.
Qed.

Lemma block_loop_in devs : forall best c b c', block_loop devs best c = (Some b, c') -> best = Some b \/ b ∈ devs.
Proof.
  induction devs as [|part devs IH]; intros best c b c'; cbn [block_loop]; [intros [= -> _]; by left|].
  repeat case_match; intros E;
    first [injection E as <- _; right; by left | apply IH in E as [E|E]; [first [by left | injection E as <-; right; by left]|right; by right]].
Qed.

Lemma enumerate_all (P : udev_device -> Prop) sys parent subsystems : Forall P (sy_devices sys) ->
  Forall P (udev_enumerate sys parent subsystems).
Proof.
  rewrite !list.Forall_forall. intros HP x Hx. apply HP. unfold udev_enumerate in Hx. by apply list_elem_of_filter in Hx as [_ Hx].
Qed.

(** A device of the kind [partition] that contains the region. *)
Definition contains (c : cdev) (d : udev_device) : Prop :=
  ud_devtype d = Some (cstr "partition") /\ exists start size, partition_place d = Some (start, size) /\
  start <= cd_offset c /\ cd_offset c + cd_size c <= start + size.

Lemma block_loop_prefers devs c : 0 <= cd_offset c -> 0 < cd_size c -> cd_offset c + cd_size c < 2 ^ 63 ->
  Forall small_partition devs -> Exists (contains c) devs ->
  forall best b c', block_loop devs best c = (Some b, c') -> ud_devtype b = Some (cstr "partition").
Proof.
  intros Ho Hs Hend. induction 1 as [|part devs Hp _ IH]; intros Hex best b c'; [by inversion Hex|]. cbn [block_loop].
  rewrite (proj2 (Z.eqb_neq (cd_size c) 0)) by lia. cbn [negb andb].
  destruct (ud_devtype part) as [ty|] eqn:Et.
  2:{ apply Exists_cons in Hex as [[Ht _]|Hex]; [congruence|by apply IH]. }
  case_bool_decide as Hd; cbn [andb].
  - assert (Hex' : Exists (contains c) devs).
    { apply Exists_cons in Hex as [[Ht _]|Hex]; [|done]. exfalso. rewrite Et, Hd in Ht. discriminate Ht. }
    subst ty. destruct (negb _); [by apply IH|]. by apply IH.
  - case_bool_decide as Hpt.
    + subst ty. destruct (partition_place part) as [[start size]|] eqn:Epl.
      * destruct (partition_place_range _ _ _ Epl). specialize (Hp _ _ Epl).
        destruct (part_matches start size c) eqn:Em; [by intros [= <- _]|].
        apply Exists_cons in Hex as [(_ & s & z & Es & Hc)|Hex]; [|by apply IH].
        exfalso. rewrite Epl in Es. injection Es as <- <-. apply not_true_iff_false in Em. apply Em.
        apply part_matches_spec; [lia..|done].
      * apply Exists_cons in Hex as [(_ & s & z & Es & Hc)|Hex]; [|by apply IH]. congruence.
    + apply Exists_cons in Hex as [[Ht _]|Hex]; [congruence|by apply IH].
Qed.

(** C23: the region of a disk that the tree names is the region that is used: what
    [cdev_from_block_device] finds is either the disk, with the offset unchanged, or
    a partition that contains the region, with the offset from its start; and when
    some partition contains it, it is one of these. *)
Theorem block_region_kept sys dev c c'
    (Ho : 0 <= cd_offset c) (Hs : 0 <= cd_size c) (Hend : cd_offset c + cd_size c < 2 ^ 63)
    (Hparts : Forall small_partition (sy_devices sys)) (Hfind : cdev_from_block_device sys dev c = Ok (0, c')) :
  let devs := udev_enumerate sys (Some dev) [cstr "block"] in
  exists b, b ∈ devs /\ ud_devnode b = Some (devpath c') /\ cd_size c' = cd_size c /\
  (on_disk c c' b \/ cd_size c <> 0 /\ on_partition c c' b) /\
  (cd_size c <> 0 -> Exists (contains c) devs -> on_partition c c' b).
Proof.
  intros devs. unfold cdev_from_block_device in Hfind. fold devs in Hfind.
  assert (Hd : Forall small_partition devs) by (by apply enumerate_all).
  destruct (block_loop devs None c) as [[b|] c1] eqn:E; [|done]. unfold strdup in Hfind.
  destruct (ud_devnode b) as [path|] eqn:En; [|done]. injection Hfind as <-.
  exists b. split; [by destruct (block_loop_in _ _ _ _ _ E)|]. split; [done|].
  destruct (block_loop_spec devs c Ho Hs Hend Hd None b c1 I E) as [Hsz Hr]. split; [done|]. split; [done|].
  intros Hz Hex. destruct Hr as [[Ht _]|[_ Hr]]; [|done].
  pose proof (block_loop_prefers devs c Ho ltac:(lia) Hend Hd Hex None b c1 E) as Hp. exfalso. rewrite Ht in Hp. discriminate Hp.
Qed.

(** A disk with one partition of a thousand sectors from sector 2048 on. *)
Definition ex_block (name : string) (ty : string) (attrs : list (bytes * bytes)) : udev_device :=
  UdevDevice (cstr "/sys/" ++ cstr name) (cstr name) (cstr "block") (Some (cstr ty)) (Some (cstr "/dev/" ++ cstr name))
    (fun a => snd <$> find (fun x => bool_decide (fst x = a)) attrs) (fun _ => None).
Definition ex_disk : udev_device := ex_block "mmcblk0" "disk" [].
Definition ex_part : udev_device := ex_block "mmcblk0p1" "partition" [(cstr "start", cstr "2048"); (cstr "size", cstr "1000")].
Definition ex_system : system := System [ex_disk; ex_part] (fun _ _ => true) (fun _ => None) (fun _ => None).

(** A block device is found in sysfs by its number. *)
Example ex_from_devpath :
  ud_syspath <$> udev_from_devpath
    (System [ex_disk] (fun _ _ => true) (fun _ => Some (FileStatus BlockFile 259 12))
       (fun p => if bool_decide (p = cstr "/sys/dev/block/259:12") then Some ex_disk else None)) (cstr "/dev/nvme0n1") = Some (ud_syspath ex_disk).
Proof. vm_compute. reflexivity. Qed.

Lemma ex_small : Forall small_partition (sy_devices ex_system).
Proof. repeat constructor; intros start size E; vm_compute in E; first [discriminate E | injection E as <- <-; reflexivity]. Qed.

Lemma block_region_kept_witness :
  exists c', cdev_from_block_device ex_system ex_disk (Cdev [] 1049600 4096 false false) = Ok (0, c') /\
  cd_offset c' = 1024 /\ cd_size c' = 4096.
Proof.
  destruct (block_region_kept ex_system ex_disk (Cdev [] 1049600 4096 false false)
    (Cdev (cstr "/dev/mmcblk0p1") 1024 4096 false false)) as (b & _ & _ & Hs & _).
  - cbn. lia.
  - cbn. lia.
  - reflexivity.
  - apply ex_small.
  - vm_compute. reflexivity.
  - eexists. split; [vm_compute; reflexivity|]. split; [reflexivity|exact Hs].
Defined.
