(* ===== verification/Make.v ===== *)
(** * Making a state from its node (src/barebox-state/state.c)

    [state_new_from_node]: the alias, the device behind the phandle [backend], the
    format, the storage and the variables. A bucket is one of two kinds and a format
    one of two, as behind the function pointers of the code. The device model and
    the lists of registered states are not represented; opening the device is. *)

From S2P Require Import Prelude Text Sysfile Bucket DirectBucket CircularBucket StateVar Storage RawFormat Dt Tree.
From S2P Require Import Variables State Fdt FdtLaws FdtParse StateNode DtbFormat Devices.

(** ** Buckets of two kinds *)

Section Sum.
Context {A B : Type}.

#[export] Instance sum_ops `{BucketOps A, BucketOps B} : BucketOps (A + B) := {
  bucket_open x f := match x with
                     | inl a => let '(r, a, f) := bucket_open a f in (r, inl a, f)
                     | inr b => let '(r, b, f) := bucket_open b f in (r, inr b, f)
                     end;
  bucket_write x d f := match x with
                        | inl a => let '(r, a, f) := bucket_write a d f in (r, inl a, f)
                        | inr b => let '(r, b, f) := bucket_write b d f in (r, inr b, f)
                        end;
  bucket_read x f := match x with
                     | inl a => let '(r, a, f) := bucket_read a f in (r, inl a, f)
                     | inr b => let '(r, b, f) := bucket_read b f in (r, inr b, f)
                     end
}.

#[export] Instance sum_view `{BucketView A, BucketView B} : BucketView (A + B) := {
  bk_pos x := match x with inl a => bk_pos a | inr b => bk_pos b end;
  bk_size x := match x with inl a => bk_size a | inr b => bk_size b end;
  bk_wf x f := match x with inl a => bk_wf a f | inr b => bk_wf b f end;
  bk_writable x := match x with inl a => bk_writable a | inr b => bk_writable b end;
  bk_room x d := match x with inl a => bk_room a d | inr b => bk_room b d end;
  bk_content x c := match x with inl a => bk_content a c | inr b => bk_content b c end;
  bk_sync x f := match x with inl a => bk_sync a f | inr b => bk_sync b f end
}.

#[export] Instance sum_wrong_magic `{WrongMagic A, WrongMagic B} : WrongMagic (A + B) :=
  fun x => match x with inl a => wrong_magic a | inr b => wrong_magic b end.

(** The two kinds keep the laws together. *)
#[export] Instance sum_laws `{BucketLaws A, BucketLaws B} : BucketLaws (A + B).
Proof.
  split.
  - intros [b|b] d f r b' f' Hw Hf; cbn; destruct (bucket_write b d f) as [[r0 b0] f0] eqn:E; intros [= <- <- <-];
      apply (law_write_inside b d f r0 b0 f0 Hw Hf E).
  - intros [b|b] d f Hw Hf Hh; cbn; destruct (law_write_ok b d f Hw Hf Hh) as (b' & f' & p & -> & H5 & H6);
      eexists _, f', p; (split; [done|]); by split.
  - intros [b|b] d f r b' f' Hro; cbn; destruct (bucket_write b d f) as [[r0 b0] f0] eqn:E; intros [= <- <- <-];
      apply (law_write_rdonly b d f r0 b0 f0 Hro E).
  - intros [b|b] f r b' f'; cbn; destruct (bucket_read b f) as [[r0 b0] f0] eqn:E; intros [= <- <- <-];
      apply (law_read_pure b f r0 b0 f0 E).
  - intros [b|b] f Hw Hh; cbn; destruct (law_open b f Hw Hh) as (b' & f' & -> & H5);
      eexists _, f'; (split; [done|]); exact H5.
  - intros [b|b] f c Hw Hs Hh Hc; cbn; destruct (law_read b f c Hw Hs Hh Hc) as (b' & f' & -> & H5);
      by eexists _, f'.
  - intros [b|b] f Hw Hs Hh Hc; cbn; destruct (law_read_fails b f Hw Hs Hh Hc) as (e & b' & f' & -> & H5);
      by eexists e, _, f'.
  - intros [b|b] d n; cbn; apply law_room_take.
  - intros [b|b] f g pos len; cbn; apply law_wf_outside.
Qed.
End Sum.

Definition map_bucket {A B} (k : A -> B) (b : bucket A) : bucket B :=
  Bucket (k (b_impl b)) (b_num b) (b_offset b) (b_buf b) (b_len b) (b_needs_refresh b).
Definition map_storage {A B} (k : A -> B) (st : storage A) : storage B :=
  Storage (map_bucket k <$> st_buckets st) (st_name st) (st_stridesize st) (st_offset st) (st_max_size st) (st_readonly st).
Definition any_bucket : Type := circular + direct.
Definition any_storage (st : storage circular + storage direct) : storage any_bucket :=
  match st with inl c => map_storage inl c | inr d => map_storage inr d end.

Lemma map_bucket_made {A B} `{BucketView A, BucketView B} (f : file) (bs : list (bucket A)) :
  (Forall (made f) bs -> Forall (made f) (map_bucket (inl : A -> A + B) <$> bs)) /\
  (Forall (made f) bs -> Forall (made f) (map_bucket (inr : A -> B + A) <$> bs)).
Proof. split; induction 1; by constructor. Qed.

(** ** Formats of two kinds *)

Section SumFormat.
Context {F G : Type}.

#[export] Instance sum_verify `{FormatVerify F, FormatVerify G} : FormatVerify (F + G) := {
  format_verify x magic buf len flags :=
    match x with
    | inl a => (fun '(r, l, a) => (r, l, inl a)) <$> format_verify a magic buf len flags
    | inr b => (fun '(r, l, b) => (r, l, inr b)) <$> format_verify b magic buf len flags
    end
}.

#[export] Instance sum_pack `{FormatPack F, FormatPack G} : FormatPack (F + G) := {
  format_pack x of_path magic vars :=
    match x with
    | inl a => (fun '(r, buf, a) => (r, buf, inl a)) <$> format_pack a of_path magic vars
    | inr b => (fun '(r, buf, b) => (r, buf, inr b)) <$> format_pack b of_path magic vars
    end;
  format_unpack x of_path magic vars buf len :=
    match x with
    | inl a => (fun '(r, vars, a) => (r, vars, inl a)) <$> format_unpack a of_path magic vars buf len
    | inr b => (fun '(r, vars, b) => (r, vars, inr b)) <$> format_unpack b of_path magic vars buf len
    end
}.
End SumFormat.

(** ** state_new_from_node *)

Notation any_format := (raw_format + dtb_format)%type.

(** A state with its name, and the path and the content of its device. *)
Record made_state : Type := MadeState {
  m_name : bytes;
  m_backend_path : bytes;
  m_state : state any_bucket any_format;
  m_file : file
}.

(** The locals of [state_new_from_node] that describe the backend. *)
Record backend : Type := Backend {
  be_alias : bytes;
  be_name : bytes;
  be_path : bytes;
  be_offset : Z;
  be_size : Z;
  be_stridesize : Z;
  be_storage_type : option bytes;
  be_keep_prev_content : bool;
  be_format : any_format
}.

(** A property that may be missing: reading it leaves its default. *)
Definition optional {A} (dflt : A) (r : outcome A) : outcome A :=
  match r with Err _ => Ok dflt | r => r end.

Definition state_format_init (backend_format : option bytes) (node : device_node) (state_name : bytes) : outcome any_format :=
  let raw :=
    let algo := if of_find_property node (cstr "algo") then Some (of_property_read_string node (cstr "algo")) else None in
    r ← backend_format_raw_create algo state_name; Ok (inl r) in
  match backend_format with
  | None => raw
  | Some t =>
      if bool_decide (t = cstr "raw") then raw
      else if bool_decide (t = cstr "dtb") then Ok (inr backend_format_dtb_create)
      else Err (- EINVAL)
  end.

Definition barebox_state_partition_guid : bytes := cstr "4778ed65-bf42-45fa-9c5b-287a1dc4aab1".

Section New.
(** What [mtd_get_meminfo] says of a device file, and its content. *)
Context (loopback : bool) (sys : system) (open_device : bytes -> option mtd_info * file).

(** Phandles and aliases are looked up in [root], the global tree. The device of the
    partition; a whole disk stands for its partition of the type
    of states. *)
Definition state_cdev (root : device_node) (partition_node : node_ref) : outcome cdev :=
  r ← of_cdev_find loopback sys root partition_node;
  match r with
  | inl ret => Err ret
  | inr cdev =>
      if negb (cdev_is_block_disk cdev) then Ok cdev else
      r ← cdev_find_child_by_gpt_typeuuid sys cdev barebox_state_partition_guid;
      match r with inl _ => Err (- EINVAL) | inr cdev => Ok cdev end
  end.

(** [of_alias_get] in the node [/aliases] of the tree, which is read also when there
    is none. *)
Definition state_alias (root node : device_node) : outcome (option bytes) :=
  aliases ← of_option (of_find_node_by_path (Some root) (Some (cstr "/aliases")) ≫= node_at root);
  of_alias_get (dn_properties aliases) (dn_full_name node).

(** The text that [vsnprintf] makes of a format without arguments: two percent signs
    are one; a conversion reads an argument that was not passed. *)
Fixpoint format_text (fmt : bytes) : outcome bytes :=
  match fmt with
  | [] => Ok []
  | c :: fmt =>
      if bool_decide (c = Byte.x25) then
        match fmt with
        | Byte.x25 :: fmt => s ← format_text fmt; Ok (Byte.x25 :: s)
        | _ => Undef
        end
      else s ← format_text fmt; Ok (c :: s)
  end.

Definition MAX_DRIVER_NAME : Z := 32.

(** [dev_set_name] with a format alone, on a device of zeros: the name cut to the
    array, whose last byte stays zero. *)
Definition dev_set_name (fmt : bytes) : outcome bytes :=
  newname ← format_text fmt; Ok (take (Z.to_nat (MAX_DRIVER_NAME - 1)) newname).

(** The name of a new state: its alias is the format of [dev_set_name]. *)
Definition state_new (name : bytes) : outcome bytes := dev_set_name name.

Lemma format_text_plain fmt : Byte.x25 ∉ fmt -> format_text fmt = Ok fmt.
Proof.
  induction fmt as [|c fmt IH]; intros H; [done|]. apply not_elem_of_cons in H as [Hc H].
  cbn [format_text]. rewrite bool_decide_false by congruence. by rewrite IH.
Qed.
(** A short alias without a percent sign names the state. *)
Lemma state_new_plain name : Byte.x25 ∉ name -> Z.of_nat (length name) < MAX_DRIVER_NAME -> state_new name = Ok name.
Proof.
  intros H Hl. unfold state_new, dev_set_name. rewrite format_text_plain by done. cbn [mbind outcome_bind].
  rewrite take_ge; [done|]. unfold MAX_DRIVER_NAME in *. lia.
Qed.
Example ex_state_new :
  state_new (cstr "state%%1") = Ok (cstr "state%1") /\ state_new (cstr "state%d") = Undef /\
  state_new (replicate 32 Byte.x61) = Ok (replicate 31 Byte.x61).
Proof. vm_compute. done. Qed.

(** The first half, up to the format: what the node says of the backend. The
    reproducible name of the backend is always the null pointer. *)
Definition state_backend (root node : device_node) : outcome backend :=
  alias ← state_alias root node;
  match alias with
  | None => Err (- EINVAL)
  | Some alias =>
      name ← state_new alias;
      partition_node ← of_parse_phandle root node (cstr "backend") 0;
      match partition_node with
      | None => Err (- EINVAL)
      | Some partition_node =>
          cdev ← state_cdev root partition_node;
          let '(backend_path, offset, size) := cdev_to_devpath cdev in
          backend_type ← of_property_read_string node (cstr "backend-type");
          stridesize ← optional 0 (of_property_read_u32 node (cstr "backend-stridesize"));
          storage_type ← optional None (t ← of_property_read_string node (cstr "backend-storage-type"); Ok (Some t));
          let keep_prev_content := of_property_read_bool node (cstr "keep-previous-content") in
          format ← state_format_init (Some backend_type) node alias;
          Ok (Backend alias name backend_path offset size stridesize storage_type keep_prev_content format)
      end
  end.

Definition state_new_from_node (root node : device_node) (readonly : bool) : outcome made_state :=
  be ← state_backend root node;
  let (meminfo, f) := open_device (be_path be) in
  let '(ret, st, f) := state_storage_init meminfo readonly (be_offset be) (be_size be) (be_stridesize be) (be_storage_type be) f in
  if negb (ret =? 0) then Err ret else
  match state_from_node true [] 0 [] node with
  | None => Undef
  | Some (ret, (of_path, magic, vars)) =>
      if negb (ret =? 0) then Err ret else
      Ok (MadeState (be_name be) (be_path be)
        (State of_path magic (be_keep_prev_content be) vars true true (be_format be) (any_storage st)) f)
  end.
End New.

(** [state_by_name] and [state_by_node] in the list of states. *)
Definition state_by_name (states : list made_state) (name : bytes) : option made_state :=
  find (fun s => bool_decide (m_name s = name)) states.
Definition state_by_node (states : list made_state) (node : device_node) : option made_state :=
  find (fun s => bool_decide (s_of_path (m_state s) = dn_full_name node)) states.

(** The name a format has in its structure. *)
Definition format_name (f : any_format) : bytes := match f with inl _ => cstr "raw" | inr _ => cstr "dtb" end.

(** The lines that [state_info] prints. A state that was made has a format. *)
Definition state_info (states : list made_state) : list bytes :=
  cstr "registered state instances:"
  :: ((fun s => field 20 (m_name s) ++ cstr " (backend: " ++ format_name (s_format (m_state s)) ++ cstr ", path: " ++ m_backend_path s ++ cstr ")")
      <$> states).

(** ** The storage of a state just made *)

(** A device that needs no erase with room for three copies of [room] bytes. *)
Definition plain_device (meminfo : option mtd_info) (f : file) (offset max_size stridesize room : Z) : Prop :=
  match meminfo with Some m => mtd_no_erase m = true | None => True end /\
  room + sizeof_direct_meta <= stridesize /\ desired_buckets * stridesize < 2 ^ 32 /\ 0 <= offset /\
  offset + desired_buckets * stridesize <= Z.of_nat (length (f_data f)) /\
  (max_size = 0 \/ desired_buckets * stridesize <= max_size) /\ f_flash f = false /\ healthy f.

(** Flash memory whose blocks hold [room] bytes. *)
Definition flash_device (meminfo : option mtd_info) (f : file) (offset room : Z) : Prop :=
  exists m k, meminfo = Some m /\ mtd_no_erase m = false /\ 0 < mtd_erasesize m < 2 ^ 31 /\
  (Z.max 8 (mtd_writesize m) | mtd_erasesize m) /\ 8 <= mtd_erasesize m /\ 0 <= k /\ offset = k * mtd_erasesize m /\
  is_aligned offset (mtd_erasesize m) = true /\ mtd_size m = Z.of_nat (length (f_data f)) /\
  (mtd_erasesize m | mtd_size m) /\ mtd_size m < 2 ^ 32 /\ room + sizeof_circular_meta <= mtd_erasesize m /\ healthy f.

Section Init.
Context (compat : bool).
#[local] Instance make_view : BucketView direct := direct_view compat.

(** A storage that can be read and, when its descriptors are open for that, written. *)
Definition storage_ready (st : storage any_bucket) (f : file) (room : Z) : Prop :=
  storage_ok st f /\ Forall (made f) (st_buckets st) /\ st_buckets st <> [] /\ healthy f /\
  forall d, Z.of_nat (length d) <= room -> buckets_room (st_buckets st) d.

(** The mode of all of its descriptors. *)
Definition in_mode {B} `{BucketView B} (writable : bool) (bs : list (bucket B)) : Prop :=
  Forall (fun b => bk_writable (b_impl b) = writable) bs.

Lemma in_mode_fit {B} `{BucketView B} (bs : list (bucket B)) d : in_mode true bs -> buckets_room bs d -> buckets_fit bs d.
Proof.
  intros Hm Hr. induction Hm as [|b bs Hb _ IH]; [constructor|]. apply Forall_cons_1 in Hr as [? ?].
  constructor; [by split|by apply IH].
Qed.

Lemma in_mode_map {A} `{BucketView A} (k : A -> any_bucket) w bs : (forall a, bk_writable (k a) = bk_writable a) ->
  in_mode w bs -> in_mode w (map_bucket k <$> bs).
Proof. intros Hk Hm. apply Forall_fmap. eapply Forall_impl; [|exact Hm]. intros b <-. apply Hk. Qed.

Lemma ready_map {A} `{BucketView A} (k : A -> any_bucket) (st : storage A) f room :
  (forall a, bk_pos (k a) = bk_pos a /\ bk_size (k a) = bk_size a) ->
  (forall a, bk_wf a f -> bk_wf (k a) f) -> (forall a, bk_sync a f -> bk_sync (k a) f) ->
  (forall a d, bk_room a d -> bk_room (k a) d) ->
  storage_ok st f -> Forall (made f) (st_buckets st) -> st_buckets st <> [] -> healthy f ->
  (forall d, Z.of_nat (length d) <= room -> buckets_room (st_buckets st) d) -> storage_ready (map_storage k st) f room.
Proof.
  intros Hk Hwf Hsync Hfits [Hw Ha] Hm Hne Hf Hfit. split; [split|].
  - unfold buckets_wf in *. cbn. apply Forall_fmap. eapply Forall_impl; [|exact Hw]. intros b. apply Hwf.
  - cbn. clear -Ha Hk. induction (st_buckets st) as [|b bs IH]; [done|]. destruct Ha as [Hb Ha]. split; [|by apply IH].
    apply Forall_fmap. eapply Forall_impl; [|exact Hb]. intros x.
    change (apart (b_impl b) (b_impl x) -> apart (k (b_impl b)) (k (b_impl x))). unfold apart.
    destruct (Hk (b_impl b)) as [-> ->], (Hk (b_impl x)) as [-> ->]. done.
  - split; [|split; [|split; [done|]]].
    + cbn. apply Forall_fmap. eapply Forall_impl; [|exact Hm]. intros b (H1 & H2 & H3). split; [by apply Hwf|]. split; [by apply Hsync|done].
    + cbn. by destruct (st_buckets st).
    + intros d Hd. specialize (Hfit d Hd). unfold buckets_room in *. cbn. apply Forall_fmap. eapply Forall_impl; [|exact Hfit].
      intros b. apply Hfits.
Qed.
(** What makes the storage of a device: the copies of a plain one, or the blocks of a
    flash one. *)
Lemma init_plain ty ro offset size stride meminfo f room :
  0 <= room -> plain_device meminfo f offset size stride room ->
  exists st g, state_storage_init meminfo ro offset size stride ty f = (0, inr st, g) /\
    state_storage_file_buckets_init (Storage [] ty stride offset size ro) f = (0, st, g) /\ same_medium f g /\
    storage_ready (any_storage (inr st)) g room /\ st_readonly st = ro /\ in_mode (negb ro) (st_buckets st).
Proof.
  intros Hroom (Hm & Hr & Hov & Ho & Hl & Hmax & Hfl & Hf). unfold sizeof_direct_meta in Hr.
  destruct (file_buckets_init_healthy compat (Storage [] ty stride offset size ro) f)
    as (st & g & E & Hg & Hmed & Hlen & Hok & Hmd & Hsz & Hst); [cbn; unfold sizeof_direct_meta; lia|done..|].
  exists st, g. split; [|split; [done|split; [done|split; [|split; [by rewrite Hst|]]]]].
  - unfold state_storage_init. rewrite E. destruct meminfo as [m|]; [by rewrite Hm|done].
  - apply ready_map; try done; try (by rewrite <-(length_zero_iff_nil (st_buckets st)), Hlen).
    intros d Hd. eapply Forall_impl; [|exact Hsz]. intros b [Hb _]. cbn in Hb |- *. unfold sizeof_direct_meta. lia.
  - eapply Forall_impl; [|exact Hsz]. intros b [_ Hb]. cbn in Hb |- *. by rewrite Hb.
Qed.

(** Which of the two ways a storage on flash is made, and the name it gets. *)
Definition mtd_kind (ty : option bytes) : option (bool * option bytes) :=
  match ty with
  | None => Some (true, Some (cstr "circular"))
  | Some t => if decide (t = cstr "circular") then Some (true, Some (cstr "circular"))
              else if decide (t = cstr "noncircular") then Some (false, ty) else None
  end.

Lemma init_flash ty ro offset size stride m f room circular name :
  mtd_kind ty = Some (circular, name) -> flash_device (Some m) f offset room ->
  exists ret st g, state_storage_init (Some m) ro offset size stride ty f = (ret, inl st, g) /\
    state_storage_mtd_buckets_init (Storage [] name stride offset size ro) m circular f = (ret, st, g) /\ same_medium f g /\
    (ret = 0 -> storage_ready (any_storage (inl st)) g room /\ st_readonly st = ro /\ in_mode true (st_buckets st)).
Proof.
  intros Hk (m' & k & [= <-] & Hne & Hes & Hws & Hes8 & Hkk & Ho & Hal & Hsz & Hd & Hmax & Hroom & Hf).
  destruct (mtd_buckets_init_healthy (Storage [] name stride offset size ro) m circular f k)
    as (ret & st & g & E & Hmed & Hr & _ & Hok & Hmd & Hg & Htb & Hst); try done.
  { destruct circular; [done|]. rewrite Z.max_r by lia. apply Z.divide_refl. }
  exists ret, st, g. split; [|split; [done|split; [done|]]].
  - unfold state_storage_init. rewrite Hne. cbn [negb]. unfold mtd_kind in Hk.
    destruct ty; repeat case_decide; try done; injection Hk as <- <-; by rewrite E.
  - intros ->. split; [|split; [by rewrite Hst|by apply Forall_true]]. apply ready_map; try done.
    + intros Hb. unfold state_storage_mtd_buckets_init in E. cbn [st_offset] in E. rewrite Hal in E. cbn [negb] in E.
      destruct (mtd_buckets_loop _ _ _ _ _ _ _) as [bs h]. injection E as E <- _. cbn in Hb. by subst bs.
    + intros d Hd'. eapply Forall_impl; [|exact Htb]. intros b Hb'. apply Hb'. lia.
Qed.

(** A device with room for [room] bytes that a state can be kept on. *)
Definition usable_device (ty : option bytes) (meminfo : option mtd_info) (f : file) (offset max_size stridesize room : Z) : Prop :=
  plain_device meminfo f offset max_size stridesize room \/
  flash_device meminfo f offset room /\ is_Some (mtd_kind ty).

Lemma plain_again meminfo f g offset size stride room : same_device f g -> healthy g ->
  plain_device meminfo f offset size stride room -> plain_device meminfo g offset size stride room.
Proof. intros (E1 & E2 & E3) Hg (H1 & H2 & H3 & H4 & H5 & H6 & H7 & _). do 4 (split; [done|]). rewrite E3, E1. done. Qed.

Lemma flash_again meminfo f g offset room : same_device f g -> healthy g ->
  flash_device meminfo f offset room -> flash_device meminfo g offset room.
Proof.
  intros (E1 & E2 & E3) Hg (m & k & H1 & H2 & H3 & H4 & H5 & H6 & H7 & H8 & H9 & H10). exists m, k. do 8 (split; [done|]).
  rewrite E3. split; [done|]. tauto.
Qed.

Lemma usable_again ty meminfo f g offset size stride room : same_device f g -> healthy g ->
  usable_device ty meminfo f offset size stride room -> usable_device ty meminfo g offset size stride room.
Proof. intros Hd Hg [Hp|[Hfl Hk]]; [left; by eapply plain_again|right; split; [by eapply flash_again|done]]. Qed.

Lemma usable_healthy ty meminfo f offset size stride room : usable_device ty meminfo f offset size stride room -> healthy f.
Proof. intros [(_&_&_&_&_&_&_&H)|[(m & k & H) _]]; [exact H|tauto]. Qed.

Lemma map_places {A C : Type} `{BucketView A, BucketView C} (k : A -> C) (bs bs' : list (bucket A)) :
  (forall a a', same_region a a' -> same_region (k a) (k a')) -> same_regions bs bs' ->
  same_regions (map_bucket k <$> bs) (map_bucket k <$> bs').
Proof. intros Hk. induction 1 as [|x y l l' Hxy _ IH]; constructor; [by apply Hk|done]. Qed.

(** What a storage that is made on such a device is. *)
Lemma init_ready ty ro offset size stride meminfo f room st g :
  0 <= room -> usable_device ty meminfo f offset size stride room ->
  state_storage_init meminfo ro offset size stride ty f = (0, st, g) ->
  storage_ready (any_storage st) g room /\ st_readonly (any_storage st) = ro /\
  (ro = false -> in_mode true (st_buckets (any_storage st))) /\ same_medium f g.
Proof.
  intros Hroom [Hp|[Hfl [[circular name] Hk]]] Hi.
  - destruct (init_plain ty ro offset size stride meminfo f room Hroom Hp) as (s1 & g1 & E1 & _ & M1 & S1 & O1 & W1).
    rewrite Hi in E1. injection E1 as -> ->. split; [done|]. split; [done|]. split; [|done].
    intros ->. by apply in_mode_map.
  - pose proof Hfl as (m & k & -> & _).
    destruct (init_flash ty ro offset size stride m f room circular name Hk Hfl) as (r1 & s1 & g1 & E1 & _ & M1 & S1).
    rewrite Hi in E1. injection E1 as <- -> ->. destruct (S1 eq_refl) as (? & ? & W). split; [done|]. split; [done|]. split; [|done].
    intros _. by apply in_mode_map.
Qed.

(** A storage that can be made can be made again, for writing or not, by a process that
    finds the device the same, and its buckets are at the same places. *)
Lemma init_again ty ro ro2 offset size stride meminfo f room st g f2 :
  0 <= room -> usable_device ty meminfo f offset size stride room ->
  state_storage_init meminfo ro offset size stride ty f = (0, st, g) -> same_device g f2 -> healthy f2 ->
  exists st2 g2, state_storage_init meminfo ro2 offset size stride ty f2 = (0, st2, g2) /\ same_medium f2 g2 /\
    storage_ready (any_storage st2) g2 room /\ same_regions (st_buckets (any_storage st)) (st_buckets (any_storage st2)).
Proof.
  intros Hroom [Hp|[Hfl [[circular name] Hk]]] Hi Hdev Hf2.
  - destruct (init_plain ty ro offset size stride meminfo f room Hroom Hp) as (s1 & g1 & E1 & R1 & M1 & _).
    rewrite Hi in E1. injection E1 as -> ->.
    assert (Hdev2 : same_device f f2) by (etrans; [apply same_medium_device, M1|exact Hdev]).
    pose proof (plain_again _ _ _ _ _ _ _ Hdev2 Hf2 Hp) as Hp2.
    destruct (init_plain ty ro2 offset size stride meminfo f2 room Hroom Hp2) as (s2 & g2 & E2 & R2 & M2 & S2 & _).
    exists (inr s2), g2. split; [done|]. split; [done|]. split; [done|].
    apply map_places; [done|]. eapply (file_buckets_init_again compat); [apply Hp|exact Hf2|exact R1|exact R2].
  - pose proof Hfl as (m & k & -> & Hne & Hes & Hws & Hes8 & Hkk & Ho & Hal & Hsz & Hd & Hmax & Hrm & Hf).
    destruct (init_flash ty ro offset size stride m f room circular name Hk Hfl) as (r1 & s1 & g1 & E1 & R1 & M1 & _).
    rewrite Hi in E1. injection E1 as <- -> ->.
    assert (Hdev2 : same_device f f2) by (etrans; [apply same_medium_device, M1|exact Hdev]).
    pose proof (flash_again _ _ _ _ _ Hdev2 Hf2 Hfl) as Hfl2.
    destruct (init_flash ty ro2 offset size stride m f2 room circular name Hk Hfl2) as (r2 & s2 & g2 & E2 & R2 & M2 & S2).
    destruct (mtd_buckets_init_again m name stride offset size ro ro2 circular f f2 k s1 g1 r2 s2 g2) as [-> Hpl]; try done.
    { destruct circular; [done|]. rewrite Z.max_r by lia. apply Z.divide_refl. }
    exists (inl s2), g2. split; [done|]. split; [done|]. split; [by apply S2|]. apply map_places; [done|]. by apply same_places_regions.
Qed.
End Init.

(** ** A state in one of two formats *)

Definition map_format {B F G} (k : F -> G) (s : state B F) : state B G :=
  State (s_of_path s) (s_magic s) (s_keep_prev_content s) (s_variables s) (s_dirty s) (s_init_from_defaults s) (k (s_format s)) (s_storage s).

Section Embed.
Context {B F G : Type} {HO : BucketOps B} {HM : WrongMagic B}.
Context {HF : FormatVerify F} {HG : FormatVerify G} {PF : FormatPack F} {PG : FormatPack G}.

(** A state in the first format behaves as with that format alone. *)
Definition saved_as (r : option (Z * state B F * file)) : option (Z * state B (F + G) * file) :=
  (fun '(ret, s, f) => (ret, map_format inl s, f)) <$> r.

Lemma read_buckets_inl magic flags bs : forall pos used (fmt : F) f,
  read_buckets (inl fmt : F + G) magic flags pos used bs f
  = (fun '(u, bs, fmt, f) => (u, bs, inl fmt, f)) <$> read_buckets fmt magic flags pos used bs f.
Proof.
  induction bs as [|b bs IH]; intros pos used fmt f; [done|]. cbn [read_buckets].
  assert (read_bucket (inl fmt : F + G) magic flags b f
    = (fun '(v, b, fmt, f) => (v, b, inl fmt, f)) <$> read_bucket fmt magic flags b f) as ->.
  { unfold read_bucket. destruct (bucket_read (b_impl b) f) as [[[ret out] i] g].
    destruct (negb (ret =? - EUCLEAN) && negb (ret =? 0)); [done|]. cbn [format_verify sum_verify].
    by destruct (format_verify fmt _ _ _ _) as [[[r l] fmt']|]. }
  destruct (read_bucket fmt magic flags b f) as [[[[v b'] fmt'] g]|]; [|done]. cbn [fmap option_fmap option_map]. rewrite IH.
  by destruct (read_buckets fmt' _ _ _ _ _ _) as [[[[u bs'] fmt2] h]|].
Qed.

Lemma storage_read_inl st (fmt : F) magic flags f :
  state_storage_read st (inl fmt : F + G) magic flags f
  = (fun '(r, st, fmt, f) => (r, st, inl fmt, f)) <$> state_storage_read st fmt magic flags f.
Proof.
  unfold state_storage_read. rewrite read_buckets_inl.
  destruct (read_buckets fmt magic flags 0 None (st_buckets st) f) as [[[[u bs] fmt'] g]|]; [|done]. cbn [fmap option_fmap option_map].
  destruct (u ≫= _) as [[i b]|]; [|done]. destruct (refresh_buckets _ _ _ _ _ _) as [bs' h].
  by destruct (bucket_refresh _ _ _ _) as [[? b'] k].
Qed.

Lemma state_save_inl (s : state B F) f : state_save (map_format inl s : state B (F + G)) f = saved_as (state_save s f).
Proof.
  unfold state_save, saved_as. cbn [map_format s_dirty s_format s_of_path s_magic s_variables]. destruct (negb (s_dirty s)); [done|].
  cbn [format_pack sum_pack]. destruct (format_pack (s_format s) _ _ _) as [[[r buf] fmt]|]; [|done]. cbn [fmap option_fmap option_map].
  destruct (negb (r =? 0)); [done|]. cbn [with_format s_keep_prev_content s_storage].
  destruct (_ && _); [done|]. destruct (state_storage_write _ _ _) as [[r2 st] g]. by destruct (negb (r2 =? 0)).
Qed.

Lemma state_do_load_inl (s : state B F) flags f :
  state_do_load (map_format inl s : state B (F + G)) flags f = saved_as (state_do_load s flags f).
Proof.
  unfold state_do_load, saved_as. cbn [map_format s_storage s_format s_magic]. rewrite storage_read_inl.
  destruct (state_storage_read _ _ _ _ _) as [[[[[r data] st] fmt] g]|]; [|done]. cbn [fmap option_fmap option_map].
  destruct (negb (r =? 0)); [done|]. destruct data as [[buf len]|]; [|done].
  cbn [with_format with_storage s_format s_of_path s_magic s_variables format_unpack sum_pack].
  destruct (format_unpack fmt _ _ _ _ _) as [[[r2 vars] fmt2]|]; [|done]. cbn [fmap option_fmap option_map].
  by destruct (negb (r2 =? 0)).
Qed.
End Embed.

(** ** Making the state again *)

Section Again.
Context (loopback : bool) (sys : system).

(** What a state that was made is made of. *)
Lemma new_from_node_parts open_device root node ro m :
  state_new_from_node loopback sys open_device root node ro = Ok m ->
  exists be st vars of_path magic, state_backend loopback sys root node = Ok be /\
    state_storage_init (fst (open_device (be_path be))) ro (be_offset be) (be_size be) (be_stridesize be) (be_storage_type be)
      (snd (open_device (be_path be))) = (0, st, m_file m) /\
    state_from_node true [] 0 [] node = Some (0, (of_path, magic, vars)) /\
    m = MadeState (be_name be) (be_path be)
      (State of_path magic (be_keep_prev_content be) vars true true (be_format be) (any_storage st)) (m_file m).
Proof.
  unfold state_new_from_node. destruct (state_backend loopback sys root node) as [be|e|] eqn:E; [|done|done].
  cbn [mbind outcome_bind]. destruct (open_device (be_path be)) as [mi f] eqn:Eo.
  destruct (state_storage_init _ _ _ _ _ _ _) as [[ret st] g] eqn:Ei. destruct (Z.eqb_spec ret 0) as [->|]; [|done].
  cbn [negb]. destruct (state_from_node true [] 0 [] node) as [[r [[p mg] vs]]|] eqn:Ev; [|done].
  destruct (Z.eqb_spec r 0) as [->|]; [|done]. cbn [negb]. intros [= <-].
  exists be, st, vs, p, mg. split; [done|]. rewrite Eo. done.
Qed.

Lemma new_from_node_made open_device root node ro be st f vars of_path magic :
  state_backend loopback sys root node = Ok be ->
  state_storage_init (fst (open_device (be_path be))) ro (be_offset be) (be_size be) (be_stridesize be) (be_storage_type be)
    (snd (open_device (be_path be))) = (0, st, f) ->
  state_from_node true [] 0 [] node = Some (0, (of_path, magic, vars)) ->
  state_new_from_node loopback sys open_device root node ro
  = Ok (MadeState (be_name be) (be_path be)
      (State of_path magic (be_keep_prev_content be) vars true true (be_format be) (any_storage st)) f).
Proof.
  unfold state_new_from_node. intros -> Hi ->. cbn [mbind outcome_bind].
  destruct (open_device (be_path be)) as [mi g]. cbn [fst snd] in Hi. by rewrite Hi.
Qed.
End Again.
