(* ===== verification/Fixup.v ===== *)
(** * The state node of another tree (of_state_fixup of src/barebox-state/state.c)

    What a boot loader does to the tree that it starts the kernel with: a new node that
    describes the variables and the storage of a state replaces the one of the same
    path. Reading the new node gives the variables of the state with their default
    values. The name under which the device of the storage is found in the other tree
    is not known to this program, whose function for it finds nothing; it is an
    argument. *)

From Stdlib Require Import Sorted.
From S2P Require Import Prelude Sysfile Bucket StateVar Storage Digest Hmac RawFormat Dt Tree Variables State StateNode Fdt FdtParse DtbFormat Make.

(** ** A variable and its description *)

(** What the description of a variable lets a reader make: it has its default value. *)
Definition reset (a : state_variable) : state_variable :=
  set_data (match sv_data a with
            | StateUint32 _ d => StateUint32 d d
            | StateEnum32 _ d names => StateEnum32 d d names
            | StateMac _ d => StateMac d d
            | StateString _ d _ => let s := default [] d in StateString None d (s ++ zeros (Z.to_nat (sv_size a) - length s))
            end) a.

(** Names and defaults that a node can hold. *)
Definition describable (a : state_variable) : Prop :=
  match sv_data a with
  | StateEnum32 _ _ names => names <> [] /\ Forall cstring names
  | StateString _ (Some d) _ => Z.of_nat (length d) <= sv_size a
  | _ => True
  end.

(** The properties that describe it. *)
Definition described (a : state_variable) (df ns : option bytes) : Prop :=
  match sv_data a with
  | StateUint32 _ d => df = (if negb (d =? 0) then Some (be_cell 4 d) else None)
  | StateEnum32 _ d names => df = (if negb (d =? 0) then Some (be_cell 4 d) else None) /\ ns = Some (string_list names)
  | StateMac _ d => df = (if negb (is_zero_ether_addr d) then Some d else None)
  | StateString _ d _ => df = (fun s => s ++ [0u8]) <$> d
  end.

Lemma fixup_export sv node : bare_node node ->
  exists df ns, fst (vtype_export sv node STATE_CONVERT_FIXUP) = 0 /\
    exported node (snd (vtype_export sv node STATE_CONVERT_FIXUP)) df ns None /\
    described sv df ns.
Proof.
  intros Hb. unfold vtype_export, described. destruct (sv_data sv) as [v d|v d names|v d|v d raw].
  - exists (if negb (d =? 0) then Some (be_cell 4 d) else None), None. unfold state_uint32_export.
    pose proof (exported_wr node (if negb (d =? 0) then Some (be_cell 4 d) else None) None None Hb).
    destruct (negb (d =? 0)); write_steps; rewrite decide_True by done; done.
  - exists (if negb (d =? 0) then Some (be_cell 4 d) else None), (Some (string_list names)). unfold state_enum32_export.
    pose proof (exported_wr node (if negb (d =? 0) then Some (be_cell 4 d) else None) (Some (string_list names)) None Hb).
    destruct (negb (d =? 0)); write_steps; rewrite decide_True by done; done.
  - exists (if negb (is_zero_ether_addr d) then Some d else None), None. unfold state_mac_export.
    pose proof (exported_wr node (if negb (is_zero_ether_addr d) then Some d else None) None None Hb).
    destruct (negb (is_zero_ether_addr d)); write_steps; rewrite decide_True by done; done.
  - exists ((fun s => s ++ [0u8]) <$> d), None. unfold state_string_export.
    pose proof (exported_wr node ((fun s => s ++ [0u8]) <$> d) None None Hb).
    destruct d as [d|]; write_steps; rewrite decide_True by done; done.
Qed.

(** Making the variable from its description. *)
Lemma create_described a np node df ns : sv_wf a -> describable a -> exported np node df ns None ->
  described a df ns ->
  of_property_read_u32_array node (cstr "reg") 2 = Ok [sv_start a; sv_size a] ->
  exists sv, vtype_create (sv_type a) node = Ok sv /\ sv_size sv = sv_size a /\
    vtype_import (place_var (sv_name a) (sv_start a) sv) node = (0, reset a).
Proof.
  intros [Hw _] Hd (Hu & Fd & Fn & Fv & _) Hdf Hreg.
  destruct a as [t n st sz da]. unfold data_wf, describable, described, reset, set_data in *. cbn [sv_type sv_name sv_start sv_size sv_data] in *.
  destruct (read_missing _ _ Fv) as (Rv1 & Rv2 & Rv3 & Rv4).
  destruct t, da as [v d|v d names|v d|v d raw]; try tauto.
  - destruct Hw as (-> & _ & Hr). subst df. eexists. split; [done|]. split; [done|]. unfold vtype_import. cbn [place_var sv_data new_var].
    unfold state_uint32_import. rewrite Rv1, (read_default_u32 _ _ Hr Fd). done.
  - destruct Hw as (-> & _ & Hr). subst df. eexists. split; [done|]. split; [done|]. unfold vtype_import. cbn [place_var sv_data new_var].
    unfold state_uint32_import. rewrite Rv1, (read_default_u32 _ _ Hr Fd). done.
  - destruct Hw as (-> & _ & Hr), Hdf as [-> ->], Hd as [Hne Hs].
    destruct (string_list_readers node (cstr "names") names Hne Hs (find_get _ _ _ Fn)) as [Hc Hidx].
    pose proof (enum32_names_list node names Hs Hidx [] names eq_refl) as En.
    eexists. split; [|split].
    { cbn [vtype_create]. unfold state_enum32_create. rewrite Hc, Nat2Z.id. change (Z.of_nat (length (@nil bytes))) with 0 in En. rewrite En. done. }
    { done. }
    unfold vtype_import. cbn [place_var sv_data new_var]. unfold state_enum32_import. rewrite Rv4. cbn [wrong_size].
    destruct (Z.eqb_spec d 0) as [->|]; simpl in Fd.
    + destruct (read_missing _ _ Fd) as (_ & _ & _ & ->). done.
    + rewrite (find_get _ _ _ Fd). unfold wrong_size. rewrite length_be_cell, get_be_cell by done. done.
  - destruct Hw as (-> & _ & Hr). subst df. eexists. split; [done|]. split; [done|]. unfold vtype_import. cbn [place_var sv_data new_var].
    unfold state_mac_import. rewrite Rv3. destruct (is_zero_ether_addr d) eqn:Ez; simpl in Fd.
    + destruct (read_missing _ _ Fd) as (_ & _ & -> & _). by rewrite (zero_ether_addr d Hr Ez).
    + pose proof (read_u8_found node (cstr "default") d) as Rd. rewrite Hr in Rd. by rewrite (Rd eq_refl Fd).
  - destruct Hw as (Hsz & _ & _ & Hcd). subst df. eexists. split; [|split].
    { cbn [vtype_create]. unfold state_string_create. rewrite Hreg. cbn [nth]. destruct (Z.ltb_spec 4096 sz); [lia|]. done. }
    { done. }
    unfold vtype_import. cbn [place_var sv_data new_var sv_size]. unfold state_string_import. rewrite Rv2.
    destruct d as [d|]; simpl in Fd.
    + rewrite (read_string_found _ _ d (Hcd d eq_refl) Fd). destruct (Z.ltb_spec sz (Z.of_nat (length d))); [lia|].
      rewrite string_copy_fits by (rewrite ?length_zeros; lia). done.
    + destruct (read_missing _ _ Fd) as (_ & -> & _). cbn. by rewrite Nat.sub_0_r.
Qed.

(** ** The tree of a state and its description *)

Section Describe.
(** The variables of the state, and those that its own tree made before. *)
Context (vars : list state_variable).
Context (Hwf : Forall sv_wf vars) (Hdesc : Forall describable vars).

Definition known (a0 : state_variable) : Prop :=
  exists a, state_find_var vars (sv_name a0) = Some a /\ sv_type a = sv_type a0 /\ sv_start a = sv_start a0 /\ sv_size a = sv_size a0.
(** A variable made from the tree, and the one made from its description. *)
Definition remade (a0 b : state_variable) : Prop :=
  exists a, state_find_var vars (sv_name a0) = Some a /\ sv_start a = sv_start a0 /\ b = reset a.

Lemma add_remade x y l l' : remade x y -> Forall2 remade l l' -> Forall2 remade (state_add_var x l) (state_add_var y l').
Proof.
  intros Hxy H. unfold state_add_var. assert (Hs : forall a b, remade a b -> sv_start b = sv_start a).
  { intros a b (c & _ & E & ->). by destruct c. }
  induction H as [|a b l l' Hab H IH]; cbn [list_add_sort]; [by repeat constructor|].
  unfold state_var_compare in *. rewrite (Hs x y Hxy), (Hs a b Hab). destruct (_ <? 0); by repeat constructor.
Qed.

(** The description of one variable, and what is made of it. *)
Lemma create_own a nm fn news : a ∈ vars -> let np := var_node nm fn news (sv_type a) a in
  exists new, convert_export STATE_CONVERT_FIXUP (sv_type a) a (DeviceNode nm fn 0 [] news) = Some (0, new) /\
    grows (DeviceNode nm fn 0 [] news) new /\ of_property_read_string new (cstr "type") = Ok (type_name (sv_type a)) /\
    forall acc, convert_create (sv_type a) new (sv_name a) acc = Some (0, state_add_var (reset a) acc).
Proof.
  intros Hin np. rewrite list.Forall_forall in Hwf, Hdesc. pose proof (Hwf a Hin) as Hw. pose proof (Hdesc a Hin) as Hd.
  destruct (var_node_spec nm fn news (sv_type a) a) as (Hb & Hg & Hty). fold np in Hb, Hg, Hty.
  destruct (fixup_export a np Hb) as (df & ns & Hret & Hx & Hp). set (new := snd (vtype_export a np STATE_CONVERT_FIXUP)) in *.
  exists new. split; [|split; [|split]].
  - unfold convert_export. rewrite write_string_wr. cbn [Z.eqb negb]. unfold of_property_write_u32_array, of_property_write.
    cbn [Z.eqb negb]. fold (var_node nm fn news (sv_type a) a). fold np. assert (type_fits (sv_type a) a = true) as ->.
    { destruct Hw as [Hw _]. unfold data_wf in Hw. unfold type_fits. by destruct (sv_type a), (sv_data a). }
    cbn [negb]. change (Some (vtype_export a np STATE_CONVERT_FIXUP) = Some (0, new)). rewrite <-Hret. by destruct (vtype_export a np _).
  - etrans; [exact Hg|apply export_grows].
  - apply read_string_found; [apply type_name_cstring|]. destruct Hx as (_ & _ & _ & _ & Fo). by rewrite Fo.
  - intros acc. assert (Hreg : of_property_read_u32_array new (cstr "reg") 2 = Ok [sv_start a; sv_size a]).
    { rewrite (read_u32_array_same new np) by (by apply Hx). apply (read_array_cells 4 np (cstr "reg") [sv_start a; sv_size a]).
      - lia.
      - pose proof (sv_size_range a Hw). destruct Hw as [_ Hs]. repeat constructor; lia.
      - cbn [length]. lia.
      - apply find_get, wr_same, wr_unique. constructor. }
    destruct (create_described a np new df ns Hw Hd Hx Hp Hreg) as (sv & Ec & Esz & Ei).
    unfold convert_create. rewrite Ec, Hreg. cbn [nth]. rewrite Esz, Z.eqb_refl. cbn [negb]. by rewrite Ei.
Qed.

Lemma describe_own node name acc acc1 nm fn news : convert_from_own true node name acc = Some (0, acc1) -> Forall known acc1 ->
  length news = length (dn_children node) ->
  exists new, convert_to_own STATE_CONVERT_FIXUP vars node name (DeviceNode nm fn 0 [] news) = Some (0, new) /\
    grows (DeviceNode nm fn 0 [] news) new /\
    forall acc', Forall2 remade acc acc' ->
    exists acc1', convert_from_own true new name acc' = Some (0, acc1') /\ Forall2 remade acc1 acc1'.
Proof.
  intros Hown Hk Hl. unfold convert_from_own in Hown. unfold convert_to_own.
  destruct (of_property_read_string node (cstr "type")) as [tn|e|] eqn:Et; [| |done].
  - destruct (state_find_type_by_name tn) as [t|]; [|done]. unfold convert_create in Hown.
    pose proof (create_error t node) as He. destruct (vtype_create t node) as [sv|e|] eqn:Ec; [|by injection Hown as ->|done].
    pose proof (read_array_error node (cstr "reg") 2) as Hr.
    destruct (of_property_read_u32_array node (cstr "reg") 2) as [ss|e|]; [|by injection Hown as ->|done].
    destruct (negb (nth 1 ss 0 =? sv_size sv)); [done|]. destruct (create_wf _ _ _ Ec) as (_ & Ht & _).
    pose proof (import_frame (place_var name (nth 0 ss 0) sv) node) as (Es & _ & En & Ety).
    destruct (vtype_import _ node) as [r sv1]. cbn [snd place_var sv_start sv_name sv_type] in *. injection Hown as -> <-.
    assert (Hk1 : known sv1).
    { rewrite list.Forall_forall in Hk. apply Hk. unfold state_add_var. rewrite list_add_sort_perm. by left. }
    destruct Hk1 as (a & Ef & Eta & Esa & _). rewrite En in Ef. rewrite Ety, Ht in Eta. rewrite Ef.
    destruct (find_var_in _ _ _ Ef) as [Hin Ena]. destruct (create_own a nm fn news Hin) as (new & E1 & Hg & Hty & Hcr).
    rewrite Eta in E1, Hty, Hcr. rewrite Ena in Hcr. exists new. split; [exact E1|]. split; [exact Hg|]. intros acc' Hacc. eexists. split.
    + unfold convert_from_own. rewrite Hty, find_type_name. apply Hcr.
    + apply add_remade; [|done]. exists a. by rewrite En.
  - destruct (negb (length (dn_children node) =? 0)%nat && (e =? - EINVAL)) eqn:Hc.
    2:{ injection Hown as -> <-. by apply read_string_error in Et. }
    injection Hown as <-. rewrite decide_True by done. rewrite !write_u32_wr. cbn [Z.eqb negb].
    eexists. split; [reflexivity|]. split; [etrans; by apply wr_grows|]. intros acc' Hacc. exists acc'. split; [|done].
    unfold convert_from_own, of_property_read_string, of_string_value.
    assert (Hu : props_unique (DeviceNode nm fn 0 [] news)) by constructor.
    rewrite !wr_other by (done || by apply wr_unique). cbn [of_find_property dn_properties find_prop mbind outcome_bind].
    assert (Hch : forall np n d, dn_children (wr np n d) = dn_children np) by done. rewrite !Hch. cbn [dn_children]. rewrite Hl.
    apply andb_true_iff in Hc as [-> _]. done.
Qed.

(** Making variables keeps those that are there. *)
Lemma own_keeps x node name acc r acc1 : x ∈ acc -> convert_from_own true node name acc = Some (r, acc1) -> x ∈ acc1.
Proof.
  intros Hx. unfold convert_from_own.
  destruct (of_property_read_string _ _) as [tn|e|]; [|by intros [= _ <-]|done].
  destruct (state_find_type_by_name tn); [|by intros [= _ <-]]. unfold convert_create.
  destruct (vtype_create _ _) as [sv|e|]; [|by intros [= _ <-]|done]. destruct (of_property_read_u32_array _ _ _) as [ss|e|]; [|by intros [= _ <-]|done].
  destruct (negb _); [by intros [= _ <-]|]. destruct (vtype_import _ _) as [r2 sv2]. intros [= _ <-].
  unfold state_add_var. rewrite list_add_sort_perm. by right.
Qed.
Lemma convert_from_keeps x node : forall pn acc r acc1, x ∈ acc -> convert_from true node pn acc = Some (r, acc1) -> x ∈ acc1.
Proof.
  induction node as [n fn ph ps cs IH] using device_node_ind. intros pn acc r acc1 Hx. cbn [convert_from].
  set (name := variable_name pn (dn_name (DeviceNode n fn ph ps cs))).
  destruct (each_child _ cs acc) as [[ret acc0]|] eqn:E; [|done].
  assert (Hx0 : x ∈ acc0).
  { revert E. apply each_child_ind; [|done]. eapply Forall_weaken; [apply IH|]. intros c Hc a r' a' Ha. by apply Hc. }
  destruct (negb (ret =? 0)); [by intros [= _ <-]|]. by apply own_keeps.
Qed.
Lemma each_child_keeps x name cs acc r acc1 : x ∈ acc ->
  each_child (fun c vars => convert_from true c name vars) cs acc = Some (r, acc1) -> x ∈ acc1.
Proof.
  intros Hx. apply each_child_ind; [|done]. apply Stdlib.Lists.List.Forall_forall. intros c _ a r' a' Ha. by apply convert_from_keeps.
Qed.

Definition describes (node : device_node) : Prop := forall pn acc acc1 parent,
  convert_from true node pn acc = Some (0, acc1) -> Forall known acc1 ->
  exists new, convert_to STATE_CONVERT_FIXUP vars node pn parent = Some (0, add_child new parent) /\
    forall acc', Forall2 remade acc acc' -> exists acc1', convert_from true new pn acc' = Some (0, acc1') /\ Forall2 remade acc1 acc1'.

Lemma describe_children cs : Forall describes cs -> forall name acc acc1 np,
  each_child (fun c vars => convert_from true c name vars) cs acc = Some (0, acc1) -> Forall known acc1 ->
  exists news, each_child (fun c n => convert_to STATE_CONVERT_FIXUP vars c name n) cs np = Some (0, fold_left (fun n c => add_child c n) news np) /\
    length news = length cs /\
    forall acc', Forall2 remade acc acc' ->
    exists acc1', each_child (fun c vs => convert_from true c name vs) news acc' = Some (0, acc1') /\ Forall2 remade acc1 acc1'.
Proof.
  induction 1 as [|c cs Hc _ IH]; intros name acc acc1 np; cbn [each_child].
  { intros [= <-] _. exists []. split; [done|]. split; [done|]. intros acc' Hacc. by exists acc'. }
  destruct (convert_from true c name acc) as [[r acc0]|] eqn:Ec; [|done].
  destruct (Z.eqb_spec r 0) as [->|]; cbn [negb]; [|intros H; by simplify_eq]. intros E Hk.
  assert (Hk0 : Forall known acc0).
  { rewrite list.Forall_forall in Hk |- *. intros x Hx. apply Hk. by eapply each_child_keeps. }
  destruct (Hc name acc acc0 np Ec Hk0) as (new & E1 & Hfrom).
  destruct (IH name acc0 acc1 (add_child new np) E Hk) as (news & E2 & Hl & Hfroms).
  exists (new :: news). rewrite E1. cbn [Z.eqb negb fold_left length]. split; [exact E2|]. split; [by rewrite Hl|].
  intros acc' Hacc. destruct (Hfrom acc' Hacc) as (acc0' & F1 & Hacc0). destruct (Hfroms acc0' Hacc0) as (acc1' & F2 & Hacc1).
  exists acc1'. cbn [each_child]. rewrite F1. cbn [Z.eqb negb]. done.
Qed.

Lemma describe_node node : describes node.
Proof.
  induction node as [nm fn ph ps cs IH] using device_node_ind. intros pn acc acc1 parent. cbn [convert_from dn_name].
  set (name := variable_name pn nm). destruct (each_child _ cs acc) as [[r acc0]|] eqn:E; [|done].
  destruct (Z.eqb_spec r 0) as [->|]; cbn [negb]; [|intros H; by simplify_eq]. intros Hown Hk.
  assert (Hk0 : Forall known acc0).
  { rewrite list.Forall_forall in Hk |- *. intros x Hx. apply Hk. by eapply own_keeps. }
  destruct (describe_children cs IH name acc acc0 (of_new_node (Some parent) nm) E Hk0) as (news & E2 & Hl & Hfrom).
  cbn [of_new_node] in E2. rewrite fold_add_child in E2. cbn [app] in E2.
  destruct (describe_own (DeviceNode nm fn ph ps cs) name acc0 acc1 nm (dn_full_name parent ++ cstr "/" ++ nm) news Hown Hk Hl)
    as (new & E3 & (Gn & _ & _ & Gc & _) & Hfo).
  exists new. split.
  - cbn [convert_to dn_name of_new_node]. fold name. rewrite E2. cbn [Z.eqb negb]. rewrite E3. reflexivity.
  - intros acc' Hacc. destruct (Hfrom acc' Hacc) as (acc0' & F1 & Hacc0). destruct (Hfo acc0' Hacc0) as (acc1' & F2 & Hacc1).
    exists acc1'. split; [|done]. destruct new as [nm' fn' ph' ps' cs']. cbn [dn_name dn_children] in *. subst nm' cs'.
    cbn [convert_from dn_name]. fold name. rewrite F1. cbn [Z.eqb negb]. exact F2.
Qed.
End Describe.

(** The check for overlap looks at places only. *)
Lemma overlap_check_places l l' : Forall2 (fun a b => sv_start b = sv_start a /\ sv_size b = sv_size a) l l' -> forall a b ret,
  sv_start b = sv_start a -> sv_size b = sv_size a -> overlap_check b l' ret = overlap_check a l ret.
Proof.
  induction 1 as [|x y l l' [E1 E2] _ IH]; intros a b ret Ea Eb; [done|]. cbn [overlap_check]. rewrite Ea, Eb, E1. by apply IH.
Qed.

Lemma reset_place a : sv_start (reset a) = sv_start a /\ sv_size (reset a) = sv_size a.
Proof. by destruct a. Qed.

(** The whole node. Besides the magic number it has no property. *)
Lemma describe_state parent root of_path0 magic0 of_path magic vars0 vars :
  state_from_node true of_path0 magic0 [] root = Some (0, (of_path, magic, vars0)) ->
  NoDup (sv_name <$> vars0) -> Forall2 shape vars0 vars -> Forall describable vars ->
  exists cs, state_to_node (Some parent) (Some root) magic vars STATE_CONVERT_FIXUP
      = Ok (DeviceNode (dn_name root) (dn_full_name parent ++ cstr "/" ++ dn_name root) 0 [Property (cstr "magic") (Some (be_cell 4 magic))] cs) /\
    forall n, dn_children n = cs -> of_property_read_u32 n (cstr "magic") = Ok magic ->
      state_from_node true [] 0 [] n = Some (0, (dn_full_name n, magic, reset <$> vars)).
Proof.
  unfold state_from_node at 1. destruct (of_property_read_u32 root (cstr "magic")) as [m|e|] eqn:Em; [|intros H|done].
  2:{ injection H as -> _ _ _. by destruct (read_u32_error _ _ Em). }
  cbn [negb andb]. destruct (each_child _ (dn_children root) []) as [[ret vs]|] eqn:E; [|done].
  destruct (Z.eqb_spec ret 0) as [->|]; cbn [negb]; [|intros H; by simplify_eq]. intros [= Hov _ -> ->] Hnd Hsh Hdesc.
  assert (Hwf : Forall sv_wf vars) by (clear -Hsh; induction Hsh as [|a b l l' (_ & _ & _ & _ & Hw & _)]; by constructor).
  pose proof Hnd as Hnd'. rewrite key_names, <-(shape_keys _ _ Hsh), <-key_names in Hnd'.
  assert (Hfind : forall i x, vars0 !! i = Some x -> exists a, vars !! i = Some a /\ shape x a /\ state_find_var vars (sv_name x) = Some a).
  { intros i x Hx. destruct (Forall2_lookup_l _ _ _ _ _ Hsh Hx) as (a & Ha & Hs). exists a. split; [done|]. split; [done|].
    destruct Hs as (En & _). rewrite <-En. apply find_var_unique; [done|]. by eapply list_elem_of_lookup_2. }
  destruct (describe_children vars) with (cs := dn_children root) (name := @nil Byte.byte) (acc := @nil state_variable) (acc1 := vars0)
    (np := wr (of_new_node (Some parent) (dn_name root)) (cstr "magic") (be_cell 4 magic)) as (news & E2 & _ & Hfrom).
  { apply Stdlib.Lists.List.Forall_forall. intros c _. by apply describe_node. }
  { exact E. }
  { apply list.Forall_forall. intros x Hx. apply list_elem_of_lookup in Hx as [i Hx].
    destruct (Hfind i x Hx) as (a & _ & (_ & Et & Es & Ez & _) & Hf). by exists a. }
  exists news. split.
  - unfold state_to_node. rewrite write_u32_wr. cbn [Z.eqb negb]. rewrite E2. cbn [Z.eqb negb]. cbn [of_new_node].
    change (wr (DeviceNode ?a ?b 0 [] []) (cstr "magic") (be_cell 4 magic)) with (DeviceNode a b 0 [Property (cstr "magic") (Some (be_cell 4 magic))] []).
    by rewrite fold_add_child.
  - intros n <- Hm. destruct (Hfrom [] ltac:(constructor)) as (vars' & E3 & Hre).
    assert (vars' = reset <$> vars) as ->.
    { symmetry. apply list_eq_Forall2. apply Forall2_fmap_l. apply Forall2_same_length_lookup_2.
      { apply list.Forall2_length in Hre, Hsh. congruence. }
      intros i a b Ha Hb. destruct (Forall2_lookup_r _ _ _ _ _ Hre Hb) as (x & Hx & (a' & Hf & _ & ->)).
      destruct (Hfind i x Hx) as (a'' & Ha'' & _ & Hf'). congruence. }
    unfold state_from_node. rewrite Hm. cbn [negb andb]. rewrite E3. cbn [Z.eqb negb]. f_equal. f_equal.
    destruct vars0 as [|x vars0]; inversion Hsh as [|? a ? l (_ & _ & Es & Ez & _) Hl]; subst; [done|]. cbn [fmap list_fmap].
    transitivity (overlap_check x vars0 0); [|exact Hov].
    apply overlap_check_places; [|by rewrite (proj1 (reset_place a))|by rewrite (proj2 (reset_place a))].
    apply Forall2_fmap_r. revert Hl. apply Forall2_impl. intros y b (_ & _ & Fs & Fz & _).
    destruct (reset_place b) as [E4 E5]. split; [by rewrite <-Fs|by rewrite <-Fz].
Qed.

(** ** The tree *)

(** [of_delete_node] of a node that is not the root. *)
Fixpoint delete_at (p : node_ref) (np : device_node) : device_node :=
  match p with
  | [] => np
  | i :: p' =>
      set_children (match p' with [] => delete i (dn_children np) | _ => alter (delete_at p') i (dn_children np) end) np
  end.

(** The path up to its last slash, [strrchr]. *)
Fixpoint before_last_slash (s : bytes) : option bytes :=
  match s with
  | [] => None
  | b :: s' =>
      match before_last_slash s' with
      | Some p => Some (b :: p)
      | None => if decide (b = Byte.x2f) then Some [] else None
      end
  end.

(** [digest_name]. *)
Definition sha_name (a : sha_algo) : bytes :=
  match a with ALGO_SHA1 => cstr "sha1" | ALGO_SHA224 => cstr "sha224" | ALGO_SHA256 => cstr "sha256" end.
Definition digest_name (d : any_digest) : bytes :=
  match d with
  | PlainDigest d => sha_name (d_algo d)
  | HmacDigest h => cstr "hmac(" ++ sha_name (d_algo (hm_d h)) ++ cstr ")"
  end.

(** [state_backend_format_raw_get_digest]. *)
Definition state_backend_format_raw_get_digest (raw : raw_format) : option any_digest := rf_digest raw.

(** A string with its NUL as a new property. *)
Definition new_string (name s : bytes) (np : device_node) : device_node := of_new_property np name (s ++ [0u8]).

(** [of_find_node_by_reproducible_name] of dt.h, which finds nothing. *)
Definition no_reproducible_name (root : device_node) (name : option bytes) : option node_ref := None.

Section Fixup.
Context (of_find_node_by_reproducible_name : device_node -> option bytes -> option node_ref).

(** The properties of the backend, behind [backend-type]. *)
Definition fixup_backend (s : state any_bucket any_format) (phandle : Z) (np : device_node) : Z * device_node :=
  then_write (of_property_write_u32 np (cstr "backend") phandle) (fun np =>
  let np := match s_format s with
            | inl raw => match state_backend_format_raw_get_digest raw with
                         | Some digest => new_string (cstr "algo") (digest_name digest) np
                         | None => np
                         end
            | inr _ => np
            end in
  let np := match st_name (s_storage s) with Some name => new_string (cstr "backend-storage-type") name np | None => np end in
  then_write (if negb (st_stridesize (s_storage s) =? 0)
              then of_property_write_u32 np (cstr "backend-stridesize") (st_stridesize (s_storage s)) else (0, np)) (fun np =>
  then_write (of_property_write_u32 np (cstr "#address-cells") 1) (fun np =>
  of_property_write_u32 np (cstr "#size-cells") 1))).

(** The place of the node with the path of the state, and that of its parent. The root
    has no parent, and its path is not one of a state. *)
Definition fixup_place (root : device_node) (of_path : bytes) : outcome (option node_ref * node_ref) :=
  match of_find_node_by_path_from (Some root) (Some of_path) with
  | Some node => parent ← of_option (of_get_parent node); Ok (Some node, parent)
  | None =>
      match before_last_slash of_path with
      | None => Err (- ENODEV)
      | Some p => Ok (None, default [] (of_find_node_by_path_from (Some root) (Some p)))
      end
  end.

(** The second half, for the new node at [q]: the result and the tree. A state that was
    made has a format. *)
Definition fixup_finish (m : made_state) (reproducible_name : option bytes) (node : option node_ref) (q : node_ref) (root : device_node)
  : outcome (Z * device_node) :=
  let s := m_state m in
  let root := alter_at (fun np => new_string (cstr "backend-type") (format_name (s_format s)) (new_string (cstr "compatible") (cstr "barebox,state") np)) q root in
  match of_find_node_by_reproducible_name root reproducible_name with
  | None => Ok (- ENODEV, delete_at q root)
  | Some backend_node =>
      '(phandle, root) ← of_option (of_node_create_phandle root backend_node);
      np ← of_option (node_at root q);
      let (ret, np) := fixup_backend s phandle np in
      let root := alter_at (fun _ => np) q root in
      if negb (ret =? 0) then Ok (ret, delete_at q root) else
      '(root, _) ← of_option (of_create_node root (cstr "/aliases"));
      aliases ← of_option (find_path root [cstr "aliases"]);
      let root := alter_at (fun al => snd (of_set_property al (m_name m) (dn_full_name np ++ [0u8]) true)) aliases root in
      Ok (0, match node with Some node => delete_at node root | None => root end)
  end.

(** [state_root] is the node of the state in the global tree. *)
Definition of_state_fixup (state_root : option device_node) (m : made_state) (reproducible_name : option bytes) (root : device_node)
  : outcome (Z * device_node) :=
  let s := m_state m in
  match fixup_place root (s_of_path s) with
  | Undef => Undef
  | Err e => Ok (e, root)
  | Ok (node, parent) =>
      parent_node ← of_option (node_at root parent);
      match state_to_node (Some parent_node) state_root (s_magic s) (s_variables s) STATE_CONVERT_FIXUP with
      | Undef => Undef
      | Err e => Ok (e, root)
      | Ok new_node =>
          fixup_finish m reproducible_name node (parent ++ [length (dn_children parent_node)]) (alter_at (add_child new_node) parent root)
      end
  end.
End Fixup.

(** ** Changes in other places *)

(** A change that keeps the children, at a place that is not below [q] and not [q]. *)
Lemma alter_at_apart f p : (forall n, dn_children (f n) = dn_children n) -> forall np q, ~ q `prefix_of` p ->
  node_at (alter_at f p np) q = node_at np q.
Proof.
  intros Hf. induction p as [|i p IH]; intros np q Hq.
  - destruct q as [|j q]; [by destruct Hq|]. cbn [alter_at node_at]. by rewrite Hf.
  - destruct q as [|j q]; [destruct Hq; apply prefix_nil|]. cbn [alter_at node_at]. unfold set_children at 1. cbn [dn_children].
    destruct (decide (i = j)) as [->|Hne]; [|by rewrite list_lookup_alter_ne].
    rewrite list_lookup_alter_eq. destruct (dn_children np !! j) as [c|]; [|done]. cbn. apply IH. intros Hp. apply Hq. by apply prefix_cons.
Qed.

(** A new child, and its removal. *)
Lemma node_at_added new parent root pn : node_at root parent = Some pn ->
  node_at (alter_at (add_child new) parent root) (parent ++ [length (dn_children pn)]) = Some new.
Proof.
  intros Hp. rewrite node_at_app, (alter_at_same _ _ _ _ Hp). cbn. rewrite lookup_app_r, Nat.sub_diag by lia. done.
Qed.

Lemma delete_at_cons i q np : q <> [] -> delete_at (i :: q) np = set_children (alter (delete_at q) i (dn_children np)) np.
Proof. by destruct q. Qed.

Lemma delete_added f new parent root pn : node_at root parent = Some pn ->
  let q := parent ++ [length (dn_children pn)] in delete_at q (alter_at f q (alter_at (add_child new) parent root)) = root.
Proof.
  cbn zeta. revert root. induction parent as [|i parent IH]; intros [nm fn ph ps cs].
  - intros [= <-]. cbn. unfold set_children, add_child. cbn. f_equal. by rewrite alter_middle, delete_middle, app_nil_r.
  - cbn [node_at dn_children app]. destruct (cs !! i) as [c|] eqn:E; [|done]. cbn [mbind option_bind]. intros Hp.
    rewrite delete_at_cons by (by destruct parent). cbn [alter_at]. unfold set_children. cbn [dn_children dn_name dn_full_name dn_phandle dn_properties].
    f_equal. apply list_eq. intros k. destruct (decide (i = k)) as [->|Hne]; [|by rewrite !list_lookup_alter_ne].
    rewrite !list_lookup_alter_eq, E. cbn [fmap option_fmap option_map]. f_equal. by apply IH.
Qed.

(** C32: In this program the fixup does nothing: the device of a state is not found by
    its name in another tree, so that it fails, and what it added to the tree is gone
    again. *)
Theorem fixup_restores state_root m name root ret root' :
  of_state_fixup no_reproducible_name state_root m name root = Ok (ret, root') -> ret <> 0 /\ root' = root.
Proof.
  unfold of_state_fixup. destruct (fixup_place _ _) as [[node parent]|e|] eqn:Ep; [|intros [= <- <-]|done].
  2:{ split; [|done]. revert Ep. unfold fixup_place. destruct (of_find_node_by_path_from _ _) as [p|].
      - destruct (of_get_parent p); cbn [of_option mbind outcome_bind]; congruence.
      - destruct (before_last_slash _); [done|]. by intros [= <-]. }
  intros (pn & Hpn & H)%bind_ok. destruct (node_at root parent) as [pn'|] eqn:Hp; [|done]. injection Hpn as ->.
  destruct (state_to_node _ _ _ _ _) as [new|e|] eqn:En; [|injection H as <- <-|done].
  - unfold fixup_finish, no_reproducible_name in H. rewrite (delete_added _ new _ _ _ Hp) in H. by injection H as <- <-.
  - split; [|done]. revert En. unfold state_to_node. destruct state_root as [r|]; [|by intros [= <-]].
    rewrite write_u32_wr. cbn [Z.eqb negb]. destruct (each_child _ _ _) as [[r2 n2]|]; [|done].
    destruct (Z.eqb_spec r2 0); cbn [negb]; [done|]. by intros [= <-].
Qed.

(** ** The new node in the tree *)

Lemma find_path_at parts : forall np p, find_path np parts = Some p -> is_Some (node_at np p).
Proof.
  induction parts as [|part parts IH]; intros np p; cbn [find_path]; [intros [= <-]; by eexists|].
  destruct (list_find _ _) as [[i c]|] eqn:E; [|done]. destruct (find_path c parts) as [q|] eqn:Eq; [|done]. intros [= <-].
  apply list_find_Some in E as (Hi & _). cbn [node_at]. rewrite Hi. cbn. by eapply IH.
Qed.

(** The names of the nodes below the root, which the changes only extend. *)
Definition top_names (np : device_node) : list bytes := dn_name <$> dn_children np.

Lemma top_names_alter f i p np : (forall n, node_at np (i :: p) = Some n -> dn_name (f n) = dn_name n) ->
  top_names (alter_at f (i :: p) np) = top_names np.
Proof.
  intros Hf. unfold top_names. cbn [alter_at]. unfold set_children. cbn [dn_children node_at] in *.
  apply list_eq. intros k. rewrite !list_lookup_fmap. destruct (decide (i = k)) as [->|Hne]; [|by rewrite list_lookup_alter_ne].
  rewrite list_lookup_alter_eq. destruct (dn_children np !! k) as [c|]; [|done]. cbn in *. f_equal.
  destruct p as [|j p]; [by apply Hf|by destruct c].
Qed.

Lemma create_child np part : fst (create_path np [part]) = np \/ exists c, fst (create_path np [part]) = add_child c np.
Proof.
  cbn [create_path]. rewrite child_by_name. destruct (child_pos (dn_children np) part) as [[j c]|] eqn:Ec; cbn [fmap option_fmap option_map snd].
  - left. apply (update_child_alter _ _ c) in Ec as (Hl & _ & ->). destruct np as [nm fn ph ps cs]. cbn [fst dn_name dn_full_name dn_phandle dn_properties dn_children] in *.
    f_equal. apply list_eq. intros k. destruct (decide (j = k)) as [->|Hne]; [|by rewrite list_lookup_alter_ne].
    rewrite list_lookup_alter_eq in *. by destruct (cs !! k).
  - right. by eexists.
Qed.

Lemma create_child_at np part i p n : node_at np (i :: p) = Some n -> node_at (fst (create_path np [part])) (i :: p) = Some n.
Proof.
  destruct (create_child np part) as [->|[c ->]]; [done|]. cbn [node_at]. unfold add_child. cbn [dn_children].
  destruct (dn_children np !! i) as [d|] eqn:E; [|done]. by rewrite lookup_app_l, E by (by eapply lookup_lt_Some).
Qed.
Lemma create_child_names np part : top_names np `prefix_of` top_names (fst (create_path np [part])).
Proof. destruct (create_child np part) as [->|[c ->]]; [done|]. unfold top_names, add_child. cbn [dn_children]. rewrite fmap_app. by apply prefix_app_r. Qed.

(** What a deletion leaves. *)
Lemma delete_sibling parent i j : (i <= j)%nat -> forall np,
  node_at (delete_at (parent ++ [i]) np) (parent ++ [j]) = node_at np (parent ++ [S j]).
Proof.
  intros Hij. induction parent as [|k parent IH]; intros np.
  - cbn [app delete_at node_at]. unfold set_children. cbn [dn_children]. by rewrite list_lookup_delete_ge by lia.
  - cbn [app]. rewrite delete_at_cons by (by destruct parent). cbn [node_at]. unfold set_children. cbn [dn_children].
    rewrite list_lookup_alter_eq. destruct (dn_children np !! k); [|done]. cbn. apply IH.
Qed.

Lemma delete_other p k np al : p <> [k] -> dn_children np !! k = Some al ->
  exists k' al', dn_children (delete_at p np) !! k' = Some al' /\ dn_properties al' = dn_properties al.
Proof.
  intros Hp Hk. destruct p as [|i p]; [by exists k, al|]. destruct p as [|j p].
  - cbn [delete_at]. unfold set_children. cbn [dn_children]. destruct (decide (i < k)%nat).
    + exists (pred k), al. rewrite list_lookup_delete_ge by lia. by replace (S (pred k)) with k by lia.
    + exists k, al. rewrite list_lookup_delete_lt; [done|]. assert (i <> k) by congruence. lia.
  - rewrite delete_at_cons by done. unfold set_children. cbn [dn_children]. exists k. destruct (decide (i = k)) as [->|Hne].
    + rewrite list_lookup_alter_eq, Hk. eexists. split; [done|]. by destruct p.
    + exists al. by rewrite list_lookup_alter_ne.
Qed.

(** The properties of the new node. *)
Definition text_prop (name : string) (s : bytes) : property := Property (cstr name) (Some (s ++ [0u8])).
Definition u32_prop (name : string) (v : Z) : property := Property (cstr name) (Some (be_cell 4 v)).
Definition backend_props (s : state any_bucket any_format) (phandle : Z) : list property :=
  [u32_prop "magic" (s_magic s); text_prop "compatible" (cstr "barebox,state"); text_prop "backend-type" (format_name (s_format s));
   u32_prop "backend" phandle]
  ++ match s_format s with inl (RawFormat (Some d) _ _ _) => [text_prop "algo" (digest_name d)] | _ => [] end
  ++ match st_name (s_storage s) with Some n => [text_prop "backend-storage-type" n] | None => [] end
  ++ (if st_stridesize (s_storage s) =? 0 then [] else [u32_prop "backend-stridesize" (st_stridesize (s_storage s))])
  ++ [u32_prop "#address-cells" 1; u32_prop "#size-cells" 1].

Lemma fixup_backend_spec s phandle nm fn cs :
  fixup_backend s phandle (new_string (cstr "backend-type") (format_name (s_format s))
    (new_string (cstr "compatible") (cstr "barebox,state") (DeviceNode nm fn 0 [u32_prop "magic" (s_magic s)] cs)))
  = (0, DeviceNode nm fn 0 (backend_props s phandle) cs).
Proof.
  unfold fixup_backend, backend_props, state_backend_format_raw_get_digest, then_write. rewrite write_u32_wr. cbn [Z.eqb negb].
  destruct (s_format s) as [[[d|] len secret algo]|fmt]; cbn [rf_digest];
    destruct (st_name (s_storage s)) as [n|]; destruct (Z.eqb_spec (st_stridesize (s_storage s)) 0); cbn [negb];
    rewrite ?write_u32_wr; cbn [Z.eqb negb]; rewrite ?write_u32_wr; cbn [Z.eqb negb]; rewrite ?write_u32_wr; reflexivity.
Qed.

Lemma create_phandle_tree root b h root' : of_node_create_phandle root b = Some (h, root') ->
  root' = root \/ exists f, root' = alter_at f b root /\ forall n, dn_children (f n) = dn_children n /\ dn_name (f n) = dn_name n.
Proof.
  unfold of_node_create_phandle. destruct (node_at root b) as [n|]; cbn [mbind option_bind]; [|done].
  destruct (negb (dn_phandle n =? 0)); intros [= <- <-]; [by left|right]. eexists. split; [reflexivity|].
  intros n'. unfold of_set_property. by destruct (_ && _).
Qed.

(** The end of the fixup: the new node with its properties, and its alias. *)
Section Finish.
Context (find : device_node -> option bytes -> option node_ref) (m : made_state) (name : option bytes).
Context (root parent_node : device_node) (parent : node_ref) (node : option node_ref) (nm : bytes) (cs : list device_node).
Hypothesis (Hp : node_at root parent = Some parent_node).
Hypothesis (Hfind : forall t b, find t name = Some b -> is_Some (node_at root b)).
Hypothesis (Hnm : of_node_cmp nm (cstr "aliases") = false).
Hypothesis (Hnode : forall p, node = Some p -> is_Some (node_at root p) /\ parent = removelast p /\ p <> [] /\
  forall k n, p = [k] -> node_at root p = Some n -> of_node_cmp (dn_name n) (cstr "aliases") = false).

Let s := m_state m.
Let fn := dn_full_name parent_node ++ cstr "/" ++ nm.
Let new : device_node := DeviceNode nm fn 0 [u32_prop "magic" (s_magic s)] cs.
Let q : node_ref := parent ++ [length (dn_children parent_node)].

Lemma new_place : exists i r, q = i :: r.
Proof. unfold q. destruct parent; by eexists _, _. Qed.

(** No node of the given tree is the new node or below it. *)
Lemma old_apart b : is_Some (node_at root b) -> ~ q `prefix_of` b.
Proof.
  intros [n Hn] [r ->]. unfold q in Hn. rewrite !node_at_app, Hp in Hn. cbn in Hn.
  rewrite lookup_ge_None_2 in Hn by lia. done.
Qed.

(** The tree before the alias, as long as only the new node and others above or beside
    it are changed. *)
Definition holds_new (n : device_node) (t : device_node) : Prop := node_at t q = Some n /\ top_names root `prefix_of` top_names t.

Lemma holds_added : holds_new new (alter_at (add_child new) parent root).
Proof.
  split; [by apply node_at_added|]. destruct parent as [|i p]; [|by rewrite top_names_alter].
  cbn [alter_at]. unfold top_names, add_child. cbn [dn_children]. rewrite fmap_app. by apply prefix_app_r.
Qed.
Lemma holds_self n t f : holds_new n t -> dn_name (f n) = dn_name n -> holds_new (f n) (alter_at f q t).
Proof.
  intros [Hn Ht] Hf. split; [by apply alter_at_same|]. destruct new_place as (i & r & E). rewrite E in *. rewrite top_names_alter; [done|].
  intros n' Hn'. assert (n' = n) as -> by congruence. done.
Qed.
Lemma holds_other n t b f : holds_new n t -> is_Some (node_at root b) -> (forall n, dn_children (f n) = dn_children n /\ dn_name (f n) = dn_name n) ->
  holds_new n (alter_at f b t).
Proof.
  intros [Hn Ht] Hb Hf. split; [rewrite alter_at_apart; [done|intros n'; apply Hf|by apply old_apart]|].
  destruct b as [|i b]; [|rewrite top_names_alter; [done|intros n' _; apply Hf]]. cbn [alter_at]. unfold top_names. by rewrite (proj1 (Hf t)).
Qed.

(** The alias, in a node of that name that is there or is made. *)
Lemma alias_added n t t' dn a : holds_new n t -> dn_name n = nm -> of_create_node t (cstr "/aliases") = Some (t', dn) ->
  find_path t' [cstr "aliases"] = Some a ->
  let t5 := alter_at (fun al => snd (of_set_property al (m_name m) (dn_full_name n ++ [0u8]) true)) a t' in
  node_at t5 q = Some n /\ exists k al, a = [k] /\ dn_children t5 !! k = Some al /\
    Property (m_name m) (Some (dn_full_name n ++ [0u8])) ∈ dn_properties al /\
    (forall c, dn_children root !! k = Some c -> of_node_cmp (dn_name c) (cstr "aliases") = true).
Proof.
  intros [Hn Ht] En Ec Ef. assert (t' = fst (create_path t [cstr "aliases"])) as ->.
  { assert (E : of_create_node t (cstr "/aliases") = Some (create_path t [cstr "aliases"])) by reflexivity.
    rewrite E in Ec. exact (f_equal (fun o => match o with Some x => fst x | None => t end) (eq_sym Ec)). }
  set (t' := fst _) in *. cbn [find_path] in Ef. destruct (list_find _ (dn_children t')) as [[k al]|] eqn:E; [|done]. injection Ef as <-.
  apply list_find_Some in E as (Hk & Hal & _). destruct new_place as (i & r & Eq).
  assert (Hq : node_at t' q = Some n) by (rewrite Eq in *; by apply create_child_at).
  set (f := fun al => snd (of_set_property al (m_name m) (dn_full_name n ++ [0u8]) true)). cbn zeta. split.
  { rewrite alter_at_apart; [done|intros n'; unfold f; by rewrite set_property_wr|]. intros [z Ez]. rewrite Eq in *. injection Ez as -> Ez.
    destruct r; [|done]. cbn in Hq. rewrite Hk in Hq. injection Hq as ->. congruence. }
  exists k, (f al). split; [done|]. split; [|split].
  - cbn [alter_at]. unfold set_children. cbn [dn_children]. by rewrite list_lookup_alter_eq, Hk.
  - unfold f. rewrite set_property_wr. cbn. apply list.elem_of_app. right. by left.
  - intros c Hc. assert (Hnm' : top_names t' !! k = Some (dn_name c)).
    { eapply prefix_lookup_Some; [|etrans; [exact Ht|apply create_child_names]]. unfold top_names. by rewrite list_lookup_fmap, Hc. }
    unfold top_names in Hnm'. rewrite list_lookup_fmap, Hk in Hnm'. injection Hnm' as <-. done.
Qed.

(** The old node goes. *)
Lemma old_deleted n t k al : node_at t q = Some n -> dn_children t !! k = Some al ->
  (forall c, dn_children root !! k = Some c -> of_node_cmp (dn_name c) (cstr "aliases") = true) ->
  exists q' k' al', let t' := match node with Some p => delete_at p t | None => t end in
    node_at t' q' = Some n /\ dn_children t' !! k' = Some al' /\ dn_properties al' = dn_properties al.
Proof.
  intros Hn Hk Hc. destruct node as [p|]; [|by exists q, k, al].
  destruct (Hnode p eq_refl) as (Hpat & Epar & Hpne & Hpal). destruct (exists_last Hpne) as (par & j & ->).
  rewrite removelast_last in Epar. subst par. destruct Hpat as [pn' Hpat].
  assert (Hj : (j < length (dn_children parent_node))%nat).
  { rewrite node_at_app, Hp in Hpat. cbn in Hpat. destruct (dn_children parent_node !! j) eqn:Ej; [|done]. by eapply lookup_lt_Some. }
  destruct (delete_other (parent ++ [j]) k t al) as (k' & al' & Hk' & Hp'); [|exact Hk|].
  { intros Epk. assert (Hpn : of_node_cmp (dn_name pn') (cstr "aliases") = false) by (by eapply Hpal).
    rewrite Epk in Hpat. cbn in Hpat. destruct (dn_children root !! k) as [c|] eqn:Ec; [|done]. injection Hpat as ->.
    specialize (Hc _ eq_refl). congruence. }
  exists (parent ++ [pred (length (dn_children parent_node))]), k', al'. split; [|done].
  rewrite delete_sibling by lia. by replace (S (pred (length (dn_children parent_node)))) with (length (dn_children parent_node)) by lia.
Qed.

Lemma finish_spec root' : fixup_finish find m name node q (alter_at (add_child new) parent root) = Ok (0, root') ->
  exists q' h t b t' k al, let n := DeviceNode nm fn 0 (backend_props s h) cs in
    node_at root' q' = Some n /\ find t name = Some b /\ of_node_create_phandle t b = Some (h, t') /\
    dn_children root' !! k = Some al /\ Property (m_name m) (Some (fn ++ [0u8])) ∈ dn_properties al.
Proof.
  unfold fixup_finish. fold s. intros H. set (f1 := fun np => new_string _ _ (new_string _ _ np)) in H.
  pose proof (holds_self new _ f1 holds_added eq_refl) as H1. set (t1 := alter_at f1 q _) in *.
  destruct (find t1 name) as [b|] eqn:Eb; [|done]. apply bind_ok in H as ([h t2] & E2 & H).
  destruct (of_node_create_phandle t1 b) as [[h' t2']|] eqn:E3; [|done]. injection E2 as -> ->.
  assert (H2 : holds_new (f1 new) t2).
  { pose proof E3 as [->|(f & -> & Hf)]%create_phandle_tree; [done|]. apply holds_other; [done|by eapply Hfind|done]. }
  apply bind_ok in H as (np & En & H). rewrite (proj1 H2) in En. injection En as <-.
  assert (E4 : fixup_backend s h (f1 new) = (0, DeviceNode nm fn 0 (backend_props s h) cs)) by apply fixup_backend_spec. rewrite E4 in H.
  cbn [Z.eqb negb] in H. set (n := DeviceNode nm fn 0 (backend_props s h) cs) in *.
  pose proof (holds_self (f1 new) t2 (fun _ => n) H2 eq_refl) as H3. set (t3 := alter_at (fun _ => n) q t2) in *.
  apply bind_ok in H as ([t4 dn] & E5 & H). destruct (of_create_node t3 _) as [[t4' dn']|] eqn:E6; [|done]. injection E5 as -> ->.
  apply bind_ok in H as (a & E7 & H). destruct (find_path t4 [cstr "aliases"]) as [a'|] eqn:E8; [|done]. injection E7 as ->.
  destruct (alias_added n t3 t4 dn a H3 eq_refl E6 E8) as (H5 & k & al & -> & K5 & P5 & C5).
  destruct (old_deleted n _ k al H5 K5 C5) as (q' & k' & al' & H6 & K6 & P6). injection H as <-.
  exists q', h, t1, b, t2, k', al'. cbn zeta. rewrite P6. done.
Qed.
End Finish.

(** With a search that finds the device, as barebox has one and dt/dt.h has not: the fixup leaves a
    node there that describes the state: making the variables from it succeeds and
    gives those of the state, at their places and with their default values; the
    node says how the state is stored, its phandle is that of the device, and a child of
    the root has a property with the state's name and the path of the node. *)
Theorem fixup_describes find m name root root' state_root of_path0 magic0 vars0
    (Hmade : state_from_node true of_path0 magic0 [] state_root = Some (0, (s_of_path (m_state m), s_magic (m_state m), vars0)))
    (Hnames : NoDup (sv_name <$> vars0)) (Hshape : Forall2 shape vars0 (s_variables (m_state m)))
    (Hdesc : Forall describable (s_variables (m_state m)))
    (Hfind : forall t b, find t name = Some b -> is_Some (node_at root b))
    (Hname : of_node_cmp (dn_name state_root) (cstr "aliases") = false)
    (Hold : forall k n, of_find_node_by_path_from (Some root) (Some (s_of_path (m_state m))) = Some [k] -> node_at root [k] = Some n ->
       of_node_cmp (dn_name n) (cstr "aliases") = false)
    (Hfix : of_state_fixup find (Some state_root) m name root = Ok (0, root')) :
  exists q n h, node_at root' q = Some n /\ dn_name n = dn_name state_root /\ dn_properties n = backend_props (m_state m) h /\
    state_from_node true [] 0 [] n = Some (0, (dn_full_name n, s_magic (m_state m), reset <$> s_variables (m_state m))) /\
    (exists t b t', find t name = Some b /\ of_node_create_phandle t b = Some (h, t')) /\
    exists k al, dn_children root' !! k = Some al /\ Property (m_name m) (Some (dn_full_name n ++ [0u8])) ∈ dn_properties al.
Proof.
  unfold of_state_fixup in Hfix. destruct (fixup_place _ _) as [[node parent]|e|] eqn:Epl; [| |done].
  2:{ injection Hfix as -> <-. revert Epl. unfold fixup_place. destruct (of_find_node_by_path_from _ _) as [p|]; [by destruct (of_get_parent p)|].
      by destruct (before_last_slash _). }
  apply bind_ok in Hfix as (pn & Hpn & Hfix). destruct (node_at root parent) as [pn'|] eqn:Hp; [|done]. injection Hpn as ->.
  destruct (describe_state pn state_root _ _ _ _ _ _ Hmade Hnames Hshape Hdesc) as (cs & Est & Hread). rewrite Est in Hfix.
  pose proof (made_state_tree _ _ _ _ _ _ Hmade) as (Hmag & _).
  destruct (finish_spec find m name root pn parent node (dn_name state_root) cs Hp Hfind Hname) with (root' := root')
    as (q & h & t & b & t' & k & al & Hn & Hb & Hh & Hk & Hal).
  { intros p ->. revert Epl. unfold fixup_place. destruct (of_find_node_by_path_from _ _) as [p'|] eqn:Ef; [|by destruct (before_last_slash _)].
    unfold of_get_parent. destruct p' as [|i p']; [done|]. cbn [of_option mbind outcome_bind]. intros [= <- <-].
    split; [|split; [done|split; [done|]]].
    - revert Ef. cbn. destruct (s_of_path (m_state m)) as [|c path]; [done|]. destruct (decide _); [|done]. by apply find_path_at.
    - intros k n [= -> ->]. by apply Hold. }
  { exact Hfix. }
  eexists q, _, h. split; [exact Hn|]. split; [done|]. split; [done|]. split; [|split; [by exists t, b, t'|by exists k, al]].
  apply Hread; [done|]. by apply read_u32_found.
Qed.

(** C31: the node that a fixup makes of a state describes it, wherever the node is to be put
    and whatever values the variables have now. For every state made from a tree with
    distinct names, whose enumerations have names and whose strings have room for their
    defaults, [state_to_node] succeeds; the node has the name of the state's node, the
    path of its parent with that name, and the magic number as its one property; and
    making a state from the node succeeds and gives the same variables, at their places
    and with their default values. [of_state_fixup] makes this node before it searches
    for the device, which dt/dt.h never finds. *)
Theorem fixup_node_describes parent root of_path0 magic0 of_path magic vars0 vars
    (Hmade : state_from_node true of_path0 magic0 [] root = Some (0, (of_path, magic, vars0)))
    (Hnames : NoDup (sv_name <$> vars0)) (Hshape : Forall2 shape vars0 vars) (Hdesc : Forall describable vars) :
  exists n, state_to_node (Some parent) (Some root) magic vars STATE_CONVERT_FIXUP = Ok n /\
    dn_name n = dn_name root /\ dn_full_name n = dn_full_name parent ++ cstr "/" ++ dn_name root /\
    dn_properties n = [Property (cstr "magic") (Some (be_cell 4 magic))] /\
    state_from_node true [] 0 [] n = Some (0, (dn_full_name n, magic, reset <$> vars)).
Proof.
  destruct (describe_state parent root _ _ _ _ _ _ Hmade Hnames Hshape Hdesc) as (cs & En & Hread).
  pose proof (made_state_tree _ _ _ _ _ _ Hmade) as (Hmag & _).
  eexists. split; [exact En|]. do 3 (split; [done|]). apply Hread; [done|]. by apply read_u32_found.
Qed.

Lemma fixup_node_describes_witness (parent := DeviceNode (cstr "chosen") (cstr "/chosen") 0 [] []) :
  exists n, state_to_node (Some parent) (Some State.ex_tree) 0x1234 ex_tree_now STATE_CONVERT_FIXUP = Ok n /\
    dn_name n = cstr "state" /\ dn_full_name n = cstr "/chosen/state" /\
    dn_properties n = [Property (cstr "magic") (Some (be_cell 4 0x1234))] /\
    state_from_node true [] 0 [] n = Some (0, (dn_full_name n, 0x1234, reset <$> ex_tree_now)).
Proof.
  apply (fixup_node_describes parent State.ex_tree [] 0 (cstr "/state") 0x1234 ex_tree_vars ex_tree_now ex_tree_made).
  - evaluate.
  - apply ex_tree_shape.
  - repeat constructor; try discriminate; evaluate.
Defined.

(** ** A kernel's tree with an old state node *)

Definition ex_made : made_state :=
  MadeState (cstr "state") (cstr "/dev/eeprom0")
    (State (cstr "/state") 0x1234 false ex_tree_now false false (inl (RawFormat None 0 (cstr "state") None))
      (Storage [] (Some (cstr "direct")) 64 0 0 false)) (Sysfile.File [] false [] []).
Definition ex_kernel_tree : device_node :=
  DeviceNode [] [] 0 []
    [DeviceNode (cstr "eeprom") (cstr "/eeprom") 0 [] []; DeviceNode (cstr "state") (cstr "/state") 0 [u32_prop "magic" 1] [];
     DeviceNode (cstr "chosen") (cstr "/chosen") 7 [] []].
Definition ex_find (t : device_node) (name : option bytes) : option node_ref := Some [0%nat].
Definition ex_fixed : device_node :=
  match of_state_fixup ex_find (Some State.ex_tree) ex_made None ex_kernel_tree with Ok (_, t) => t | _ => ex_kernel_tree end.

(** The new node is last but one, before the aliases, and the device has a phandle. *)
Example ex_fixed_tree : dn_name <$> dn_children ex_fixed = [cstr "eeprom"; cstr "chosen"; cstr "state"; cstr "aliases"] /\
  dn_phandle <$> dn_children ex_fixed = [8; 7; 0; 0] /\ of_find_node_by_alias ex_fixed (cstr "state") = Some [2%nat].
Proof. vm_compute. done. Qed.

Lemma fixup_describes_witness : exists q n h, node_at ex_fixed q = Some n /\ dn_properties n = backend_props (m_state ex_made) h /\
  state_from_node true [] 0 [] n = Some (0, (dn_full_name n, 0x1234, reset <$> ex_tree_now)).
Proof.
  destruct (fixup_describes ex_find ex_made None ex_kernel_tree ex_fixed State.ex_tree [] 0 ex_tree_vars ex_tree_made)
    as (q & n & h & Hn & _ & Hp & Hs & _).
  - evaluate.
  - apply ex_tree_shape.
  - repeat constructor; try discriminate; evaluate.
  - intros t b [= <-]. by eexists.
  - vm_compute. reflexivity.
  - intros k n Hk Hn. vm_compute in Hk. injection Hk as <-. vm_compute in Hn. injection Hn as <-. vm_compute. reflexivity.
  - vm_compute. reflexivity.
  - exists q, n, h. split; [exact Hn|]. split; [exact Hp|exact Hs].
Defined.

Lemma fixup_restores_witness : exists ret, of_state_fixup no_reproducible_name (Some State.ex_tree) ex_made None ex_kernel_tree
  = Ok (ret, ex_kernel_tree) /\ ret <> 0.
Proof.
  assert (H : exists ret root', of_state_fixup no_reproducible_name (Some State.ex_tree) ex_made None ex_kernel_tree = Ok (ret, root')).
  { eexists _, _. vm_compute. reflexivity. }
  destruct H as (ret & root' & E). exists ret.
  destruct (fixup_restores (Some State.ex_tree) ex_made None ex_kernel_tree ret root' E) as [Hr Ht].
  split; [rewrite E; f_equal; f_equal; exact Ht|exact Hr].
Defined.
