(* ===== verification/Cli.v ===== *)
(** * The command line tool (src/barebox-state.c)

    The variables of a state as text: getting, setting and dumping them, and what
    [main] does with the options once they are parsed and the states are loaded.
    Options are a record; what is printed to the standard output is a list of
    bytes. *)

From S2P Require Import Prelude Text Sysfile Bucket DirectBucket StateVar Storage RawFormat StorageExamples Dt Variables State.

(** ** The functions of the table [types] *)

Definition __state_uint32_set (val : bytes) (value_default : Z) : Z * option var_data :=
  (0, Some (StateUint32 (u32 (fst (strtoul 0 val))) value_default)).

Definition __state_uint8_set (val : bytes) (value_default : Z) : Z * option var_data :=
  let num := fst (strtoul 0 val) in
  if 255 <? num then (- ERANGE, None) else (0, Some (StateUint32 (u32 num) value_default)).

Definition __state_uint32_get (value : Z) : bytes := dec value.

(** The position of the first name that is the string. *)
Fixpoint name_index (names : list bytes) (val : bytes) (i : Z) : option Z :=
  match names with
  | [] => None
  | n :: names' => if bool_decide (n = val) then Some i else name_index names' val (i + 1)
  end.
Definition __state_enum32_set (val : bytes) (value_default : Z) (names : list bytes) : Z * option var_data :=
  match name_index names val 0 with
  | Some i => (0, Some (StateEnum32 i value_default names))
  | None => (- EINVAL, None)
  end.

(** The name is read behind the array for a value that is too large. *)
Definition __state_enum32_get (value : Z) (names : list bytes) : outcome bytes :=
  of_option (names !! Z.to_nat value).

(** Names with commas between them. *)
Fixpoint comma_list (names : list bytes) : bytes :=
  match names with [] => [] | [n] => n | n :: names' => n ++ cstr "," ++ comma_list names' end.
Definition __state_enum32_info (names : list bytes) : bytes := cstr ", values=[" ++ comma_list names ++ cstr "]".

(** The loop of [string_to_ethaddr] over [n] numbers; a start behind the NUL of the
    string would be read ([Undef]). *)
Fixpoint ethaddr_loop (n : nat) (str : bytes) : outcome bytes :=
  match n with
  | O => Ok []
  | S n' =>
      let (v, e) := strtoul 16 str in
      r ← (match n', e with
           | O, _ => Ok []
           | S _, [] => Undef
           | S _, _ :: str => ethaddr_loop n' str
           end);
      Ok (byte_of (u8 v) :: r)
  end.
Definition string_to_ethaddr (str : bytes) : outcome (Z * bytes) :=
  if negb (length str =? 17)%nat then Ok (- EINVAL, zeros 6) else
  if negb (forallb (fun i => bool_decide (str !! i = Some colon)) [2; 5; 8; 11; 14]%nat) then Ok (- EINVAL, []) else
  a ← ethaddr_loop 6 str; Ok (0, a).

Definition __state_mac_set (val value_default : bytes) : outcome (Z * option var_data) :=
  '(ret, mac_save) ← string_to_ethaddr val;
  if negb (ret =? 0) then Ok (ret, None) else Ok (0, Some (StateMac mac_save value_default)).

(** Bytes with colons between them. *)
Fixpoint colon_list (value : bytes) : bytes :=
  match value with [] => [] | [b] => hex02 b | b :: value' => hex02 b ++ [colon] ++ colon_list value' end.
Definition __state_mac_get (value : bytes) : bytes := colon_list (take 6 value).

Definition __state_string_set (size : Z) (val : bytes) (value_default : option bytes) (raw : bytes) : Z * option var_data :=
  let (ret, raw) := state_string_copy_to_raw size raw val in
  if negb (ret =? 0) then (ret, None) else (0, Some (StateString (Some val) value_default raw)).

(** [raw[0]] of a string of no bytes lies behind its object. *)
Definition __state_string_get (size : Z) (raw : bytes) : outcome bytes :=
  match raw with
  | [] => Undef
  | _ => let r := take (Z.to_nat size) raw in Ok (take (strnlen r) r)
  end.

(** [vtype->get] and [vtype->set] of the type of a variable. A variable whose
    structure is not the one of its type is read as the wrong structure. *)
Definition get_text (sv : state_variable) : outcome bytes :=
  match sv_type sv, sv_data sv with
  | STATE_VARIABLE_TYPE_UINT8, StateUint32 v _ | STATE_VARIABLE_TYPE_UINT32, StateUint32 v _ => Ok (__state_uint32_get v)
  | STATE_VARIABLE_TYPE_ENUM32, StateEnum32 v _ names => __state_enum32_get v names
  | STATE_VARIABLE_TYPE_MAC, StateMac v _ => Ok (__state_mac_get v)
  | STATE_VARIABLE_TYPE_STRING, StateString _ _ raw => __state_string_get (sv_size sv) raw
  | _, _ => Undef
  end.
Definition set_text (sv : state_variable) (val : bytes) : outcome (Z * state_variable) :=
  '(ret, d) ← match sv_type sv, sv_data sv with
              | STATE_VARIABLE_TYPE_UINT8, StateUint32 _ d => Ok (__state_uint8_set val d)
              | STATE_VARIABLE_TYPE_UINT32, StateUint32 _ d => Ok (__state_uint32_set val d)
              | STATE_VARIABLE_TYPE_ENUM32, StateEnum32 _ d names => Ok (__state_enum32_set val d names)
              | STATE_VARIABLE_TYPE_MAC, StateMac _ d => __state_mac_set val d
              | STATE_VARIABLE_TYPE_STRING, StateString _ d raw => Ok (__state_string_set (sv_size sv) val d raw)
              | _, _ => Undef
              end;
  Ok (ret, match d with Some d => set_data d sv | None => sv end).
Definition type_info (sv : state_variable) : bytes :=
  match sv_type sv, sv_data sv with
  | STATE_VARIABLE_TYPE_ENUM32, StateEnum32 _ _ names => __state_enum32_info names
  | _, _ => []
  end.

(** ** Variables of a state *)

(** [None] for NULL. *)
Definition state_get_var (vars : list state_variable) (var : bytes) : outcome (option bytes) :=
  match state_find_var vars var with
  | None => Ok None
  | Some sv => t ← get_text sv; Ok (Some t)
  end.

(** The result, the variables and whether the state is dirty now. *)
Definition state_set_var (vars : list state_variable) (var val : bytes) : outcome (Z * list state_variable * bool) :=
  match state_find_var vars var with
  | None => Ok (- ENOENT, vars, false)
  | Some sv =>
      oldval ← get_text sv;
      if bool_decide (oldval = val) then Ok (0, vars, false) else
      '(ret, sv) ← set_text sv val;
      if negb (ret =? 0) then Ok (ret, vars, false) else Ok (0, update_var vars var sv, true)
  end.

(** ** main *)

(** What the options ask for; [o_sg] holds the arguments of -g ([true]) and -s. *)
Record options : Type := Options { o_dump : bool; o_dump_shell : bool; o_pr_level : Z; o_sg : list (bool * bytes) }.

(** The string up to the first [c] and behind it. *)
Fixpoint split_at (c : Byte.byte) (s : bytes) : option (bytes * bytes) :=
  match s with
  | [] => None
  | b :: s' => if decide (b = c) then Some ([], s') else prod_map (cons b) id <$> split_at c s'
  end.

Definition dot : Byte.byte := Byte.x2e.
Definition equals : Byte.byte := Byte.x3d.
Definition quote : Byte.byte := Byte.x22.
Definition newline : Byte.byte := Byte.x0a.

(** A line of --dump and one of --dump-shell. *)
Definition dump_line (many : bool) (pr_level : Z) (name : bytes) (v : state_variable) : outcome bytes :=
  t ← get_text v;
  Ok ((if many then name ++ [dot] else []) ++ sv_name v ++ [equals] ++ t
      ++ (if 5 <? pr_level then cstr ", type=" ++ type_name (sv_type v) ++ type_info v else []) ++ [newline]).
Definition dump_shell_line (name : bytes) (v : state_variable) : outcome bytes :=
  t ← get_text v;
  Ok (name ++ cstr "_" ++ ((fun b => if decide (b = dot) then Byte.x5f else b) <$> sv_name v)
      ++ [equals; quote] ++ t ++ [quote; newline]).

(** A loop that prints. *)
Fixpoint print_each {A} (line : A -> outcome bytes) (l : list A) : outcome bytes :=
  match l with [] => Ok [] | x :: l' => a ← line x; b ← print_each line l'; Ok (a ++ b) end.

(** The rest of a get or set behind the choice of the state: the exit code, the
    output, the variables and whether they changed. *)
Definition get_or_set (get : bool) (vars : list state_variable) (arg : bytes) : outcome (Z * bytes * list state_variable * bool) :=
  if get then
    val ← state_get_var vars arg;
    Ok (match val with Some t => (0, t ++ [newline], vars, false) | None => (1, [], vars, false) end)
  else
    match split_at equals arg with
    | None => Ok (1, [], vars, false)
    | Some (var, val) =>
        '(ret, vars, dirty) ← state_set_var vars var val;
        Ok ((if negb (ret =? 0) then 1 else 0), [], vars, dirty)
    end.

(** The state that an argument names, and the argument for it. *)
Fixpoint name_pos (names : list bytes) (name : bytes) : option nat :=
  match names with [] => None | n :: l => if bool_decide (n = name) then Some 0%nat else S <$> name_pos l name end.
Definition choose_state (names : list bytes) (arg : bytes) : nat * bytes :=
  match split_at dot arg with
  | Some (statename, rest) =>
      match name_pos names statename with Some i => (i, rest) | None => (0%nat, arg) end
  | None => (0%nat, arg)
  end.

Section Main.
Context {B F : Type} `{BucketOps B} `{WrongMagic B} `{FormatVerify F} `{FormatPack F}.

(** [struct state_list], with the medium behind the state. *)
Record loaded : Type := Loaded { l_name : bytes; l_state : state B F; l_file : file }.

Definition put_vars (vars : list state_variable) (dirty : bool) (l : loaded) : loaded :=
  let s := with_variables vars (l_state l) in
  Loaded (l_name l) (if dirty then with_dirty true s else s) (l_file l).

Fixpoint sg_loop (sgs : list (bool * bytes)) (states : list loaded) : outcome (Z * bytes * list loaded) :=
  match sgs with
  | [] => Ok (0, [], states)
  | (get, a) :: sgs' =>
      let (i, arg) := choose_state (l_name <$> states) a in
      match states !! i with
      | None => Undef
      | Some l =>
          '(ret, out, vars, dirty) ← get_or_set get (s_variables (l_state l)) arg;
          let states := <[i := put_vars vars dirty l]> states in
          if negb (ret =? 0) then Ok (ret, out, states) else
          '(ret, rest, states) ← sg_loop sgs' states; Ok (ret, out ++ rest, states)
      end
  end.

(** The states that are dirty are saved, up to one that fails. *)
Fixpoint save_loop (states : list loaded) : outcome (Z * list loaded) :=
  match states with
  | [] => Ok (0, [])
  | l :: states' =>
      if negb (s_dirty (l_state l)) then '(ret, states') ← save_loop states'; Ok (ret, l :: states') else
      match state_save (l_state l) (l_file l) with
      | None => Undef
      | Some (ret, s, f) =>
          let l := Loaded (l_name l) s f in
          if negb (ret =? 0) then Ok (1, l :: states') else '(ret, states') ← save_loop states'; Ok (ret, l :: states')
      end
  end.

(** [main] behind the loop of [state_get]: the exit code, the output and the states. *)
Definition cli_main (o : options) (states : list loaded) : outcome (Z * bytes * list loaded) :=
  let each line := print_each (fun l => print_each (line (l_name l)) (s_variables (l_state l))) states in
  d ← (if o_dump o then each (dump_line (1 <? length states)%nat (o_pr_level o)) else Ok []);
  e ← (if o_dump_shell o then each dump_shell_line else Ok []);
  '(ret, out, states) ← sg_loop (o_sg o) states;
  if negb (ret =? 0) then Ok (ret, d ++ e ++ out, states) else
  '(ret, states) ← save_loop states; Ok (ret, d ++ e ++ out, states).
End Main.
Arguments loaded : clear implicits.

(** ** Setting keeps variables well formed *)

Lemma ethaddr_loop_S n s : ethaddr_loop (S (S n)) s =
  r ← match snd (strtoul 16 s) with [] => Undef | _ :: str => ethaddr_loop (S n) str end;
  Ok (byte_of (u8 (fst (strtoul 16 s))) :: r).
Proof. cbn [ethaddr_loop]. by destruct (strtoul 16 s) as [v [|x e]]. Qed.

(** A MAC address is read inside its string, whatever the string holds between the
    colons: every number ends at the next colon at the latest. *)
Lemma ethaddr_loop_total n : forall slack s,
  (forall k, (k < n)%nat -> s !! (3 * k + 2 + slack)%nat = Some colon) ->
  exists a, ethaddr_loop (S n) s = Ok a /\ length a = S n.
Proof.
  induction n as [|n IH]; intros slack s Hs.
  - cbn [ethaddr_loop]. destruct (strtoul 16 s) as [v e]. eexists. by split.
  - assert (H0 : s !! (2 + slack)%nat = Some colon) by (apply (Hs 0%nat); lia).
    destruct (strtoul_colon s _ H0) as (c & He & Hc).
    rewrite ethaddr_loop_S, He. destruct (drop c s) as [|x str] eqn:E.
    { apply (f_equal length) in E. rewrite length_drop in E. apply lookup_lt_Some in H0. cbn in E. lia. }
    destruct (IH (2 + slack - c)%nat str) as (a & Ha & Hl).
    { intros k Hk. specialize (Hs (S k) ltac:(lia)). rewrite <-Hs.
      replace str with (drop (S c) s) by (by rewrite <-Nat.add_1_r, <-drop_drop, E).
      rewrite lookup_drop. f_equal. lia. }
    rewrite Ha. eexists. split; [done|]. cbn. by rewrite Hl.
Qed.

Lemma string_to_ethaddr_total s : exists ret a, string_to_ethaddr s = Ok (ret, a) /\ (ret = 0 -> length a = 6%nat).
Proof.
  unfold string_to_ethaddr. destruct (length s =? 17)%nat; cbn [negb]; [|eexists _, _; split; [reflexivity|discriminate]].
  destruct (forallb _ _) eqn:E; cbn [negb]; [|eexists _, _; split; [reflexivity|discriminate]].
  rewrite forallb_forall in E. destruct (ethaddr_loop_total 5 0 s) as (a & Ha & Hl).
  - intros k Hk. assert (Hin : In (3 * k + 2 + 0)%nat [2; 5; 8; 11; 14]%nat).
    { destruct k as [|[|[|[|[|k]]]]]; cbn; try lia; tauto. }
    specialize (E _ Hin). by apply bool_decide_eq_true_1 in E.
  - eexists _, _. by rewrite Ha.
Qed.

Lemma digit_value_nonneg d : 0 <= digit_value d.
Proof. apply Z.leb_le. revert d. apply bytes_forall. vm_compute. reflexivity. Qed.

Lemma strtoul_nonneg base s : 0 <= base -> 0 <= fst (strtoul base s).
Proof.
  intros Hb. unfold strtoul. destruct (span isspace s) as [sp s1]. destruct (sign s1) as [neg s2].
  assert (Hp : 0 <= fst (prefix base s2)).
  { unfold prefix. destruct s2 as [|z [|x [|h s2]]]; repeat case_match; cbn; lia. }
  destruct (prefix base s2) as [b s3]. cbn [fst] in Hp. destruct (span (is_digit b) s3) as [ds rest].
  destruct (length ds =? 0)%nat; [done|]. cbn [fst].
  assert (Hf : forall l acc, 0 <= acc -> 0 <= fold_left (fun acc d => acc * b + digit_value d) l acc).
  { intros l. induction l as [|d l IH]; intros acc Ha; cbn [fold_left]; [done|]. apply IH.
    pose proof (digit_value_nonneg d). nia. }
  specialize (Hf ds 0 ltac:(lia)). destruct (_ <? _); [done|]. destruct neg; [apply u64_range|done].
Qed.

Lemma name_index_range names val : forall i k, name_index names val i = Some k -> i <= k < i + Z.of_nat (length names).
Proof.
  induction names as [|n names IH]; intros i k; [done|]. cbn [name_index length]. case_bool_decide; [intros [= <-]; lia|].
  intros Hk%IH. lia.
Qed.

(** What setting leaves of a variable. *)
Definition set_result (sv : state_variable) (r : outcome (Z * state_variable)) : Prop :=
  exists ret sv', r = Ok (ret, sv') /\ sv_wf sv' /\ same_var sv sv' /\ (ret <> 0 -> sv' = sv).

Lemma set_fails sv ret : sv_wf sv -> set_result sv (Ok (ret, sv)).
Proof. intros Hw. exists ret, sv. split; [done|]. split; [done|]. split; [reflexivity|done]. Qed.
Lemma set_works sv d : sv_wf (set_data d sv) -> set_result sv (Ok (0, set_data d sv)).
Proof. intros Hw. exists 0, (set_data d sv). split; [done|]. split; [done|]. split; [do 4 (split; [done|]); done|done]. Qed.

(** Setting never reads or writes outside the variable; it gives a well-formed
    variable of the same place, name and type, or an error and no change. *)
Lemma set_text_spec sv val : sv_wf sv -> cstring val ->
  (forall v d names, sv_data sv = StateEnum32 v d names -> Z.of_nat (length names) <= 2 ^ 32) ->
  set_result sv (set_text sv val).
Proof.
  intros Hwf Hval Hnames. pose proof (fun ret => set_fails sv ret Hwf) as Hfail. pose proof (set_works sv) as Hwork.
  destruct Hwf as [Hw Hst]. destruct sv as [t n st sz d]. unfold set_text. unfold sv_wf, data_wf, set_data in *.
  cbn [sv_type sv_data sv_size sv_start] in *. destruct t, d; try done.
  - unfold __state_uint8_set. destruct (255 <? _); cbn [mbind outcome_bind]; [apply Hfail|apply Hwork].
    split; [|done]. split; [tauto|]. split; [apply u32_range|tauto].
  - apply (Hwork (StateUint32 _ _)). split; [|done]. split; [tauto|]. split; [apply u32_range|tauto].
  - unfold __state_enum32_set. destruct (name_index names val 0) as [i|] eqn:E; cbn [mbind outcome_bind]; [|apply Hfail].
    apply name_index_range in E. specialize (Hnames _ _ _ eq_refl). apply Hwork. split; [|done]. split; [tauto|]. split; [lia|tauto].
  - unfold __state_mac_set. destruct (string_to_ethaddr_total val) as (ret & a & Ha & Hl). rewrite Ha. cbn [mbind outcome_bind].
    destruct (Z.eqb_spec ret 0) as [->|Hr]; cbn [negb mbind outcome_bind]; [|apply Hfail].
    apply Hwork. split; [|done]. split; [tauto|]. split; [by apply Hl|tauto].
  - unfold __state_string_set. destruct Hw as (Hsz & Hraw & Hv & Hd).
    pose proof (string_copy_length sz raw val Hraw ltac:(lia)) as Hl.
    destruct (state_string_copy_to_raw sz raw val) as [ret raw'] eqn:E. cbn [snd] in Hl. cbn [mbind outcome_bind].
    destruct (Z.eqb_spec ret 0) as [->|Hr]; cbn [negb]; [|apply Hfail]. apply Hwork.
    split; [|done]. split; [lia|]. split; [done|]. split; [by intros s [= <-]|done].
Qed.

(** ** Text and back *)

(** Two variables of one kind. *)
Definition alike (a b : state_variable) : Prop :=
  sv_type a = sv_type b /\ sv_size a = sv_size b /\
  match sv_data a, sv_data b with
  | StateUint32 _ _, StateUint32 _ _ | StateMac _ _, StateMac _ _ | StateString _ _ _, StateString _ _ _ => True
  | StateEnum32 _ _ names, StateEnum32 _ _ names' => names = names'
  | _, _ => False
  end.

(** The value has a text that says all of it: a number of its width, a name that is
    not used twice, a string with nothing behind its end. *)
Definition has_text (sv : state_variable) : Prop :=
  match sv_type sv, sv_data sv with
  | STATE_VARIABLE_TYPE_UINT8, StateUint32 v _ => v <= 255
  | STATE_VARIABLE_TYPE_ENUM32, StateEnum32 v _ names => v < Z.of_nat (length names) /\ NoDup names
  | STATE_VARIABLE_TYPE_STRING, StateString _ _ raw =>
      0 < sv_size sv /\ exists s, cstring s /\ raw = s ++ zeros (Z.to_nat (sv_size sv) - length s) /\ Z.of_nat (length s) <= sv_size sv
  | _, _ => True
  end.

Lemma name_index_lookup names : forall k i name, NoDup names -> names !! k = Some name ->
  name_index names name i = Some (i + Z.of_nat k).
Proof.
  induction names as [|n names IH]; intros [|k] i name Hnd Hk; [done|done| |]; cbn [name_index].
  - injection Hk as ->. rewrite bool_decide_eq_true_2 by done. f_equal. lia.
  - apply list.NoDup_cons in Hnd as [Hn Hnd]. cbn in Hk. rewrite bool_decide_eq_false_2.
    + rewrite (IH k (i + 1) name Hnd Hk). f_equal. lia.
    + intros ->. destruct Hn. by eapply list_elem_of_lookup_2.
Qed.

Lemma colon_list_cons b c l : colon_list (b :: c :: l) = hex02 b ++ [colon] ++ colon_list (c :: l).
Proof. done. Qed.

Lemma ethaddr_loop_text value : value <> [] -> ethaddr_loop (length value) (colon_list value) = Ok value.
Proof.
  assert (Hb : forall b, byte_of (u8 (bval b)) = b).
  { intros b. rewrite u8_small by apply byte.unsigned_range. apply byte_of_bval. }
  induction value as [|b [|c value] IH]; intros _; [done| |].
  - cbn [length ethaddr_loop colon_list]. rewrite <-(app_nil_r (hex02 b)), strtoul_hex02 by done. cbn [mbind outcome_bind].
    by rewrite Hb.
  - rewrite colon_list_cons. cbn [length]. rewrite ethaddr_loop_S, strtoul_hex02 by done. cbn [snd fst app].
    change (S (length value)) with (length (c :: value)). rewrite IH by done. cbn [mbind outcome_bind]. by rewrite Hb.
Qed.

Lemma string_to_ethaddr_text value : length value = 6%nat -> string_to_ethaddr (colon_list value) = Ok (0, value).
Proof.
  intros Hl. pose proof (ethaddr_loop_text value) as H. rewrite Hl in H. unfold string_to_ethaddr.
  destruct value as [|a [|b [|c [|d [|e [|f [|g value]]]]]]]; try done. rewrite H by done. done.
Qed.

Lemma take_strnlen_zeros s k : cstring s -> take (strnlen (s ++ zeros k)) (s ++ zeros k) = s.
Proof. intros Hs. rewrite strnlen_take_cstring by done. apply take_app_length. Qed.

Lemma string_get_text sz s : cstring s -> 0 < sz -> Z.of_nat (length s) <= sz ->
  __state_string_get sz (s ++ zeros (Z.to_nat sz - length s)) = Ok s.
Proof.
  intros Hs Hsz Hl. assert (Hlen : length (s ++ zeros (Z.to_nat sz - length s)) = Z.to_nat sz) by (rewrite length_app, length_zeros; lia).
  pose proof (take_strnlen_zeros s (Z.to_nat sz - length s) Hs) as Ht. unfold __state_string_get.
  destruct (s ++ zeros (Z.to_nat sz - length s)) as [|x r]; [cbn [length] in Hlen; lia|]. rewrite (take_ge (x :: r)) by lia. by rewrite Ht.
Qed.

(** An uint8 is read as the 32 bits it is kept in. *)
Definition one_byte (sv : state_variable) : Prop :=
  match sv_type sv, sv_data sv with STATE_VARIABLE_TYPE_UINT8, StateUint32 v _ => v <= 255 | _, _ => True end.

(** A value with a text sets any variable of the same kind, which then has the
    same bytes and the same text. *)
Lemma set_text_of sv sv' : sv_wf sv -> sv_wf sv' -> alike sv sv' -> has_text sv ->
  exists t d, get_text sv = Ok t /\ set_text sv' t = Ok (0, set_data d sv') /\ sv_bytes (set_data d sv') = sv_bytes sv
  /\ get_text (set_data d sv') = Ok t /\ has_text (set_data d sv') /\ data_wf (set_data d sv') /\ alike sv' (set_data d sv').
Proof.
  intros Hw Hw' Ha Ht.
  destruct Hw as [Hd _], Hw' as [Hd' _]. unfold alike, has_text, get_text, set_text, data_wf, sv_bytes, sv_raw in *.
  destruct sv as [ty n st sz d], sv' as [ty' n' st' sz' d']. cbn [sv_type sv_size sv_data set_data] in *.
  unfold alike. cbn [sv_type sv_size sv_data]. destruct Ha as (<- & <- & Ha). destruct ty, d, d'; try done.
  - eexists _, (StateUint32 value value_default0). split; [reflexivity|].
    unfold __state_uint8_set, __state_uint32_get. rewrite strtoul_dec by lia. cbn [fst].
    rewrite (proj2 (Z.ltb_ge _ _)) by lia. rewrite u32_small by lia. do 4 (split; [done|]). cbn. tauto.
  - eexists _, (StateUint32 value value_default0). split; [reflexivity|].
    unfold __state_uint32_set, __state_uint32_get. rewrite strtoul_dec by lia. cbn [fst]. rewrite u32_small by lia. do 4 (split; [done|]). cbn. tauto.
  - subst names0. destruct Ht as [Hv Hnd]. unfold __state_enum32_get, __state_enum32_set.
    destruct (names !! Z.to_nat value) as [name|] eqn:E; [|apply lookup_ge_None in E; lia].
    eexists _, (StateEnum32 value value_default0 names). split; [reflexivity|]. rewrite (name_index_lookup _ _ _ _ Hnd E).
    replace (0 + Z.of_nat (Z.to_nat value)) with value by lia. cbn [sv_data sv_size]. rewrite E. do 4 (split; [done|]). cbn. tauto.
  - eexists _, (StateMac value value_default0). split; [reflexivity|]. unfold __state_mac_set, __state_mac_get.
    destruct Hd as (-> & Hl & _). rewrite take_ge by lia. rewrite string_to_ethaddr_text by done. split; [done|].
    change (Z.to_nat 6) with 6%nat. cbn [sv_data sv_size]. rewrite !take_app_length' by (by rewrite Hl). do 3 (split; [done|]). cbn. tauto.
  - destruct Ht as (Hsz & s & Hs & -> & Hl). destruct Hd as (Hszb & Hlen & _), Hd' as (_ & Hlen' & _ & Hdef).
    eexists s, (StateString (Some s) value_default0 (s ++ zeros (Z.to_nat sz - length s))).
    pose proof (string_get_text sz s Hs Hsz Hl) as Hg.
    split; [exact Hg|]. unfold __state_string_set. rewrite string_copy_fits by done. split; [done|]. split; [done|].
    split; [exact Hg|]. split; [split; [done|]; by exists s|]. cbn.
    split; [|done]. split; [lia|]. split; [done|]. by split; [intros ? [= <-]|].
Qed.

(** C21: the text that is printed of a value sets any variable of the same kind to
    that value: its bytes are those of the first variable again, and so is its
    text. *)
Theorem text_roundtrip sv sv' (Hw : sv_wf sv) (Hw' : sv_wf sv') (Ha : alike sv sv') (Ht : has_text sv) :
  exists t sv'', get_text sv = Ok t /\ set_text sv' t = Ok (0, sv'')
  /\ sv_bytes sv'' = sv_bytes sv /\ get_text sv'' = Ok t.
Proof.
  destruct (set_text_of sv sv' Hw Hw' Ha Ht) as (t & d & H1 & H2 & H3 & H4 & _). by exists t, (set_data d sv').
Qed.

Definition ex_mac (value : bytes) : state_variable := StateVariable STATE_VARIABLE_TYPE_MAC (cstr "eth") 0 6 (StateMac value (zeros 6)).

Lemma text_roundtrip_witness :
  exists t sv'', get_text (ex_mac (byte_of <$> [0; 17; 34; 171; 205; 239])) = Ok t /\ t = cstr "00:11:22:ab:cd:ef"
  /\ set_text (ex_mac (zeros 6)) t = Ok (0, sv'').
Proof.
  destruct (text_roundtrip (ex_mac (byte_of <$> [0; 17; 34; 171; 205; 239])) (ex_mac (zeros 6))) as (t & sv'' & Ht & Hs & _).
  - split; [|cbn; lia]. split; [done|]. by split.
  - split; [|cbn; lia]. split; [done|]. by split.
  - by repeat split.
  - done.
  - exists t, sv''. split; [done|]. split; [|done]. vm_compute in Ht. by injection Ht as <-.
Defined.

(** ** From one process to the next *)

Lemma byte_of_inj a b : 0 <= a <= 255 -> 0 <= b <= 255 -> byte_of a = byte_of b -> a = b.
Proof. intros Ha Hb H. apply (f_equal bval) in H. rewrite !bval_of, !u8_small in H by lia. exact H. Qed.

(** Equal bytes are equal texts. *)
Lemma get_text_bytes a b : sv_wf a -> sv_wf b -> alike a b -> one_byte a -> one_byte b -> sv_bytes b = sv_bytes a ->
  get_text b = get_text a.
Proof.
  intros [Hwa _] [Hwb _] Hal Ha Hb E. unfold alike, one_byte, get_text, data_wf, sv_bytes, sv_raw in *.
  destruct a as [ty n st sz d], b as [ty' n' st' sz' d']. cbn [sv_type sv_size sv_data] in *.
  destruct Hal as (<- & <- & Hal). destruct ty, d, d'; try done.
  - destruct Hwa as (-> & ? & _), Hwb as (_ & ? & _). cbn in E. injection E as E. apply byte_of_inj in E; [by subst|lia|lia].
  - destruct Hwa as (-> & ? & _), Hwb as (_ & ? & _). change (Z.to_nat 4) with 4%nat in E.
    rewrite !take_ge in E by (by rewrite length_le32). apply (f_equal get_le) in E. rewrite !get_le_le32, !u32_small in E by lia. by subst.
  - destruct Hwa as (-> & ? & _), Hwb as (_ & ? & _). subst names0. change (Z.to_nat 4) with 4%nat in E.
    rewrite !take_ge in E by (by rewrite length_le32). apply (f_equal get_le) in E. rewrite !get_le_le32, !u32_small in E by lia. by subst.
  - destruct Hwa as (-> & Hl & _), Hwb as (_ & Hl' & _). change (Z.to_nat 6) with 6%nat in E.
    rewrite !take_app_length' in E by (by rewrite ?Hl, ?Hl'). by subst.
  - destruct Hwa as (_ & Hl & _), Hwb as (_ & Hl' & _). rewrite !take_ge in E by lia. by subst.
Qed.

(** A byte stored into a value of one byte leaves one. *)
Lemma write_one_byte data sv : sv_wf sv -> length data = Z.to_nat (sv_size sv) -> one_byte sv -> one_byte (sv_write_raw data sv).
Proof.
  intros [Hw _] Hl Ho. unfold one_byte, data_wf, sv_write_raw, sv_raw, set_data in *. destruct sv as [ty n st sz d].
  cbn [sv_type sv_size sv_data] in *. destruct ty, d; try done. destruct Hw as (-> & Hv & _).
  destruct data as [|x [|y data]]; try done. rewrite splice_front. cbn [length app].
  assert (drop 1 (le32 value) = zeros 3) as ->.
  { change (drop 1 (le32 value)) with (le_split 3 (Z.shiftr value 8)). rewrite Z.shiftr_div_pow2 by lia.
    rewrite (Z.div_small value (2 ^ 8)) by lia. reflexivity. }
  pose proof (byte.unsigned_range x). change (get_le (x :: zeros 3)) with (Z.lor (bval x) 0). rewrite Z.lor_0_r. lia.
Qed.

(** A state as another process makes it from the same node: the same variables with
    any values. *)
Definition fresh_like (a b : state_variable) : Prop :=
  sv_name b = sv_name a /\ sv_start a = sv_start b /\ alike a b /\ sv_wf b /\ one_byte b.

(** Loading finds the bytes that were saved, and so the same text. *)
Lemma loaded_text vars vars' var sv : Forall sv_wf vars -> Forall2 fresh_like vars vars' ->
  state_find_var vars var = Some sv -> one_byte sv ->
  exists sv', state_find_var (zip_with (fun a b => sv_write_raw (sv_bytes a) b) vars vars') var = Some sv'
  /\ get_text sv' = get_text sv.
Proof.
  intros Hw Hf Hv Ho. induction Hf as [|a b vars vars' (Hn & Hst & Ha & Hb & Hob) _ IH]; [done|].
  apply Forall_cons_1 in Hw as [Hwa Hw]. cbn [state_find_var zip_with] in *. cbn [sv_write_raw set_data sv_name].
  rewrite Hn. case_bool_decide; [|by apply IH]. injection Hv as ->. eexists. split; [done|].
  assert (Hsz : sv_size sv = sv_size b) by apply Ha.
  assert (Hlen : length (sv_bytes sv) = Z.to_nat (sv_size b)) by (rewrite sv_bytes_length by done; by rewrite Hsz).
  apply get_text_bytes; [done|by apply sv_write_raw_wf| |done|by apply write_one_byte|by apply sv_write_raw_bytes].
  unfold alike in *. destruct Ha as (? & ? & Hd). cbn [sv_write_raw set_data sv_type sv_size sv_data]. split; [done|]. split; [done|].
  by destruct (sv_data sv), (sv_data b).
Qed.

(** ** Arguments *)

Lemma split_at_app c a b : c ∉ a -> split_at c (a ++ c :: b) = Some (a, b).
Proof.
  induction a as [|x a IH]; intros Hc; cbn [app split_at]; [by rewrite decide_True|].
  rewrite decide_False by set_solver. rewrite IH by set_solver. done.
Qed.
Lemma split_at_none c a : c ∉ a -> split_at c a = None.
Proof. induction a as [|x a IH]; intros Hc; [done|]. cbn. rewrite decide_False by set_solver. rewrite IH by set_solver. done. Qed.

Lemma split_at_prefix c a x y : split_at c a = Some (x, y) -> a = x ++ c :: y.
Proof.
  revert x; induction a as [|b a IH]; intros x; [done|]. cbn [split_at]. case_decide as E; [intros [= <- <-]; by rewrite E|].
  destruct (split_at c a) as [[x' y']|]; [|done]. cbn. intros [= <- <-]. cbn. f_equal. by apply IH.
Qed.

(** With one state an argument without dot in the name of the variable is its. *)
Lemma choose_one name var rest : equals ∉ name -> dot ∉ var ->
  choose_state [name] (var ++ equals :: rest) = (0%nat, var ++ equals :: rest).
Proof.
  intros Hn Hd. unfold choose_state. destruct (split_at dot (var ++ equals :: rest)) as [[x y]|] eqn:E; [|done].
  apply split_at_prefix in E. cbn [name_pos]. rewrite bool_decide_eq_false_2; [done|]. intros ->.
  assert (Hx : exists z, x = var ++ equals :: z).
  { clear Hn. revert x E. induction var as [|b var IH]; intros [|c x] E; injection E as ? E.
    - by exfalso.
    - subst. by exists x.
    - subst. set_solver.
    - subst. destruct (IH ltac:(set_solver) x E) as [z ->]. by exists z. }
  destruct Hx as [z ->]. set_solver.
Qed.

Lemma choose_plain name var : dot ∉ var -> choose_state [name] var = (0%nat, var).
Proof. intros Hd. unfold choose_state. by rewrite split_at_none. Qed.

Lemma find_update vars var sv sv' : state_find_var vars var = Some sv -> sv_name sv' = sv_name sv ->
  state_find_var (update_var vars var sv') var = Some sv'.
Proof.
  intros Hf Hn. induction vars as [|x vars IH]; [done|]. cbn [state_find_var update_var] in *.
  case_bool_decide as E; [|cbn [state_find_var]; rewrite bool_decide_eq_false_2 by done; by apply IH].
  injection Hf as ->. cbn [state_find_var]. rewrite bool_decide_eq_true_2; [done|congruence].
Qed.

Lemma find_var_Forall (P : state_variable -> Prop) vars var sv : Forall P vars -> state_find_var vars var = Some sv -> P sv.
Proof.
  rewrite Stdlib.Lists.List.Forall_forall. intros HP Hf. apply HP. by apply list_elem_of_In, (find_var_in vars var).
Qed.

(** The same variable with another value. *)
Definition rewritten (a b : state_variable) : Prop :=
  same_var a b /\ alike a b /\ (sv_wf a -> one_byte a -> one_byte b).

Lemma alike_refl a : alike a a.
Proof. unfold alike. by destruct (sv_data a). Qed.
Lemma alike_sym a b : alike a b -> alike b a.
Proof. intros (H1 & H2 & H3). split; [done|]. split; [done|]. by destruct (sv_data a), (sv_data b). Qed.
Lemma alike_trans a b c : alike a b -> alike b c -> alike a c.
Proof.
  intros (H1 & H2 & H3) (K1 & K2 & K3). split; [congruence|]. split; [congruence|].
  destruct (sv_data a), (sv_data b), (sv_data c); try done. congruence.
Qed.

#[export] Instance rewritten_preorder : PreOrder rewritten.
Proof.
  split.
  - intros a. split; [reflexivity|]. split; [apply alike_refl|done].
  - intros a b c (H1 & H2 & H3) (K1 & K2 & K3). split; [by etrans|]. split; [by eapply alike_trans|].
    intros Hw Ho. apply K3; [by apply H1|by apply H3].
Qed.

Lemma has_one_byte sv : has_text sv -> one_byte sv.
Proof. unfold has_text, one_byte. by destruct (sv_type sv), (sv_data sv). Qed.

Lemma update_var_rel (R : state_variable -> state_variable -> Prop) `{!Reflexive R} vars var sv sv' :
  state_find_var vars var = Some sv -> R sv sv' -> Forall2 R vars (update_var vars var sv').
Proof.
  intros Hf HR. induction vars as [|x vars IH]; [done|]. cbn [state_find_var update_var] in *.
  case_bool_decide; [injection Hf as ->; constructor; [done|reflexivity]|]. constructor; [reflexivity|by apply IH].
Qed.

(** A successful set in the list of variables. *)
Lemma set_var_text vars var sv w t t0 : Forall sv_wf vars -> state_find_var vars var = Some sv ->
  get_text sv = Ok t0 -> one_byte sv -> sv_wf w -> alike w sv -> has_text w -> get_text w = Ok t ->
  exists vars1 d sv1, state_set_var vars var t = Ok (0, vars1, d) /\ Forall2 rewritten vars vars1
  /\ state_find_var vars1 var = Some sv1 /\ get_text sv1 = Ok t /\ one_byte sv1 /\ (d = true \/ t0 = t).
Proof.
  intros Hw Hf Hg0 Ho Hww Ha Htw Hgw.
  pose proof (find_var_Forall _ _ _ _ Hw Hf) as Hsv. apply has_one_byte in Htw as Hto.
  destruct (set_text_of w sv Hww Hsv Ha Htw) as (t' & d & Hg & Hs & _ & Hg1 & Ht1 & Hd1 & Ha1).
  assert (t' = t) as -> by congruence. unfold state_set_var. rewrite Hf, Hg0. cbn [mbind outcome_bind].
  case_bool_decide as E; [subst t0; exists vars, false, sv; split; [done|]; split; [reflexivity|]; tauto|].
  apply has_one_byte in Ht1.
  rewrite Hs. cbn [mbind outcome_bind Z.eqb negb]. exists (update_var vars var (set_data d sv)), true, (set_data d sv).
  split; [done|]. split; [|split; [by apply (find_update vars var sv)|tauto]]. apply (update_var_rel rewritten vars var sv); [done|].
  split; [|split; [done|by intros _ _]]. do 4 (split; [done|]). intros [_ Hst]. by split.
Qed.

(** The other variables keep their values. *)
Lemma find_update_other vars var sv v : v <> var -> sv_name sv = var -> state_find_var (update_var vars var sv) v = state_find_var vars v.
Proof.
  intros Hne Hn. induction vars as [|x vars IH]; [done|]. cbn [state_find_var update_var].
  case_bool_decide as E; cbn [state_find_var]; [|by rewrite IH].
  rewrite !bool_decide_eq_false_2 by congruence. done.
Qed.

Lemma find_var_name vars var sv : state_find_var vars var = Some sv -> sv_name sv = var.
Proof. induction vars as [|x vars IH]; [done|]. cbn [state_find_var]. case_bool_decide; [by intros [= ->]|done]. Qed.

Lemma set_text_name sv val r sv' : set_text sv val = Ok (r, sv') -> sv_name sv' = sv_name sv.
Proof. unfold set_text. intros ([r0 d] & _ & H)%bind_ok. injection H as _ <-. by destruct d. Qed.

Lemma set_var_other vars var t vars1 d v : state_set_var vars var t = Ok (0, vars1, d) -> v <> var ->
  state_find_var vars1 v = state_find_var vars v.
Proof.
  unfold state_set_var. destruct (state_find_var vars var) as [sv|] eqn:E; [|done]. intros (t0 & _ & H)%bind_ok Hne.
  case_bool_decide; [by injection H as <- _|]. apply bind_ok in H as ([r sv'] & Hs & H).
  destruct (r =? 0); cbn [negb] in H; [|by injection H as -> <- _]. injection H as <- _.
  apply find_update_other; [done|]. rewrite <-(find_var_name _ _ _ E). by eapply set_text_name.
Qed.

(** ** Calls with one option *)

(** The options of a call with one -s or one -g. *)
Definition only (get : bool) (arg : bytes) : options := Options false false 5 [(get, arg)].

Section OneOption.
Context {B F : Type} `{BucketOps B} `{WrongMagic B} `{FormatVerify F} `{FormatPack F}.

(** One variable that is set, and the state it is saved in. *)
Lemma main_set name (s s1 : state B F) f var sv t vars1 d f1 :
  state_find_var (s_variables s) var = Some sv -> state_set_var (s_variables s) var t = Ok (0, vars1, d) ->
  s_dirty s = true \/ d = true ->
  equals ∉ name -> equals ∉ var -> dot ∉ var ->
  state_save (with_dirty true (with_variables vars1 s)) f = Some (0, s1, f1) ->
  cli_main (only false (var ++ equals :: t)) [Loaded name s f] = Ok (0, [], [Loaded name s1 f1]).
Proof.
  intros Hf Hset Hd Hn He Hdot Hsave.
  assert (Hput : put_vars vars1 d (Loaded name s f) = Loaded name (with_dirty true (with_variables vars1 s)) f).
  { unfold put_vars. cbn [l_state l_name l_file]. destruct d; [done|]. destruct Hd as [Hd|]; [|done]. f_equal. destruct s.
    cbn in *. by subst. }
  unfold cli_main, only. cbn [o_dump o_dump_shell o_sg mbind outcome_bind sg_loop fmap list_fmap l_name].
  rewrite choose_one by done. cbn [lookup list_lookup l_state get_or_set]. rewrite split_at_app by done.
  rewrite Hset. cbn [mbind outcome_bind Z.eqb negb]. cbn [insert list_insert]. rewrite Hput.
  cbn [mbind outcome_bind save_loop l_state l_name l_file with_dirty s_dirty negb app]. rewrite Hsave. done.
Qed.

(** A variable that is set to what it is, with nothing to save. *)
Lemma main_set_same name (s : state B F) f var t :
  state_set_var (s_variables s) var t = Ok (0, s_variables s, false) -> s_dirty s = false ->
  equals ∉ name -> equals ∉ var -> dot ∉ var ->
  cli_main (only false (var ++ equals :: t)) [Loaded name s f] = Ok (0, [], [Loaded name s f]).
Proof.
  intros Hset Hd Hn He Hdot.
  assert (Hput : put_vars (s_variables s) false (Loaded name s f) = Loaded name s f) by (by destruct s).
  unfold cli_main, only. cbn [o_dump o_dump_shell o_sg mbind outcome_bind sg_loop fmap list_fmap l_name].
  rewrite choose_one by done. cbn [lookup list_lookup l_state get_or_set]. rewrite split_at_app by done.
  rewrite Hset. cbn [mbind outcome_bind Z.eqb negb]. cbn [insert list_insert]. rewrite Hput.
  cbn [mbind outcome_bind save_loop l_state negb app]. rewrite Hd. done.
Qed.

(** One variable that is printed, with nothing to save. *)
Lemma main_get name (s : state B F) f var sv t :
  state_find_var (s_variables s) var = Some sv -> get_text sv = Ok t -> s_dirty s = false -> dot ∉ var ->
  cli_main (only true var) [Loaded name s f] = Ok (0, t ++ [newline], [Loaded name s f]).
Proof.
  intros Hf Hg Hd Hdot.
  assert (Hput : put_vars (s_variables s) false (Loaded name s f) = Loaded name s f) by (by destruct s).
  unfold cli_main, only. cbn [o_dump o_dump_shell o_sg mbind outcome_bind sg_loop fmap list_fmap l_name].
  rewrite choose_plain by done. cbn [lookup list_lookup l_state get_or_set]. unfold state_get_var. rewrite Hf, Hg.
  cbn [mbind outcome_bind Z.eqb negb]. cbn [insert list_insert]. rewrite Hput.
  cbn [mbind outcome_bind save_loop l_state negb app]. rewrite Hd. cbn [negb mbind outcome_bind]. by rewrite app_nil_r.
Qed.

End OneOption.

(** ** Setting in one process and getting in the next *)

Section Persist.
Context {B : Type} {HO : BucketOps B} {HV : BucketView B} {HL : BucketLaws B} {HM : WrongMagic B}.
Context (garbage : bytes -> bytes) (ks : bytes -> Z * bytes).
#[local] Instance cli_verify : FormatVerify raw_format := raw_format_verify garbage ks.
#[local] Instance cli_laws : FormatLaws raw_format := raw_format_laws garbage ks.
#[local] Instance cli_pack : FormatPack raw_format := raw_format_pack garbage ks.

(** A state that can be saved: its variables are laid out below 64 KiB, its format
    has its secret, and its buckets are in order and large enough. *)
Record saveable (s : state B raw_format) (last : state_variable) (f : file) : Prop := {
  sa_keep : s_keep_prev_content s = false;
  sa_format : raw_ok ks (s_format s);
  sa_secret : is_Some (rf_algo (s_format s)) -> exists m, raw_mac ks (s_format s) = inr m;
  sa_magic : 0 <= s_magic s < 2 ^ 32;
  sa_wf : Forall sv_wf (s_variables s);
  sa_layout : layout (s_variables s);
  sa_last : list.last (s_variables s) = Some last;
  sa_size : sv_start last + sv_size last < 2 ^ 16;
  sa_storage : storage_ok (s_storage s) f;
  sa_buckets : st_buckets (s_storage s) <> [];
  sa_write : st_readonly (s_storage s) = false;
  sa_fit : forall d, Z.of_nat (length d) <= 48 + (sv_start last + sv_size last) -> buckets_fit (st_buckets (s_storage s)) d;
  sa_healthy : healthy f }.

Lemma same_last vars vars1 x : Forall2 same_var vars vars1 -> list.last vars = Some x ->
  exists y, list.last vars1 = Some y /\ same_var x y.
Proof.
  rewrite !last_lookup. intros Hs Hx. rewrite <-(list.Forall2_length _ _ _ Hs).
  destruct (Forall2_lookup_l _ _ _ _ _ Hs Hx) as (y & Hy & Hxy). by exists y.
Qed.

Lemma same_layout vars vars1 : Forall2 same_var vars vars1 -> layout vars -> layout vars1.
Proof.
  intros Hs Hl i j a b Hij Ha Hb.
  destruct (Forall2_lookup_r _ _ _ _ _ Hs Ha) as (a' & Ha' & (E1 & E2 & _)).
  destruct (Forall2_lookup_r _ _ _ _ _ Hs Hb) as (b' & Hb' & (E3 & _)).
  specialize (Hl i j a' b' Hij Ha' Hb'). unfold sv_before in *. congruence.
Qed.

Lemma same_wf vars vars1 : Forall2 same_var vars vars1 -> Forall sv_wf vars -> Forall sv_wf vars1.
Proof. induction 1 as [|x y l k (_ & _ & _ & _ & H) _ IH]; intros Hw; [done|]. apply Forall_cons_1 in Hw as [? ?]. constructor; auto. Qed.

Lemma saveable_vars s last f vars1 : saveable s last f -> Forall2 same_var (s_variables s) vars1 ->
  exists last1, saveable (with_dirty true (with_variables vars1 s)) last1 f.
Proof.
  intros [] Hs. destruct (same_last _ _ _ Hs sa_last0) as (last1 & Hl & (E1 & E2 & _)). exists last1.
  split; cbn [with_dirty with_variables s_keep_prev_content s_format s_magic s_variables s_storage]; try done.
  - by eapply same_wf.
  - by eapply same_layout.
  - by rewrite E1, E2.
  - intros d Hd. apply sa_fit0. by rewrite <-E1, <-E2.
Qed.

Lemma fresh_wf vars vars' : Forall2 fresh_like vars vars' -> Forall sv_wf vars'.
Proof. induction 1 as [|a b l k (_ & _ & _ & Hb & _) _ IH]; by constructor. Qed.
Lemma fresh_shape vars vars' : Forall2 fresh_like vars vars' -> Forall2 same_shape vars vars'.
Proof. apply Forall2_impl. by intros a b (_ & Hst & (_ & Hsz & _) & _). Qed.

(** A value that is set with the command line tool is what the next process
    prints: setting succeeds and saves the state, and a process that makes the state
    anew, opens the storage, with whatever errors the medium corrects, and loads it,
    gets the text back, and leaves the medium as it is. *)
Theorem cli_set_get name (s : state B raw_format) last f var sv w t
    (Hs : saveable s last f) (Hfind : state_find_var (s_variables s) var = Some sv) (Hsv : has_text sv)
    (Hnew : s_dirty s = true \/ get_text sv <> Ok t)
    (Hw : sv_wf w) (Ha : alike w sv) (Ht : has_text w) (Hg : get_text w = Ok t)
    (Hn : equals ∉ name) (Hve : equals ∉ var) (Hvd : dot ∉ var) :
  exists s1 f1, cli_main (only false (var ++ equals :: t)) [Loaded name s f] = Ok (0, [], [Loaded name s1 f1])
  /\ forall script fmt vars' flags, Forall benign script -> raw_ok ks fmt ->
    rf_algo fmt = rf_algo (s_format s) -> rf_secret_name fmt = rf_secret_name (s_format s) ->
    Forall2 fresh_like (s_variables s1) vars' ->
  exists st2 f2 s3 f3, storage_open (s_storage s1) (with_script script f1) = (st2, f2)
  /\ state_do_load (State (s_of_path s) (s_magic s) false vars' true true fmt st2) flags f2 = Some (0, s3, f3)
  /\ cli_main (only true var) [Loaded name s3 f3] = Ok (0, t ++ [newline], [Loaded name s3 f3]).
Proof.
  destruct (set_text_of sv sv) as (t0 & _ & Hg0 & _);
    [by eapply find_var_Forall; [apply Hs|]|by eapply find_var_Forall; [apply Hs|]|apply alike_refl|exact Hsv|].
  destruct (set_var_text _ var sv w t t0 (sa_wf _ _ _ Hs) Hfind Hg0 (has_one_byte _ Hsv) Hw Ha Ht Hg)
    as (vars1 & d & sv1 & Hset & Hsame & Hfind1 & Hg1 & Ht1 & Hd).
  destruct (saveable_vars s last f vars1 Hs) as (last1 & Hs1); [revert Hsame; apply Forall2_impl; by intros a b []|].
  destruct (save_load garbage ks (with_dirty true (with_variables vars1 s)) last1 f) as (s1 & f1 & Hsave & Hclean & Hvars & _ & Hok1 & _ & _ & Hload);
    [done|apply Hs1..|].
  cbn in Hvars.
  exists s1, f1. split; [apply (main_set name s s1 f var sv t vars1 d f1); try done; destruct Hnew, Hd; try tauto; congruence|].
  intros script fmt vars' flags Hb Hfmt Halg Hsec Hfresh. rewrite Hvars in Hfresh.
  destruct (open_reopened _ f1 script Hok1 Hb) as (st2 & f2 & Ho & Hre).
  destruct (Hload st2 f2 fmt vars' flags Hre Hfmt Halg Hsec) as (s3 & f3 & Hl & _ & Hd3 & _ & Hv3 & _).
  - by eapply fresh_wf.
  - by eapply fresh_shape.
  - exists st2, f2, s3, f3. split; [done|]. split; [done|]. cbn [with_dirty with_variables s_variables] in Hv3.
    destruct (loaded_text vars1 vars' var sv1) as (sv3 & Hf3 & Hg3); [by apply (sa_wf _ _ _ Hs1)|done|done|done|].
    apply (main_get name s3 f3 var sv3 t); [by rewrite Hv3|congruence|done|done].
Qed.
End Persist.

(** ** Calls that store nothing *)

Section Quiet.
Context {B F : Type} `{BucketOps B} `{WrongMagic B} `{FormatVerify F} `{FormatPack F}.

(** Setting and getting work on variables alone. *)
Definition held (l : loaded B F) : file * storage B := (l_file l, s_storage (l_state l)).

Lemma put_vars_held vars d (l : loaded B F) : held (put_vars vars d l) = held l.
Proof. unfold held, put_vars. by destruct d. Qed.

Lemma sg_loop_held sgs : forall (states states' : list (loaded B F)) ret out,
  sg_loop sgs states = Ok (ret, out, states') -> held <$> states' = held <$> states.
Proof.
  induction sgs as [|[get a] sgs IH]; intros states states' ret out; cbn [sg_loop]; [by intros [= _ _ <-]|].
  destruct (choose_state _ a) as [i arg]. destruct (states !! i) as [l|] eqn:El; [|done].
  destruct (get_or_set get _ arg) as [[[[r o] vars] d]| |]; cbn [mbind outcome_bind]; [|done|done].
  assert (Hf : held <$> <[i := put_vars vars d l]> states = held <$> states).
  { rewrite list_fmap_insert, put_vars_held. apply list_insert_id. by rewrite list_lookup_fmap, El. }
  destruct (negb (r =? 0)); [intros [= _ _ <-]; exact Hf|].
  destruct (sg_loop sgs _) as [[[r2 o2] s2]| |] eqn:E; cbn [mbind outcome_bind]; [|done|done].
  intros [= _ _ <-]. rewrite <-Hf. by eapply IH.
Qed.

Lemma sg_loop_files sgs (states states' : list (loaded B F)) ret out :
  sg_loop sgs states = Ok (ret, out, states') -> l_file <$> states' = l_file <$> states.
Proof.
  intros Hs. apply sg_loop_held, (f_equal (fmap fst)) in Hs. by rewrite <-!list_fmap_compose in Hs.
Qed.

Lemma get_keeps vars arg r o vars' d : get_or_set true vars arg = Ok (r, o, vars', d) -> vars' = vars /\ d = false.
Proof.
  unfold get_or_set. destruct (state_get_var vars arg) as [[v|]| |]; cbn [mbind outcome_bind]; [| |done|done]; by intros [= _ _ <- <-].
Qed.

Lemma put_same (l : loaded B F) : put_vars (s_variables (l_state l)) false l = l.
Proof. destruct l as [n [] f]. done. Qed.

Lemma sg_loop_gets sgs : Forall (fun sg => fst sg = true) sgs -> forall (states states' : list (loaded B F)) ret out,
  sg_loop sgs states = Ok (ret, out, states') -> states' = states.
Proof.
  induction 1 as [|[get a] sgs Hget _ IH]; intros states states' ret out; cbn [sg_loop]; [by intros [= _ _ <-]|].
  cbn in Hget. subst get. destruct (choose_state _ a) as [i arg]. destruct (states !! i) as [l|] eqn:El; [|done].
  destruct (get_or_set true _ arg) as [[[[r o] vars] d]| |] eqn:Eg; cbn [mbind outcome_bind]; [|done|done].
  apply get_keeps in Eg as [-> ->]. rewrite put_same, list_insert_id by done.
  destruct (negb (r =? 0)); [by intros [= _ _ <-]|].
  destruct (sg_loop sgs states) as [[[r2 o2] s2]| |] eqn:E; cbn [mbind outcome_bind]; [|done|done].
  intros [= _ _ <-]. by eapply IH.
Qed.

Lemma save_loop_clean (states : list (loaded B F)) : Forall (fun l => s_dirty (l_state l) = false) states ->
  save_loop states = Ok (0, states).
Proof. induction 1 as [|l states Hl _ IH]; [done|]. cbn [save_loop]. by rewrite Hl, IH. Qed.

(** C22: the options of one call are all or nothing: when one -s or -g of them fails,
    its code is the exit code and no medium is touched, not even for the values that
    were set before it; and a call that only asks changes neither a clean state nor
    its medium. *)
Theorem cli_all_or_nothing o (states states' : list (loaded B F)) ret out
    (Hrun : cli_main o states = Ok (ret, out, states')) :
  (forall r x st, sg_loop (o_sg o) states = Ok (r, x, st) -> r <> 0 ->
    ret = r /\ l_file <$> states' = l_file <$> states) /\
  (Forall (fun sg => fst sg = true) (o_sg o) -> Forall (fun l => s_dirty (l_state l) = false) states -> states' = states).
Proof.
  unfold cli_main in Hrun.
  destruct (if o_dump o then _ else _) as [d| |]; cbn [mbind outcome_bind] in Hrun; [|done|done].
  destruct (if o_dump_shell o then _ else _) as [e| |]; cbn [mbind outcome_bind] in Hrun; [|done|done].
  destruct (sg_loop (o_sg o) states) as [[[r x] st]| |] eqn:E; cbn [mbind outcome_bind] in Hrun; [|done|done].
  split.
  - intros r' x' st' [= <- <- <-] Hr. rewrite (proj2 (Z.eqb_neq r 0) Hr) in Hrun. injection Hrun as <- _ <-.
    split; [done|]. by eapply sg_loop_files.
  - intros Hg Hc. apply sg_loop_gets in E; [|done]. subst st. destruct (negb (r =? 0)); [by injection Hrun|].
    rewrite save_loop_clean in Hrun by done. by injection Hrun.
Qed.
End Quiet.

(** ** A state of three variables *)

Section CliExample.
#[local] Existing Instance StorageExamples.ex_ops.
#[local] Existing Instance StorageExamples.ex_view.
#[local] Existing Instance StorageExamples.ex_laws.
#[local] Existing Instance ex_verify.
#[local] Existing Instance ex_pack.

Definition ex_flag (v : Z) : state_variable := StateVariable STATE_VARIABLE_TYPE_UINT8 (cstr "flag") 8 1 (StateUint32 v 0).

Lemma ex_saveable : saveable ex_secret ex_state (ex_flag 1) StorageExamples.ex_blank.
Proof.
  split; try done.
  - intros [a E]. discriminate E.
  - apply ex_vars_wf.
  - apply ex_vars_layout.
  - by apply StorageExamples.ex_wf.
  - intros d Hd. apply StorageExamples.ex_fits. simpl in Hd. lia.
  - constructor.
Qed.

Lemma cli_set_get_witness :
  exists s1 f1, cli_main (only false (cstr "flag=200")) [Loaded (cstr "state") ex_state StorageExamples.ex_blank]
    = Ok (0, [], [Loaded (cstr "state") s1 f1])
  /\ forall script fmt vars' flags, Forall benign script -> raw_ok ex_secret fmt ->
    rf_algo fmt = rf_algo (s_format ex_state) -> rf_secret_name fmt = rf_secret_name (s_format ex_state) ->
    Forall2 fresh_like (s_variables s1) vars' ->
  exists st2 f2 s3 f3, storage_open (s_storage s1) (with_script script f1) = (st2, f2)
  /\ state_do_load (State (s_of_path ex_state) (s_magic ex_state) false vars' true true fmt st2) flags f2 = Some (0, s3, f3)
  /\ cli_main (only true (cstr "flag")) [Loaded (cstr "state") s3 f3] = Ok (0, cstr "200" ++ [newline], [Loaded (cstr "state") s3 f3]).
Proof.
  apply (cli_set_get id ex_secret (cstr "state") ex_state (ex_flag 1) StorageExamples.ex_blank (cstr "flag")
    (ex_flag 1) (ex_flag 200) (cstr "200")).
  - apply ex_saveable.
  - reflexivity.
  - cbn. lia.
  - by left.
  - split; [|cbn; lia]. cbn. lia.
  - by repeat split.
  - cbn. lia.
  - vm_compute. reflexivity.
  - by apply (bool_decide_unpack _).
  - by apply (bool_decide_unpack _).
  - by apply (bool_decide_unpack _).
Defined.

Lemma cli_all_or_nothing_witness :
  let states := [Loaded (cstr "state") ex_state StorageExamples.ex_blank] in
  exists out states', cli_main (Options false false 5 [(false, cstr "flag=2"); (false, cstr "flag=256")]) states = Ok (1, out, states')
  /\ l_file <$> states' = l_file <$> states.
Proof.
  eexists _, _. split; [vm_compute; reflexivity|].
  refine (proj2 (proj1 (cli_all_or_nothing (Options false false 5 [(false, cstr "flag=2"); (false, cstr "flag=256")])
    [Loaded (cstr "state") ex_state StorageExamples.ex_blank] _ 1 _ _) 1 _ _ _ _)).
  - vm_compute. reflexivity.
  - vm_compute. reflexivity.
  - discriminate.
Defined.
End CliExample.

(** ** What the tool accepts *)

(** Text that is no MAC address sets one all the same. *)
Example ethaddr_takes_text : string_to_ethaddr (cstr "no:tm:ac:xx:yy:zz") = Ok (0, [Byte.x00; Byte.x00; Byte.x00; Byte.x00; Byte.x00; Byte.x00]).
Proof. vm_compute. reflexivity. Qed.

(** A number is 0 without digits, is negated, and is cut to its 32 bits. *)
Example uint32_takes_text : __state_uint32_set (cstr "two") 7 = (0, Some (StateUint32 0 7))
  /\ __state_uint32_set (cstr "-1") 7 = (0, Some (StateUint32 4294967295 7))
  /\ __state_uint32_set (cstr "4294967297") 7 = (0, Some (StateUint32 1 7)).
Proof. vm_compute. done. Qed.

(** A value ends the quotes of a line that a shell is to read. *)
Example dump_shell_unquoted :
  let v := StateVariable STATE_VARIABLE_TYPE_STRING (cstr "a.b") 0 8 (StateString None None (cstr "$(id)" ++ zeros 3)) in
  dump_shell_line (cstr "state") v = Ok (cstr "state_a_b=" ++ [quote] ++ cstr "$(id)" ++ [quote; newline]).
Proof. vm_compute. reflexivity. Qed.

(** An enum whose stored number has no name is read behind the names. *)
Example enum32_get_beyond : __state_enum32_get 2 [cstr "off"; cstr "on"] = Undef.
Proof. done. Qed.
