(* ===== verification/Main.v ===== *)
(** * The command line tool as a whole (src/barebox-state.c)

    The options, the lock, [state_get] and [main]: from what [getopt_long] hands out to
    the exit code, the output and the devices. What the system answers is an
    argument: files, the tree of the kernel, udev and the devices. Every state has a
    device of its own. *)

From S2P Require Import Prelude Print Proc Sysfile Bucket DirectBucket CircularBucket StateVar Storage RawFormat.
From S2P Require Import Dt Tree State Fdt DtbFormat Devices Make Cli.

(** ** Options *)

(** What [getopt_long] returns, option by option. *)
Inductive opt : Type :=
| OptHelp | OptVersion
| OptGet (arg : bytes) | OptSet (arg : bytes)
| OptForce | OptDump | OptDumpShell | OptVerbose | OptQuiet
| OptName (arg : bytes) | OptInput (arg : bytes)
| OptInvalid.

Record parsed : Type := Parsed {
  p_options : options;
  p_readonly : bool;
  p_auth : bool;
  p_names : list (option bytes);
  p_dtb : option bytes
}.
Definition start : parsed := Parsed (Options false false 5 []) true true [] None.

Definition with_options (o : options) (p : parsed) : parsed := Parsed o (p_readonly p) (p_auth p) (p_names p) (p_dtb p).

(** One round of the loop; [inl] is the code that [exit] is called with. *)
Definition parse_step (o : opt) (p : parsed) : Z + parsed :=
  let '(Options d ds l sg) := p_options p in
  match o with
  | OptHelp | OptVersion => inl 0
  | OptGet arg => inr (with_options (Options d ds l (sg ++ [(true, arg)])) p)
  | OptSet arg => inr (Parsed (Options d ds l (sg ++ [(false, arg)])) false (p_auth p) (p_names p) (p_dtb p))
  | OptForce => inr (Parsed (p_options p) (p_readonly p) false (p_names p) (p_dtb p))
  | OptDump => inr (with_options (Options true ds l sg) p)
  | OptDumpShell => inr (with_options (Options d true l sg) p)
  | OptVerbose => inr (with_options (Options d ds (l + 1) sg) p)
  | OptQuiet => inr (with_options (Options d ds (l - 1) sg) p)
  | OptName arg => inr (Parsed (p_options p) (p_readonly p) (p_auth p) (p_names p ++ [Some arg]) (p_dtb p))
  | OptInput arg => inr (Parsed (p_options p) (p_readonly p) (p_auth p) (p_names p) (Some arg))
  | OptInvalid => inl 1
  end.
Fixpoint parse_loop (os : list opt) (p : parsed) : Z + parsed :=
  match os with
  | [] => inr p
  | o :: os' => match parse_step o p with inl c => inl c | inr p => parse_loop os' p end
  end.

(** [more] tells whether an argument is left behind the options. *)
Definition parse_options (os : list opt) (more : bool) : Z + parsed :=
  match parse_loop os start with
  | inl c => inl c
  | inr p =>
      if more then inl 1 else
      inr (match p_names p with
           | [] => Parsed (p_options p) (p_readonly p) (p_auth p) [None] (p_dtb p)
           | _ => p
           end)
  end.

(** ** What the options mean *)

(** What one option contributes. *)
Definition exits (o : opt) : option Z :=
  match o with OptHelp | OptVersion => Some 0 | OptInvalid => Some 1 | _ => None end.
Definition sg_of (o : opt) : option (bool * bytes) :=
  match o with OptGet a => Some (true, a) | OptSet a => Some (false, a) | _ => None end.
Definition name_of (o : opt) : option bytes := match o with OptName a => Some a | _ => None end.
Definition input_of (o : opt) : option bytes := match o with OptInput a => Some a | _ => None end.
Definition level_of (o : opt) : Z := match o with OptVerbose => 1 | OptQuiet => -1 | _ => 0 end.
Definition is_set (o : opt) : bool := match o with OptSet _ => true | _ => false end.
Definition is_force (o : opt) : bool := match o with OptForce => true | _ => false end.
Definition is_dump (o : opt) : bool := match o with OptDump => true | _ => false end.
Definition is_dump_shell (o : opt) : bool := match o with OptDumpShell => true | _ => false end.

Definition levels (os : list opt) : Z := foldr Z.add 0 (level_of <$> os).

(** The options read as a whole, none of which ends the program. *)
Definition meaning (os : list opt) (p : parsed) : parsed :=
  let '(Options d ds l sg) := p_options p in
  Parsed (Options (d || existsb is_dump os) (ds || existsb is_dump_shell os) (l + levels os) (sg ++ omap sg_of os))
    (p_readonly p && negb (existsb is_set os)) (p_auth p && negb (existsb is_force os))
    (p_names p ++ (Some <$> omap name_of os))
    (match list.last (omap input_of os) with Some i => Some i | None => p_dtb p end).

Lemma parse_step_meaning o p :
  parse_step o p = match exits o with Some c => inl c | None => inr (meaning [o] p) end.
Proof.
  destruct p as [[d ds l sg] r a n i]. destruct o; cbn; rewrite ?orb_false_r, ?orb_true_r, ?andb_true_r, ?andb_false_r, ?app_nil_r, ?Z.add_0_r;
    try done.
Qed.

Lemma meaning_cons o os p : meaning (o :: os) p = meaning os (meaning [o] p).
Proof.
  destruct p as [[d ds l sg] r a n i]. unfold meaning, levels. cbn [p_options p_readonly p_auth p_names p_dtb existsb fmap list_fmap foldr].
  rewrite !orb_false_r, !Z.add_0_r. f_equal.
  - f_equal; [by rewrite orb_assoc|by rewrite orb_assoc|lia|]. destruct o; cbn; by rewrite ?app_nil_r, <-?app_assoc.
  - by rewrite negb_orb, andb_assoc.
  - by rewrite negb_orb, andb_assoc.
  - destruct o; cbn; by rewrite ?app_nil_r, <-?app_assoc.
  - destruct o; cbn; try done. destruct (omap input_of os) as [|x xs] eqn:E; [done|].
    change (list.last (arg :: x :: xs)) with (list.last (x :: xs)).
    by destruct (list.last (x :: xs)) eqn:El; [|apply last_None in El].
Qed.

Lemma parse_loop_meaning os : forall p,
  parse_loop os p = match head (omap exits os) with Some c => inl c | None => inr (meaning os p) end.
Proof.
  induction os as [|o os IH]; intros p.
  - destruct p as [[d ds l sg] r a n i]. cbn. unfold meaning, levels. cbn. by rewrite !orb_false_r, !andb_true_r, !app_nil_r, Z.add_0_r.
  - cbn [parse_loop]. rewrite parse_step_meaning, (meaning_cons o os p).
    change (omap exits (o :: os)) with (match exits o with Some c => c :: omap exits os | None => omap exits os end).
    destruct (exits o) as [c|]; [done|apply IH].
Qed.

Lemma parse_options_readonly os more p : parse_options os more = inr p -> p_readonly p = negb (existsb is_set os).
Proof.
  unfold parse_options. rewrite parse_loop_meaning. destruct (head (omap exits os)); [done|]. destruct more; [done|].
  intros [= <-]. unfold meaning. cbn [start p_options p_readonly p_names app]. by destruct (Some <$> omap name_of os).
Qed.

(** C24: what a list of options asks for, in whatever order it is given: the first -h,
    -V or unknown option ends the program, and so does an argument behind the options;
    else the -s and -g are done in their order, one -s makes the states writable, one -f
    gives up authentication, -v and -q are counted against each other, the last -i is
    the device tree, and without -n there is the one state that has no name. *)
Theorem parse_options_meaning os more :
  parse_options os more =
    match head (omap exits os) with
    | Some c => inl c
    | None =>
        if more then inl 1 else
        inr (Parsed (Options (existsb is_dump os) (existsb is_dump_shell os)
                       (5 + Z.of_nat (length (List.filter (fun o => match o with OptVerbose => true | _ => false end) os))
                          - Z.of_nat (length (List.filter (fun o => match o with OptQuiet => true | _ => false end) os)))
                       (omap sg_of os))
               (negb (existsb is_set os)) (negb (existsb is_force os))
               (match omap name_of os with [] => [None] | names => Some <$> names end)
               (list.last (omap input_of os)))
    end.
Proof.
  unfold parse_options. rewrite parse_loop_meaning. destruct (head (omap exits os)); [done|]. destruct more; [done|].
  assert (levels os = Z.of_nat (length (List.filter (fun o => match o with OptVerbose => true | _ => false end) os))
    - Z.of_nat (length (List.filter (fun o => match o with OptQuiet => true | _ => false end) os))) as Hl.
  { unfold levels. induction os as [|o os IH]; [done|]. cbn [fmap list_fmap foldr]. rewrite IH. destruct o; cbn; lia. }
  unfold meaning. cbn. rewrite Hl. f_equal. destruct (omap name_of os); cbn; f_equal; try (f_equal; lia); by destruct (list.last _).
Qed.

(** ** state_get *)

(** Where systemd mounts the EFI system partition. *)
Definition esp_paths : list bytes :=
  [cstr "/boot/EFI/BAREBOX/state.dtb"; cstr "/boot/efi/EFI/BAREBOX/state.dtb"; cstr "/efi/EFI/BAREBOX/state.dtb"].

(** The world: the files, the directories of the kernel's tree, udev, the devices, the
    keystore, what memory holds that is not written, and whether the lock is got. *)
Record world : Type := World {
  w_files : bytes -> option Proc.file;
  w_base : outcome (list dirent);
  w_proc : outcome (list dirent);
  w_sys : system;
  w_device : bytes -> option mtd_info * Sysfile.file;
  w_secret : bytes -> Z * bytes;
  w_lock : bool
}.

Section StateGet.
Context (compat loopback : bool) (stack : bytes) (freed : bytes -> bytes) (fresh : nat -> Byte.byte) (w : world).
#[local] Instance main_direct : BucketOps direct := direct_ops compat stack.
#[local] Instance main_raw : FormatVerify raw_format := raw_format_verify freed (w_secret w).
#[local] Instance main_raw_pack : FormatPack raw_format := raw_format_pack freed (w_secret w).

(** The first of the files that can be read. *)
Fixpoint first_file (paths : list bytes) : option bytes :=
  match paths with
  | [] => None
  | p :: paths' => match read_file (w_files w p) with Some fdt => Some fdt | None => first_file paths' end
  end.

Definition read_tree (filename : option bytes) : outcome device_node :=
  match filename with
  | Some n => match read_file (w_files w n) with None => Err (- ENOENT) | Some fdt => of_unflatten_dtb fdt end
  | None =>
      match of_read_proc_devicetree (w_files w (cstr "/sys/firmware/fdt")) (w_base w) (w_proc w) with
      | Err e =>
          if e =? - ENOENT
          then match first_file esp_paths with Some fdt => of_unflatten_dtb fdt | None => Err (- ENOENT) end
          else Err e
      | r => r
      end
  end.

Definition state_node (root : device_node) (name : option bytes) : option node_ref :=
  match name with
  | Some n => of_find_node_by_path_or_alias root n
  | None =>
      match of_find_node_by_path_or_alias root (cstr "state") with
      | Some p => Some p
      | None => of_find_node_by_path_or_alias root (cstr "/state")
      end
  end.

(** The load, whose errors are only reported. The path of a state in the dtb format is
    looked up in the global tree. *)
Definition get_load (root : device_node) (auth : bool) (m : made_state) : outcome made_state :=
  let _ : FormatPack dtb_format := dtb_format_pack fresh (Some root) in
  match (if auth then state_load (m_state m) (m_file m) else state_load_no_auth (m_state m) (m_file m)) with
  | None => Undef
  | Some (_, s, f) => Ok (MadeState (m_name m) (m_backend_path m) s f)
  end.

(** The output, the global tree and the state. What -vv prints of a node whose state
    cannot be made is left out. *)
Definition state_get (name filename : option bytes) (readonly auth : bool) (pr_level : Z) (global : of_state)
  : outcome (bytes * of_state * made_state) :=
  root ← read_tree filename;
  '(_, global) ← of_set_root_node (Some root) global;
  match state_node root name with
  | None => Err (- ENOENT)
  | Some p =>
      node ← of_option (node_at root p);
      text ← (if 6 <? pr_level then of_print_nodes 0 node else Ok []);
      root ← of_option (root_node global);
      m ← state_new_from_node loopback (w_sys w) (w_device w) root node readonly;
      m ← get_load root auth m;
      Ok (text, global, m)
  end.

(** ** main *)

(** The loop of [state_get]: [inl] when a state cannot be made. *)
Fixpoint get_loop (p : parsed) (names : list (option bytes)) (global : of_state)
  : outcome (bytes * of_state * option (list (loaded any_bucket any_format))) :=
  match names with
  | [] => Ok ([], global, Some [])
  | name :: names' =>
      match state_get name (p_dtb p) (p_readonly p) (p_auth p) (o_pr_level (p_options p)) global with
      | Undef => Undef
      | Err _ => Ok ([], global, None)
      | Ok (text, global, m) =>
          '(more, global, states) ← get_loop p names' global;
          let l := Loaded (match name with Some n => n | None => m_name m end) (m_state m) (m_file m) in
          Ok (text ++ more, global, match states with Some ls => Some (l :: ls) | None => None end)
      end
  end.

(** The exit code, the output and the states. With [lock] the program locks a file of its own. *)
Definition main (lock : bool) (os : list opt) (more : bool) : outcome (Z * bytes * list (loaded any_bucket any_format)) :=
  match parse_options os more with
  | inl c => Ok (c, [], [])
  | inr p =>
      if lock && negb (w_lock w) then Ok (1, [], []) else
      '(text, global, states) ← get_loop p (p_names p) (OfState None []);
      match states with
      | None => Ok (1, text, [])
      | Some states =>
          root ← of_option (root_node global);
          let _ : FormatPack dtb_format := dtb_format_pack fresh (Some root) in
          '(ret, out, states) ← cli_main (p_options p) states;
          Ok (ret, text ++ out, states)
      end
  end.
End StateGet.
