(* ===== verification/LinkedList.v ===== *)
(** * Doubly linked lists (src/dt/list.h)

    The lists of the program as they are in memory: nodes that point at each other in
    a ring, of which one is the head. A heap maps the addresses of the nodes that may
    be accessed to their two pointers; anything else is undefined. The other files
    use lists of entries instead, which the theorems here justify: every operation on
    a heap does to the rings what the operation on lists does. *)

From S2P Require Import Prelude StateVar.

(** ** The heap *)

Record list_head : Type := ListHead { next : Z; prev : Z }.
Abbreviation heap := (gmap Z list_head).

Definition LIST_POISON1 : Z := 0x00100100.
Definition LIST_POISON2 : Z := 0x00200200.

Definition get_next (p : Z) (h : heap) : outcome Z := n ← of_option (h !! p); Ok (next n).
Definition get_prev (p : Z) (h : heap) : outcome Z := n ← of_option (h !! p); Ok (prev n).
Definition set_next (p v : Z) (h : heap) : outcome heap := n ← of_option (h !! p); Ok (<[p := ListHead v (prev n)]> h).
Definition set_prev (p v : Z) (h : heap) : outcome heap := n ← of_option (h !! p); Ok (<[p := ListHead (next n) v]> h).

(** ** The operations *)

Definition INIT_LIST_HEAD (list : Z) (h : heap) : outcome heap := h ← set_next list list h; set_prev list list h.

Definition __list_add (new prev next : Z) (h : heap) : outcome heap :=
  h ← set_prev next new h;
  h ← set_next new next h;
  h ← set_prev new prev h;
  set_next prev new h.

Definition list_add (new head : Z) (h : heap) : outcome heap := n ← get_next head h; __list_add new head n h.
Definition list_add_tail (new head : Z) (h : heap) : outcome heap := p ← get_prev head h; __list_add new p head h.

Definition __list_del (prev next : Z) (h : heap) : outcome heap := h ← set_prev next prev h; set_next prev next h.

Definition list_del (entry : Z) (h : heap) : outcome heap :=
  p ← get_prev entry h; n ← get_next entry h;
  h ← __list_del p n h;
  h ← set_next entry LIST_POISON1 h;
  set_prev entry LIST_POISON2 h.

Definition list_replace (old new : Z) (h : heap) : outcome heap :=
  n ← get_next old h; h ← set_next new n h;
  n ← get_next new h; h ← set_prev n new h;
  p ← get_prev old h; h ← set_prev new p h;
  p ← get_prev new h; set_next p new h.
Definition list_replace_init (old new : Z) (h : heap) : outcome heap := h ← list_replace old new h; INIT_LIST_HEAD old h.

Definition list_del_init (entry : Z) (h : heap) : outcome heap :=
  p ← get_prev entry h; n ← get_next entry h;
  h ← __list_del p n h; INIT_LIST_HEAD entry h.

Definition list_move (list head : Z) (h : heap) : outcome heap :=
  p ← get_prev list h; n ← get_next list h;
  h ← __list_del p n h; list_add list head h.
Definition list_move_tail (list head : Z) (h : heap) : outcome heap :=
  p ← get_prev list h; n ← get_next list h;
  h ← __list_del p n h; list_add_tail list head h.

Definition list_is_last (list head : Z) (h : heap) : outcome bool := n ← get_next list h; Ok (n =? head).
Definition list_empty (head : Z) (h : heap) : outcome bool := n ← get_next head h; Ok (n =? head).
Definition list_empty_careful (head : Z) (h : heap) : outcome bool :=
  n ← get_next head h; if n =? head then p ← get_prev head h; Ok (n =? p) else Ok false.
Definition list_is_singular (head : Z) (h : heap) : outcome bool :=
  e ← list_empty head h;
  if (e : bool) then Ok false else n ← get_next head h; p ← get_prev head h; Ok (n =? p).

Definition __list_splice (list head : Z) (h : heap) : outcome heap :=
  first ← get_next list h; last ← get_prev list h; at_ ← get_next head h;
  h ← set_prev first head h;
  h ← set_next head first h;
  h ← set_next last at_ h;
  set_prev at_ last h.
Definition list_splice (list head : Z) (h : heap) : outcome heap :=
  e ← list_empty list h; if (e : bool) then Ok h else __list_splice list head h.
Definition list_splice_init (list head : Z) (h : heap) : outcome heap :=
  e ← list_empty list h; if (e : bool) then Ok h else h ← __list_splice list head h; INIT_LIST_HEAD list h.

(** ** The loops *)

Section Loops.
Context {A S : Type}.

(** A [for] loop over cursors [a] whose body may change the heap and break. *)
Fixpoint for_loop (fuel : nat) (cond : A -> heap -> outcome bool) (step : A -> heap -> outcome A)
    (body : A -> S -> heap -> outcome (bool * S * heap)) (a : A) (s : S) (h : heap) : outcome (A * S * heap) :=
  match fuel with
  | O => Undef
  | Datatypes.S fuel =>
      c ← cond a h;
      if (c : bool) then
        '(break, s, h) ← body a s h;
        if (break : bool) then Ok (a, s, h) else a ← step a h; for_loop fuel cond step body a s h
      else Ok (a, s, h)
  end.
End Loops.

(** The address of the structure in which [member] is at [ptr]. *)
Definition list_entry (ptr member : Z) : Z := ptr - member.
Definition list_first_entry (ptr member : Z) (h : heap) : outcome Z := n ← get_next ptr h; Ok (list_entry n member).
Definition list_last_entry (head member : Z) (h : heap) : outcome Z := p ← get_prev head h; Ok (list_entry p member).

Section ForEach.
Context {S : Type} (fuel : nat) (head : Z).

(** The condition of the loops that prefetch what the cursor points at. *)
Definition prefetching (get : Z -> heap -> outcome Z) (pos : Z) (h : heap) : outcome bool := _ ← get pos h; Ok (negb (pos =? head)).

Definition list_for_each (body : Z -> S -> heap -> outcome (bool * S * heap)) (s : S) (h : heap) : outcome (Z * S * heap) :=
  pos ← get_next head h; for_loop fuel (prefetching get_next) get_next body pos s h.
Definition list_for_each_prev (body : Z -> S -> heap -> outcome (bool * S * heap)) (s : S) (h : heap) : outcome (Z * S * heap) :=
  pos ← get_prev head h; for_loop fuel (prefetching get_prev) get_prev body pos s h.
Definition __list_for_each (body : Z -> S -> heap -> outcome (bool * S * heap)) (s : S) (h : heap) : outcome (Z * S * heap) :=
  pos ← get_next head h; for_loop fuel (fun pos _ => Ok (negb (pos =? head))) get_next body pos s h.

(** The loops that know the next node before the body runs. *)
Definition safe_loop (get : Z -> heap -> outcome Z) (body : Z -> S -> heap -> outcome (bool * S * heap)) (pos : Z) (s : S) (h : heap)
  : outcome (Z * S * heap) :=
  n ← get pos h;
  '((pos, _), s, h) ← for_loop fuel (fun a _ => Ok (negb (fst a =? head))) (fun a h => n ← get (snd a) h; Ok (snd a, n))
                        (fun a => body (fst a)) (pos, n) s h;
  Ok (pos, s, h).
Definition list_for_each_safe (body : Z -> S -> heap -> outcome (bool * S * heap)) (s : S) (h : heap) : outcome (Z * S * heap) :=
  pos ← get_next head h; safe_loop get_next body pos s h.

(** The loops over structures: the cursor is the structure with the node. *)
Context (member : Z).
Definition entry_get (get : Z -> heap -> outcome Z) (pos : Z) (h : heap) : outcome Z := n ← get (pos + member) h; Ok (list_entry n member).
Definition entry_cond (get : Z -> heap -> outcome Z) (pos : Z) (h : heap) : outcome bool :=
  _ ← get (pos + member) h; Ok (negb (pos + member =? head)).

Definition list_for_each_entry_from (body : Z -> S -> heap -> outcome (bool * S * heap)) (pos : Z) (s : S) (h : heap) : outcome (Z * S * heap) :=
  for_loop fuel (entry_cond get_next) (entry_get get_next) body pos s h.
Definition list_for_each_entry (body : Z -> S -> heap -> outcome (bool * S * heap)) (s : S) (h : heap) : outcome (Z * S * heap) :=
  pos ← list_first_entry head member h; list_for_each_entry_from body pos s h.
Definition list_for_each_entry_reverse (body : Z -> S -> heap -> outcome (bool * S * heap)) (s : S) (h : heap) : outcome (Z * S * heap) :=
  pos ← list_last_entry head member h; for_loop fuel (entry_cond get_prev) (entry_get get_prev) body pos s h.
Definition list_prepare_entry (pos : option Z) : Z := default (list_entry head member) pos.
Definition list_for_each_entry_continue (body : Z -> S -> heap -> outcome (bool * S * heap)) (pos : Z) (s : S) (h : heap) : outcome (Z * S * heap) :=
  pos ← entry_get get_next pos h; list_for_each_entry_from body pos s h.

Definition safe_entry_loop (get : Z -> heap -> outcome Z) (body : Z -> S -> heap -> outcome (bool * S * heap)) (pos : Z) (s : S) (h : heap)
  : outcome (Z * S * heap) :=
  n ← entry_get get pos h;
  '((pos, _), s, h) ← for_loop fuel (fun a _ => Ok (negb (fst a + member =? head)))
                        (fun a h => n ← entry_get get (snd a) h; Ok (snd a, n)) (fun a => body (fst a)) (pos, n) s h;
  Ok (pos, s, h).
Definition list_for_each_entry_safe (body : Z -> S -> heap -> outcome (bool * S * heap)) (s : S) (h : heap) : outcome (Z * S * heap) :=
  pos ← list_first_entry head member h; safe_entry_loop get_next body pos s h.
Definition list_for_each_entry_safe_continue (body : Z -> S -> heap -> outcome (bool * S * heap)) (pos : Z) (s : S) (h : heap)
  : outcome (Z * S * heap) := pos ← entry_get get_next pos h; safe_entry_loop get_next body pos s h.
Definition list_for_each_entry_safe_from (body : Z -> S -> heap -> outcome (bool * S * heap)) (pos : Z) (s : S) (h : heap)
  : outcome (Z * S * heap) := safe_entry_loop get_next body pos s h.
Definition list_for_each_entry_safe_reverse (body : Z -> S -> heap -> outcome (bool * S * heap)) (s : S) (h : heap) : outcome (Z * S * heap) :=
  pos ← list_last_entry head member h; safe_entry_loop get_prev body pos s h.
End ForEach.

(** A body that does not change the heap. *)
Definition pure_body {S} (f : Z -> S -> bool * S) (a : Z) (s : S) (h : heap) : outcome (bool * S * heap) :=
  let (break, s) := f a s in Ok (break, s, h).

(** [list_add_sort] in memory; [compare] looks at the structures of two nodes. *)
Definition sort_step (compare : Z -> Z -> Z) (new pos insert : Z) : bool * Z :=
  if compare pos new <? 0 then (false, insert) else (true, pos).
Definition list_add_sort (fuel : nat) (new head : Z) (compare : Z -> Z -> Z) (h : heap) : outcome heap :=
  '(_, insert, h) ← list_for_each fuel head (pure_body (sort_step compare new)) head h;
  list_add_tail new insert h.

(** ** Rings *)

Definition next_at (h : heap) (q : Z) : option Z := next <$> h !! q.
Definition prev_at (h : heap) (q : Z) : option Z := prev <$> h !! q.

(** An address that may be accessed. *)
Definition mapped (h : heap) (q : Z) : Prop := is_Some (h !! q).

(** Both pointers of a node are the same in two heaps. *)
Definition same_at (h h' : heap) (q : Z) : Prop := next_at h' q = next_at h q /\ prev_at h' q = prev_at h q.
(** Nothing but the nodes of [l] has changed. *)
Definition only_in (l : list Z) (h h' : heap) : Prop :=
  (forall q, q ∉ l -> same_at h h' q) /\ forall q, mapped h q -> mapped h' q.

(** Every node of the list points at its successor, and is pointed at by it. *)
Fixpoint chain (h : heap) (l : list Z) : Prop :=
  match l with
  | a :: l' => match l' with [] => True | b :: _ => (next_at h a = Some b /\ prev_at h b = Some a) /\ chain h l' end
  | [] => True
  end.

(** The nodes of [l] are a ring with [p]. *)
Definition ring (h : heap) (p : Z) (l : list Z) : Prop := NoDup (p :: l) /\ chain h (p :: l ++ [p]).

Lemma mapped_next h q : mapped h q <-> is_Some (next_at h q).
Proof. unfold mapped, next_at. by rewrite fmap_is_Some. Qed.
Lemma mapped_prev h q : mapped h q <-> is_Some (prev_at h q).
Proof. unfold mapped, prev_at. by rewrite fmap_is_Some. Qed.

Lemma get_next_at h q n : next_at h q = Some n -> get_next q h = Ok n.
Proof. unfold next_at, get_next. destruct (h !! q); by intros [= <-]. Qed.
Lemma get_prev_at h q n : prev_at h q = Some n -> get_prev q h = Ok n.
Proof. unfold prev_at, get_prev. destruct (h !! q); by intros [= <-]. Qed.

Lemma same_at_refl h q : same_at h h q.
Proof. done. Qed.
Lemma same_at_trans h1 h2 h3 q : same_at h1 h2 q -> same_at h2 h3 q -> same_at h1 h3 q.
Proof. intros [E1 E2] [F1 F2]. split; congruence. Qed.
Lemma only_in_trans l h1 h2 h3 : only_in l h1 h2 -> only_in l h2 h3 -> only_in l h1 h3.
Proof.
  intros [F1 G1] [F2 G2]. split; [|auto]. intros q Hq. eapply same_at_trans; [by apply F1|by apply F2].
Qed.
Lemma only_in_weaken l l' h1 h2 : (forall q, q ∈ l -> q ∈ l') -> only_in l h1 h2 -> only_in l' h1 h2.
Proof. intros Hl [F G]. split; [|done]. intros q Hq. apply F. intros H. by apply Hq, Hl. Qed.

(** What one store does. *)
Lemma set_next_spec p v h : mapped h p -> exists h', set_next p v h = Ok h' /\ (forall q, mapped h q -> mapped h' q) /\
  forall q, next_at h' q = (if decide (q = p) then Some v else next_at h q) /\ prev_at h' q = prev_at h q.
Proof.
  intros [n Hn]. unfold set_next. rewrite Hn. eexists. split; [reflexivity|]. split.
  - intros q Hq. unfold mapped. destruct (decide (q = p)) as [->|]; [rewrite lookup_insert_eq; by eexists|by rewrite lookup_insert_ne].
  - intros q. unfold next_at, prev_at. destruct (decide (q = p)) as [->|]; [by rewrite lookup_insert_eq, Hn|by rewrite lookup_insert_ne].
Qed.
Lemma set_prev_spec p v h : mapped h p -> exists h', set_prev p v h = Ok h' /\ (forall q, mapped h q -> mapped h' q) /\
  forall q, prev_at h' q = (if decide (q = p) then Some v else prev_at h q) /\ next_at h' q = next_at h q.
Proof.
  intros [n Hn]. unfold set_prev. rewrite Hn. eexists. split; [reflexivity|]. split.
  - intros q Hq. unfold mapped. destruct (decide (q = p)) as [->|]; [rewrite lookup_insert_eq; by eexists|by rewrite lookup_insert_ne].
  - intros q. unfold next_at, prev_at. destruct (decide (q = p)) as [->|]; [by rewrite lookup_insert_eq, Hn|by rewrite lookup_insert_ne].
Qed.

(** One store after the other. *)
Ltac heap_store :=
  match goal with
  | |- context [set_next ?p ?v ?h] =>
      let h' := fresh "h" in let E := fresh "E" in let M := fresh "M" in let H := fresh "H" in
      destruct (set_next_spec p v h) as (h' & E & M & H); [|rewrite E; cbn [mbind outcome_bind]]
  | |- context [set_prev ?p ?v ?h] =>
      let h' := fresh "h" in let E := fresh "E" in let M := fresh "M" in let H := fresh "H" in
      destruct (set_prev_spec p v h) as (h' & E & M & H); [|rewrite E; cbn [mbind outcome_bind]]
  end.

Lemma __list_add_spec new p n h : mapped h new -> mapped h p -> mapped h n -> exists h', __list_add new p n h = Ok h' /\
  (forall q, mapped h q -> mapped h' q) /\
  forall q, next_at h' q = (if decide (q = p) then Some new else if decide (q = new) then Some n else next_at h q) /\
            prev_at h' q = (if decide (q = new) then Some p else if decide (q = n) then Some new else prev_at h q).
Proof.
  intros Hnew Hp Hn. unfold __list_add. do 3 (heap_store; [by auto|]). heap_store; [by auto|].
  eexists. split; [reflexivity|]. split; [by auto|]. intros q.
  rewrite (proj1 (H2 q)), (proj2 (H2 q)), (proj1 (H1 q)), (proj2 (H1 q)), (proj1 (H0 q)), (proj2 (H0 q)), (proj1 (H q)), (proj2 (H q)).
  done.
Qed.

Lemma __list_del_spec p n h : mapped h p -> mapped h n -> exists h', __list_del p n h = Ok h' /\
  (forall q, mapped h q -> mapped h' q) /\
  forall q, next_at h' q = (if decide (q = p) then Some n else next_at h q) /\
            prev_at h' q = (if decide (q = n) then Some p else prev_at h q).
Proof.
  intros Hp Hn. unfold __list_del. heap_store; [done|]. heap_store; [by auto|].
  eexists. split; [reflexivity|]. split; [by auto|]. intros q.
  rewrite (proj1 (H0 q)), (proj2 (H0 q)), (proj1 (H q)), (proj2 (H q)). done.
Qed.

Lemma init_spec p h : mapped h p -> exists h', INIT_LIST_HEAD p h = Ok h' /\
  (forall q, mapped h q -> mapped h' q) /\
  forall q, next_at h' q = (if decide (q = p) then Some p else next_at h q) /\
            prev_at h' q = (if decide (q = p) then Some p else prev_at h q).
Proof.
  intros Hp. unfold INIT_LIST_HEAD. heap_store; [done|]. heap_store; [by auto|].
  eexists. split; [reflexivity|]. split; [by auto|]. intros q.
  rewrite (proj1 (H0 q)), (proj2 (H0 q)), (proj1 (H q)), (proj2 (H q)). done.
Qed.

Lemma chain_app h l x l' : chain h (l ++ x :: l') <-> chain h (l ++ [x]) /\ chain h (x :: l').
Proof.
  induction l as [|a l IH]; [cbn; tauto|]. destruct l as [|b l]; [cbn; tauto|].
  change (chain h ((a :: b :: l) ++ x :: l')) with ((next_at h a = Some b /\ prev_at h b = Some a) /\ chain h ((b :: l) ++ x :: l')).
  change (chain h ((a :: b :: l) ++ [x])) with ((next_at h a = Some b /\ prev_at h b = Some a) /\ chain h ((b :: l) ++ [x])).
  rewrite IH. tauto.
Qed.

Lemma chain_split h a l x l' : chain h (a :: l ++ x :: l') <-> chain h (a :: l ++ [x]) /\ chain h (x :: l').
Proof. apply (chain_app h (a :: l)). Qed.

(** A chain depends on the next pointers of all its nodes but the last and on the
    previous pointers of all but the first. *)
Lemma chain_frame h h' a l z : chain h (a :: l ++ [z]) ->
  (forall q, q ∈ a :: l -> next_at h' q = next_at h q) -> (forall q, q ∈ l ++ [z] -> prev_at h' q = prev_at h q) ->
  chain h' (a :: l ++ [z]).
Proof.
  revert a; induction l as [|b l IH]; intros a; cbn [app].
  - intros [[E1 E2] _] Hn Hp. cbn. rewrite Hn, Hp by set_solver. done.
  - intros [[E1 E2] Hc] Hn Hp. split; [rewrite Hn, Hp by set_solver; done|].
    apply IH; [exact Hc| |]; intros q Hq; [apply Hn|apply Hp]; set_solver.
Qed.

(** The same of a list of which nothing else is known, where the last node may point
    elsewhere. *)
Lemma chain_inner h h' a l : NoDup (a :: l) -> chain h (a :: l) ->
  (forall q, q ∈ a :: l -> q <> List.last l a -> next_at h' q = next_at h q) ->
  (forall q, q ∈ a :: l -> q <> a -> prev_at h' q = prev_at h q) -> chain h' (a :: l).
Proof.
  destruct l as [|z l _] using rev_ind; [done|]. rewrite List.last_last. intros Hnd Hc Hn Hp.
  assert (Hz : z ∉ a :: l).
  { change (a :: l ++ [z]) with ((a :: l) ++ [z]) in Hnd. apply list.NoDup_app in Hnd as (_ & Hd & _). intros Hin. apply (Hd z Hin). by left. }
  apply list.NoDup_cons in Hnd as [Ha _]. apply (chain_frame h); [exact Hc| |]; intros q Hq.
  - apply Hn; [set_solver|]. intros ->. done.
  - apply Hp; [set_solver|]. intros ->. done.
Qed.

Lemma ring_same h h' p l : ring h p l -> (forall q, q ∈ p :: l -> same_at h h' q) -> ring h' p l.
Proof.
  intros [Hnd Hc] Hs. split; [done|]. eapply chain_frame; [exact Hc| |]; intros q Hq; apply Hs; set_solver.
Qed.

(** Any node of a ring can be its head. *)
Lemma ring_rotate h p l1 x l2 : ring h p (l1 ++ x :: l2) -> ring h x (l2 ++ p :: l1).
Proof.
  intros [Hnd Hc]. split.
  - eapply NoDup_Permutation_proper; [|exact Hnd]. exact (Permutation_app_comm (x :: l2) (p :: l1)).
  - rewrite <-app_assoc in Hc |- *. cbn [app] in Hc |- *.
    apply chain_split in Hc as [H1 H2]. by apply chain_split.
Qed.

(** The pointers of the head. *)
Lemma ring_next h p l : ring h p l -> next_at h p = Some (hd p l).
Proof. intros [_ Hc]. destruct l as [|a l]; by destruct Hc as [[? _] _]. Qed.
Lemma ring_prev h p l : ring h p l -> prev_at h p = Some (List.last l p).
Proof.
  intros [_ Hc]. destruct l as [|z l _] using rev_ind; [by destruct Hc as [[_ ?] _]|]. rewrite List.last_last.
  rewrite <-app_assoc in Hc. apply chain_split in Hc as [_ Hc]. by destruct Hc as [[_ ?] _].
Qed.
Lemma ring_mapped h p l q : ring h p l -> q ∈ p :: l -> mapped h q.
Proof.
  intros Hr Hq. apply mapped_next. apply elem_of_cons in Hq as [->|Hq]; [rewrite (ring_next h p l Hr); by eexists|].
  apply list_elem_of_split in Hq as (l1 & l2 & ->). apply ring_rotate in Hr. rewrite (ring_next _ _ _ Hr). by eexists.
Qed.
Lemma hd_in (p : Z) l : hd p l ∈ p :: l.
Proof. destruct l; set_solver. Qed.
Lemma last_in (p : Z) l : List.last l p ∈ p :: l.
Proof. destruct l as [|z l _] using rev_ind; [set_solver|]. rewrite List.last_last. set_solver. Qed.

(** ** What the operations do to rings *)

Lemma init_ring h p : mapped h p -> exists h', INIT_LIST_HEAD p h = Ok h' /\ ring h' p [] /\ only_in [p] h h'.
Proof.
  intros Hp. destruct (init_spec p h Hp) as (h' & -> & Hm & H). exists h'. split; [done|]. split; [split|split; [|done]].
  - apply NoDup_singleton.
  - cbn. rewrite (proj1 (H p)), (proj2 (H p)), !decide_True by done. done.
  - intros q Hq. unfold same_at. rewrite (proj1 (H q)), (proj2 (H q)), !decide_False by set_solver. done.
Qed.

(** A node that goes behind the head. *)
Lemma insert_ring h new p l : ring h p l -> mapped h new -> new ∉ p :: l ->
  exists h', __list_add new p (hd p l) h = Ok h' /\ ring h' p (new :: l) /\ only_in (new :: p :: l) h h'.
Proof.
  intros Hr Hnew Hni. pose proof Hr as [Hnd Hc].
  destruct (__list_add_spec new p (hd p l) h Hnew) as (h' & -> & Hm & H); [by eapply ring_mapped; [exact Hr|left]|by eapply ring_mapped, hd_in|].
  assert (new <> p) by set_solver. assert (hd p l <> new) by (intros <-; apply Hni, hd_in).
  exists h'. split; [done|]. split; [split|split; [|done]].
  - apply list.NoDup_cons in Hnd as [? ?]. apply list.NoDup_cons. split; [set_solver|]. apply list.NoDup_cons. set_solver.
  - cbn [app chain]. split; [|].
    { rewrite (proj1 (H p)), (proj2 (H new)), !decide_True by done. done. }
    destruct l as [|b l]; cbn [app hd chain] in *.
    + split; [|done]. rewrite (proj1 (H new)), (proj2 (H p)). by rewrite decide_False, decide_True, decide_False, decide_True.
    + destruct Hc as [_ Hc]. split.
      { rewrite (proj1 (H new)), (proj2 (H b)). by rewrite decide_False, decide_True, decide_False, decide_True. }
      apply list.NoDup_cons in Hnd as [Hpl Hnd]. apply list.NoDup_cons in Hnd as [Hbl Hnd].
      apply (chain_frame h); [exact Hc| |]; intros q Hq.
      * rewrite (proj1 (H q)), !decide_False; [done|..]; set_solver.
      * rewrite (proj2 (H q)), !decide_False; [done|..]; set_solver.
  - intros q Hq. unfold same_at. rewrite (proj1 (H q)), (proj2 (H q)). pose proof (hd_in p l).
    rewrite !decide_False; [done|..]; set_solver.
Qed.

Lemma list_add_ring h new p l : ring h p l -> mapped h new -> new ∉ p :: l ->
  exists h', list_add new p h = Ok h' /\ ring h' p (new :: l) /\ only_in (new :: p :: l) h h'.
Proof.
  intros Hr Hnew Hni. unfold list_add. rewrite (get_next_at _ _ _ (ring_next _ _ _ Hr)). cbn [mbind outcome_bind]. by apply insert_ring.
Qed.

Lemma list_add_tail_ring h new p l : ring h p l -> mapped h new -> new ∉ p :: l ->
  exists h', list_add_tail new p h = Ok h' /\ ring h' p (l ++ [new]) /\ only_in (new :: p :: l) h h'.
Proof.
  intros Hr Hnew Hni. unfold list_add_tail. rewrite (get_prev_at _ _ _ (ring_prev _ _ _ Hr)). cbn [mbind outcome_bind].
  destruct l as [|z l _] using rev_ind; [by apply (insert_ring h new p [])|]. rewrite List.last_last.
  apply (ring_rotate _ _ l z []) in Hr. destruct (insert_ring h new z (p :: l) Hr Hnew) as (h' & E & Hr' & Ho); [set_solver|].
  cbn [app hd] in E. exists h'. split; [exact E|]. split.
  - apply (ring_rotate _ z [new] p l) in Hr'. by rewrite <-app_assoc.
  - eapply only_in_weaken; [|exact Ho]. set_solver.
Qed.

(** A node that leaves the ring; its own pointers are left as they were. *)
Lemma unlink_head h x a l : ring h x (a :: l) ->
  exists h', __list_del (List.last l a) a h = Ok h' /\ ring h' a l /\ only_in (a :: l) h h'.
Proof.
  intros Hr. pose proof Hr as [Hnd Hc].
  destruct (__list_del_spec (List.last l a) a h) as (h' & -> & Hm & H);
    [eapply ring_mapped; [exact Hr|]; right; apply last_in|eapply ring_mapped; [exact Hr|]; right; left|].
  apply list.NoDup_cons in Hnd as [Hx Hnd]. pose proof Hnd as Hnd2. apply list.NoDup_cons in Hnd2 as [Ha _].
  exists h'. split; [done|]. split; [split; [done|]|split; [|done]].
  - destruct Hc as [_ Hc]. destruct l as [|z l _] using rev_ind.
    + cbn. rewrite (proj1 (H a)), (proj2 (H a)), !decide_True by done. done.
    + rewrite List.last_last in H. rewrite <-app_assoc. cbn [app]. apply chain_split. split.
      * cbn [app] in Hc. rewrite <-app_assoc in Hc. apply chain_split in Hc as [Hc _].
        apply (chain_inner h); [done|exact Hc| |]; rewrite ?List.last_last; intros q Hq Hne.
        -- by rewrite (proj1 (H q)), decide_False.
        -- by rewrite (proj2 (H q)), decide_False.
      * cbn. rewrite (proj1 (H z)), (proj2 (H a)), !decide_True by done. done.
  - intros q Hq. unfold same_at. rewrite (proj1 (H q)), (proj2 (H q)). pose proof (last_in a l).
    rewrite !decide_False; [done|..]; set_solver.
Qed.

(** The same for an entry, when the ring is seen from its head. *)
Lemma unlink_ring h p l1 x l2 : ring h p (l1 ++ x :: l2) ->
  exists a b h', get_prev x h = Ok a /\ get_next x h = Ok b /\ __list_del a b h = Ok h' /\ ring h' p (l1 ++ l2) /\
    only_in (p :: l1 ++ l2) h h'.
Proof.
  intros Hr. apply ring_rotate in Hr. pose proof (get_prev_at _ _ _ (ring_prev _ _ _ Hr)) as Hp.
  pose proof (get_next_at _ _ _ (ring_next _ _ _ Hr)) as Hn. destruct l2 as [|a l2]; cbn [app hd] in *.
  - destruct (unlink_head _ _ _ _ Hr) as (h' & E & Hr' & Ho).
    eexists _, _, h'. split; [exact Hp|]. split; [exact Hn|]. rewrite app_nil_r. split; [|done].
    destruct l1 as [|z l1 _] using rev_ind; [exact E|]. rewrite List.last_last in E. rewrite app_comm_cons, List.last_last. exact E.
  - destruct (unlink_head _ _ _ _ Hr) as (h' & E & Hr' & Ho).
    eexists _, _, h'. split; [exact Hp|]. split; [exact Hn|]. split; [|split; [by apply ring_rotate in Hr'|]].
    + destruct (l2 ++ p :: l1) as [|z l _] eqn:El using rev_ind; [by destruct l2|]. rewrite List.last_last in E.
      rewrite app_comm_cons, List.last_last. exact E.
    + eapply only_in_weaken; [|exact Ho]. set_solver.
Qed.

(** The entries of a ring are apart from each other and from its head. *)
Lemma ring_entry h p l1 x l2 : ring h p (l1 ++ x :: l2) -> x ∉ p :: l1 ++ l2.
Proof.
  intros [Hnd _]. apply list.NoDup_cons in Hnd as [Hp Hnd]. apply list.NoDup_app in Hnd as (_ & H1 & H2).
  apply list.NoDup_cons in H2 as [H2 _]. assert (x ∉ l1) by (intros Hx; apply (H1 x Hx); by left). set_solver.
Qed.

(** A deleted node points nowhere: to use it as an entry again is undefined. *)
Lemma list_del_ring h p l1 x l2 : ring h p (l1 ++ x :: l2) ->
  exists h', list_del x h = Ok h' /\ ring h' p (l1 ++ l2) /\ only_in (x :: p :: l1 ++ l2) h h' /\
    next_at h' x = Some LIST_POISON1 /\ prev_at h' x = Some LIST_POISON2.
Proof.
  intros Hr. pose proof (ring_entry _ _ _ _ _ Hr) as Hx. assert (Hmx : mapped h x) by (eapply ring_mapped; [exact Hr|set_solver]).
  destruct (unlink_ring _ _ _ _ _ Hr) as (a & b & h1 & Ep & En & E & Hr1 & Ho1). unfold list_del. rewrite Ep, En. cbn [mbind outcome_bind].
  rewrite E. cbn [mbind outcome_bind]. heap_store; [by apply Ho1|]. heap_store; [by apply M, Ho1|].
  assert (Ho : only_in [x] h1 h2).
  { split; [|by auto]. intros q Hq. unfold same_at.
    rewrite (proj1 (H0 q)), (proj2 (H0 q)), (proj1 (H q)), (proj2 (H q)), !decide_False by set_solver. done. }
  eexists. split; [reflexivity|]. split; [|split; [|split]].
  - eapply ring_same; [exact Hr1|]. intros q Hq. apply Ho. set_solver.
  - eapply only_in_trans; [eapply only_in_weaken; [|exact Ho1]|eapply only_in_weaken; [|exact Ho]]; set_solver.
  - rewrite (proj2 (H0 x)), (proj1 (H x)), decide_True by done. done.
  - rewrite (proj1 (H0 x)), decide_True by done. done.
Qed.

Lemma list_del_init_ring h p l1 x l2 : ring h p (l1 ++ x :: l2) ->
  exists h', list_del_init x h = Ok h' /\ ring h' p (l1 ++ l2) /\ ring h' x [] /\ only_in (x :: p :: l1 ++ l2) h h'.
Proof.
  intros Hr. pose proof (ring_entry _ _ _ _ _ Hr) as Hx. assert (Hmx : mapped h x) by (eapply ring_mapped; [exact Hr|set_solver]).
  destruct (unlink_ring _ _ _ _ _ Hr) as (a & b & h1 & Ep & En & E & Hr1 & Ho1). unfold list_del_init. rewrite Ep, En. cbn [mbind outcome_bind].
  rewrite E. cbn [mbind outcome_bind]. destruct (init_ring h1 x) as (h2 & E2 & Hr2 & Ho2); [by apply Ho1|].
  exists h2. split; [exact E2|]. split; [|split; [exact Hr2|]].
  - eapply ring_same; [exact Hr1|]. intros q Hq. apply Ho2. set_solver.
  - eapply only_in_trans; [eapply only_in_weaken; [|exact Ho1]|eapply only_in_weaken; [|exact Ho2]]; set_solver.
Qed.

(** Moving to the ring of another head, or within the ring. *)
Section Move.
Context (h : heap) (p : Z) (l1 : list Z) (x : Z) (l2 : list Z).
Hypothesis (Hr : ring h p (l1 ++ x :: l2)).

Lemma move_within (tail : bool) : exists h', (if tail then list_move_tail else list_move) x p h = Ok h' /\
  ring h' p (if tail then (l1 ++ l2) ++ [x] else x :: l1 ++ l2) /\ only_in (x :: p :: l1 ++ l2) h h'.
Proof.
  pose proof (ring_entry _ _ _ _ _ Hr) as Hx. assert (Hmx : mapped h x) by (eapply ring_mapped; [exact Hr|set_solver]).
  destruct (unlink_ring _ _ _ _ _ Hr) as (a & b & h1 & Ep & En & E & Hr1 & Ho1).
  assert (mapped h1 x) as Hmx1 by (by apply Ho1).
  destruct tail; unfold list_move_tail, list_move; rewrite Ep, En; cbn [mbind outcome_bind]; rewrite E; cbn [mbind outcome_bind].
  - destruct (list_add_tail_ring h1 x p (l1 ++ l2) Hr1 Hmx1 Hx) as (h2 & E2 & Hr2 & Ho2). exists h2. split; [done|]. split; [done|].
    eapply only_in_trans; [eapply only_in_weaken; [|exact Ho1]|exact Ho2]. set_solver.
  - destruct (list_add_ring h1 x p (l1 ++ l2) Hr1 Hmx1 Hx) as (h2 & E2 & Hr2 & Ho2). exists h2. split; [done|]. split; [done|].
    eapply only_in_trans; [eapply only_in_weaken; [|exact Ho1]|exact Ho2]. set_solver.
Qed.

Lemma move_across (tail : bool) q l : ring h q l -> (forall y, y ∈ q :: l -> y ∉ p :: l1 ++ x :: l2) ->
  exists h', (if tail then list_move_tail else list_move) x q h = Ok h' /\
  ring h' p (l1 ++ l2) /\ ring h' q (if tail then l ++ [x] else x :: l) /\ only_in (x :: q :: l ++ p :: l1 ++ l2) h h'.
Proof.
  intros Hq Hdis. pose proof (ring_entry _ _ _ _ _ Hr) as Hx. assert (Hmx : mapped h x) by (eapply ring_mapped; [exact Hr|set_solver]).
  destruct (unlink_ring _ _ _ _ _ Hr) as (a & b & h1 & Ep & En & E & Hr1 & Ho1).
  assert (mapped h1 x) as Hmx1 by (by apply Ho1).
  assert (Hq1 : ring h1 q l). { eapply ring_same; [exact Hq|]. intros y Hy. apply Ho1. specialize (Hdis y Hy). set_solver. }
  assert (Hxq : x ∉ q :: l). { intros Hin. apply (Hdis x Hin). set_solver. }
  assert (Hadd : exists h2, (if tail then list_add_tail else list_add) x q h1 = Ok h2 /\
    ring h2 q (if tail then l ++ [x] else x :: l) /\ only_in (x :: q :: l) h1 h2).
  { destruct tail; [by apply list_add_tail_ring|by apply list_add_ring]. }
  destruct Hadd as (h2 & E2 & Hr2 & Ho2). exists h2. split.
  { destruct tail; unfold list_move_tail, list_move; rewrite Ep, En; cbn [mbind outcome_bind]; rewrite E; exact E2. }
  split; [|split; [exact Hr2|]].
  - eapply ring_same; [exact Hr1|]. intros y Hy. apply Ho2. intros Hin. apply elem_of_cons in Hin as [->|Hin]; [done|].
    apply (Hdis y Hin). set_solver.
  - eapply only_in_trans; [eapply only_in_weaken; [|exact Ho1]|eapply only_in_weaken; [|exact Ho2]]; set_solver.
Qed.
End Move.

Lemma chain_prefix h a l x : chain h (a :: l ++ [x]) -> chain h (a :: l).
Proof.
  destruct l as [|z l _] using rev_ind; [done|]. rewrite <-app_assoc. intros Hc. by apply chain_split in Hc as [Hc _].
Qed.
Lemma last_cons (a x : Z) l : List.last (a :: l) x = List.last l a.
Proof. destruct l as [|z l _] using rev_ind; [done|]. by rewrite app_comm_cons, !List.last_last. Qed.
Lemma nodup_rot (p : Z) l : NoDup (p :: l) -> NoDup (l ++ [p]).
Proof. intros H. eapply NoDup_Permutation_proper; [|exact H]. symmetry. apply Permutation_cons_append. Qed.

Lemma ring_empty h p l : ring h p l -> list_empty p h = Ok (bool_decide (l = [])).
Proof.
  intros Hr. unfold list_empty. rewrite (get_next_at _ _ _ (ring_next _ _ _ Hr)). cbn [mbind outcome_bind]. f_equal.
  destruct Hr as [Hnd _]. destruct l as [|a l]; cbn [hd].
  - by rewrite Z.eqb_refl.
  - apply list.NoDup_cons in Hnd as [Hp _]. rewrite bool_decide_eq_false_2 by done. apply Z.eqb_neq. set_solver.
Qed.

(** Two rings joined: the entries of the first go behind the head of the second. The
    head of the first is left as it was, and its ring is lost. *)
Lemma __list_splice_ring h a l1 x p l2 : ring h x (a :: l1) -> ring h p l2 -> (forall y, y ∈ x :: a :: l1 -> y ∉ p :: l2) ->
  exists h', __list_splice x p h = Ok h' /\ ring h' p (a :: l1 ++ l2) /\ only_in (p :: a :: l1 ++ l2) h h'.
Proof.
  intros Hx Hp Hdis. unfold __list_splice.
  rewrite (get_next_at _ _ _ (ring_next _ _ _ Hx)), (get_prev_at _ _ _ (ring_prev _ _ _ Hx)), (get_next_at _ _ _ (ring_next _ _ _ Hp)).
  cbn [mbind outcome_bind hd]. set (z := List.last (a :: l1) x). set (b := hd p l2).
  assert (Hz : z ∈ a :: l1). { unfold z. destruct l1 as [|y l1 _] using rev_ind; [set_solver|]. rewrite app_comm_cons, List.last_last. set_solver. }
  assert (Hb : b ∈ p :: l2) by apply hd_in.
  assert (Ma : mapped h a) by (eapply ring_mapped; [exact Hx|set_solver]). assert (Mz : mapped h z) by (eapply ring_mapped; [exact Hx|by right]).
  assert (Mp : mapped h p) by (eapply ring_mapped; [exact Hp|set_solver]). assert (Mb : mapped h b) by (eapply ring_mapped; [exact Hp|done]).
  do 4 (heap_store; [by auto|]).
  assert (Hs : forall q, next_at h3 q = (if decide (q = z) then Some b else if decide (q = p) then Some a else next_at h q) /\
    prev_at h3 q = (if decide (q = b) then Some z else if decide (q = a) then Some p else prev_at h q)).
  { intros q. rewrite (proj1 (H2 q)), (proj2 (H2 q)), (proj1 (H1 q)), (proj2 (H1 q)), (proj1 (H0 q)), (proj2 (H0 q)), (proj1 (H q)), (proj2 (H q)). done. }
  clear H H0 H1 H2. eexists. split; [reflexivity|]. pose proof Hx as [Nx Cx]. pose proof Hp as [Np Cp].
  assert (Hzp : z <> p) by (intros E3; apply (Hdis z); [by right|rewrite E3; by left]).
  assert (Hab : a <> b) by (intros E3; apply (Hdis a); [right; by left|by rewrite E3]).
  assert (Hap : a <> p) by (intros E3; apply (Hdis a); [right; by left|rewrite E3; by left]). split; [split|split; [|by auto]].
  - apply list.NoDup_cons in Nx as [_ Nx], Np as [? Np]. apply list.NoDup_cons. split.
    + intros Hin. rewrite app_comm_cons in Hin. apply list.elem_of_app in Hin as [Hin|Hin]; [|done].
      apply (Hdis p); [by right|by left].
    + rewrite app_comm_cons. apply list.NoDup_app. split; [done|]. split; [|done]. intros y Hy Hy2. apply (Hdis y); by right.
  - change (p :: (a :: l1 ++ l2) ++ [p]) with (p :: a :: (l1 ++ l2) ++ [p]). rewrite <-app_assoc. split.
    { rewrite (proj1 (Hs p)), (proj2 (Hs a)), decide_False, decide_True, decide_False, decide_True by done. done. }
    assert (C1 : chain h3 (a :: l1)).
    { apply list.NoDup_cons in Nx as [_ Nx]. destruct Cx as [_ Cx]. apply (chain_inner h); [done|by eapply chain_prefix| |]; intros q Hq Hne.
      - rewrite (proj1 (Hs q)), decide_False by (unfold z; by rewrite last_cons). rewrite decide_False; [done|]. intros ->. apply (Hdis p); [by right|by left].
      - rewrite (proj2 (Hs q)), decide_False, decide_False; [done|done|]. intros ->. apply (Hdis b); [by right|done]. }
    assert (C2 : match l2 with [] => True | _ => chain h3 (l2 ++ [p]) end).
    { unfold b in *. destruct l2 as [|c l2]; [done|]. cbn [hd] in *. destruct Cp as [_ Cp]. cbn [app] in Cp |- *.
      apply (chain_inner h); [|exact Cp| |]; rewrite ?List.last_last; [by apply (nodup_rot p (c :: l2))| |]; intros q Hq Hne.
      - rewrite (proj1 (Hs q)), decide_False, decide_False; [done|done|]. intros ->. apply (Hdis z); [by right|]. set_solver.
      - rewrite (proj2 (Hs q)), decide_False, decide_False; [done| |done]. intros ->. apply (Hdis a); [right; by left|]. set_solver. }
    assert (L : next_at h3 z = Some b /\ prev_at h3 b = Some z).
    { rewrite (proj1 (Hs z)), (proj2 (Hs b)), !decide_True by done. done. }
    unfold z, b in *. destruct l1 as [|y l1 _] using rev_ind; cbn [app].
    + destruct l2 as [|c l2]; [by split|]. by split.
    + rewrite app_comm_cons, List.last_last in L. rewrite <-app_assoc. cbn [app]. apply chain_split. split; [exact C1|].
      destruct l2 as [|c l2]; by split.
  - intros q Hq. unfold same_at. rewrite (proj1 (Hs q)), (proj2 (Hs q)).
    assert (q <> z /\ q <> p /\ q <> b /\ q <> a) as (? & ? & ? & ?).
    { repeat split; intros ->; apply Hq; set_solver. }
    by rewrite !decide_False.
Qed.

Lemma list_splice_ring h x l1 p l2 : ring h x l1 -> ring h p l2 -> (forall y, y ∈ x :: l1 -> y ∉ p :: l2) ->
  exists h', list_splice x p h = Ok h' /\ ring h' p (l1 ++ l2) /\ only_in (p :: l1 ++ l2) h h'.
Proof.
  intros Hx Hp Hdis. unfold list_splice. rewrite (ring_empty _ _ _ Hx). cbn [mbind outcome_bind].
  destruct l1 as [|a l1]; cbn; [exists h; split; [done|]; split; [done|by split]|].
  destruct (__list_splice_ring h a l1 x p l2 Hx Hp Hdis) as (h' & -> & Hr & Ho). exists h'. done.
Qed.

Lemma list_splice_init_ring h x l1 p l2 : ring h x l1 -> ring h p l2 -> (forall y, y ∈ x :: l1 -> y ∉ p :: l2) ->
  exists h', list_splice_init x p h = Ok h' /\ ring h' p (l1 ++ l2) /\ ring h' x [] /\ only_in (x :: p :: l1 ++ l2) h h'.
Proof.
  intros Hx Hp Hdis. unfold list_splice_init. rewrite (ring_empty _ _ _ Hx). cbn [mbind outcome_bind].
  destruct l1 as [|a l1]; [exists h; cbn; split; [done|]; split; [done|]; split; [done|by split]|]. cbn [bool_decide].
  destruct (__list_splice_ring h a l1 x p l2 Hx Hp Hdis) as (h1 & E & Hr & Ho). cbn in E |- *. rewrite E. cbn [mbind outcome_bind].
  assert (Hxp : x ∉ p :: a :: l1 ++ l2).
  { intros Hin. destruct Hx as [Hnd _]. apply list.NoDup_cons in Hnd as [Hnx _].
    assert (x ∈ p :: l2) as Hx2 by (clear -Hin Hnx; set_solver). by apply (Hdis x); [left|]. }
  destruct (init_ring h1 x) as (h2 & E2 & Hr2 & Ho2); [apply Ho; eapply ring_mapped; [exact Hx|by left]|].
  exists h2. split; [exact E2|]. split; [|split; [exact Hr2|]].
  - eapply ring_same; [exact Hr|]. intros q Hq. apply Ho2. intros Hin. apply list_elem_of_singleton in Hin as ->. done.
  - eapply only_in_trans; [eapply only_in_weaken; [|exact Ho]|eapply only_in_weaken; [|exact Ho2]]; clear; set_solver.
Qed.

Lemma list_replace_spec h old new b z : next_at h old = Some b -> prev_at h old = Some z ->
  mapped h new -> mapped h b -> mapped h z -> b <> new -> z <> new -> old <> new ->
  let y := if decide (old = b) then new else z in
  exists h', list_replace old new h = Ok h' /\ (forall q, mapped h q -> mapped h' q) /\
  forall q, next_at h' q = (if decide (q = y) then Some new else if decide (q = new) then Some b else next_at h q) /\
            prev_at h' q = (if decide (q = new) then Some y else if decide (q = b) then Some new else prev_at h q).
Proof.
  intros En Ep Hnew Mb Mz Hbn Hzn Hon y. unfold list_replace. rewrite (get_next_at _ _ _ En). cbn [mbind outcome_bind]. heap_store; [done|].
  rewrite (get_next_at h0 new b) by (by rewrite (proj1 (H new)), decide_True). cbn [mbind outcome_bind]. heap_store; [by auto|].
  rewrite (get_prev_at h1 old y).
  2:{ rewrite (proj1 (H0 old)), (proj2 (H old)), Ep. unfold y. by case_decide. }
  cbn [mbind outcome_bind]. heap_store; [by auto|].
  rewrite (get_prev_at h2 new y) by (by rewrite (proj1 (H1 new)), decide_True). cbn [mbind outcome_bind].
  assert (My : mapped h y) by (unfold y; by case_decide). heap_store; [by auto|].
  eexists. split; [reflexivity|]. split; [by auto|]. intros q.
  rewrite (proj1 (H2 q)), (proj2 (H2 q)), (proj1 (H1 q)), (proj2 (H1 q)), (proj1 (H0 q)), (proj2 (H0 q)), (proj1 (H q)), (proj2 (H q)).
  done.
Qed.

(** The new node takes the place of the old one, head or entry. *)
Lemma list_replace_ring h old new l : ring h old l -> mapped h new -> new ∉ old :: l ->
  exists h', list_replace old new h = Ok h' /\ ring h' new l /\ only_in (new :: old :: l) h h'.
Proof.
  intros Hr Hnew Hni. pose proof (ring_next _ _ _ Hr) as En. pose proof (ring_prev _ _ _ Hr) as Ep.
  pose proof (hd_in old l) as Hb. pose proof (last_in old l) as Hz. set (b := hd old l) in *. set (z := List.last l old) in *.
  assert (Hbn : b <> new) by (intros ->; done). assert (Hzn : z <> new) by (intros ->; done).
  destruct (list_replace_spec h old new b z En Ep Hnew) as (h3 & -> & Hm & Hs);
    [by eapply ring_mapped|by eapply ring_mapped|done|done|intros ->; apply Hni; by left|].
  set (y := if decide (old = b) then new else z) in *.
  pose proof Hr as [Hnd Hc]. apply list.NoDup_cons in Hnd as [Hol Hnd].
  exists h3. split; [done|]. split; [split|split; [|done]].
  - apply list.NoDup_cons. split; [|done]. intros Hin. apply Hni. by right.
  - assert (Hy : y = match l with [] => new | _ => z end).
    { unfold y, b. destruct l as [|c l]; cbn [hd]; [by rewrite decide_True|]. rewrite decide_False; [done|]. intros ->. apply Hol. by left. }
    clearbody y. unfold b, z in *. destruct l as [|c l]; cbn [hd] in *; subst y.
    + cbn. rewrite (proj1 (Hs new)), (proj2 (Hs new)), !decide_True by done. done.
    + rewrite last_cons in Hs, Hz, Hzn. cbn [app]. split.
      { rewrite (proj1 (Hs new)), (proj2 (Hs c)), decide_False, decide_True, decide_False, decide_True by done. done. }
      destruct Hc as [_ Hc]. cbn [app] in Hc.
      assert (C : chain h3 (c :: l)).
      { apply (chain_inner h); [done|by eapply chain_prefix| |]; intros q Hq Hne.
        - rewrite (proj1 (Hs q)), decide_False, decide_False; [done| |done]. intros ->. apply Hni. by right.
        - rewrite (proj2 (Hs q)), decide_False, decide_False; [done|done|]. intros ->. apply Hni. by right. }
      assert (L : next_at h3 (List.last l c) = Some new /\ prev_at h3 new = Some (List.last l c)).
      { rewrite (proj1 (Hs _)), (proj2 (Hs new)), !decide_True by done. done. }
      destruct l as [|w l _] using rev_ind; [by split|]. rewrite List.last_last in L. rewrite <-app_assoc. cbn [app].
      apply chain_split. by split.
  - intros q Hq. unfold same_at. rewrite (proj1 (Hs q)), (proj2 (Hs q)).
    assert (q <> new /\ q <> b /\ q <> z) as (? & ? & ?).
    { repeat split; intros ->; apply Hq; first [by left|by right]. }
    assert (q <> y) by (unfold y; by case_decide). by rewrite !decide_False.
Qed.

(** ** What the loops visit *)

(** From the first node of [l] a step leads to the next one, and from the last to the
    head. *)
Fixpoint follows (get : Z -> heap -> outcome Z) (h : heap) (p : Z) (l : list Z) : Prop :=
  match l with
  | [] => exists n, get p h = Ok n
  | a :: l' => a <> p /\ get a h = Ok (hd p l') /\ follows get h p l'
  end.

Lemma ring_follows_next h p l : ring h p l -> get_next p h = Ok (hd p l) /\ follows get_next h p l.
Proof.
  intros Hr. split; [by apply get_next_at, ring_next|].
  assert (Hsuf : forall l1 l2, l = l1 ++ l2 -> follows get_next h p l2).
  { intros l1 l2; revert l1; induction l2 as [|a l2 IH]; intros l1 ->.
    - eexists. by apply get_next_at, ring_next.
    - pose proof (ring_entry _ _ _ _ _ Hr). split; [set_solver|]. split; [|apply (IH (l1 ++ [a])); by rewrite <-app_assoc].
      apply ring_rotate, ring_next, get_next_at in Hr. rewrite Hr. by destruct l2. }
  by apply (Hsuf []).
Qed.

Lemma ring_follows_prev h p l : ring h p l -> get_prev p h = Ok (hd p (rev l)) /\ follows get_prev h p (rev l).
Proof.
  assert (Hlast : forall l, List.last l p = hd p (rev l)).
  { intros k. destruct k as [|z k _] using rev_ind; [done|]. by rewrite List.last_last, rev_app_distr. }
  intros Hr. split; [rewrite <-Hlast; by apply get_prev_at, ring_prev|].
  assert (Hpre : forall l1 l2, l = l1 ++ l2 -> follows get_prev h p (rev l1)).
  { intros l1; induction l1 as [|a l1 IH] using rev_ind; intros l2 ->.
    - eexists. by apply get_prev_at, ring_prev.
    - rewrite rev_app_distr. cbn [rev app]. rewrite <-app_assoc in Hr. cbn [app] in Hr. pose proof (ring_entry _ _ _ _ _ Hr).
      split; [set_solver|]. split; [|apply (IH (a :: l2)); by rewrite <-app_assoc].
      apply ring_rotate, ring_prev, get_prev_at in Hr. rewrite Hr, <-Hlast. f_equal.
      destruct l1 as [|z l1 _] using rev_ind; [by rewrite List.last_last|]. by rewrite app_comm_cons, app_assoc, !List.last_last. }
  apply (Hpre l []). by rewrite app_nil_r.
Qed.

(** The loop over a list that does not change the heap: where it stops, and with
    what. *)
Fixpoint visit {S} (p : Z) (f : Z -> S -> bool * S) (l : list Z) (s : S) : Z * S :=
  match l with
  | [] => (p, s)
  | a :: l' => let (break, s) := f a s in if (break : bool) then (a, s) else visit p f l' s
  end.

Lemma for_loop_visits {S} get h p (f : Z -> S -> bool * S) l : forall fuel s, follows get h p l -> (length l < fuel)%nat ->
  for_loop fuel (prefetching p get) get (pure_body f) (hd p l) s h
  = let '(a, s) := visit p f l s in Ok (a, s, h).
Proof.
  induction l as [|a l IH]; intros [|fuel] s Hf Hl; cbn [length] in Hl; [lia| |lia|].
  - destruct Hf as [n Hn]. cbn [for_loop]. unfold prefetching. cbn [hd]. rewrite Hn. cbn [mbind outcome_bind]. by rewrite Z.eqb_refl.
  - destruct Hf as (Hap & Hg & Hf).
    assert (Hc : prefetching p get a h = Ok true).
    { unfold prefetching. rewrite Hg. cbn [mbind outcome_bind]. by rewrite (proj2 (Z.eqb_neq a p)). }
    cbn [for_loop hd visit]. rewrite Hc. cbn [mbind outcome_bind].
    assert (Hb : pure_body f a s h = let (break, s) := f a s in Ok (break, s, h)) by done. rewrite Hb.
    destruct (f a s) as [break s']. cbn [mbind outcome_bind]. destruct break; [done|]. rewrite Hg. cbn [mbind outcome_bind].
    apply IH; [done|lia].
Qed.

Lemma for_each_visits {S} h p l (f : Z -> S -> bool * S) s fuel : ring h p l -> (length l < fuel)%nat ->
  list_for_each fuel p (pure_body f) s h = (let '(a, s) := visit p f l s in Ok (a, s, h)) /\
  list_for_each_prev fuel p (pure_body f) s h = (let '(a, s) := visit p f (rev l) s in Ok (a, s, h)).
Proof.
  intros Hr Hl. split; unfold list_for_each, list_for_each_prev.
  - destruct (ring_follows_next _ _ _ Hr) as [-> Hf]. by apply for_loop_visits.
  - destruct (ring_follows_prev _ _ _ Hr) as [-> Hf]. apply for_loop_visits; [done|]. by rewrite length_rev.
Qed.

(** The loops over structures are those over their nodes. *)
Section Entries.
Context {S : Type} (fuel : nat) (p member : Z) (body : Z -> S -> heap -> outcome (bool * S * heap)).

Definition as_entry (r : outcome (Z * S * heap)) : outcome (Z * S * heap) :=
  '(pos, s, h) ← r; Ok (list_entry pos member, s, h).

Lemma entry_add pos : list_entry pos member + member = pos.
Proof. unfold list_entry. lia. Qed.

Lemma entry_loop get pos : forall s h,
  for_loop fuel (entry_cond p member get) (entry_get member get) body (list_entry pos member) s h
  = as_entry (for_loop fuel (prefetching p get) get (fun a => body (list_entry a member)) pos s h).
Proof.
  revert pos; induction fuel as [|fuel' IH]; intros pos s h; [done|].
  assert (Hc : entry_cond p member get (list_entry pos member) h = prefetching p get pos h) by (unfold entry_cond; by rewrite entry_add).
  cbn [for_loop]. rewrite Hc. destruct (prefetching p get pos h) as [[|]| |]; cbn [mbind outcome_bind]; [|done|done|done].
  destruct (body (list_entry pos member) s h) as [[[break s'] h']| |]; cbn [mbind outcome_bind]; [|done|done].
  destruct break; [done|].
  assert (Hg : entry_get member get (list_entry pos member) h' = (n ← get pos h'; Ok (list_entry n member))) by (unfold entry_get; by rewrite entry_add).
  rewrite Hg. destruct (get pos h') as [n'| |]; cbn [mbind outcome_bind]; [|done|done]. apply IH.
Qed.

Lemma for_each_entry_nodes s h :
  list_for_each_entry fuel p member body s h = as_entry (list_for_each fuel p (fun a => body (list_entry a member)) s h) /\
  list_for_each_entry_reverse fuel p member body s h = as_entry (list_for_each_prev fuel p (fun a => body (list_entry a member)) s h).
Proof.
  unfold list_for_each_entry, list_for_each_entry_reverse, list_first_entry, list_last_entry, list_for_each, list_for_each_prev,
    list_for_each_entry_from.
  split; [destruct (get_next p h)|destruct (get_prev p h)]; cbn [mbind outcome_bind]; try done; apply entry_loop.
Qed.
End Entries.

(** The loop over structures that may take out the structure it is at. *)
Lemma safe_entry_nodes {S} fuel p member (body : Z -> S -> heap -> outcome (bool * S * heap)) get pos s h :
  safe_entry_loop fuel p member get body (list_entry pos member) s h
  = as_entry member (safe_loop fuel p get (fun a => body (list_entry a member)) pos s h).
Proof.
  assert (Hl : forall fuel pos n s h,
    for_loop fuel (fun a _ => Ok (negb (fst a + member =? p))) (fun a h => n ← entry_get member get (snd a) h; Ok (snd a, n)) (fun a => body (fst a))
      (list_entry pos member, list_entry n member) s h
    = ('((pos, n), s, h) ← for_loop fuel (fun a _ => Ok (negb (fst a =? p))) (fun a h => n ← get (snd a) h; Ok (snd a, n))
         (fun a => body (list_entry (fst a) member)) (pos, n) s h; Ok (list_entry pos member, list_entry n member, s, h))).
  { intros fuel'; induction fuel' as [|fuel' IH]; intros pos' n s' h'; [done|]. cbn [for_loop fst snd]. rewrite entry_add.
    destruct (negb (pos' =? p)); cbn [mbind outcome_bind]; [|done].
    destruct (body (list_entry pos' member) s' h') as [[[break s2] h2]| |]; cbn [mbind outcome_bind]; [|done|done].
    destruct break; [done|].
    assert (Hg : entry_get member get (list_entry n member) h2 = (n ← get n h2; Ok (list_entry n member))) by (unfold entry_get; by rewrite entry_add).
    rewrite Hg. destruct (get n h2) as [n2| |]; cbn [mbind outcome_bind]; [|done|done]. apply IH. }
  unfold safe_entry_loop, safe_loop, as_entry.
  assert (Hg : entry_get member get (list_entry pos member) h = (n ← get pos h; Ok (list_entry n member))) by (unfold entry_get; by rewrite entry_add).
  rewrite Hg. destruct (get pos h) as [n| |]; cbn [mbind outcome_bind]; [|done|done]. rewrite Hl.
  by destruct (for_loop _ _ _ _ _ _ _) as [[[[? ?] ?] ?]| |].
Qed.

(** The loop that frees: it knows the next node before the body takes the node out. *)
Lemma safe_loop_deletes {B} (f : Z -> B) body p l :
  (forall a s h, body a s h = (h ← list_del a h; Ok (false, s ++ [f a], h))) -> forall fuel s h, ring h p l -> (length l < fuel)%nat ->
  exists h', safe_loop fuel p get_next body (hd p l) s h = Ok (p, s ++ map f l, h') /\ ring h' p [] /\ only_in (p :: l) h h'.
Proof.
  intros Hbody. unfold safe_loop. induction l as [|a l IH]; intros [|fuel] s h Hr Hl; cbn [length] in Hl; [lia| |lia|].
  - cbn [hd]. rewrite (get_next_at _ _ _ (ring_next _ _ _ Hr)). cbn [mbind outcome_bind for_loop fst hd]. rewrite Z.eqb_refl. cbn [negb mbind outcome_bind].
    cbn [map]. rewrite app_nil_r. by exists h.
  - cbn [hd]. pose proof (ring_entry h p [] a l Hr) as Ha. cbn [app] in Ha.
    pose proof (ring_rotate h p [] a l Hr) as Hrot. rewrite (get_next_at _ _ _ (ring_next _ _ _ Hrot)). cbn [mbind outcome_bind for_loop fst snd].
    rewrite (proj2 (Z.eqb_neq a p)) by set_solver. cbn [negb mbind outcome_bind].
    destruct (list_del_ring h p [] a l Hr) as (h1 & E1 & Hr1 & Ho1 & _). cbn [app] in Hr1, Ho1.
    rewrite Hbody, E1. cbn [mbind outcome_bind].
    destruct (IH fuel (s ++ [f a]) h1 Hr1 ltac:(lia)) as (h' & E & Hr' & Ho').
    assert (hd a (l ++ [p]) = hd p l) as -> by (by destruct l).
    destruct (get_next (hd p l) h1) as [n| |]; cbn [mbind outcome_bind] in E |- *; [|done|done]. exists h'.
    rewrite <-app_assoc in E. split; [exact E|]. split; [done|].
    eapply only_in_trans; [eapply only_in_weaken; [|exact Ho1]|eapply only_in_weaken; [|exact Ho']]; set_solver.
Qed.

(** The body that takes a structure out, and keeps a note of it. *)
Definition del_entry_body (member pos : Z) (s : list Z) (h : heap) : outcome (bool * list Z * heap) :=
  h ← list_del (pos + member) h; Ok (false, s ++ [pos], h).

Lemma for_each_entry_safe_deletes h p member l fuel : ring h p l -> (length l < fuel)%nat ->
  exists h', list_for_each_entry_safe fuel p member (del_entry_body member) [] h
    = Ok (list_entry p member, map (fun a => list_entry a member) l, h') /\ ring h' p [] /\ only_in (p :: l) h h'.
Proof.
  intros Hr Hl. unfold list_for_each_entry_safe, list_first_entry. rewrite (get_next_at _ _ _ (ring_next _ _ _ Hr)). cbn [mbind outcome_bind].
  rewrite safe_entry_nodes.
  destruct (safe_loop_deletes (fun a => list_entry a member) (fun a => del_entry_body member (list_entry a member)) p l) with (fuel := fuel) (s := @nil Z) (h := h)
    as (h' & E & Hr' & Ho); [|done|done|].
  - intros a s h1. unfold del_entry_body. by rewrite entry_add.
  - rewrite E. by exists h'.
Qed.

(** ** Entries as places, and the sorted list *)

Lemma add_at_entry h new p l1 x l2 : ring h p (l1 ++ x :: l2) -> mapped h new -> new ∉ p :: l1 ++ x :: l2 ->
  (exists h', list_add_tail new x h = Ok h' /\ ring h' p (l1 ++ new :: x :: l2) /\ only_in (new :: p :: l1 ++ x :: l2) h h') /\
  (exists h', list_add new x h = Ok h' /\ ring h' p (l1 ++ x :: new :: l2) /\ only_in (new :: p :: l1 ++ x :: l2) h h').
Proof.
  intros Hr Hm Hni. apply ring_rotate in Hr. assert (Hni' : new ∉ x :: l2 ++ p :: l1) by set_solver. split.
  - destruct (list_add_tail_ring h new x _ Hr Hm Hni') as (h' & E & Hr' & Ho). exists h'. split; [done|]. split.
    + rewrite <-app_assoc in Hr'. cbn [app] in Hr'. apply ring_rotate in Hr'. by rewrite <-app_assoc in Hr'.
    + eapply only_in_weaken; [|exact Ho]. set_solver.
  - destruct (list_add_ring h new x _ Hr Hm Hni') as (h' & E & Hr' & Ho). exists h'. split; [done|]. split.
    + exact (ring_rotate h' x (new :: l2) p l1 Hr').
    + eapply only_in_weaken; [|exact Ho]. set_solver.
Qed.

(** Where a sorted insertion goes. *)
Lemma sort_split compare new p l : forall insert,
  (snd (visit p (sort_step compare new) l insert) = insert /\ StateVar.list_add_sort compare new l = l ++ [new]) \/
  exists l1 x l2, l = l1 ++ x :: l2 /\ snd (visit p (sort_step compare new) l insert) = x /\
    StateVar.list_add_sort compare new l = l1 ++ new :: x :: l2.
Proof.
  induction l as [|a l IH]; intros insert; [by left|].
  assert (Hv : visit p (sort_step compare new) (a :: l) insert
    = if compare a new <? 0 then visit p (sort_step compare new) l insert else (a, a)).
  { cbn [visit]. unfold sort_step. by destruct (compare a new <? 0). }
  rewrite Hv. cbn [StateVar.list_add_sort]. destruct (compare a new <? 0); [|right; by exists [], a, l].
  destruct (IH insert) as [[E1 E2]|(l1 & x & l2 & -> & E1 & E2)]; [left; by rewrite E1, E2|right]. exists (a :: l1), x, l2. by rewrite E1, E2.
Qed.

(** The insertion in memory is the insertion into the list of entries. *)
Lemma list_add_sort_ring h new p l compare fuel : ring h p l -> mapped h new -> new ∉ p :: l -> (length l < fuel)%nat ->
  exists h', list_add_sort fuel new p compare h = Ok h' /\ ring h' p (StateVar.list_add_sort compare new l) /\ only_in (new :: p :: l) h h'.
Proof.
  intros Hr Hm Hni Hl. unfold list_add_sort.
  rewrite (proj1 (for_each_visits h p l (sort_step compare new) p fuel Hr Hl)).
  destruct (sort_split compare new p l p) as [[E1 E2]|(l1 & x & l2 & -> & E1 & E2)];
    destruct (visit _ _ _ _) as [a s]; cbn [snd] in E1; subst; cbn [mbind outcome_bind]; rewrite E2.
  - by apply list_add_tail_ring.
  - by apply add_at_entry.
Qed.
