(* ===== verification/ListRefinement.v ===== *)
(** * Lists in memory and lists of entries

    The abstract specification of src/dt/list.h and its refinement. The state of the
    specification is a map from the heads to their entries; its steps are what the
    list functions are for, with what the callers owe them. A heap represents such a
    map when every ring of it is there and no two share a node; then every sequence
    of steps runs on the heap and leads to a heap that represents the result. *)

From S2P Require Import Prelude StateVar LinkedList.

Abbreviation heads := (gmap Z (list Z)).

(** ** Representation *)

(** A node of one of the rings, and a node of none. *)
Definition in_ring (L : heads) (p y : Z) : Prop := exists l, L !! p = Some l /\ y ∈ p :: l.
Definition free (L : heads) (y : Z) : Prop := forall p, ~ in_ring L p y.

(** [A] are the nodes the program has allocated. *)
Record rep (A : gset Z) (h : heap) (L : heads) : Prop := {
  rep_ring : forall p l, L !! p = Some l -> ring h p l;
  rep_apart : forall p q y, in_ring L p y -> in_ring L q y -> p = q;
  rep_mapped : forall y, y ∈ A -> mapped h y;
}.

(** ** The operations *)

Inductive op : Type :=
  | Init (p : Z)
  | Add (new at_ : Z)
  | AddTail (new at_ : Z)
  | AddSort (new p : Z) (compare : Z -> Z -> Z)
  | Del (x : Z)
  | DelInit (x : Z)
  | Replace (old new : Z)
  | ReplaceInit (old new : Z)
  | Move (x p : Z)
  | MoveTail (x p : Z)
  | Splice (x p : Z)
  | SpliceInit (x p : Z).

(** On the heap; a sorted insertion passes at most every node that there is. *)
Definition run_op (o : op) (h : heap) : outcome heap :=
  match o with
  | Init p => INIT_LIST_HEAD p h
  | Add new at_ => list_add new at_ h
  | AddTail new at_ => list_add_tail new at_ h
  | AddSort new p compare => list_add_sort (S (size h)) new p compare h
  | Del x => list_del x h
  | DelInit x => list_del_init x h
  | Replace old new => list_replace old new h
  | ReplaceInit old new => list_replace_init old new h
  | Move x p => list_move x p h
  | MoveTail x p => list_move_tail x p h
  | Splice x p => list_splice x p h
  | SpliceInit x p => list_splice_init x p h
  end.

Fixpoint run_ops (os : list op) (h : heap) : outcome heap :=
  match os with [] => Ok h | o :: os => h ← run_op o h; run_ops os h end.

(** On the lists. A node is added behind or before a head or an entry; a deleted node
    is free again; the head whose entries were spliced away is free, unless it had
    none. *)
Inductive step (A : gset Z) (L : heads) : op -> heads -> Prop :=
  | step_init p : p ∈ A -> free L p -> step A L (Init p) (<[p := []]> L)
  | step_add x p l : x ∈ A -> free L x -> L !! p = Some l -> step A L (Add x p) (<[p := x :: l]> L)
  | step_add_after x p l1 y l2 : x ∈ A -> free L x -> L !! p = Some (l1 ++ y :: l2) ->
      step A L (Add x y) (<[p := l1 ++ y :: x :: l2]> L)
  | step_add_tail x p l : x ∈ A -> free L x -> L !! p = Some l -> step A L (AddTail x p) (<[p := l ++ [x]]> L)
  | step_add_before x p l1 y l2 : x ∈ A -> free L x -> L !! p = Some (l1 ++ y :: l2) ->
      step A L (AddTail x y) (<[p := l1 ++ x :: y :: l2]> L)
  | step_add_sort x p l compare : x ∈ A -> free L x -> L !! p = Some l ->
      step A L (AddSort x p compare) (<[p := StateVar.list_add_sort compare x l]> L)
  | step_del p l1 x l2 : L !! p = Some (l1 ++ x :: l2) -> step A L (Del x) (<[p := l1 ++ l2]> L)
  | step_del_init p l1 x l2 : L !! p = Some (l1 ++ x :: l2) -> step A L (DelInit x) (<[x := []]> (<[p := l1 ++ l2]> L))
  | step_replace old new l : new ∈ A -> free L new -> L !! old = Some l ->
      step A L (Replace old new) (<[new := l]> (delete old L))
  | step_replace_entry p l1 old l2 new : new ∈ A -> free L new -> L !! p = Some (l1 ++ old :: l2) ->
      step A L (Replace old new) (<[p := l1 ++ new :: l2]> L)
  | step_replace_init old new l : new ∈ A -> free L new -> L !! old = Some l ->
      step A L (ReplaceInit old new) (<[new := l]> (<[old := []]> L))
  | step_replace_init_entry p l1 old l2 new : new ∈ A -> free L new -> L !! p = Some (l1 ++ old :: l2) ->
      step A L (ReplaceInit old new) (<[old := []]> (<[p := l1 ++ new :: l2]> L))
  | step_move p l1 x l2 : L !! p = Some (l1 ++ x :: l2) -> step A L (Move x p) (<[p := x :: l1 ++ l2]> L)
  | step_move_to p l1 x l2 q l : L !! p = Some (l1 ++ x :: l2) -> L !! q = Some l -> p <> q ->
      step A L (Move x q) (<[q := x :: l]> (<[p := l1 ++ l2]> L))
  | step_move_tail p l1 x l2 : L !! p = Some (l1 ++ x :: l2) -> step A L (MoveTail x p) (<[p := (l1 ++ l2) ++ [x]]> L)
  | step_move_tail_to p l1 x l2 q l : L !! p = Some (l1 ++ x :: l2) -> L !! q = Some l -> p <> q ->
      step A L (MoveTail x q) (<[q := l ++ [x]]> (<[p := l1 ++ l2]> L))
  | step_splice x l1 p l2 : L !! x = Some l1 -> L !! p = Some l2 -> x <> p ->
      step A L (Splice x p) (if decide (l1 = []) then L else <[p := l1 ++ l2]> (delete x L))
  | step_splice_init x l1 p l2 : L !! x = Some l1 -> L !! p = Some l2 -> x <> p ->
      step A L (SpliceInit x p) (<[x := []]> (<[p := l1 ++ l2]> L)).

Inductive steps (A : gset Z) : heads -> list op -> heads -> Prop :=
  | steps_nil L : steps A L [] L
  | steps_cons L o L1 os L2 : step A L o L1 -> steps A L1 os L2 -> steps A L (o :: os) L2.

(** What the loops of the program see of a list. *)
Definition seen (h : heap) (p : Z) : outcome (list Z) :=
  '(_, s, _) ← list_for_each (S (size h)) p (pure_body (fun a s => (false, s ++ [a]))) [] h; Ok s.
Definition seen_prev (h : heap) (p : Z) : outcome (list Z) :=
  '(_, s, _) ← list_for_each_prev (S (size h)) p (pure_body (fun a s => (false, s ++ [a]))) [] h; Ok s.

(** ** Rings that change and rings that stay *)

Lemma in_ring_at L p l y : L !! p = Some l -> in_ring L p y <-> y ∈ p :: l.
Proof. intros E. split; [intros (k & E2 & Hy); congruence|intros Hy; by exists l]. Qed.
Lemma in_ring_insert L p l q y : in_ring (<[p := l]> L) q y <-> (q = p /\ y ∈ p :: l) \/ (q <> p /\ in_ring L q y).
Proof.
  destruct (decide (q = p)) as [->|Hne].
  - rewrite (in_ring_at _ p l) by apply lookup_insert_eq. naive_solver.
  - unfold in_ring. rewrite lookup_insert_ne by done. naive_solver.
Qed.
Lemma in_ring_delete L p q y : in_ring (delete p L) q y <-> q <> p /\ in_ring L q y.
Proof.
  unfold in_ring. destruct (decide (q = p)) as [->|Hne]; [rewrite lookup_delete_eq|rewrite lookup_delete_ne by done]; naive_solver.
Qed.
Lemma ring_not_free A h L p y : rep A h L -> in_ring L p y -> mapped h y.
Proof. intros Hrep (l & E & Hy). eapply ring_mapped; [by eapply rep_ring|done]. Qed.

(** What an operation that touches the nodes of [T] has to show: the rings of the
    result are rings it left alone, or rings within [T] that are there now. *)
Lemma rep_update A h h' L L' T : rep A h L -> only_in T h h' ->
  (forall p l, L' !! p = Some l -> (L !! p = Some l /\ forall y, y ∈ p :: l -> y ∉ T) \/ (ring h' p l /\ forall y, y ∈ p :: l -> y ∈ T)) ->
  (forall p q y, in_ring L' p y -> in_ring L' q y -> y ∈ T -> p = q) -> rep A h' L'.
Proof.
  intros Hrep Ho HL Hap. split.
  - intros p l E. destruct (HL p l E) as [[E2 Hn]|[Hr _]]; [|done].
    eapply ring_same; [by eapply rep_ring|]. intros y Hy. by apply Ho, Hn.
  - intros p q y Hp Hq. destruct (decide (y ∈ T)) as [Hy|Hy]; [by eapply Hap|].
    assert (Hold : forall r, in_ring L' r y -> in_ring L r y).
    { intros r (l & E & Hin). destruct (HL r l E) as [[E2 _]|[_ Ht]]; [by exists l|]. by destruct Hy; apply Ht. }
    by eapply (rep_apart _ _ _ Hrep); apply Hold.
  - intros y Hy. apply Ho. by eapply rep_mapped.
Qed.

Lemma rep_delete A h L p : rep A h L -> rep A h (delete p L).
Proof.
  intros [Hr Ha Hm]. split; [|intros q r y [_ Hq]%in_ring_delete [_ Hr2]%in_ring_delete; by eapply Ha|done].
  intros q l E. apply lookup_delete_Some in E as [_ E]. by apply Hr.
Qed.

(** The one ring or the two rings that an operation changes. *)
Lemma rep_one A h h' L T p l : rep A h L -> only_in T h h' -> ring h' p l -> (forall y, y ∈ p :: l -> y ∈ T) ->
  (forall y, y ∈ T -> free L y \/ in_ring L p y) -> rep A h' (<[p := l]> L).
Proof.
  intros Hrep Ho Hr Hin Hold. eapply rep_update; [exact Hrep|exact Ho| |].
  - intros q k E. apply lookup_insert_Some in E as [[<- <-]|[Hne E]]; [by right|left]. split; [done|]. intros y Hy Ht.
    destruct (Hold y Ht) as [Hf|Hp]; [by apply (Hf q); exists k|]. apply Hne. eapply (rep_apart _ _ _ Hrep); [exact Hp|by exists k].
  - intros q r y Hq Hr2 Ht.
    assert (Hhead : forall r, in_ring (<[p := l]> L) r y -> r = p).
    { intros s [[-> _]|[Hne Hs]]%in_ring_insert; [done|]. destruct (Hold y Ht) as [Hf|Hp]; [by apply Hf in Hs|].
      by eapply (rep_apart _ _ _ Hrep). }
    by rewrite (Hhead q Hq), (Hhead r Hr2).
Qed.

Lemma rep_two A h h' L T p l q k : rep A h L -> only_in T h h' -> ring h' p l -> ring h' q k ->
  (forall y, y ∈ p :: l -> y ∈ T /\ y ∉ q :: k) -> (forall y, y ∈ q :: k -> y ∈ T) ->
  (forall y, y ∈ T -> free L y \/ in_ring L p y \/ in_ring L q y) -> rep A h' (<[q := k]> (<[p := l]> L)).
Proof.
  intros Hrep Ho Hp Hq Hpin Hqin Hold. eapply rep_update; [exact Hrep|exact Ho| |].
  - intros r j E. apply lookup_insert_Some in E as [[<- <-]|[Hneq E]]; [by right|].
    apply lookup_insert_Some in E as [[<- <-]|[Hnep E]]; [right; split; [done|]; apply Hpin|left]. split; [done|]. intros y Hy Ht.
    destruct (Hold y Ht) as [Hf|[Hy2|Hy2]]; [by apply (Hf r); exists j|apply Hnep|apply Hneq];
      (eapply (rep_apart _ _ _ Hrep); [exact Hy2|by exists j]).
  - intros r s y Hr Hs Ht. assert (Hpq : p <> q). { intros ->. apply (Hpin q); by left. }
    assert (Hhead : forall r, in_ring (<[q := k]> (<[p := l]> L)) r y -> r = if decide (y ∈ q :: k) then q else p).
    { intros r' [[-> Hy]|[Hne Hr']]%in_ring_insert; [by rewrite decide_True|].
      apply in_ring_insert in Hr' as [[-> Hy]|[Hne2 Hr']]; [rewrite decide_False by (by apply Hpin); done|].
      destruct (Hold y Ht) as [Hf|[Hy|Hy]]; [by apply Hf in Hr'|by destruct Hne2; eapply (rep_apart _ _ _ Hrep)|
        by destruct Hne; eapply (rep_apart _ _ _ Hrep)]. }
    by rewrite (Hhead r Hr), (Hhead s Hs).
Qed.

(** Nodes of the rings of two heads are different nodes. *)
Lemma rep_disjoint A h L p l q k : rep A h L -> L !! p = Some l -> L !! q = Some k -> p <> q -> forall y, y ∈ p :: l -> y ∉ q :: k.
Proof. intros Hrep Ep Eq Hne y Hp Hq. apply Hne. eapply (rep_apart _ _ _ Hrep); [by exists l|by exists k]. Qed.
Lemma free_not_in L p l x : free L x -> L !! p = Some l -> x ∉ p :: l.
Proof. intros Hf E Hin. apply (Hf p). by exists l. Qed.

(** No ring has more nodes than there are. *)
Lemma ring_size h p l : ring h p l -> (length l < size h)%nat.
Proof.
  intros Hr. assert (Hd : list_to_set (p :: l) ⊆ dom h).
  { intros y Hy. apply elem_of_list_to_set in Hy. apply elem_of_dom. by eapply ring_mapped. }
  apply subseteq_size in Hd. rewrite size_list_to_set in Hd by apply Hr. rewrite size_dom in Hd. cbn [length] in Hd. lia.
Qed.

(** ** Each operation does its step *)

Definition refines (A : gset Z) (h : heap) (L : heads) (o : op) (L' : heads) : Prop := exists h', run_op o h = Ok h' /\ rep A h' L'.

Section Steps.
Context (A : gset Z) (h : heap) (L : heads).
Hypothesis (Hrep : rep A h L).

(** One ring changes, and besides its nodes at most [x] is touched. *)
Lemma changes_ring o p l x l' : L !! p = Some l -> (free L x \/ x ∈ p :: l) -> (forall y, y ∈ l' -> y = x \/ y ∈ p :: l) ->
  (exists h', run_op o h = Ok h' /\ ring h' p l' /\ only_in (x :: p :: l) h h') -> refines A h L o (<[p := l']> L).
Proof.
  intros E Hx Hl (h' & Ho & Hr & Hin). exists h'. split; [done|]. eapply rep_one; [exact Hrep|exact Hin|done| |].
  - intros y Hy. apply elem_of_cons in Hy as [->|Hy]; [right; by left|]. destruct (Hl y Hy) as [->|]; [by left|by right].
  - intros y Hy. rewrite (in_ring_at L p l y E). apply elem_of_cons in Hy as [->|Hy]; [done|by right].
Qed.

Lemma init_refines p : mapped h p -> free L p -> refines A h L (Init p) (<[p := []]> L).
Proof.
  intros Hm Hf. destruct (init_ring h p Hm) as (h' & E & Hr & Ho). exists h'. split; [done|].
  eapply rep_one; [exact Hrep|exact Ho|done|done|]. intros y Hy%list_elem_of_singleton. subst. by left.
Qed.

Lemma add_refines x p l : x ∈ A -> free L x -> L !! p = Some l ->
  refines A h L (Add x p) (<[p := x :: l]> L) /\ refines A h L (AddTail x p) (<[p := l ++ [x]]> L) /\
  forall compare, refines A h L (AddSort x p compare) (<[p := StateVar.list_add_sort compare x l]> L).
Proof.
  intros Hx Hf E. pose proof (rep_ring _ _ _ Hrep p l E) as Hr. pose proof (rep_mapped _ _ _ Hrep x Hx) as Hm.
  pose proof (free_not_in L p l x Hf E) as Hni. split; [|split; [|intros compare]]; eapply changes_ring; eauto.
  - set_solver.
  - by apply list_add_ring.
  - set_solver.
  - by apply list_add_tail_ring.
  - intros y Hy. destruct (sort_split compare x p l p) as [[_ Es]|(l1 & z & l2 & -> & _ & Es)]; rewrite Es in Hy; set_solver.
  - cbn [run_op]. apply list_add_sort_ring; [done|done|done|]. pose proof (ring_size h p l Hr). lia.
Qed.

Lemma add_at_refines x p l1 y l2 : x ∈ A -> free L x -> L !! p = Some (l1 ++ y :: l2) ->
  refines A h L (Add x y) (<[p := l1 ++ y :: x :: l2]> L) /\ refines A h L (AddTail x y) (<[p := l1 ++ x :: y :: l2]> L).
Proof.
  intros Hx Hf E. pose proof (rep_ring _ _ _ Hrep p _ E) as Hr. pose proof (rep_mapped _ _ _ Hrep x Hx) as Hm.
  pose proof (free_not_in L p _ x Hf E) as Hni.
  split; eapply changes_ring; eauto; first [by apply add_at_entry|intros z Hz; clear -Hz; set_solver].
Qed.

Lemma del_refines p l1 x l2 : L !! p = Some (l1 ++ x :: l2) -> refines A h L (Del x) (<[p := l1 ++ l2]> L).
Proof.
  intros E. pose proof (rep_ring _ _ _ Hrep p _ E) as Hr. eapply (changes_ring _ p _ x); [exact E|right; set_solver|set_solver|].
  destruct (list_del_ring h p l1 x l2 Hr) as (h' & E' & Hr' & Ho & _). exists h'. split; [done|]. split; [done|].
  eapply only_in_weaken; [|exact Ho]. clear. set_solver.
Qed.

Lemma move_refines p l1 x l2 : L !! p = Some (l1 ++ x :: l2) ->
  refines A h L (Move x p) (<[p := x :: l1 ++ l2]> L) /\ refines A h L (MoveTail x p) (<[p := (l1 ++ l2) ++ [x]]> L).
Proof.
  intros E. pose proof (rep_ring _ _ _ Hrep p _ E) as Hr.
  split; (eapply (changes_ring _ p _ x); [exact E|right; clear; set_solver|intros y Hy; clear -Hy; set_solver|]).
  - destruct (move_within h p l1 x l2 Hr false) as (h' & E' & Hr' & Ho). exists h'. split; [done|]. split; [done|].
    eapply only_in_weaken; [|exact Ho]. clear. set_solver.
  - destruct (move_within h p l1 x l2 Hr true) as (h' & E' & Hr' & Ho). exists h'. split; [done|]. split; [done|].
    eapply only_in_weaken; [|exact Ho]. clear. set_solver.
Qed.

Lemma replace_entry_refines p l1 old l2 new : new ∈ A -> free L new -> L !! p = Some (l1 ++ old :: l2) ->
  refines A h L (Replace old new) (<[p := l1 ++ new :: l2]> L).
Proof.
  intros Hx Hf E. pose proof (rep_ring _ _ _ Hrep p _ E) as Hr. pose proof (rep_mapped _ _ _ Hrep new Hx) as Hm.
  pose proof (free_not_in L p _ new Hf E) as Hni. eapply (changes_ring _ p _ new); [exact E|by left|intros y Hy; clear -Hy; set_solver|].
  apply ring_rotate in Hr. destruct (list_replace_ring h old new _ Hr Hm) as (h' & E' & Hr' & Ho); [clear -Hni; set_solver|].
  exists h'. split; [done|]. split; [by apply ring_rotate in Hr'|]. eapply only_in_weaken; [|exact Ho]. clear. set_solver.
Qed.

Lemma replace_refines old new l : new ∈ A -> free L new -> L !! old = Some l ->
  refines A h L (Replace old new) (<[new := l]> (delete old L)).
Proof.
  intros Hx Hf E. pose proof (rep_ring _ _ _ Hrep old _ E) as Hr. pose proof (rep_mapped _ _ _ Hrep new Hx) as Hm.
  pose proof (free_not_in L old _ new Hf E) as Hni. destruct (list_replace_ring h old new l Hr Hm Hni) as (h' & E' & Hr' & Ho).
  exists h'. split; [done|]. eapply rep_one; [by apply rep_delete|exact Ho|done| |].
  - intros y Hy. clear -Hy. set_solver.
  - intros y Hy. left. intros q [Hne Hq]%in_ring_delete. apply elem_of_cons in Hy as [->|Hy]; [by apply (Hf q)|].
    apply Hne. eapply (rep_apart _ _ _ Hrep); [exact Hq|by exists l].
Qed.

Lemma del_init_refines p l1 x l2 : L !! p = Some (l1 ++ x :: l2) ->
  refines A h L (DelInit x) (<[x := []]> (<[p := l1 ++ l2]> L)).
Proof.
  intros E. pose proof (rep_ring _ _ _ Hrep p _ E) as Hr. pose proof (ring_entry h p l1 x l2 Hr) as Hx.
  destruct (list_del_init_ring h p l1 x l2 Hr) as (h' & E' & Hr' & Hx' & Ho). exists h'. split; [done|].
  eapply rep_two; [exact Hrep|exact Ho|done|done| | |].
  - intros y Hy. split; [by right|]. intros ->%list_elem_of_singleton. done.
  - intros y ->%list_elem_of_singleton. by left.
  - intros y Hy. right; left. rewrite (in_ring_at L p _ y E). clear -Hy. set_solver.
Qed.

Lemma move_to_refines p l1 x l2 q l : L !! p = Some (l1 ++ x :: l2) -> L !! q = Some l -> p <> q ->
  refines A h L (Move x q) (<[q := x :: l]> (<[p := l1 ++ l2]> L)) /\
  refines A h L (MoveTail x q) (<[q := l ++ [x]]> (<[p := l1 ++ l2]> L)).
Proof.
  intros Ep Eq Hpq. pose proof (rep_ring _ _ _ Hrep p _ Ep) as Hr. pose proof (rep_ring _ _ _ Hrep q _ Eq) as Hq.
  pose proof (rep_disjoint _ _ _ _ _ _ _ Hrep Ep Eq Hpq) as Hd. pose proof (ring_entry h p l1 x l2 Hr) as Hx.
  assert (Hold : forall y, y ∈ x :: q :: l ++ p :: l1 ++ l2 -> free L y \/ in_ring L p y \/ in_ring L q y).
  { intros y Hy. right. rewrite (in_ring_at L p _ y Ep), (in_ring_at L q _ y Eq). clear -Hy. set_solver. }
  assert (Hnew : forall y, y ∈ p :: l1 ++ l2 -> y ∈ x :: q :: l ++ p :: l1 ++ l2 /\ y ∉ q :: l /\ y <> x).
  { intros y Hy. split; [clear -Hy; set_solver|]. split; [apply Hd; clear -Hy; set_solver|by intros ->]. }
  assert (Hm : forall tail, exists h', run_op (if tail : bool then MoveTail x q else Move x q) h = Ok h' /\
    rep A h' (<[q := if tail then l ++ [x] else x :: l]> (<[p := l1 ++ l2]> L))).
  { intros tail. destruct (move_across h p l1 x l2 Hr tail q l Hq) as (h' & E' & Hr' & Hq' & Ho); [by intros y Hy Hy2; apply (Hd y)|].
    exists h'. split; [by destruct tail|]. eapply rep_two; [exact Hrep|exact Ho|done|done| | |exact Hold].
    - intros y Hy. destruct (Hnew y Hy) as (H1 & H2 & H3). split; [done|]. clear -H2 H3. destruct tail; set_solver.
    - intros y Hy. clear -Hy. destruct tail; set_solver. }
  split; [apply (Hm false)|apply (Hm true)].
Qed.

Lemma splice_refines x l1 p l2 : L !! x = Some l1 -> L !! p = Some l2 -> x <> p ->
  refines A h L (Splice x p) (if decide (l1 = []) then L else <[p := l1 ++ l2]> (delete x L)).
Proof.
  intros Ex Ep Hne. pose proof (rep_ring _ _ _ Hrep x _ Ex) as Hx. pose proof (rep_ring _ _ _ Hrep p _ Ep) as Hp.
  destruct (decide (l1 = [])) as [->|_].
  { exists h. split; [|done]. cbn [run_op]. unfold list_splice. by rewrite (ring_empty _ _ _ Hx). }
  destruct (list_splice_ring h x l1 p l2 Hx Hp) as (h' & E' & Hr' & Ho); [by eapply rep_disjoint|].
  exists h'. split; [done|]. eapply rep_one; [by apply rep_delete|exact Ho|done|done|].
  intros y Hy. assert (y ∈ x :: l1 \/ y ∈ p :: l2) as [Hin|Hin] by (clear -Hy; set_solver).
  - left. intros q [Hq Hq2]%in_ring_delete. apply Hq. eapply (rep_apart _ _ _ Hrep); [exact Hq2|by exists l1].
  - right. apply in_ring_delete. split; [done|]. by exists l2.
Qed.

Lemma splice_init_refines x l1 p l2 : L !! x = Some l1 -> L !! p = Some l2 -> x <> p ->
  refines A h L (SpliceInit x p) (<[x := []]> (<[p := l1 ++ l2]> L)).
Proof.
  intros Ex Ep Hne. pose proof (rep_ring _ _ _ Hrep x _ Ex) as Hx. pose proof (rep_ring _ _ _ Hrep p _ Ep) as Hp.
  pose proof (rep_disjoint _ _ _ _ _ _ _ Hrep Ex Ep Hne) as Hd.
  destruct (list_splice_init_ring h x l1 p l2 Hx Hp Hd) as (h' & E' & Hr' & Hx' & Ho).
  exists h'. split; [done|]. eapply rep_two; [exact Hrep|exact Ho|done|done| | |].
  - intros y Hy. split; [by right|]. intros ->%list_elem_of_singleton.
    destruct Hx as [Hnx _]. apply list.NoDup_cons in Hnx as [Hnx _].
    apply elem_of_cons in Hy as [->|Hy]; [done|]. apply list.elem_of_app in Hy as [Hy|Hy]; [done|]. apply (Hd x); [by left|by right].
  - intros y ->%list_elem_of_singleton. by left.
  - intros y Hy. right. rewrite (in_ring_at L x _ y Ex), (in_ring_at L p _ y Ep). clear -Hy. set_solver.
Qed.

End Steps.

(** No store takes a node away. *)
Lemma set_next_mapped p v h h' y : set_next p v h = Ok h' -> mapped h y -> mapped h' y.
Proof. unfold set_next. intros (n & En & [= <-])%bind_ok [m Hm]. apply lookup_insert_is_Some'. right. by eexists. Qed.
Lemma set_prev_mapped p v h h' y : set_prev p v h = Ok h' -> mapped h y -> mapped h' y.
Proof. unfold set_prev. intros (n & En & [= <-])%bind_ok [m Hm]. apply lookup_insert_is_Some'. right. by eexists. Qed.

Lemma list_replace_mapped old new h h' y : list_replace old new h = Ok h' -> mapped h y -> mapped h' y.
Proof.
  unfold list_replace. intros H Hy.
  do 7 (apply bind_ok in H as (? & ?E & H)). eauto 10 using set_next_mapped, set_prev_mapped.
Qed.

(** A replaced node that is a head again. *)
Lemma replace_init_refines A h L old new L1 : mapped h old -> refines A h L (Replace old new) L1 -> free L1 old ->
  refines A h L (ReplaceInit old new) (<[old := []]> L1).
Proof.
  intros Hm (h1 & E1 & Hrep1) Hf. cbn [run_op] in E1.
  destruct (init_refines A h1 L1 Hrep1 old) as (h2 & E2 & Hrep2); [by eapply list_replace_mapped|done|].
  exists h2. split; [|done]. cbn [run_op] in *. unfold list_replace_init. by rewrite E1.
Qed.

Lemma replace_inits A h L old new l : rep A h L -> new ∈ A -> free L new -> L !! old = Some l ->
  refines A h L (ReplaceInit old new) (<[new := l]> (<[old := []]> L)).
Proof.
  intros Hrep Hx Hf E. pose proof (free_not_in L old l new Hf E) as Hni.
  rewrite <-(insert_delete_eq L old []), insert_insert_ne by (clear -Hni; set_solver). apply replace_init_refines.
  - eapply ring_not_free; [exact Hrep|]. exists l. split; [done|by left].
  - by apply replace_refines.
  - intros q [[-> Hq]|[_ [Hne Hq]%in_ring_delete]]%in_ring_insert.
    + apply elem_of_cons in Hq as [->|Hq]; [by apply Hni; left|]. destruct (rep_ring _ _ _ Hrep old l E) as [Hnd _].
      by apply list.NoDup_cons in Hnd as [? _].
    + apply Hne. eapply (rep_apart _ _ _ Hrep); [exact Hq|exists l; split; [done|by left]].
Qed.

Lemma replace_init_entry A h L p l1 old l2 new : rep A h L -> new ∈ A -> free L new -> L !! p = Some (l1 ++ old :: l2) ->
  refines A h L (ReplaceInit old new) (<[old := []]> (<[p := l1 ++ new :: l2]> L)).
Proof.
  intros Hrep Hx Hf E. pose proof (free_not_in L p _ new Hf E) as Hni.
  assert (Hin : in_ring L p old) by (eexists; split; [exact E|]; clear; set_solver). apply replace_init_refines.
  - by eapply ring_not_free.
  - by apply replace_entry_refines.
  - pose proof (ring_entry _ _ _ _ _ (rep_ring _ _ _ Hrep p _ E)) as Ho.
    intros q [[-> Hq]|[Hne Hq]]%in_ring_insert; [clear -Hq Ho Hni; set_solver|].
    apply Hne. by eapply (rep_apart _ _ _ Hrep).
Qed.

Lemma step_refines A h L o L' : rep A h L -> step A L o L' -> refines A h L o L'.
Proof.
  intros Hrep Hs. destruct Hs;
    eauto using del_refines, del_init_refines, replace_refines, replace_entry_refines, replace_inits, replace_init_entry,
      splice_refines, splice_init_refines.
  - apply init_refines; [done| |done]. by eapply rep_mapped.
  - by apply add_refines.
  - by apply add_at_refines.
  - by apply add_refines.
  - by apply add_at_refines.
  - by apply add_refines.
  - by apply move_refines.
  - by apply move_to_refines.
  - by apply move_refines.
  - by apply move_to_refines.
Qed.

Lemma visit_collects p l s : visit p (fun (a : Z) s => (false, s ++ [a])) l s = (p, s ++ l).
Proof. revert s; induction l as [|a l IH]; intros s; [by rewrite app_nil_r|]. cbn [visit]. by rewrite IH, <-app_assoc. Qed.

(** The loops see the entries in order, and in the opposite order. *)
Lemma rep_seen A h L p l : rep A h L -> L !! p = Some l -> seen h p = Ok l /\ seen_prev h p = Ok (rev l).
Proof.
  intros Hrep E. pose proof (rep_ring _ _ _ Hrep p l E) as Hr. pose proof (ring_size h p l Hr).
  destruct (for_each_visits h p l (fun a s => (false, s ++ [a])) [] (S (size h)) Hr ltac:(lia)) as [H1 H2].
  unfold seen, seen_prev. rewrite H1, H2, !visit_collects. done.
Qed.

Lemma steps_refine A os : forall h L L', rep A h L -> steps A L os L' -> exists h', run_ops os h = Ok h' /\ rep A h' L'.
Proof.
  induction os as [|o os IH]; intros h L L' Hrep Hs; inversion Hs as [|? ? L1 ? ? H1 H2]; subst; [by exists h|].
  destruct (step_refines A h L o L1 Hrep H1) as (h1 & E1 & Hrep1). cbn [run_ops]. rewrite E1. cbn [mbind outcome_bind]. by eapply IH.
Qed.

(** C36: The list functions of dt/list.h implement lists of entries: from a heap that
    holds some lists, every sequence of permitted operations (initialising, adding at
    either end or next to an entry, sorted insertion, deleting, replacing, moving and
    splicing) runs without an undefined access, leaves a heap that holds exactly the
    lists the sequence stands for, and both loops over a list then see its entries
    in order and in the opposite order. *)
Theorem list_ops_refine A h L os L' : rep A h L -> steps A L os L' ->
  exists h', run_ops os h = Ok h' /\ rep A h' L' /\
    forall p l, L' !! p = Some l -> seen h' p = Ok l /\ seen_prev h' p = Ok (rev l).
Proof.
  intros Hrep Hs. destruct (steps_refine A os h L L' Hrep Hs) as (h' & E & Hrep'). exists h'. split; [exact E|]. split; [exact Hrep'|].
  intros p l El. by eapply rep_seen.
Qed.

(** ** An example *)

Lemma free_compute (L : heads) y : bool_decide (map_Forall (fun p l => y ∉ p :: l) L) = true -> free L y.
Proof. intros H%bool_decide_eq_true p (l & E & Hy). exact (H p l E Hy). Qed.

Definition ex_nodes : list Z := [100; 200; 1; 2; 3; 4; 5].
Definition ex_heap : heap := list_to_map ((fun q => (q, ListHead 0 0)) <$> ex_nodes).
Definition ex_ops : list op :=
  [Init 100; Init 200; Add 2 100; AddTail 4 100; AddSort 3 100 Z.sub; AddTail 1 2; Replace 4 5; MoveTail 2 200; DelInit 3; Splice 200 100].
Definition ex_lists : heads := {[100 := [2; 1; 5]; 3 := []]}.

Lemma ex_rep : rep (list_to_set ex_nodes) ex_heap ∅.
Proof.
  split.
  - done.
  - intros p q y (l & E & _). done.
  - intros y Hy%elem_of_list_to_set. assert (H : Forall (fun y => is_Some (ex_heap !! y)) ex_nodes) by evaluate.
    exact (proj1 (list.Forall_forall _ _) H y Hy).
Qed.

(** One step at a time; the map it leads to is evaluated. *)
Lemma steps_next A L o L1 L1' os L2 : step A L o L1 -> L1 = L1' -> steps A L1' os L2 -> steps A L (o :: os) L2.
Proof. intros H <- Hs. by eapply steps_cons. Qed.
Ltac allocated := apply elem_of_list_to_set; evaluate.
Ltac apart := apply free_compute; vm_compute; reflexivity.

Lemma ex_steps : steps (list_to_set ex_nodes) ∅ ex_ops ex_lists.
Proof.
  eapply (steps_next _ _ _ _ {[100 := []]}); [apply step_init; [allocated|apart]|reflexivity|].
  eapply (steps_next _ _ _ _ {[100 := []; 200 := []]}); [apply step_init; [allocated|apart]|reflexivity|].
  eapply (steps_next _ _ _ _ {[100 := [2]; 200 := []]}); [eapply step_add; [allocated|apart|reflexivity]|reflexivity|].
  eapply (steps_next _ _ _ _ {[100 := [2; 4]; 200 := []]}); [eapply step_add_tail; [allocated|apart|reflexivity]|reflexivity|].
  eapply (steps_next _ _ _ _ {[100 := [2; 3; 4]; 200 := []]}); [eapply step_add_sort; [allocated|apart|reflexivity]|reflexivity|].
  eapply (steps_next _ _ _ _ {[100 := [1; 2; 3; 4]; 200 := []]});
    [eapply (step_add_before _ _ 1 100 [] 2 [3; 4]); [allocated|apart|reflexivity]|reflexivity|].
  eapply (steps_next _ _ _ _ {[100 := [1; 2; 3; 5]; 200 := []]});
    [eapply (step_replace_entry _ _ 100 [1; 2; 3] 4 []); [allocated|apart|reflexivity]|reflexivity|].
  eapply (steps_next _ _ _ _ {[100 := [1; 3; 5]; 200 := [2]]});
    [eapply (step_move_tail_to _ _ 100 [1] 2 [3; 5] 200 []); [reflexivity|reflexivity|discriminate]|reflexivity|].
  eapply (steps_next _ _ _ _ {[100 := [1; 5]; 200 := [2]; 3 := []]});
    [eapply (step_del_init _ _ 100 [1] 3 [5]); reflexivity|reflexivity|].
  eapply (steps_next _ _ _ _ ex_lists); [eapply (step_splice _ _ 200 [2] 100 [1; 5]); [reflexivity|reflexivity|discriminate]|reflexivity|].
  apply steps_nil.
Qed.

Lemma list_ops_refine_witness : exists h', run_ops ex_ops ex_heap = Ok h' /\
  rep (list_to_set ex_nodes) h' ex_lists /\ seen h' 100 = Ok [2; 1; 5] /\ seen_prev h' 100 = Ok [5; 1; 2].
Proof.
  destruct (list_ops_refine (list_to_set ex_nodes) ex_heap ∅ ex_ops ex_lists ex_rep ex_steps) as (h' & E & Hrep & Hs).
  exists h'. split; [exact E|]. split; [exact Hrep|]. exact (Hs 100 [2; 1; 5] eq_refl).
Defined.

(** C37: The loop that frees a list (list_for_each_entry_safe with a body that deletes
    the structure it is at) terminates after one round for each entry: it passes
    every structure once, in order, reads no pointer of a deleted one, and leaves
    the list empty and all other lists as they were. *)
Theorem safe_loop_frees A h L p l member : rep A h L -> L !! p = Some l ->
  exists h', list_for_each_entry_safe (S (length l)) p member (del_entry_body member) [] h
    = Ok (list_entry p member, map (fun a => list_entry a member) l, h') /\ rep A h' (<[p := []]> L).
Proof.
  intros Hrep E. pose proof (rep_ring _ _ _ Hrep p l E) as Hr.
  destruct (for_each_entry_safe_deletes h p member l (S (length l)) Hr) as (h' & El & Hr' & Ho); [lia|].
  exists h'. split; [done|]. eapply rep_one; [exact Hrep|exact Ho|done| |].
  - intros y ->%list_elem_of_singleton. by left.
  - intros y Hy. right. by apply (in_ring_at L p l).
Qed.

(** The list of the example, of structures whose node is at offset 8. *)
Lemma safe_loop_frees_witness : exists h h', run_ops ex_ops ex_heap = Ok h /\
  list_for_each_entry_safe 4 100 8 (del_entry_body 8) [] h = Ok (92, [-6; -7; -3], h') /\ rep (list_to_set ex_nodes) h' (<[100 := []]> ex_lists).
Proof.
  destruct (steps_refine _ _ _ _ _ ex_rep ex_steps) as (h & E & Hrep).
  destruct (safe_loop_frees _ h ex_lists 100 [2; 1; 5] 8 Hrep eq_refl) as (h' & El & Hrep').
  exists h, h'. split; [exact E|]. split; [exact El|exact Hrep'].
Defined.
