(* ===== verification/HList.v ===== *)
(** * Lists with a single pointer as their head (src/dt/list.h)

    The hlist functions on memory: a map from addresses to words. A head is a word, the
    address of the first node; a node is two words, the address of the next one and,
    behind it, the address of the word that points at the node. The program does not use
    these lists; the theorems say that the functions keep them in order. *)

From S2P Require Import Prelude LinkedList.

(** ** Memory *)

Abbreviation memory := (gmap Z Z).
Definition NULL : Z := 0.
(** The word [pprev] of a node, behind [next]. *)
Definition pprev_of (n : Z) : Z := n + 8.

Definition load (a : Z) (m : memory) : outcome Z := of_option (m !! a).
Definition store (a v : Z) (m : memory) : outcome memory := _ ← load a m; Ok (<[a := v]> m).

(** ** The functions *)

Definition INIT_HLIST_NODE (h : Z) (m : memory) : outcome memory := m ← store h NULL m; store (pprev_of h) NULL m.
Definition hlist_unhashed (h : Z) (m : memory) : outcome bool := p ← load (pprev_of h) m; Ok (p =? NULL).
Definition hlist_empty (h : Z) (m : memory) : outcome bool := f ← load h m; Ok (f =? NULL).

Definition __hlist_del (n : Z) (m : memory) : outcome memory :=
  next ← load n m; pprev ← load (pprev_of n) m;
  m ← store pprev next m;
  if negb (next =? NULL) then store (pprev_of next) pprev m else Ok m.

Definition hlist_del (n : Z) (m : memory) : outcome memory :=
  m ← __hlist_del n m; m ← store n LIST_POISON1 m; store (pprev_of n) LIST_POISON2 m.

Definition hlist_del_init (n : Z) (m : memory) : outcome memory :=
  u ← hlist_unhashed n m;
  if negb u then m ← __hlist_del n m; INIT_HLIST_NODE n m else Ok m.

Definition hlist_add_head (n h : Z) (m : memory) : outcome memory :=
  first ← load h m;
  m ← store n first m;
  m ← (if negb (first =? NULL) then store (pprev_of first) n m else Ok m);
  m ← store h n m;
  store (pprev_of n) h m.

Definition hlist_add_before (n next : Z) (m : memory) : outcome memory :=
  p ← load (pprev_of next) m;
  m ← store (pprev_of n) p m;
  m ← store n next m;
  m ← store (pprev_of next) n m;
  p ← load (pprev_of n) m; store p n m.

(** Here [n] is in the list and [next] is new. *)
Definition hlist_add_after (n next : Z) (m : memory) : outcome memory :=
  v ← load n m; m ← store next v m;
  m ← store n next m;
  m ← store (pprev_of next) n m;
  v ← load next m; if negb (v =? NULL) then store (pprev_of v) next m else Ok m.

(** The loops; the body may change the memory and break. The structures with the nodes
    are at a fixed distance before them. *)
Section Loops.
Context {S : Type} (body : Z -> S -> memory -> outcome (bool * S * memory)).

(** [hlist_for_each_from], on which the loops with a cursor that is a node end. *)
Fixpoint hlist_for_each_from (fuel : nat) (pos : Z) (s : S) (m : memory) : outcome (Z * S * memory) :=
  if pos =? NULL then Ok (pos, s, m) else
  match fuel with
  | O => Undef
  | Datatypes.S fuel =>
      _ ← load pos m;
      '(break, s, m) ← body pos s m;
      if (break : bool) then Ok (pos, s, m) else pos ← load pos m; hlist_for_each_from fuel pos s m
  end.
Definition hlist_for_each (fuel : nat) (head : Z) (s : S) (m : memory) : outcome (Z * S * memory) :=
  pos ← load head m; hlist_for_each_from fuel pos s m.
Definition hlist_for_each_continue (fuel : nat) (pos : Z) (s : S) (m : memory) : outcome (Z * S * memory) :=
  pos ← load pos m; hlist_for_each_from fuel pos s m.

Fixpoint hlist_safe_from (fuel : nat) (pos : Z) (s : S) (m : memory) : outcome (Z * S * memory) :=
  if pos =? NULL then Ok (pos, s, m) else
  match fuel with
  | O => Undef
  | Datatypes.S fuel =>
      n ← load pos m;
      '(break, s, m) ← body pos s m;
      if (break : bool) then Ok (pos, s, m) else hlist_safe_from fuel n s m
  end.
Definition hlist_for_each_safe (fuel : nat) (head : Z) (s : S) (m : memory) : outcome (Z * S * memory) :=
  pos ← load head m; hlist_safe_from fuel pos s m.
End Loops.

(** The loops over structures: the body is given the structure. *)
Section EntryLoops.
Context {S : Type} (member : Z) (body : Z -> S -> memory -> outcome (bool * S * memory)).
Definition hlist_entry_body (pos : Z) : S -> memory -> outcome (bool * S * memory) := body (pos - member).
Definition hlist_for_each_entry := hlist_for_each hlist_entry_body.
Definition hlist_for_each_entry_continue := hlist_for_each_continue hlist_entry_body.
Definition hlist_for_each_entry_from := hlist_for_each_from hlist_entry_body.
Definition hlist_for_each_entry_safe := hlist_for_each_safe hlist_entry_body.
End EntryLoops.

(** ** Lists in memory *)

(** From the word at [c] on the nodes of [l] follow, each pointing back at the word that
    points at it; the last word is at [e]. *)
Fixpoint linked (m : memory) (c : Z) (l : list Z) (e : Z) : Prop :=
  match l with
  | [] => c = e
  | n :: l => m !! c = Some n /\ n <> NULL /\ m !! pprev_of n = Some c /\ linked m n l e
  end.

(** The words of a list: the head, and those of the nodes. *)
Definition words (h : Z) (l : list Z) : list Z := h :: l ++ (pprev_of <$> l).

(** The same up to the end of the list. *)
Fixpoint ends (m : memory) (c : Z) (l : list Z) : Prop :=
  match l with
  | [] => m !! c = Some NULL
  | n :: l => m !! c = Some n /\ n <> NULL /\ m !! pprev_of n = Some c /\ ends m n l
  end.

Definition hlist (m : memory) (h : Z) (l : list Z) : Prop := NoDup (words h l) /\ ends m h l.

(** Memory that is the same but for some words. *)
Definition except (ws : list Z) (m m' : memory) : Prop :=
  (forall a, a ∉ ws -> m' !! a = m !! a) /\ forall a, is_Some (m !! a) -> is_Some (m' !! a).

Lemma store_ok a v m : is_Some (m !! a) -> store a v m = Ok (<[a := v]> m).
Proof. unfold store, load. by intros [x ->]. Qed.

Lemma ends_app m c l1 l2 : ends m c (l1 ++ l2) <-> exists x, linked m c l1 x /\ ends m x l2.
Proof.
  revert c. induction l1 as [|n l1 IH]; intros c; cbn [app linked ends].
  - split; [by intros; exists c|]. by intros (x & -> & H).
  - rewrite IH. split.
    + intros (H1 & H2 & H3 & x & H4 & H5). exists x. tauto.
    + intros (x & (H1 & H2 & H3 & H4) & H5). split; [done|]. split; [done|]. split; [done|]. by exists x.
Qed.
Lemma ends_frame m m' c l : ends m c l -> (forall a, a ∈ c :: l ++ (pprev_of <$> l) -> m' !! a = m !! a) -> ends m' c l.
Proof.
  revert c. induction l as [|n l IH]; intros c; cbn [ends]; [intros H Hs; by rewrite Hs by set_solver|].
  intros (H1 & H2 & H3 & H4) Hs. rewrite !Hs by (rewrite ?fmap_cons; set_solver). split; [done|]. split; [done|]. split; [done|].
  apply IH; [done|]. intros a Ha. apply Hs. rewrite fmap_cons. set_solver.
Qed.

(** The end of a chain is its last word, which it does not read. *)
Lemma linked_end m c l e : linked m c l e -> e = List.last l c.
Proof. revert c. induction l as [|n l IH]; intros c; cbn [linked]; [done|]. intros (_ & _ & _ & H). rewrite (IH _ H). by rewrite last_cons. Qed.

Lemma linked_frame m m' c l e : NoDup (c :: l) -> linked m c l e ->
  (forall a, a ∈ c :: l ++ (pprev_of <$> l) -> a <> e -> m' !! a = m !! a) ->
  (forall n, n ∈ l -> e <> pprev_of n) -> linked m' c l e.
Proof.
  revert c. induction l as [|n l IH]; intros c Hd; cbn [linked]; [done|]. intros (H1 & H2 & H3 & H4) Hs He.
  pose proof (linked_end _ _ _ _ H4) as Ee. apply list.NoDup_cons in Hd as [Hc Hd].
  assert (Hce : c <> e).
  { intros ->. apply Hc. rewrite Ee at 1. rewrite <-Ee. rewrite Ee. destruct (decide (l = [])) as [->|Hl]; [by left|]. right.
    destruct (exists_last Hl) as (l' & x & ->). rewrite last_last. set_solver. }
  split; [by rewrite Hs by set_solver|]. split; [done|]. split.
  - rewrite Hs; [done|set_solver|]. intros E. apply (He n); [set_solver|done].
  - apply IH; [done|done| |].
    + intros a Ha. apply Hs. rewrite fmap_cons. set_solver.
    + intros k Hk. apply He. by right.
Qed.

(** ** Putting a node in and taking one out *)

Lemma words_split h l1 l2 : NoDup (words h (l1 ++ l2)) ->
  NoDup (words h l1) /\ NoDup (l2 ++ (pprev_of <$> l2)) /\ forall a, a ∈ words h l1 -> a ∉ l2 ++ (pprev_of <$> l2).
Proof.
  intros H. assert (E : words h (l1 ++ l2) ≡ₚ words h l1 ++ l2 ++ (pprev_of <$> l2)).
  { unfold words. rewrite fmap_app. cbn [app]. constructor. solve_Permutation. }
  rewrite E in H. apply list.NoDup_app in H as (H1 & H2 & H3). done.
Qed.
Lemma words_insert h l1 n l2 : words h (l1 ++ n :: l2) ≡ₚ n :: pprev_of n :: words h (l1 ++ l2).
Proof. unfold words. rewrite !fmap_app, fmap_cons. solve_Permutation. Qed.

Lemma prefix_end m h l c : linked m h l c -> c ∈ h :: l.
Proof. intros H. rewrite (linked_end _ _ _ _ H). apply last_in. Qed.

(** The words of the lists around the place [c] in which a change may be seen. *)
Lemma prefix_kept m m' h l1 l2 c : NoDup (words h (l1 ++ l2)) -> linked m h l1 c ->
  (forall a, a ∈ words h l1 -> a <> c -> m' !! a = m !! a) -> linked m' h l1 c.
Proof.
  intros Hd Hl Hs. apply words_split in Hd as (Hd & _ & _). pose proof (prefix_end _ _ _ _ Hl) as Hc.
  unfold words in *. rewrite app_comm_cons in Hd. apply list.NoDup_app in Hd as (Hd1 & Hd2 & _).
  eapply linked_frame; [exact Hd1|exact Hl|exact Hs|]. intros n Hn ->. apply (Hd2 (pprev_of n) Hc). by apply list_elem_of_fmap_2.
Qed.

(** The word that points back from the first node of the rest, if there is one. *)
Definition back (l : list Z) : list Z := match l with [] => [] | x :: _ => [pprev_of x] end.
Definition points_back (m : memory) (c : Z) (l : list Z) : Prop := match l with [] => True | x :: _ => m !! pprev_of x = Some c end.

Lemma ends_first m c l : ends m c l -> m !! c = Some (hd NULL l) /\ points_back m c l /\ (hd NULL l = NULL <-> l = []).
Proof. destruct l as [|x l]; cbn; [done|]. intros (H1 & H2 & H3 & _). split; [done|]. split; [done|]. done. Qed.

(** The rest of the list hangs at another word [d]. *)
Lemma rest_moved m m' c d l ws : ends m c l -> NoDup (l ++ (pprev_of <$> l)) ->
  m' !! d = Some (hd NULL l) -> points_back m' d l ->
  (forall a, a ∉ ws ++ back l -> m' !! a = m !! a) -> (forall a, a ∈ l ++ (pprev_of <$> l) -> a ∉ ws) -> ends m' d l.
Proof.
  destruct l as [|x l]; cbn [ends hd points_back back]; [done|]. intros (H1 & H2 & H3 & H4) Hd E1 E2 Hs Hws.
  split; [done|]. split; [done|]. split; [done|]. eapply ends_frame; [exact H4|]. intros a Ha. apply Hs.
  rewrite fmap_cons in Hd, Hws. cbn [app] in Hd. apply list.NoDup_cons in Hd as [Hx Hd]. apply list.NoDup_app in Hd as (_ & Hdj & Hd2).
  rewrite app_comm_cons in Ha. intros [Hw|Hb%list_elem_of_singleton]%elem_of_app.
  - apply (Hws a); [|done]. cbn [app] in Ha |- *. set_solver.
  - subst a. cbn [app] in Ha. apply elem_of_cons in Ha as [Ha|Ha]; [unfold pprev_of in Ha; lia|].
    apply elem_of_app in Ha as [Ha|Ha]; [destruct (Hdj _ Ha); by left|]. apply list.NoDup_cons in Hd2 as [Hd2 _]. done.
Qed.

Lemma inserted m m' h l1 l2 n c : hlist m h (l1 ++ l2) -> linked m h l1 c -> n <> NULL ->
  n ∉ words h (l1 ++ l2) -> pprev_of n ∉ words h (l1 ++ l2) ->
  m' !! c = Some n -> m' !! pprev_of n = Some c -> m' !! n = Some (hd NULL l2) -> points_back m' n l2 ->
  (forall a, a ∉ [c; n; pprev_of n] ++ back l2 -> m' !! a = m !! a) -> hlist m' h (l1 ++ n :: l2).
Proof.
  intros [Hd He] Hl Hn Hnw Hpw E1 E2 E3 E4 Hs. apply words_split in Hd as Hsp. destruct Hsp as (_ & Hd2 & Hdis).
  apply ends_app in He as (x & Hx & He). assert (x = c) as ->. { rewrite (linked_end _ _ _ _ Hx). by rewrite (linked_end _ _ _ _ Hl). }
  assert (Hw : forall a, a ∈ words h l1 \/ a ∈ l2 ++ (pprev_of <$> l2) -> a ∈ words h (l1 ++ l2)).
  { unfold words. rewrite fmap_app. intros a. set_solver. }
  assert (Hbk : forall a, a ∈ back l2 -> a ∈ l2 ++ (pprev_of <$> l2)).
  { destruct l2 as [|y l2]; cbn [back]; [set_solver|]. rewrite fmap_cons. set_solver. }
  split.
  - rewrite words_insert. apply list.NoDup_cons. split; [|by apply list.NoDup_cons].
    rewrite elem_of_cons. intros [E|E]; [unfold pprev_of in E; lia|done].
  - apply ends_app. exists c. split.
    + eapply prefix_kept; [exact Hd|exact Hl|]. intros a Ha Hne. apply Hs. specialize (Hw a). specialize (Hdis a Ha). specialize (Hbk a).
      rewrite elem_of_app, !elem_of_cons. set_solver.
    + cbn [ends]. split; [done|]. split; [done|]. split; [done|]. eapply rest_moved; [exact He|exact Hd2|done|done|exact Hs|].
      intros a Ha. pose proof (Hw a (or_intror Ha)). pose proof (prefix_end _ _ _ _ Hl) as Hc.
      assert (a <> c) by (intros ->; apply (Hdis c); [unfold words; set_solver|done]). set_solver.
Qed.

Lemma removed m m' h l1 n l2 c : hlist m h (l1 ++ n :: l2) -> linked m h l1 c ->
  m' !! c = Some (hd NULL l2) -> points_back m' c l2 ->
  (forall a, a ∉ [c; n; pprev_of n] ++ back l2 -> m' !! a = m !! a) -> hlist m' h (l1 ++ l2).
Proof.
  intros [Hd He] Hl E1 E2 Hs. rewrite words_insert in Hd. apply list.NoDup_cons in Hd as [Hn Hd]. apply list.NoDup_cons in Hd as [Hp Hd].
  apply words_split in Hd as Hsp. destruct Hsp as (_ & Hd2 & Hdis).
  apply ends_app in He as (x & Hx & He). assert (x = c) as ->. { rewrite (linked_end _ _ _ _ Hx). by rewrite (linked_end _ _ _ _ Hl). }
  cbn [ends] in He. destruct He as (_ & _ & _ & He).
  assert (Hw : forall a, a ∈ words h l1 \/ a ∈ l2 ++ (pprev_of <$> l2) -> a ∈ words h (l1 ++ l2)).
  { unfold words. rewrite fmap_app. intros a. set_solver. }
  assert (Hbk : forall a, a ∈ back l2 -> a ∈ l2 ++ (pprev_of <$> l2)).
  { destruct l2 as [|y l2]; cbn [back]; [set_solver|]. rewrite fmap_cons. set_solver. }
  split; [done|]. apply ends_app. exists c. split.
  - eapply prefix_kept; [exact Hd|exact Hl|]. intros a Ha Hne. apply Hs. specialize (Hw a). specialize (Hdis a Ha). specialize (Hbk a). set_solver.
  - eapply rest_moved; [exact He|exact Hd2|done|done|exact Hs|].
    intros a Ha. pose proof (Hw a (or_intror Ha)). pose proof (prefix_end _ _ _ _ Hl) as Hc.
    assert (a <> c) by (intros ->; apply (Hdis c); [unfold words; set_solver|done]). set_solver.
Qed.

(** ** What the functions do to lists *)

Lemma load_ok a v m : m !! a = Some v -> load a m = Ok v.
Proof. unfold load. by intros ->. Qed.
Lemma ends_mapped m c l a : ends m c l -> a ∈ words c l -> is_Some (m !! a).
Proof.
  unfold words. revert c. induction l as [|n l IH]; intros c; cbn [ends].
  - intros H Ha. assert (a = c) as -> by set_solver. by eexists.
  - intros (H1 & _ & H3 & H4) Ha. rewrite fmap_cons in Ha. specialize (IH n H4). 
    assert (a = c \/ a = pprev_of n \/ a ∈ n :: l ++ (pprev_of <$> l)) as [->|[->|Ha2]] by set_solver; [by eexists..|by apply IH].
Qed.
Lemma mapped_insert (m : memory) a b v : is_Some (m !! a) -> is_Some (<[b := v]> m !! a).
Proof. intros H. apply lookup_insert_is_Some'. by right. Qed.

(** Stores run when their word is there; lookups in what they leave compute. *)
Ltac stores := repeat (cbn [mbind outcome_bind]; change (negb (NULL =? NULL)) with false; first
  [rewrite store_ok by (repeat apply mapped_insert; assumption) | erewrite load_ok by (simplify_map_eq; done)]); cbn [mbind outcome_bind].

Lemma first_apart h l1 x l2 n : NoDup (words h (l1 ++ x :: l2)) -> n ∉ words h (l1 ++ x :: l2) -> pprev_of n ∉ words h (l1 ++ x :: l2) ->
  x <> n /\ pprev_of x <> n /\ pprev_of x <> pprev_of n /\ (forall c, c ∈ h :: l1 -> c <> n /\ c <> pprev_of n /\ c <> pprev_of x /\ c <> x).
Proof.
  intros Hd Hn Hp. rewrite words_insert in Hd, Hn, Hp. apply list.NoDup_cons in Hd as [Hx Hd]. apply list.NoDup_cons in Hd as [Hpx _].
  unfold words, pprev_of in *. split; [set_solver|]. split; [set_solver|]. split; [intros E; assert (x = n) by lia; set_solver|].
  intros c Hc. assert (c ∈ h :: (l1 ++ l2) ++ ((λ n, n + 8) <$> l1 ++ l2)) by set_solver. repeat split; intros ->; set_solver.
Qed.

Section Functions.
Context (m : memory) (h : Z).

(** A node that is in no list: its words are there and not those of the list. *)
Definition fresh (n : Z) (l : list Z) : Prop :=
  n <> NULL /\ is_Some (m !! n) /\ is_Some (m !! pprev_of n) /\ n ∉ words h l /\ pprev_of n ∉ words h l.

Lemma hlist_add_head_list n l : hlist m h l -> fresh n l ->
  exists m', hlist_add_head n h m = Ok m' /\ hlist m' h (n :: l) /\ except (n :: pprev_of n :: words h l) m m'.
Proof.
  intros Hh (Hn & Hmn & Hmp & Hnw & Hpw). pose proof Hh as [Hd He]. destruct (ends_first _ _ _ He) as (E1 & _ & _).
  assert (Hnp : n <> pprev_of n) by (unfold pprev_of; lia). assert (Hhm : is_Some (m !! h)) by by eexists.
  assert (Hhn : h <> n /\ h <> pprev_of n) by (unfold words in *; set_solver). destruct Hhn as [Hh1 Hh2].
  unfold hlist_add_head. rewrite (load_ok _ _ _ E1). destruct l as [|x l]; cbn [hd] in *.
  - stores. eexists. split; [done|]. split.
    + apply (inserted m _ h [] [] n h); try done; cbn [app hd points_back back]; [by simplify_map_eq..|].
      intros a Ha. rewrite !lookup_insert_ne by set_solver. done.
    + split; [intros a Ha; rewrite !lookup_insert_ne by (unfold words in Ha; set_solver); done|intros a Ha; by repeat apply mapped_insert].
  - destruct (first_apart h [] x l n Hd Hnw Hpw) as (Hx1 & Hx2 & Hx3 & Hx4). destruct (Hx4 h) as (_ & _ & Hx5 & Hx6); [by left|].
    cbn [ends] in He. destruct He as (_ & Hx0 & Hxp & _). assert (Hxm : is_Some (m !! pprev_of x)) by by eexists.
    stores. rewrite (proj2 (Z.eqb_neq x NULL)) by done. cbn [negb]. stores. eexists. split; [done|]. split.
    + apply (inserted m _ h [] (x :: l) n h); try done; cbn [app hd points_back back]; [by simplify_map_eq..|].
      intros a Ha. rewrite !lookup_insert_ne by set_solver. done.
    + split; [intros a Ha; rewrite !lookup_insert_ne by (unfold words in Ha; rewrite fmap_cons in Ha; set_solver); done|intros a Ha; by repeat apply mapped_insert].
Qed.

(** What the memory around a node of the list holds. *)
Lemma hlist_node l1 n l2 : hlist m h (l1 ++ n :: l2) -> exists c, linked m h l1 c /\ m !! c = Some n /\ n <> NULL /\
  m !! pprev_of n = Some c /\ ends m n l2 /\ c ∉ [n; pprev_of n] ++ back l2 /\ (forall b, b ∈ back l2 -> b ∉ [n; pprev_of n]).
Proof.
  intros [Hd He]. apply ends_app in He as (c & Hl & He). cbn [ends] in He. destruct He as (H1 & H2 & H3 & H4).
  exists c. do 5 (split; [done|]). rewrite words_insert in Hd. apply list.NoDup_cons in Hd as [Hn Hd]. apply list.NoDup_cons in Hd as [Hp Hd].
  pose proof (prefix_end _ _ _ _ Hl) as Hc. apply words_split in Hd as (_ & _ & Hdis).
  assert (Hbk : forall b, b ∈ back l2 -> b ∈ l2 ++ (pprev_of <$> l2)).
  { destruct l2 as [|x l2]; cbn [back]; [set_solver|]. rewrite fmap_cons. set_solver. }
  assert (Hbw : forall b, b ∈ back l2 -> b ∈ words h (l1 ++ l2)).
  { intros b Hb%Hbk. unfold words. rewrite fmap_app. set_solver. }
  assert (Hcw : c ∈ words h l1) by (unfold words; set_solver).
  assert (Hcw2 : c ∈ words h (l1 ++ l2)) by (unfold words; set_solver). split.
  - rewrite elem_of_app. intros [Hin|Hin]; [|by apply (Hdis c), Hbk].
    apply elem_of_cons in Hin as [->|Hin%list_elem_of_singleton]; [apply Hn; by right|]. by subst c.
  - intros b Hb%Hbw Hin. apply elem_of_cons in Hin as [->|Hin%list_elem_of_singleton]; [apply Hn; by right|]. by subst b.
Qed.

(** Taking a node out: the word that pointed at it points at the next one. *)
Lemma del_links l1 n l2 : hlist m h (l1 ++ n :: l2) -> exists c m', __hlist_del n m = Ok m' /\ linked m h l1 c /\
  m' !! c = Some (hd NULL l2) /\ points_back m' c l2 /\ c ∉ [n; pprev_of n] ++ back l2 /\ (forall b, b ∈ back l2 -> b ∉ [n; pprev_of n]) /\
  except (c :: back l2) m m'.
Proof.
  intros Hh. destruct (hlist_node _ _ _ Hh) as (c & Hl & H1 & H2 & H3 & H4 & Hc & Hb). destruct (ends_first _ _ _ H4) as (E1 & _ & E2).
  assert (Hcm : is_Some (m !! c)) by by eexists. unfold __hlist_del. rewrite (load_ok _ _ _ E1), (load_ok _ _ _ H3).
  destruct l2 as [|x l2]; cbn [hd points_back back] in *; stores.
  - eexists c, _. split; [done|]. split; [done|]. split; [by simplify_map_eq|]. do 3 (split; [done|]).
    split; [intros a Ha; rewrite lookup_insert_ne by set_solver; done|intros a Ha; by apply mapped_insert].
  - cbn [ends] in H4. destruct H4 as (_ & Hx0 & Hxp & _). assert (is_Some (m !! pprev_of x)) by by eexists.
    rewrite (proj2 (Z.eqb_neq x NULL)) by done. cbn [negb]. stores. assert (c <> pprev_of x) by set_solver.
    eexists c, _. split; [done|]. split; [done|]. split; [by simplify_map_eq|]. split; [by simplify_map_eq|]. do 2 (split; [done|]).
    split; [intros a Ha; rewrite !lookup_insert_ne by set_solver; done|intros a Ha; by repeat apply mapped_insert].
Qed.

(** Both functions that delete leave the rest of the list; the node is marked. *)
Lemma del_marks l1 n l2 v w : hlist m h (l1 ++ n :: l2) ->
  exists m', (m1 ← __hlist_del n m; m2 ← store n v m1; store (pprev_of n) w m2) = Ok m' /\ hlist m' h (l1 ++ l2) /\
    m' !! n = Some v /\ m' !! pprev_of n = Some w.
Proof.
  intros Hh. destruct (del_links _ _ _ Hh) as (c & m1 & -> & Hl & E1 & E2 & Hc & Hb & Hs & Hmp).
  destruct (hlist_node _ _ _ Hh) as (c' & _ & _ & _ & H3 & H4 & _). destruct (ends_first _ _ _ H4) as (H5 & _).
  assert (is_Some (m1 !! n)) by (apply Hmp; by eexists). assert (is_Some (m1 !! pprev_of n)) by (apply Hmp; by eexists).
  assert (pprev_of n <> n) by (unfold pprev_of; lia). assert (c <> n /\ c <> pprev_of n) as [? ?] by set_solver.
  stores. eexists. split; [done|]. split; [|by split; simplify_map_eq].
  apply (removed m _ h l1 n l2 c Hh Hl).
  - by simplify_map_eq.
  - destruct l2 as [|x l2]; cbn [points_back back] in *; [done|]. specialize (Hb (pprev_of x)).
    assert (pprev_of x <> n /\ pprev_of x <> pprev_of n) as [? ?] by set_solver. by rewrite !lookup_insert_ne by done.
  - intros a Ha. rewrite !lookup_insert_ne by set_solver. apply Hs. set_solver.
Qed.

Lemma hlist_del_list l1 n l2 : hlist m h (l1 ++ n :: l2) -> exists m', hlist_del n m = Ok m' /\ hlist m' h (l1 ++ l2) /\
  m' !! n = Some LIST_POISON1 /\ m' !! pprev_of n = Some LIST_POISON2.
Proof. apply del_marks. Qed.

(** A node that was taken out with [hlist_del_init] counts as in no list, and taking
    it out again does nothing. *)
Lemma hlist_del_init_list l1 n l2 : h <> NULL -> hlist m h (l1 ++ n :: l2) -> exists m', hlist_del_init n m = Ok m' /\ hlist m' h (l1 ++ l2) /\
  hlist_unhashed n m' = Ok true /\ hlist_del_init n m' = Ok m'.
Proof.
  intros Hh0 Hh. destruct (hlist_node _ _ _ Hh) as (c & Hl & _ & _ & H3 & _).
  assert (Hc0 : c <> NULL).
  { destruct Hh as [_ He]. clear H3. revert h He Hh0 Hl. induction l1 as [|y l IH]; intros h'; cbn [app ends linked]; [by intros _ ? ->|].
    intros (_ & Hy & _ & He) _ (_ & _ & _ & Hl). by apply (IH y). }
  destruct (del_marks _ _ _ NULL NULL Hh) as (m' & E & Hl' & E1 & E2). exists m'. unfold hlist_del_init, hlist_unhashed.
  rewrite (load_ok _ _ _ H3), (load_ok _ _ _ E2). cbn [mbind outcome_bind]. rewrite (proj2 (Z.eqb_neq c NULL)) by done.
  cbn [negb]. split; [exact E|]. split; [done|]. by rewrite Z.eqb_refl.
Qed.

Lemma hlist_add_before_list l1 next l2 n : hlist m h (l1 ++ next :: l2) -> fresh n (l1 ++ next :: l2) ->
  exists m', hlist_add_before n next m = Ok m' /\ hlist m' h (l1 ++ n :: next :: l2).
Proof.
  intros Hh (Hn & Hmn & Hmp & Hnw & Hpw). pose proof Hh as [Hd _]. destruct (hlist_node _ _ _ Hh) as (c & Hl & H1 & H2 & H3 & H4 & _).
  destruct (first_apart h l1 next l2 n Hd Hnw Hpw) as (Hx1 & Hx2 & Hx3 & Hx4).
  destruct (Hx4 c) as (Hc1 & Hc2 & Hc3 & Hc4); [by apply (prefix_end m)|].
  assert (Hnp : n <> pprev_of n) by (unfold pprev_of; lia).
  assert (is_Some (m !! c)) by by eexists. assert (is_Some (m !! pprev_of next)) by by eexists.
  unfold hlist_add_before. rewrite (load_ok _ _ _ H3). stores. eexists. split; [done|].
  apply (inserted m _ h l1 (next :: l2) n c Hh Hl); try done; cbn [hd points_back back app]; [by simplify_map_eq..|].
  intros a Ha. rewrite !lookup_insert_ne by set_solver. done.
Qed.

Lemma hlist_add_after_list l1 n l2 next : hlist m h (l1 ++ n :: l2) -> fresh next (l1 ++ n :: l2) ->
  exists m', hlist_add_after n next m = Ok m' /\ hlist m' h (l1 ++ n :: next :: l2).
Proof.
  intros Hh (Hn & Hmn & Hmp & Hnw & Hpw). destruct (hlist_node _ _ _ Hh) as (c & Hl & H1 & H2 & H3 & H4 & Hc & Hb).
  destruct (ends_first _ _ _ H4) as (E1 & _ & _). assert (is_Some (m !! n)) by by eexists.
  assert (El : l1 ++ n :: l2 = (l1 ++ [n]) ++ l2) by by rewrite <-app_assoc. pose proof Hh as [Hd _].
  assert (Hln : linked m h (l1 ++ [n]) n).
  { clear -Hl H1 H2 H3. revert h Hl. induction l1 as [|y l IH]; intros h'; cbn [app linked]; [by intros ->|].
    intros (? & ? & ? & ?). repeat split; try done. by apply IH. }
  assert (n <> next /\ n <> pprev_of next) as [Hx1 Hx2] by (rewrite words_insert in Hnw, Hpw; set_solver).
  assert (next <> pprev_of next) by (unfold pprev_of; lia).
  assert (Hbw : forall b, b ∈ back l2 -> b <> next /\ b <> pprev_of next).
  { intros b Hb'. assert (b ∈ words h (l1 ++ n :: l2)).
    { unfold words. rewrite fmap_app, fmap_cons. destruct l2 as [|x l2]; cbn [back] in *; [set_solver|]. rewrite fmap_cons. set_solver. }
    split; intros ->; done. }
  rewrite El in Hh, Hnw, Hpw. change (n :: next :: l2) with ([n] ++ next :: l2). rewrite app_assoc.
  unfold hlist_add_after. rewrite (load_ok _ _ _ E1). destruct l2 as [|x l2]; cbn [hd back] in *.
  - stores. eexists. split; [done|].
    apply (inserted m _ h (l1 ++ [n]) [] next n Hh Hln); try done; cbn [hd points_back back app]; [by simplify_map_eq..|].
    intros a Ha. rewrite !lookup_insert_ne by set_solver. done.
  - cbn [ends] in H4. destruct H4 as (_ & Hx0 & Hxp & _). assert (is_Some (m !! pprev_of x)) by by eexists.
    destruct (Hbw (pprev_of x)) as [Hx3 Hx4]; [by left|]. assert (pprev_of x <> n) by (specialize (Hb (pprev_of x)); set_solver).
    stores. rewrite (proj2 (Z.eqb_neq x NULL)) by done. cbn [negb]. stores. eexists. split; [done|].
    apply (inserted m _ h (l1 ++ [n]) (x :: l2) next n Hh Hln); try done; cbn [hd points_back back app]; [by simplify_map_eq..|].
    intros a Ha. rewrite !lookup_insert_ne by set_solver. done.
Qed.
End Functions.

(** ** The loops *)

(** A loop whose body leaves the memory alone visits the nodes in their order, until
    the body breaks. *)
Fixpoint walk {S} (f : Z -> S -> bool * S) (l : list Z) (s : S) : Z * S :=
  match l with
  | [] => (NULL, s)
  | n :: l => let (break, s) := f n s in if (break : bool) then (n, s) else walk f l s
  end.

Lemma for_each_walks {S} (f : Z -> S -> bool * S) m l : forall fuel c s, ends m c l -> (length l <= fuel)%nat ->
  (pos ← load c m; hlist_for_each_from (fun n s m => Ok (f n s, m)) fuel pos s m) = Ok (walk f l s, m).
Proof.
  induction l as [|n l IH]; intros fuel c s; cbn [ends length].
  - intros H _. rewrite (load_ok _ _ _ H). by destruct fuel.
  - intros (H1 & H2 & H3 & H4) Hf. destruct fuel as [|fuel]; [lia|]. rewrite (load_ok _ _ _ H1). cbn [mbind outcome_bind hlist_for_each_from].
    rewrite (proj2 (Z.eqb_neq n NULL)) by done. destruct (ends_first _ _ _ H4) as (E & _). rewrite (load_ok _ _ _ E). cbn [mbind outcome_bind walk].
    destruct (f n s) as [[|] s2]; cbn [mbind outcome_bind]; [done|]. specialize (IH fuel n s2 H4 ltac:(lia)).
    rewrite (load_ok _ _ _ E) in IH. cbn [mbind outcome_bind] in IH |- *. rewrite ?(load_ok _ _ _ E). exact IH.
Qed.

Lemma hlist_for_each_visits {S} (f : Z -> S -> bool * S) m h l fuel s : hlist m h l -> (length l <= fuel)%nat ->
  hlist_for_each (fun n s m => Ok (f n s, m)) fuel h s m = Ok (walk f l s, m).
Proof. intros [_ H]. by apply for_each_walks. Qed.

(** The safe loop may take every node out: it ends, has seen them all, and the list is
    empty. *)
Lemma hlist_safe_deletes h l : forall fuel m s, hlist m h l -> (length l <= fuel)%nat ->
  exists m', hlist_for_each_safe (fun n s m => m ← hlist_del n m; Ok (false, s ++ [n], m)) fuel h s m = Ok (NULL, s ++ l, m') /\ hlist m' h [].
Proof.
  unfold hlist_for_each_safe. induction l as [|n l IH]; intros fuel m s Hh; cbn [length].
  - intros _. exists m. destruct Hh as [Hd H]. cbn [ends] in H. rewrite (load_ok _ _ _ H), app_nil_r. by destruct fuel.
  - intros Hf. destruct fuel as [|fuel]; [lia|]. destruct (hlist_del_list m h [] n l Hh) as (m1 & E & Hl & _).
    pose proof Hh as [_ (H1 & H2 & _ & H4)]. destruct (ends_first _ _ _ H4) as (E1 & _).
    rewrite (load_ok _ _ _ H1). cbn [mbind outcome_bind hlist_safe_from]. rewrite (proj2 (Z.eqb_neq n NULL)) by done.
    rewrite (load_ok _ _ _ E1). cbn [mbind outcome_bind]. rewrite E. cbn [mbind outcome_bind].
    destruct (IH fuel m1 (s ++ [n]) Hl) as (m2 & E2 & Hm2); [lia|]. destruct Hl as [_ Hl]. cbn [app] in Hl.
    destruct (ends_first _ _ _ Hl) as (E3 & _). rewrite (load_ok _ _ _ E3) in E2. cbn [mbind outcome_bind] in E2.
    exists m2. rewrite <-app_assoc in E2. by split.
Qed.

(** Three nodes in memory, put in at the head, before and behind, and one taken out. *)
Example ex_hlist :
  let m0 : memory := <[100 := 0]> (<[16 := 0]> (<[24 := 0]> (<[32 := 0]> (<[40 := 0]> (<[48 := 0]> (<[56 := 0]> ∅)))))) in
  (m ← hlist_add_head 16 100 m0; m ← hlist_add_before 32 16 m; m ← hlist_add_after 16 48 m; m ← hlist_del 16 m;
   '(_, s, _) ← hlist_for_each (fun n s m => Ok (false, s ++ [n], m)) 5 100 [] m; Ok s) = Ok [32; 48].
Proof. vm_compute. reflexivity. Qed.
