(* ===== verification/Persist.v ===== *)
(** * From one call of the tool to the next

    The parts put together: what barebox-state -s stores on a device, barebox-state -g
    prints in a later process, from the options and the device tree to the bytes of
    the medium and back. *)

From S2P Require Import Prelude Print Proc Sysfile Bucket DirectBucket CircularBucket StateVar Storage RawFormat StorageExamples.
From S2P Require Import Dt Tree Variables State Fdt DtbFormat Devices Make Cli Main.

(** ** Variables whose values change *)

Lemma write_rewritten data sv : sv_wf sv -> length data = Z.to_nat (sv_size sv) -> rewritten sv (sv_write_raw data sv).
Proof.
  intros Hw Hl. destruct (sv_write_raw_frame data sv) as (E1 & E2 & E3 & E4). split; [|split].
  - do 4 (split; [done|]). intros _. by apply sv_write_raw_wf.
  - split; [done|]. split; [done|]. unfold sv_write_raw, set_data. cbn [sv_data]. by destruct (sv_data sv).
  - intros _ Ho. by apply write_one_byte.
Qed.

(** Unpacking a buffer that frames a state changes values only. *)
Lemma unpack_rewritten vars buf : forall ret, Forall sv_wf vars -> Forall (fun sv => sv_start sv + sv_size sv < 2 ^ 32) vars ->
  hdr_data_len buf + 16 <= Z.of_nat (length buf) ->
  exists ret' vars', raw_unpack_vars vars buf ret = Some (ret', vars') /\ Forall2 rewritten vars vars'.
Proof.
  induction vars as [|sv vars IH]; intros ret Hw Hb Hlen; [by exists ret, []|]. cbn [raw_unpack_vars].
  apply Forall_cons_1 in Hw as [Hsw Hw], Hb as [Hsb Hb]. pose proof (sv_size_range sv Hsw). pose proof (proj2 Hsw).
  rewrite u32_small by lia. destruct (Z.ltb_spec (hdr_data_len buf) (sv_start sv + sv_size sv)) as [Hlt|Hge].
  - destruct (IH (- ENOSPC) Hw Hb Hlen) as (r & vars' & -> & Hr). eexists r, (sv :: vars'). split; [done|]. by constructor.
  - destruct (Z.ltb_spec (Z.of_nat (length buf)) (16 + sv_start sv + sv_size sv)); [lia|].
    destruct (IH ret Hw Hb Hlen) as (r & vars' & -> & Hr). eexists r, _. split; [done|]. constructor; [|done].
    apply write_rewritten; [done|]. unfold sub. rewrite length_take, length_drop. lia.
Qed.

(** ** Loading whatever a device holds *)

Section Load.
Context {B : Type} {HO : BucketOps B} {HV : BucketView B} {HL : BucketLaws B} {HM : WrongMagic B}.
Context (freed : bytes -> bytes) (ks : bytes -> Z * bytes).
#[local] Instance load_verify : FormatVerify raw_format := raw_format_verify freed ks.
#[local] Instance load_pack : FormatPack raw_format := raw_format_pack freed ks.

(** What every bucket shows can be decided, and the others have room for what a header
    in it frames. *)
Definition shows_fit (st : storage B) (f : file) : Prop :=
  Forall (fun b => match bk_content (b_impl b) (region (b_impl b) f) with
                   | Shows c => buckets_room (st_buckets st) (take (Z.to_nat (hdr_data_len c + 16)) c) | Fails => True | Unknown => False end) (st_buckets st).

Lemma shows_fit_regions (st st2 : storage B) f g : same_regions (st_buckets st) (st_buckets st2) -> same_medium f g ->
  shows_fit st f -> shows_fit st2 g.
Proof.
  intros Hp Hm. unfold shows_fit. assert (Hr : forall d, buckets_room (st_buckets st) d -> buckets_room (st_buckets st2) d).
  { intros d Hd. by eapply buckets_room_places. }
  revert Hr. generalize (buckets_room (st_buckets st)) (buckets_room (st_buckets st2)). intros P Q HPQ.
  induction Hp as [|x y l k Hxy _ IH]; intros Hs; [constructor|]. apply Forall_cons_1 in Hs as [Hx Hs].
  constructor; [|by apply IH]. rewrite (content_same (b_impl x) (b_impl y) f g) by done. destruct (bk_content _ _); auto.
Qed.

(** A load ends, and leaves a state that differs in its values only, on a storage in
    order. *)
Lemma load_any (s : state B raw_format) flags f :
  raw_ok ks (s_format s) -> storage_ok (s_storage s) f -> Forall (made f) (st_buckets (s_storage s)) -> healthy f ->
  shows_fit (s_storage s) f -> Forall sv_wf (s_variables s) ->
  Forall (fun sv => sv_start sv + sv_size sv < 2 ^ 32) (s_variables s) ->
  exists ret s' f', state_do_load s flags f = Some (ret, s', f') /\ Forall2 rewritten (s_variables s) (s_variables s') /\
  (raw_ok ks (s_format s') /\ rf_algo (s_format s') = rf_algo (s_format s) /\ rf_secret_name (s_format s') = rf_secret_name (s_format s)) /\
  s_of_path s' = s_of_path s /\ s_magic s' = s_magic s /\ s_keep_prev_content s' = s_keep_prev_content s /\
  storage_ok (s_storage s') f' /\ same_places (st_buckets (s_storage s)) (st_buckets (s_storage s')) /\
  st_readonly (s_storage s') = st_readonly (s_storage s) /\ healthy f' /\ same_device f f'.
Proof.
  intros Hok Hst Hmd Hf Hsh Hw Hb.
  pose (laws := raw_phase_laws freed ks (rf_algo (s_format s)) (rf_secret_name (s_format s))).
  assert (Hal : @phase_of raw_format load_verify laws (s_format s) (s_format s)) by done.
  assert (Hready : Forall (@ready B raw_format HV load_verify laws (s_format s) (s_magic s) flags f) (st_buckets (s_storage s))).
  { unfold shows_fit in Hsh. rewrite Stdlib.Lists.List.Forall_forall in *. intros b Hin. specialize (Hmd b Hin) as (H1 & H2 & H3). specialize (Hsh b Hin).
    split; [done|]. split; [done|]. split; [|done]. unfold known. by destruct (bk_content _ _). }
  assert (Hsame : Forall2 rewritten (s_variables s) (s_variables s)) by reflexivity.
  destruct (@first_copy B raw_format HV load_verify laws (s_format s) (s_magic s) flags (st_buckets (s_storage s)) f) as [[[i c] len]|] eqn:Efc.
  - destruct (first_copy_lookup _ _ _ _ _ _ _ _ Efc) as (b & Hi & Hc & Hv).
    change (raw_accepts freed ks (s_format s) (s_magic s) c flags = Some len) in Hv.
    pose proof (raw_accepts_spec freed ks (s_format s) (s_magic s) c flags Hok) as Hacc. rewrite Hv in Hacc.
    destruct Hacc as [[(H16 & _ & _ & Hlen & _) _] ->]. pose proof (hdr_data_len_range c) as Hdl.
    assert (Hfit : buckets_room (st_buckets (s_storage s)) (take (Z.to_nat (hdr_data_len c + 16)) c)).
    { unfold shows_fit in Hsh. rewrite Forall_lookup in Hsh. specialize (Hsh i b Hi). by rewrite Hc in Hsh. }
    destruct (@storage_read_some B raw_format HO HV HL load_verify laws (s_format s) (s_magic s) flags (s_format s) (s_storage s) f
      i c (hdr_data_len c + 16)) as (st' & fmt' & g & Er & [Hfmt _] & Hg & Hp & Hok' & _ & Hdev); try done; [lia|].
    destruct (unpack_rewritten (s_variables s) c 0 Hw Hb Hlen) as (ret & vars' & Eu & Hr).
    pose proof (storage_read_keeps _ _ _ _ _ _ _ _ _ Er) as Hst'.
    assert (El : state_do_load s flags f = if negb (ret =? 0)
      then Some (ret, with_dirty true (with_format fmt' (with_variables vars' (with_format fmt' (with_storage st' s)))), g)
      else Some (0, with_dirty false (with_init_from_defaults false (with_format fmt' (with_variables vars' (with_format fmt' (with_storage st' s))))), g)).
    { unfold state_do_load. rewrite Er. cbn [Z.eqb negb with_storage with_format s_format s_of_path s_magic s_variables format_unpack load_pack raw_format_pack].
      unfold backend_format_raw_unpack. by rewrite Eu. }
    rewrite El. destruct (negb (ret =? 0)); eexists _, _, g; (split; [done|]).
    all: split; [exact Hr|]; cbn; split; [exact Hfmt|]; do 3 (split; [done|]); split; [exact Hok'|]; split; [exact Hp|]; split; [by rewrite Hst'|done].
  - destruct (@storage_read_none B raw_format HO HV HL load_verify laws (s_format s) (s_magic s) flags (s_format s) (s_storage s) f)
      as (st' & fmt' & g & Er & [Hfmt _] & Hg & Hm & Hp & Hok'); try done.
    pose proof (storage_read_keeps _ _ _ _ _ _ _ _ _ Er) as Hst'.
    exists (- ENOENT). eexists _, g. split.
    + unfold state_do_load. by rewrite Er.
    + split; [exact Hsame|]. cbn. split; [exact Hfmt|]. do 3 (split; [done|]). split; [exact Hok'|]. split; [exact Hp|].
      split; [by rewrite Hst'|]. split; [done|by apply same_medium_device].
Qed.
End Load.

(** Bytes stay bytes. *)
Lemma rewritten_bytes vars vars' : Forall sv_wf vars -> Forall one_byte vars -> Forall2 rewritten vars vars' -> Forall one_byte vars'.
Proof.
  intros Hw Ho. induction 1 as [|a b l k (_ & _ & Hab) _ IH]; [done|].
  apply Forall_cons_1 in Hw as [? Hw], Ho as [? Ho]. constructor; auto.
Qed.

(** To a state whose values changed the state it started as is a fresh one. *)
Lemma rewritten_fresh vars vars' : Forall sv_wf vars -> Forall one_byte vars -> Forall2 rewritten vars vars' -> Forall2 fresh_like vars' vars.
Proof.
  intros Hw Ho. induction 1 as [|a b l k ((E1 & E2 & E3 & E4 & _) & Hal & _) _ IH]; [constructor|].
  apply Forall_cons_1 in Hw as [? Hw], Ho as [? Ho]. constructor; [|by apply IH].
  split; [congruence|]. split; [congruence|]. split; [by apply alike_sym|done].
Qed.

(** ** The whole tool, twice *)

(** The world with another content of one device file. *)
Definition with_device (path : bytes) (f : file) (w : world) : world :=
  World (w_files w) (w_base w) (w_proc w) (w_sys w)
    (fun p => if decide (p = path) then (fst (w_device w p), f) else w_device w p) (w_secret w) (w_lock w).

Section Tool.
Context (compat loopback : bool) (stack : bytes) (freed : bytes -> bytes) (fresh : nat -> Byte.byte).
Context (Hstack : length stack = 8%nat).
#[local] Instance tool_ops : BucketOps direct := direct_ops compat stack.
#[local] Instance tool_view : BucketView direct := direct_view compat.
#[local] Instance tool_laws : BucketLaws direct := direct_laws compat stack Hstack.

Section World.
Context (w : world).
#[local] Instance tool_verify : FormatVerify raw_format := raw_format_verify freed (w_secret w).
#[local] Instance tool_pack : FormatPack raw_format := raw_format_pack freed (w_secret w).

(** What the tool finds under a name: a node with a backend, the raw format and its
    secret, and variables that end below 64 KiB. *)
Record finds (name : bytes) (root node : device_node) (be : backend) (raw : raw_format) (of_path : bytes) (magic : Z)
    (vars : list state_variable) (last : state_variable) : Prop := {
  fo_tree : read_tree w None = Ok root;
  fo_aliases : exists al, of_alias_scan (Some root) = Ok al;
  fo_node : exists p, state_node root (Some name) = Some p /\ node_at root p = Some node;
  fo_backend : state_backend loopback (w_sys w) root node = Ok be;
  fo_format : be_format be = inl raw;
  fo_keep : be_keep_prev_content be = false;
  fo_secret : is_Some (rf_algo raw) -> exists m, raw_mac (w_secret w) raw = inr m;
  fo_vars : state_from_node true [] 0 [] node = Some (0, (of_path, magic, vars));
  fo_bytes : Forall one_byte vars;
  fo_below : Forall (fun sv => sv_start sv + sv_size sv < 2 ^ 32) vars;
  fo_last : list.last vars = Some last;
  fo_size : sv_start last + sv_size last < 2 ^ 16 }.
Arguments fo_tree {_ _ _ _ _ _ _ _ _}. Arguments fo_aliases {_ _ _ _ _ _ _ _ _}. Arguments fo_node {_ _ _ _ _ _ _ _ _}.
Arguments fo_format {_ _ _ _ _ _ _ _ _}. Arguments fo_keep {_ _ _ _ _ _ _ _ _}. Arguments fo_secret {_ _ _ _ _ _ _ _ _}.
Arguments fo_vars {_ _ _ _ _ _ _ _ _}. Arguments fo_below {_ _ _ _ _ _ _ _ _}. Arguments fo_last {_ _ _ _ _ _ _ _ _}.
Arguments fo_size {_ _ _ _ _ _ _ _ _}.

(** Making the storage of the backend. *)
Definition opened (be : backend) (ro : bool) : Z * (storage circular + storage direct) * Sysfile.file :=
  state_storage_init (fst (w_device w (be_path be))) ro (be_offset be) (be_size be) (be_stridesize be) (be_storage_type be)
    (snd (w_device w (be_path be))).

(** The device is of any kind, with room for the state and any content that can be
    told. *)
Definition backed (be : backend) (last : state_variable) : Prop :=
  usable_device (be_storage_type be) (fst (w_device w (be_path be))) (snd (w_device w (be_path be)))
    (be_offset be) (be_size be) (be_stridesize be) (48 + (sv_start last + sv_size last)) /\
  exists st f, opened be false = (0, st, f) /\ shows_fit (any_storage st) f.

(** A format just made has no digest yet. *)
Lemma backend_raw_ok root node be raw : state_backend loopback (w_sys w) root node = Ok be -> be_format be = inl raw ->
  raw_ok (w_secret w) raw.
Proof.
  unfold state_backend. intros H E.
  apply bind_ok in H as ([alias|] & _ & H); [|done]. apply bind_ok in H as (nm & _ & H).
  apply bind_ok in H as ([pn|] & _ & H); [|done].
  apply bind_ok in H as (cdev & _ & H). destruct (cdev_to_devpath cdev) as [[path off] sz].
  apply bind_ok in H as (bt & _ & H). apply bind_ok in H as (stride & _ & H). apply bind_ok in H as (ty & _ & H).
  apply bind_ok in H as (fmt & Hf & H). injection H as <-. cbn in E. subst fmt. unfold state_format_init in Hf.
  set (algo := if of_find_property node (cstr "algo") then _ else _) in Hf.
  assert (Hraw : (r ← backend_format_raw_create algo alias; Ok (inl r : any_format)) = Ok (inl raw) -> raw_ok (w_secret w) raw).
  { intros H. apply bind_ok in H as (r & Hr & H). injection H as <-. unfold backend_format_raw_create in Hr.
    destruct algo as [[a|e|]|]; try done; by injection Hr as <-. }
  repeat case_bool_decide; try done; by apply Hraw.
Qed.

(** The state that the first step of the tool makes, as one with the raw format alone. *)
Lemma state_get_raw name root node be raw of_path magic vars last ro st g ret s f' p al :
  finds name root node be raw of_path magic vars last -> state_node root (Some name) = Some p -> node_at root p = Some node ->
  of_alias_scan (Some root) = Ok al ->
  opened be ro = (0, st, g) ->
  state_do_load (State of_path magic false vars true true raw (any_storage st)) 0 g = Some (ret, s, f') ->
  state_get compat loopback stack freed fresh w (Some name) None ro true 5 (OfState None [])
  = Ok ([], OfState (Some root) al, MadeState (be_name be) (be_path be) (map_format inl s) f').
Proof.
  intros Hf Hp Hnode Hal Hi Hl. unfold state_get. rewrite (fo_tree Hf). cbn [mbind outcome_bind].
  unfold of_set_root_node. cbn [root_node]. rewrite Hal. cbn [mbind outcome_bind]. rewrite Hp, Hnode.
  cbn [of_option mbind outcome_bind root_node]. change (6 <? 5) with false. cbn iota. cbn [mbind outcome_bind].
  erewrite new_from_node_made; [|apply Hf|exact Hi|apply Hf]. cbn [mbind outcome_bind].
  rewrite (fo_keep Hf), (fo_format Hf). unfold get_load. cbn [m_state m_file m_name m_backend_path].
  change (State of_path magic false vars true true (inl raw : any_format) (any_storage st))
    with (map_format (inl : raw_format -> any_format) (State of_path magic false vars true true raw (any_storage st))).
  unfold state_load. rewrite state_do_load_inl. unfold saved_as.
  change tool_ops with (main_direct compat stack) in Hl. change tool_verify with (main_raw freed w) in Hl.
  change tool_pack with (main_raw_pack freed w) in Hl. by rewrite Hl.
Qed.

(** A call with one option for one state. *)
Definition call (get : bool) (name arg : bytes) : list opt := [OptName name; if get then OptGet arg else OptSet arg].

Lemma main_one lock get name arg root al m ret out ls :
  (lock = true -> w_lock w = true) ->
  state_get compat loopback stack freed fresh w (Some name) None get true 5 (OfState None []) = Ok ([], OfState (Some root) al, m) ->
  (let _ : FormatPack dtb_format := dtb_format_pack fresh (Some root) in
   cli_main (only get arg) [Loaded name (m_state m) (m_file m)] = Ok (ret, out, ls)) ->
  main compat loopback stack freed fresh w lock (call get name arg) false = Ok (ret, out, ls).
Proof.
  intros Hlock Hget Hcli. unfold main.
  assert (parse_options (call get name arg) false = inr (Parsed (only get arg) get true [Some name] None)) as -> by (by destruct get).
  assert (lock && negb (w_lock w) = false) as -> by (destruct lock; [by rewrite Hlock|done]).
  cbn [p_names get_loop p_dtb p_readonly p_auth p_options only o_pr_level]. rewrite Hget.
  cbn [mbind outcome_bind app root_node of_option]. cbn zeta in Hcli.
  change tool_ops with (main_direct compat stack) in Hcli. change tool_verify with (main_raw freed w) in Hcli.
  change tool_pack with (main_raw_pack freed w) in Hcli. by rewrite Hcli.
Qed.

Lemma finds_room name root node be raw of_path magic vars last :
  finds name root node be raw of_path magic vars last -> 0 <= sv_start last + sv_size last.
Proof.
  intros Hf. destruct (state_from_node_new _ _ _ _ _ _ (fo_vars Hf)) as (Hw & _). pose proof (fo_last Hf) as Hlast.
  apply list.last_Some_elem_of, list_elem_of_In in Hlast. rewrite Stdlib.Lists.List.Forall_forall in Hw.
  pose proof (Hw _ Hlast) as Hl. pose proof (sv_size_range last Hl). destruct Hl as [_ ?]. lia.
Qed.

(** The state as the tool has loaded it can be saved. *)
Lemma loaded_saveable name root node be raw of_path magic vars last :
  finds name root node be raw of_path magic vars last -> backed be last ->
  exists st g ret s f' last', opened be false = (0, st, g) /\ same_device g f' /\
    state_do_load (State of_path magic false vars true true raw (any_storage st)) 0 g = Some (ret, s, f') /\
    saveable (w_secret w) s last' f' /\ Forall2 rewritten vars (s_variables s) /\
    s_of_path s = of_path /\ s_magic s = magic /\ rf_algo (s_format s) = rf_algo raw /\
    rf_secret_name (s_format s) = rf_secret_name raw /\
    same_places (st_buckets (any_storage st)) (st_buckets (s_storage s)).
Proof.
  intros Hf Hb. destruct Hb as [Hdv (st & g & Hi & Hsh)].
  destruct (state_from_node_new _ _ _ _ _ _ (fo_vars Hf)) as (Hw & _ & _ & Hmag & Hlay).
  pose proof (fo_below Hf) as Hbelow. pose proof (fo_last Hf) as Hlast.
  pose proof (fo_size Hf) as Hsize.
  pose proof (finds_room _ _ _ _ _ _ _ _ _ Hf) as Hpos.
  destruct (init_ready compat _ _ _ _ _ _ _ (48 + (sv_start last + sv_size last)) st g ltac:(lia) Hdv Hi)
    as ((Hst & Hmd & Hne & Hg & Hfit) & Hro & Hmode & Hmed).
  destruct (load_any freed (w_secret w) (State of_path magic false vars true true raw (any_storage st)) 0 g)
    as (ret & s & f' & Hl & Hrew & (Hok & Halg & Hsec) & Hpa & Hma & Hke & Hst' & Hpl & Hro' & Hf' & Hdev); try done.
  { eapply backend_raw_ok; apply Hf. }
  cbn [s_variables s_of_path s_magic s_keep_prev_content s_format s_storage] in *.
  assert (Hsame : Forall2 same_var vars (s_variables s)) by (revert Hrew; apply Forall2_impl; by intros a b []).
  destruct (same_last _ _ _ Hsame Hlast) as (last' & Hlast' & (E1 & E2 & _)).
  exists st, g, ret, s, f', last'. split; [done|]. split; [done|]. split; [done|]. split; [|by repeat split].
  split; try done.
  - intros Ha. rewrite Halg in Ha. destruct (fo_secret Hf Ha) as [mac Hmac]. exists mac.
    rewrite <-Hmac. unfold raw_mac. by rewrite Halg, Hsec.
  - rewrite Hma. by apply read_u32_range in Hmag.
  - by eapply same_wf.
  - eapply same_layout; [done|]. apply Hlay. eapply Forall_impl; [|exact Hbelow]. cbn. intros; lia.
  - by rewrite E1, E2.
  - intros Hb. rewrite Hb in Hpl. apply list.Forall2_length in Hpl. by destruct (st_buckets (any_storage st)).
  - by rewrite Hro', Hro.
  - intros d Hd. eapply buckets_fit_places; [|exact Hpl]. apply in_mode_fit; [by apply Hmode|]. apply Hfit. by rewrite E1, E2 in Hd.
Qed.

End World.

(** ** A device that holds values *)

Section Stored.
Arguments fo_vars {_ _ _ _ _ _ _ _ _ _}. Arguments fo_node {_ _ _ _ _ _ _ _ _ _}. Arguments fo_aliases {_ _ _ _ _ _ _ _ _ _}.
Arguments fo_last {_ _ _ _ _ _ _ _ _ _}.
Context (lock : bool) (name : bytes) (root node : device_node) (be : backend) (raw : raw_format) (of_path : bytes) (magic : Z).
Context (vars : list state_variable) (last : state_variable).

Definition device (w : world) : Sysfile.file := snd (w_device w (be_path be)).

(** A load of the new state finds the values of [vars1] and leaves the medium as it is. *)
Definition loads (w : world) (vars1 : list state_variable) (st2 : storage any_bucket) (f2 : Sysfile.file) : Prop :=
  exists s3 f3, @state_do_load _ _ _ (tool_verify w) (tool_pack w) (State of_path magic false vars true true raw st2) 0 f2 = Some (0, s3, f3) /\
    s_dirty s3 = false /\ s_variables s3 = zip_with (fun a b => sv_write_raw (sv_bytes a) b) vars1 vars /\ same_medium f2 f3.

(** The device of the state holds the values of [vars1], for every process that opens it. *)
Record stored (w : world) (vars1 : list state_variable) : Prop := {
  sd_finds : finds w name root node be raw of_path magic vars last;
  sd_backed : backed w be last;
  sd_lock : lock = true -> w_lock w = true;
  sd_values : Forall2 rewritten vars vars1;
  sd_load : forall st g, opened w be false = (0, st, g) -> forall st2 f2, reopened (any_storage st) g st2 f2 -> loads w vars1 st2 f2 }.

Lemma stored_wf w vars1 : stored w vars1 -> Forall sv_wf vars /\ Forall sv_wf vars1 /\ Forall one_byte vars1.
Proof.
  intros Hs. pose proof (sd_finds _ _ Hs) as Hf. destruct (state_from_node_new _ _ _ _ _ _ (fo_vars Hf)) as (Hw & _).
  pose proof (sd_values _ _ Hs) as Hv. split; [done|]. split; [|eapply rewritten_bytes; [exact Hw|apply Hf|exact Hv]].
  eapply same_wf; [|exact Hw]. revert Hv. apply Forall2_impl. by intros a b [].
Qed.

(** Opening the device again, as it is or with the script of another process. *)
Lemma opened_again w f2 ro st g : finds w name root node be raw of_path magic vars last -> backed w be last ->
  opened w be false = (0, st, g) -> same_device g f2 -> healthy f2 ->
  exists st2 g2, opened (with_device (be_path be) f2 w) be ro = (0, st2, g2) /\ same_medium f2 g2 /\
    storage_ready compat (any_storage st2) g2 (48 + (sv_start last + sv_size last)) /\
    same_regions (st_buckets (any_storage st)) (st_buckets (any_storage st2)) /\ same_medium (device w) g /\
    usable_device (be_storage_type be) (fst (w_device (with_device (be_path be) f2 w) (be_path be)))
      (snd (w_device (with_device (be_path be) f2 w) (be_path be))) (be_offset be) (be_size be) (be_stridesize be) (48 + (sv_start last + sv_size last)).
Proof.
  intros Hf [Hdv _] Hi Hdev Hf2. apply finds_room in Hf as Hpos. unfold opened in *.
  assert (w_device (with_device (be_path be) f2 w) (be_path be) = (fst (w_device w (be_path be)), f2)) as ->
    by (unfold with_device; cbn; by rewrite decide_True).
  destruct (init_ready compat _ _ _ _ _ _ _ (48 + (sv_start last + sv_size last)) st g ltac:(lia) Hdv Hi) as (_ & _ & _ & Hmed).
  destruct (init_again compat _ false ro _ _ _ _ _ (48 + (sv_start last + sv_size last)) st g f2 ltac:(lia) Hdv Hi Hdev Hf2)
    as (st2 & g2 & Hi2 & Hm2 & Hr2 & Hp2).
  exists st2, g2. do 5 (split; [done|]). cbn [fst snd]. eapply usable_again; [|exact Hf2|exact Hdv].
  etrans; [apply same_medium_device, Hmed|exact Hdev].
Qed.

Lemma finds_device w f2 : finds w name root node be raw of_path magic vars last ->
  finds (with_device (be_path be) f2 w) name root node be raw of_path magic vars last.
Proof. intros []. by constructor. Qed.

(** The values stay on the medium, whatever script the next process meets. *)
Lemma stored_again w vars1 f2 : stored w vars1 -> same_medium (device w) f2 -> healthy f2 ->
  stored (with_device (be_path be) f2 w) vars1.
Proof.
  intros Hs Hm Hf2. pose proof (sd_finds _ _ Hs) as Hf. pose proof (sd_backed _ _ Hs) as [Hdv (st & g & Hi & Hsh)].
  assert (Hmg : same_medium (device w) g).
  { apply finds_room in Hf as Hpos.
    by destruct (init_ready compat _ _ _ _ _ _ _ (48 + (sv_start last + sv_size last)) st g ltac:(lia) Hdv Hi) as (_ & _ & _ & ?). }
  assert (Hgf : same_medium g f2) by (etrans; [symmetry; exact Hmg|exact Hm]).
  destruct (opened_again w f2 false st g Hf (sd_backed _ _ Hs) Hi (same_medium_device _ _ Hgf) Hf2)
    as (st2 & g2 & Hi2 & Hm2 & _ & Hp2 & _ & Hdv2).
  assert (Hgg : same_medium g g2) by (by etrans).
  split; [by apply finds_device| |apply Hs|apply Hs|].
  - split; [exact Hdv2|]. exists st2, g2. split; [done|]. by eapply shows_fit_regions.
  - intros st' g' Hi'. rewrite Hi2 in Hi'. injection Hi' as <- <-. intros st3 f3 Hre.
    apply (sd_load _ _ Hs st g Hi). by eapply reopened_from.
Qed.

(** The first step of the tool on such a device. *)
Lemma stored_get w vars1 ro : stored w vars1 ->
  exists s3 f3 al, state_get compat loopback stack freed fresh w (Some name) None ro true 5 (OfState None [])
      = Ok ([], OfState (Some root) al, MadeState (be_name be) (be_path be) (map_format inl s3) f3) /\
    s_dirty s3 = false /\ s_variables s3 = zip_with (fun a b => sv_write_raw (sv_bytes a) b) vars1 vars /\ same_medium (device w) f3.
Proof.
  intros Hs. pose proof (sd_finds _ _ Hs) as Hf. pose proof (sd_backed _ _ Hs) as [Hdv (st & g & Hi & _)].
  pose proof (usable_healthy _ _ _ _ _ _ _ Hdv) as Hfd.
  apply finds_room in Hf as Hpos.
  destruct (init_ready compat _ _ _ _ _ _ _ (48 + (sv_start last + sv_size last)) st g ltac:(lia) Hdv Hi) as (_ & _ & _ & Hmg).
  fold (device w) in Hmg.
  destruct (init_again compat _ false ro _ _ _ _ _ (48 + (sv_start last + sv_size last)) st g (device w) ltac:(lia) Hdv Hi)
    as (st2 & g2 & Hi2 & Hm2 & (_ & Hmd2 & _ & Hg2 & _) & Hp2); [symmetry; by apply same_medium_device|exact Hfd|].
  destruct (sd_load _ _ Hs st g Hi (any_storage st2) g2) as (s3 & f3 & Hl & Hd & Hv & Hm3).
  { split; [done|]. split; [by etrans; [symmetry; exact Hmg|]|]. by split. }
  destruct (fo_node Hf) as (p & Hp & Hnode). destruct (fo_aliases Hf) as [al Hal].
  exists s3, f3, al. split; [by eapply state_get_raw|]. split; [done|]. split; [done|]. by etrans.
Qed.

(** A call with -g prints the value and leaves the medium as it is. *)
Lemma run_get w vars1 var sv t : stored w vars1 -> state_find_var vars1 var = Some sv -> get_text sv = Ok t -> dot ∉ var ->
  exists l, main compat loopback stack freed fresh w lock (call true name var) false = Ok (0, t ++ [newline], [l]) /\
    same_medium (device w) (l_file l).
Proof.
  intros Hs Hfind Hg Hdot. destruct (stored_wf _ _ Hs) as (Hw & Hw1 & Ho1).
  destruct (stored_get w vars1 true Hs) as (s3 & f3 & al & Hget & Hd & Hv & Hm).
  destruct (loaded_text vars1 vars var sv) as (sv3 & Hf3 & Hg3);
    [done|apply rewritten_fresh; [done|apply (sd_finds _ _ Hs)|apply Hs]|done|by eapply find_var_Forall|].
  eexists. split; [eapply (main_one w lock true name var root al); [apply Hs|exact Hget|]|].
  - cbn zeta. cbn [m_state m_file]. apply (main_get name (map_format inl s3) f3 var sv3 t); [|congruence|done|done].
    cbn [map_format s_variables]. by rewrite Hv.
  - exact Hm.
Qed.

(** What a save leaves is stored, with the script of any next process. *)
Lemma saved_stored w vars1 st g (s1 : state any_bucket raw_format) f1 script :
  finds w name root node be raw of_path magic vars last -> backed w be last -> (lock = true -> w_lock w = true) ->
  opened w be false = (0, st, g) -> same_device g f1 -> Forall benign script ->
  same_regions (st_buckets (any_storage st)) (st_buckets (s_storage s1)) -> Forall2 rewritten vars vars1 ->
  (exists buf, Forall (holds buf f1) (st_buckets (s_storage s1)) /\ forall p, hdr_data_len (buf ++ zeros p) = sv_start last + sv_size last) ->
  (forall st2 f2, reopened (s_storage s1) f1 st2 f2 -> loads w vars1 st2 f2) ->
  stored (with_device (be_path be) (with_script script f1) w) vars1.
Proof.
  intros Hf Hb Hlock Hi Hdev Hsc Hpl Hrew (buf & Hh & Hlen) Hload. set (f2 := with_script script f1).
  destruct (opened_again w f2 false st g Hf Hb Hi Hdev Hsc) as (st2 & g2 & Hi2 & Hm2 & Hr2 & Hp2 & _ & Hdv2).
  assert (Hp12 : same_regions (st_buckets (s_storage s1)) (st_buckets (any_storage st2))) by (by etrans; [symmetry|]).
  assert (Hm12 : same_medium f1 g2) by exact Hm2.
  split; [by apply finds_device| |exact Hlock|exact Hrew|].
  - split; [exact Hdv2|]. exists st2, g2. split; [done|]. destruct Hr2 as (_ & _ & _ & _ & Hroom).
    eapply Forall_impl; [|exact (holds_regions _ _ _ _ _ Hp12 Hm12 Hh)]. intros b [p E]. rewrite E. apply Hroom.
    rewrite length_take, Hlen. apply finds_room in Hf. lia.
  - intros st' g' Hi'. rewrite Hi2 in Hi'. injection Hi' as <- <-. intros st3 f3 Hre. apply Hload. by eapply reopened_from.
Qed.

(** The first step of the tool on any device gives the variables of the node some values. *)
Lemma got_values w text gl m : finds w name root node be raw of_path magic vars last -> backed w be last ->
  state_get compat loopback stack freed fresh w (Some name) None false true 5 (OfState None []) = Ok (text, gl, m) ->
  Forall2 rewritten vars (s_variables (m_state m)).
Proof.
  intros Hf Hb Hget.
  destruct (loaded_saveable w _ _ _ _ _ _ _ _ _ Hf Hb) as (st & g & ret & s & f & last' & Hi & _ & Hl & _ & Hrew & _).
  destruct (fo_node Hf) as (p & Hp & Hnode). destruct (fo_aliases Hf) as [al Hal].
  pose proof (state_get_raw w _ _ _ _ _ _ _ _ _ _ _ _ _ _ _ _ _ Hf Hp Hnode Hal Hi Hl) as Hget2.
  rewrite Hget in Hget2. injection Hget2 as -> -> ->. exact Hrew.
Qed.

(** A call with -s that changes the value, or finds a state that has not been saved,
    stores the value and keeps the others. *)
Lemma run_set w var sv x t0 t text gl m :
  finds w name root node be raw of_path magic vars last -> backed w be last -> (lock = true -> w_lock w = true) ->
  state_get compat loopback stack freed fresh w (Some name) None false true 5 (OfState None []) = Ok (text, gl, m) ->
  state_find_var (s_variables (m_state m)) var = Some sv -> get_text sv = Ok t0 ->
  (s_dirty (m_state m) = true \/ t0 <> t) -> sv_wf x -> alike x sv -> has_text x -> get_text x = Ok t ->
  equals ∉ name -> equals ∉ var -> dot ∉ var ->
  exists vars1 sv1 l,
    main compat loopback stack freed fresh w lock (call false name (var ++ equals :: t)) false = Ok (0, [], [l]) /\
    state_find_var vars1 var = Some sv1 /\ get_text sv1 = Ok t /\
    (forall v, v <> var -> state_find_var vars1 v = state_find_var (s_variables (m_state m)) v) /\
    forall script, Forall benign script -> stored (with_device (be_path be) (with_script script (l_file l)) w) vars1.
Proof.
  intros Hf Hb Hlock Hget Hfind Hg0 Hnew Hx Ha Ht Hg Hn Hve Hvd.
  destruct (loaded_saveable w _ _ _ _ _ _ _ _ _ Hf Hb) as (st & g & ret & s & f & last' & Hi & Hdev & Hl & Hs & Hrew & Hpa & Hma & Halg & Hsec & Hpl).
  destruct (fo_node Hf) as (p & Hp & Hnode). destruct (fo_aliases Hf) as [al Hal].
  destruct (state_from_node_new _ _ _ _ _ _ (fo_vars Hf)) as (Hw & _).
  pose proof (state_get_raw w _ _ _ _ _ _ _ _ _ _ _ _ _ _ _ _ _ Hf Hp Hnode Hal Hi Hl) as Hget2.
  rewrite Hget in Hget2. injection Hget2 as -> -> ->. cbn [m_state map_format s_variables s_dirty] in *.
  assert (Ho : one_byte sv).
  { eapply find_var_Forall; [|exact Hfind]. eapply rewritten_bytes; [exact Hw|apply Hf|exact Hrew]. }
  destruct (set_var_text _ var sv x t t0 (sa_wf _ _ _ _ Hs) Hfind Hg0 Ho Hx Ha Ht Hg)
    as (vars1 & d & sv1 & Hset & Hrew1 & Hfind1 & Hg1 & _ & Hd).
  destruct (saveable_vars _ s last' f vars1 Hs) as (last1 & Hs1); [revert Hrew1; apply Forall2_impl; by intros a b []|].
  destruct (save_load freed (w_secret w) (with_dirty true (with_variables vars1 s)) last1 f)
    as (s1 & f1 & Hsave & Hclean & Hvars & [Hf1 Hdev1] & Hok1 & Hpl1 & Hheld & Hload); [done|apply Hs1..|].
  cbn [with_dirty with_variables s_variables s_format s_of_path s_magic s_storage] in *.
  exists vars1, sv1, (Loaded name (map_format inl s1) f1). split; [|split; [done|split; [done|split]]].
  - eapply (main_one w); [done|exact Hget|]. cbn zeta. cbn [m_state m_file].
    apply (main_set name (map_format inl s) (map_format inl s1) f var sv t vars1 d f1); try done.
    + cbn. destruct Hnew, Hd; try tauto; congruence.
    + change (with_dirty true (with_variables vars1 (map_format inl s)))
        with (map_format (inl : raw_format -> any_format) (with_dirty true (with_variables vars1 s))).
      rewrite state_save_inl. exact (f_equal saved_as Hsave).
  - intros v Hne. by eapply set_var_other.
  - intros script Hsc. cbn [l_file].
    assert (Hrw1 : Forall2 rewritten vars vars1) by (etrans; [exact Hrew|exact Hrew1]).
    assert (Hsv1 : Forall2 same_var vars vars1) by (revert Hrw1; apply Forall2_impl; by intros a b []).
    destruct (same_last _ _ _ Hsv1 (fo_last Hf)) as (y & Hy & (Y1 & Y2 & _)).
    pose proof (sa_last _ _ _ _ Hs1) as Hy1. cbn in Hy1. rewrite Hy in Hy1. injection Hy1 as ->.
    eapply (saved_stored w vars1 st g s1 f1); try done.
    + by etrans.
    + by apply same_places_regions; etrans.
    + rewrite <-Y1, <-Y2. exact Hheld.
    + intros st2 f2 Hre.
      destruct (Hload st2 f2 raw vars 0 Hre) as (s3 & f3 & Hl3 & _ & Hd3 & _ & Hv3 & Hm3); try done.
      * eapply backend_raw_ok; apply Hf.
      * apply fresh_shape. apply rewritten_fresh; [exact Hw|apply Hf|exact Hrw1].
      * exists s3, f3. rewrite Hpa, Hma in Hl3. done.
Qed.
End Stored.

(** What barebox-state -s stores on a device, barebox-state -g prints in a later
    process. The state may be kept on plain or flash memory in the raw format, with or
    without authentication, and the device may hold anything that can be told before.
    The first call finds the tree, makes the state, loads it and saves the value; the
    second one starts over from the same tree and the bytes the first one left on the
    device, with whatever errors the medium corrects. *)
Theorem tool_set_get w lock name root node be raw of_path magic vars last var sv x t0 t text gl m
    (Hfinds : finds w name root node be raw of_path magic vars last) (Hbacked : backed w be last)
    (Hlock : lock = true -> w_lock w = true)
    (Hget : state_get compat loopback stack freed fresh w (Some name) None false true 5 (OfState None []) = Ok (text, gl, m))
    (Hfind : state_find_var (s_variables (m_state m)) var = Some sv) (Hold : get_text sv = Ok t0)
    (Hnew : s_dirty (m_state m) = true \/ t0 <> t)
    (Hx : sv_wf x) (Hlike : alike x sv) (Htext : has_text x) (Ht : get_text x = Ok t)
    (Hname : equals ∉ name) (Hvar : equals ∉ var) (Hdot : dot ∉ var) :
  exists l1, main compat loopback stack freed fresh w lock (call false name (var ++ equals :: t)) false = Ok (0, [], [l1]) /\
  forall script, Forall benign script ->
  exists l2, main compat loopback stack freed fresh (with_device (be_path be) (with_script script (l_file l1)) w) lock
    (call true name var) false = Ok (0, t ++ [newline], [l2]).
Proof.
  destruct (run_set lock name root node be raw of_path magic vars last w var sv x t0 t text gl m)
    as (vars1 & sv1 & l1 & Hm & Hf & Hg & _ & Hst); try done.
  exists l1. split; [exact Hm|]. intros script Hsc.
  destruct (run_get _ _ _ _ _ _ _ _ _ _ _ vars1 var sv1 t (Hst script Hsc)) as (l2 & Hm2 & _); [done..|]. by exists l2.
Qed.
End Tool.

(** ** An EEPROM with a small state *)

Definition ex_text (s : string) : option bytes := Some (cstr s ++ [0u8]).
Definition ex_variables : list device_node :=
  [DeviceNode (cstr "boots@0") (cstr "/state/boots@0") 0
     [Property (cstr "type") (ex_text "uint32"); Property (cstr "reg") (Some (be_cell 4 0 ++ be_cell 4 4))] []].
Definition ex_node : device_node :=
  DeviceNode (cstr "state") (cstr "/state") 0
    [Property (cstr "magic") (Some (be_cell 4 0x1234)); Property (cstr "backend") (Some (be_cell 4 1));
     Property (cstr "backend-type") (ex_text "raw"); Property (cstr "backend-stridesize") (Some (be_cell 4 64))] ex_variables.
Definition ex_root : device_node :=
  DeviceNode [] [] 0 []
    [DeviceNode (cstr "aliases") (cstr "/aliases") 0 [Property (cstr "state") (ex_text "/state")] [];
     DeviceNode (cstr "eeprom") (cstr "/eeprom") 1 [Property (cstr "phandle") (Some (be_cell 4 1))] []; ex_node].
Definition ex_eeprom : udev_device :=
  UdevDevice (cstr "/sys/i2c0") (cstr "i2c0") (cstr "i2c") None None (fun _ => None)
    (fun p => if decide (p = cstr "OF_FULLNAME") then Some (cstr "/eeprom") else None).
Definition ex_world : world :=
  World (fun _ => None) (Ok (proc_entries ex_root)) (Err (- ENOENT))
    (System [ex_eeprom] (fun _ _ => true) (fun p => if bool_decide (p = cstr "/sys/i2c0/eeprom") then Some (FileStatus OtherFile 0 0) else None) (fun _ => None))
    (fun _ => (None, Sysfile.File (zeros 192) false [] [])) (fun _ => (- ENOENT, [])) true.

Example ex_world_tree : read_tree ex_world None = Ok ex_root.
Proof. vm_compute. reflexivity. Qed.

(** What the first call stores: the header of the bucket, that of the format and the
    variable. *)
Example ex_first_call :
  match main false false (zeros 8) id (fun _ => Byte.x55) ex_world true (call false (cstr "state") (cstr "boots=7")) false with
  | Ok (0, [], [l]) => bval <$> sub 0 28 (f_data (l_file l))
      = [0xf3; 0xfd; 0x54; 0x23; 20; 0; 0; 0; 0x34; 0x12; 0; 0; 0; 0; 4; 0; 0xa5; 0xe7; 0x93; 0xbc; 0x64; 0xfd; 0x52; 0x4f; 7; 0; 0; 0]
  | _ => False
  end.
Proof. vm_compute. reflexivity. Qed.

Definition ex_boots (v : Z) : state_variable :=
  StateVariable STATE_VARIABLE_TYPE_UINT32 (cstr "boots") 0 4 (StateUint32 v 0).
Definition ex_raw : raw_format := RawFormat None 0 (cstr "state") None.
Definition ex_backend : backend := Backend (cstr "state") (cstr "state") (cstr "/sys/i2c0/eeprom") 0 0 64 None false (inl ex_raw).

Lemma ex_boots_wf : sv_wf (ex_boots 7).
Proof. split; [|cbn; lia]. split; [done|]. cbn. lia. Qed.

Lemma ex_finds : finds false ex_world (cstr "state") ex_root ex_node ex_backend ex_raw (cstr "/state") 0x1234 [ex_boots 0] (ex_boots 0).
Proof.
  split.
  - apply ex_world_tree.
  - eexists. vm_compute. reflexivity.
  - exists [2%nat]. split; vm_compute; reflexivity.
  - vm_compute. reflexivity.
  - reflexivity.
  - reflexivity.
  - cbn. by intros [? ?].
  - vm_compute. reflexivity.
  - by constructor.
  - constructor; [cbn; lia|constructor].
  - reflexivity.
  - cbn. lia.
Qed.

Lemma ex_backed : backed false ex_world ex_backend (ex_boots 0).
Proof.
  split.
  - left. split; [done|]. cbn. unfold desired_buckets, sizeof_direct_meta. repeat split; try lia; try done; by left.
  - do 2 eexists. split; [vm_compute; reflexivity|]. repeat constructor.
Qed.

Lemma ex_got : exists text gl m,
  state_get false false (zeros 8) id (fun _ => Byte.x55) ex_world (Some (cstr "state")) None false true 5 (OfState None []) = Ok (text, gl, m) /\
  state_find_var (s_variables (m_state m)) (cstr "boots") = Some (ex_boots 0) /\ s_dirty (m_state m) = true.
Proof. do 3 eexists. split; [vm_compute; reflexivity|]. by split. Qed.

Lemma tool_set_get_witness : exists l1 l2,
  main false false (zeros 8) id (fun _ => Byte.x55) ex_world true (call false (cstr "state") (cstr "boots=7")) false = Ok (0, [], [l1]) /\
  main false false (zeros 8) id (fun _ => Byte.x55) (with_device (be_path ex_backend) (with_script [] (l_file l1)) ex_world) true
    (call true (cstr "state") (cstr "boots")) false = Ok (0, cstr "7" ++ [newline], [l2]).
Proof.
  destruct ex_got as (text & gl & m & Hget & Hfind & Hdirty).
  destruct (tool_set_get false false (zeros 8) id (fun _ => Byte.x55) eq_refl ex_world true (cstr "state") ex_root ex_node ex_backend ex_raw
    (cstr "/state") 0x1234 [ex_boots 0] (ex_boots 0) (cstr "boots") (ex_boots 0) (ex_boots 7) (cstr "0") (cstr "7") text gl m
    ex_finds ex_backed (fun _ => eq_refl) Hget Hfind) as (l1 & H1 & H2).
  - reflexivity.
  - left. exact Hdirty.
  - exact ex_boots_wf.
  - exact (conj eq_refl (conj eq_refl I)).
  - exact I.
  - reflexivity.
  - exact (bool_decide_unpack (equals ∉ cstr "state") I).
  - exact (bool_decide_unpack (equals ∉ cstr "boots") I).
  - exact (bool_decide_unpack (dot ∉ cstr "boots") I).
  - destruct (H2 [] (Forall_nil_2 _)) as [l2 H3]. exists l1, l2. split; [exact H1|exact H3].
Defined.
