(* ===== verification/Session.v ===== *)
(** * A store of values that outlives the processes

    What a user of the tool sees: a store of texts under the names of the variables.
    Every call of barebox-state is a process of its own, which finds nothing but the
    device tree and the bytes that the calls before it left on the device. A series of
    calls with -s and -g refines the store. *)

From S2P Require Import Prelude Print Proc Sysfile Bucket DirectBucket CircularBucket StateVar Storage RawFormat Dt Tree Variables State Fdt DtbFormat Devices Make Cli Main Persist.

(** ** The store *)

#[export] Instance byte_countable : Countable Byte.byte.
Proof. refine (inj_countable' bval byte_of _). apply byte_of_bval. Defined.

Inductive request : Type :=
| Get (var : bytes)
| Put (var text : bytes).

Abbreviation store := (gmap bytes bytes).

(** What a request prints, and the store after it. *)
Definition store_step (s : store) (r : request) : bytes * store :=
  match r with
  | Get var => (default [] (s !! var) ++ [newline], s)
  | Put var text => ([], <[var := text]> s)
  end.

Fixpoint store_run (s : store) (rs : list request) : list bytes :=
  match rs with
  | [] => []
  | r :: rs => let (out, s) := store_step s r in out :: store_run s rs
  end.

(** ** The tool *)

Section Tool.
Context (compat loopback : bool) (stack : bytes) (freed : bytes -> bytes) (fresh : nat -> Byte.byte).

Definition request_call (name : bytes) (r : request) : list opt :=
  match r with
  | Get var => call true name var
  | Put var text => call false name (var ++ equals :: text)
  end.

(** The calls one after the other in the same system, each with the script of its system
    calls, on what the one before left in the file of the device. Every one has to
    succeed. *)
Fixpoint tool_run (w : world) (lock : bool) (path name : bytes) (f : Sysfile.file) (rs : list (request * list sysret)) : outcome (list bytes) :=
  match rs with
  | [] => Ok []
  | (r, script) :: rs =>
      '(ret, out, ls) ← main compat loopback stack freed fresh (with_device path (with_script script f) w) lock (request_call name r) false;
      match ls with
      | [l] => if ret =? 0 then outs ← tool_run w lock path name (l_file l) rs; Ok (out :: outs) else Err ret
      | _ => Undef
      end
  end.
End Tool.

(** ** The refinement *)

(** The variables hold at least what the store does. *)
Definition texts (vars : list state_variable) (s : store) : Prop :=
  forall var t, s !! var = Some t -> exists sv, state_find_var vars var = Some sv /\ get_text sv = Ok t.

(** A request on a variable of the store, with a text that is one of a value of its
    type. *)
Definition request_ok (vars : list state_variable) (s : store) (r : request) : Prop :=
  match r with
  | Get var => var ∈ dom s /\ dot ∉ var
  | Put var t => var ∈ dom s /\ dot ∉ var /\ equals ∉ var /\
      exists sv x, state_find_var vars var = Some sv /\ sv_wf x /\ alike x sv /\ has_text x /\ get_text x = Ok t
  end.

Lemma find_var_rel (R : state_variable -> state_variable -> Prop) vars vars' var sv :
  (forall a b, R a b -> sv_name b = sv_name a) -> Forall2 R vars vars' -> state_find_var vars var = Some sv ->
  exists sv', state_find_var vars' var = Some sv' /\ R sv sv'.
Proof.
  intros Hn. induction 1 as [|a b l k Hab _ IH]; [done|]. cbn [state_find_var]. rewrite (Hn a b Hab).
  case_bool_decide; [intros [= ->]; by exists b|exact IH].
Qed.

(** The text of a value of a variable is one for every value of it. *)
Lemma request_rewritten vars vars1 s r : Forall2 rewritten vars vars1 -> request_ok vars s r -> request_ok vars1 s r.
Proof.
  intros Hrw. destruct r as [var|var t]; [done|]. intros (Hd & Hdot & Heq & sv & x & Hf & Hx & Ha & Ht & Hg).
  destruct (find_var_rel rewritten vars vars1 var sv) as (sv1 & Hf1 & (_ & Ha1 & _)); [by intros a b [(_&_&?&_) _]|done|done|].
  do 3 (split; [done|]). exists sv1, x. split; [done|]. split; [done|]. split; [by eapply alike_trans|done].
Qed.

Lemma request_step vars s r r' : request_ok vars s r -> dom (snd (store_step s r')) = dom s -> request_ok vars (snd (store_step s r')) r.
Proof. intros Hr Hd. destruct r; cbn [request_ok] in *; by rewrite Hd. Qed.

Lemma store_step_dom vars s r : request_ok vars s r -> dom (snd (store_step s r)) = dom s.
Proof. destruct r as [var|var t]; [done|]. intros (Hd & _). cbn. set_solver. Qed.

(** What is loaded has the texts of what was stored. *)
Lemma texts_loaded vars vars1 s : Forall sv_wf vars1 -> Forall one_byte vars1 -> Forall2 fresh_like vars1 vars -> texts vars1 s ->
  texts (zip_with (fun a b => sv_write_raw (sv_bytes a) b) vars1 vars) s.
Proof.
  intros Hw Ho Hf Ht var t Hs. destruct (Ht var t Hs) as (sv & Hv & Hg).
  destruct (loaded_text vars1 vars var sv) as (sv' & Hv' & Hg'); [done..|by eapply find_var_Forall|].
  exists sv'. split; [done|]. congruence.
Qed.

Lemma texts_put vars vars1 s var t sv : texts vars s -> state_find_var vars1 var = Some sv -> get_text sv = Ok t ->
  (forall v, v <> var -> state_find_var vars1 v = state_find_var vars v) -> texts vars1 (<[var := t]> s).
Proof.
  intros Ht Hf Hg Ho v u Hs. destruct (decide (v = var)) as [->|Hne].
  - rewrite lookup_insert_eq in Hs. injection Hs as <-. by exists sv.
  - rewrite lookup_insert_ne in Hs by done. rewrite Ho by done. by apply Ht.
Qed.

Lemma loaded_rewritten vars1 vars : Forall sv_wf vars1 -> Forall2 fresh_like vars1 vars ->
  Forall2 rewritten vars (zip_with (fun a b => sv_write_raw (sv_bytes a) b) vars1 vars).
Proof.
  intros Hw. induction 1 as [|a b l k (_ & _ & (_ & Hsz & _) & Hb & _) _ IH]; [constructor|]. apply Forall_cons_1 in Hw as [Ha Hw].
  constructor; [|by apply IH]. apply write_rewritten; [done|]. rewrite sv_bytes_length by done. by rewrite Hsz.
Qed.

Section Refinement.
Context (compat loopback : bool) (stack : bytes) (freed : bytes -> bytes) (fresh : nat -> Byte.byte).
Context (Hstack : length stack = 8%nat).
Context (lock : bool) (name : bytes) (root node : device_node) (be : backend) (raw : raw_format) (of_path : bytes) (magic : Z).
Context (vars : list state_variable) (last : state_variable) (Hname : equals ∉ name).

Notation stored := (stored compat loopback stack freed lock name root node be raw of_path magic vars last).
Notation main := (main compat loopback stack freed fresh).

(** One call: the device holds the store before, it prints what the store says, and the
    next process finds the store after. *)
Lemma call_refines w vars1 s r : stored w vars1 -> texts vars1 s -> request_ok vars s r ->
  exists vars2 l, main w lock (request_call name r) false = Ok (0, fst (store_step s r), [l]) /\
    texts vars2 (snd (store_step s r)) /\
    forall script, Forall benign script -> stored (with_device (be_path be) (with_script script (l_file l)) w) vars2.
Proof.
  intros Hs Ht Hr. pose proof Hs as (Hw & Hw1 & Ho1)%stored_wf. pose proof Hs as [Hfinds Hbacked Hlock Hvalues _].
  destruct r as [var|var t]; cbn [request_ok store_step request_call fst snd] in *.
  - destruct Hr as [[t Hst]%elem_of_dom Hdot]. destruct (Ht var t Hst) as (sv & Hv & Hg). rewrite Hst.
    destruct (run_get compat loopback stack freed fresh Hstack lock name root node be raw of_path magic vars last w vars1 var sv t Hs Hv Hg Hdot)
      as (l & Hm & Hmed). exists vars1, l. split; [exact Hm|]. split; [done|]. intros script Hsc.
    by apply (stored_again compat loopback stack freed Hstack).
  - destruct (stored_get compat loopback stack freed fresh Hstack lock name root node be raw of_path magic vars last w vars1 false Hs)
      as (s3 & f3 & al & Hget & Hd & Hv & Hmed).
    assert (Hfresh : Forall2 fresh_like vars1 vars).
    { apply rewritten_fresh; [done|apply Hfinds|done]. }
    pose proof (texts_loaded _ _ _ Hw1 Ho1 Hfresh Ht) as Ht3. rewrite <-Hv in Ht3.
    pose proof (loaded_rewritten _ _ Hw1 Hfresh) as Hrw. rewrite <-Hv in Hrw.
    apply (request_rewritten _ _ _ (Put var t) Hrw) in Hr as ([t0 Hst]%elem_of_dom & Hdot & Heq & sv & x & Hf & Hx & Ha & Htx & Hg).
    destruct (Ht3 var t0 Hst) as (sv' & Hf' & Hg0). rewrite Hf in Hf'. injection Hf' as <-.
    destruct (decide (t0 = t)) as [->|Hne].
    + exists vars1. eexists. split; [eapply (main_one compat loopback stack freed fresh w); [exact Hlock|exact Hget|]|].
      { cbn zeta. cbn [m_state m_file]. apply main_set_same; [|exact Hd|done|done|done].
        cbn [map_format s_variables]. unfold state_set_var. rewrite Hf, Hg0. cbn [mbind outcome_bind]. by rewrite bool_decide_eq_true_2. }
      split; [by rewrite insert_id|]. intros script Hsc. by apply (stored_again compat loopback stack freed Hstack).
    + destruct (run_set compat loopback stack freed fresh Hstack lock name root node be raw of_path magic vars last w var sv x t0 t _ _ _
        Hfinds Hbacked Hlock Hget Hf Hg0 (or_intror Hne) Hx Ha Htx Hg Hname Heq Hdot)
        as (vars2 & sv2 & l & Hm & Hf2 & Hg2 & Hother & Hst2).
      exists vars2, l. split; [exact Hm|]. split; [by eapply texts_put|exact Hst2].
Qed.

(** The file of a device is that of the last process. *)
Lemma stored_last w vars1 f1 f2 :
  stored (with_device (be_path be) f2 (with_device (be_path be) f1 w)) vars1 -> stored (with_device (be_path be) f2 w) vars1.
Proof.
  assert (Hd : w_device (with_device (be_path be) f2 (with_device (be_path be) f1 w)) (be_path be)
    = w_device (with_device (be_path be) f2 w) (be_path be)) by (unfold with_device; cbn; by rewrite !decide_True).
  assert (Ho : forall ro, opened (with_device (be_path be) f2 (with_device (be_path be) f1 w)) be ro
    = opened (with_device (be_path be) f2 w) be ro) by (intros; unfold opened; by rewrite Hd).
  intros [Hfi Hb Hl Hv Hld]. split; [by destruct Hfi; constructor| |exact Hl|exact Hv|].
  - unfold backed in *. by rewrite <-Ho, <-Hd.
  - intros st g. rewrite <-Ho. apply Hld.
Qed.

(** The device in the hands of the next process, whatever its script. *)
Definition kept (w : world) (f : Sysfile.file) (vars1 : list state_variable) : Prop :=
  forall script, Forall benign script -> stored (with_device (be_path be) (with_script script f) w) vars1.

(** Any number of calls. *)
Lemma run_refines w rs : forall f vars1 s, kept w f vars1 -> texts vars1 s ->
  Forall (fun x => request_ok vars s x.1 /\ Forall benign x.2) rs ->
  tool_run compat loopback stack freed fresh w lock (be_path be) name f rs = Ok (store_run s rs.*1).
Proof.
  induction rs as [|[r script] rs IH]; intros f vars1 s Hk Ht Hrs; [done|].
  apply Forall_cons_1 in Hrs as [[Hr Hsc] Hrs]. cbn [fst snd] in *. cbn [tool_run fmap list_fmap store_run fst].
  destruct (call_refines _ vars1 s r (Hk script Hsc) Ht Hr) as (vars2 & l & -> & Ht2 & Hst2). cbn [mbind outcome_bind Z.eqb].
  pose proof (store_step_dom vars s r Hr) as Hd. destruct (store_step s r) as [out s2] eqn:E. cbn [fst snd] in *.
  rewrite (IH (l_file l) vars2 s2); [done| |exact Ht2|].
  - intros script2 Hsc2. eapply stored_last, Hst2, Hsc2.
  - eapply Forall_impl; [|exact Hrs]. intros [r2 sc2] [Hr2 ?]. split; [|done].
    pose proof (request_step vars s r2 r Hr2) as Hst. rewrite E in Hst. by apply Hst.
Qed.

(** A first call that saves the state, on a device that may hold anything before. *)
Lemma first_call w s var t text gl m :
  finds loopback w name root node be raw of_path magic vars last -> backed compat w be last -> (lock = true -> w_lock w = true) ->
  state_get compat loopback stack freed fresh w (Some name) None false true 5 (OfState None []) = Ok (text, gl, m) ->
  texts (s_variables (m_state m)) s -> s_dirty (m_state m) = true \/ s !! var <> Some t -> request_ok vars s (Put var t) ->
  exists vars1 l, main w lock (request_call name (Put var t)) false = Ok (0, [], [l]) /\
    texts vars1 (<[var := t]> s) /\ kept w (l_file l) vars1.
Proof.
  intros Hf Hb Hlock Hget Ht Hnew Hr.
  pose proof (got_values compat loopback stack freed fresh Hstack name root node be raw of_path magic vars last w text gl m Hf Hb Hget) as Hrw.
  apply (request_rewritten _ _ _ _ Hrw) in Hr as ([t0 Hst]%elem_of_dom & Hdot & Heq & sv & x & Hv & Hx & Ha & Htx & Hg).
  destruct (Ht var t0 Hst) as (sv' & Hv' & Hg0). rewrite Hv in Hv'. injection Hv' as <-.
  destruct (run_set compat loopback stack freed fresh Hstack lock name root node be raw of_path magic vars last w var sv x t0 t text gl m
    Hf Hb Hlock Hget Hv Hg0) as (vars2 & sv2 & l & Hm & Hf2 & Hg2 & Hother & Hst2); try done.
  { destruct Hnew as [?|Hne]; [by left|right; congruence]. }
  exists vars2, l. split; [exact Hm|]. split; [by eapply texts_put|exact Hst2].
Qed.

(** C1: a device with a state, and the calls of barebox-state on it, refine a store of
    texts that outlives the processes: once a first -s has saved the state, every -g, in
    a process of its own, prints the text that the last -s before it stored under the
    name, or the one that was there before, and every -s keeps the texts of the other
    names. The state may be kept on plain or flash memory in the raw format, with or
    without authentication, and the device may hold anything that can be told before;
    each process finds the device tree and the bytes that the one before left, with
    whatever errors the medium corrects. *)
Theorem tool_refines_store w s var t text gl m
    (Hfinds : finds loopback w name root node be raw of_path magic vars last) (Hbacked : backed compat w be last)
    (Hlock : lock = true -> w_lock w = true)
    (Hget : state_get compat loopback stack freed fresh w (Some name) None false true 5 (OfState None []) = Ok (text, gl, m))
    (Htexts : texts (s_variables (m_state m)) s) (Hnew : s_dirty (m_state m) = true \/ s !! var <> Some t)
    (Hput : request_ok vars s (Put var t)) :
  exists l, main w lock (request_call name (Put var t)) false = Ok (0, [], [l]) /\
  forall rs, Forall (fun x => request_ok vars s x.1 /\ Forall benign x.2) rs ->
  tool_run compat loopback stack freed fresh w lock (be_path be) name (l_file l) rs = Ok (store_run (<[var := t]> s) rs.*1).
Proof.
  destruct (first_call w s var t text gl m) as (vars1 & l & Hm & Ht & Hk); [done..|].
  exists l. split; [exact Hm|]. intros rs Hrs. apply (run_refines w rs (l_file l) vars1); [exact Hk|exact Ht|].
  eapply Forall_impl; [|exact Hrs]. intros x [Hx ?]. split; [|done].
  apply (request_step vars s x.1 (Put var t) Hx), (store_step_dom vars s (Put var t) Hput).
Qed.
End Refinement.

(** ** The state on an EEPROM *)

Definition ex_store : store := {[cstr "boots" := cstr "0"]}.

Lemma ex_request r : match r with Get v => v = cstr "boots" | Put v t => v = cstr "boots" /\ exists n, 0 <= n < 2 ^ 32 /\ get_text (ex_boots n) = Ok t end ->
  request_ok [ex_boots 0] ex_store r.
Proof.
  assert (Hd : cstr "boots" ∈ dom ex_store) by (apply elem_of_dom; by exists (cstr "0")).
  assert (Hdot : dot ∉ cstr "boots") by exact (bool_decide_unpack (dot ∉ cstr "boots") I).
  destruct r as [v|v t]; [by intros ->|]. intros (-> & n & Hn & Ht). do 2 (split; [done|]).
  split; [exact (bool_decide_unpack (equals ∉ cstr "boots") I)|].
  exists (ex_boots 0), (ex_boots n). split; [done|]. split; [|by repeat split].
  split; [|cbn; lia]. split; [done|]. cbn. lia.
Qed.

Lemma tool_refines_store_witness : exists l,
  main false false (zeros 8) id (fun _ => Byte.x55) ex_world true (request_call (cstr "state") (Put (cstr "boots") (cstr "7"))) false = Ok (0, [], [l]) /\
  tool_run false false (zeros 8) id (fun _ => Byte.x55) ex_world true (be_path ex_backend) (cstr "state") (l_file l)
    [(Get (cstr "boots"), [SysOk; SysCap 2]); (Put (cstr "boots") (cstr "8"), []); (Get (cstr "boots"), [])]
  = Ok [cstr "7" ++ [newline]; []; cstr "8" ++ [newline]].
Proof.
  destruct ex_got as (text & gl & m & Hget & Hfind & Hdirty).
  assert (Hn : equals ∉ cstr "state") by exact (bool_decide_unpack (equals ∉ cstr "state") I).
  destruct (tool_refines_store false false (zeros 8) id (fun _ => Byte.x55) eq_refl true (cstr "state") ex_root ex_node ex_backend ex_raw
    (cstr "/state") 0x1234 [ex_boots 0] (ex_boots 0) Hn ex_world ex_store (cstr "boots") (cstr "7") text gl m
    ex_finds ex_backed (fun _ => eq_refl) Hget) as (l & H1 & H2).
  - intros var t Hs. unfold ex_store in Hs. apply lookup_singleton_Some in Hs as [<- <-].
    exists (ex_boots 0). split; [exact Hfind|reflexivity].
  - left. exact Hdirty.
  - apply ex_request. split; [reflexivity|]. exists 7. split; [lia|reflexivity].
  - exists l. split; [exact H1|]. rewrite H2; [reflexivity|].
    constructor; [split; [apply ex_request; reflexivity|repeat constructor]|].
    constructor; [split; [apply ex_request; split; [reflexivity|exists 8; split; [lia|reflexivity]]|constructor]|].
    constructor; [split; [apply ex_request; reflexivity|constructor]|constructor].
Defined.
