(* ===== verification/Readonly.v ===== *)
(** * Calls that only read

    Without -s the tool makes its states read-only: the buckets of plain memory are
    opened for reading, and what is to be saved is dropped. On such memory a call
    changes nothing, whatever it finds and whatever errors there are. The buckets of
    flash memory are opened for writing all the same, and a read repairs them. *)

From S2P Require Import Prelude Print Proc Sysfile Bucket DirectBucket CircularBucket StateVar Storage RawFormat StorageExamples.
From S2P Require Import Dt Tree Variables State Fdt DtbFormat Devices Make Cli Main Persist.

(** ** A state that is read-only *)

Section State.
Context {B F : Type} {HO : BucketOps B} {HV : BucketView B} {HL : BucketLaws B} {HM : WrongMagic B}.
Context {HF : FormatVerify F} {HP : FormatPack F}.

Definition state_rdonly (s : state B F) : Prop :=
  st_readonly (s_storage s) = true /\ Forall rdonly (st_buckets (s_storage s)).

Lemma load_rdonly (s : state B F) flags f ret s' g :
  state_rdonly s -> state_do_load s flags f = Some (ret, s', g) -> state_rdonly s' /\ same_medium f g.
Proof.
  intros [Hro Hb]. unfold state_do_load.
  destruct (state_storage_read _ _ _ _ _) as [[[[[r data] st] fmt] h]|] eqn:E; [|done].
  pose proof (storage_read_keeps _ _ _ _ _ _ _ _ _ E) as Hst. apply storage_read_rdonly in E as [Hm Hp]; [|done].
  assert (Hs : st_readonly st = true /\ Forall rdonly (st_buckets st)).
  { split; [by rewrite Hst|by eapply rdonly_places]. }
  destruct (negb (r =? 0)); [by intros [= _ <- <-]|]. destruct data as [[buf len]|]; [|done].
  destruct (format_unpack _ _ _ _ _ _) as [[[r2 vars] fmt2]|]; [|done]. by destruct (negb (r2 =? 0)); intros [= _ <- <-].
Qed.

Lemma save_rdonly (s : state B F) f ret s' g :
  st_readonly (s_storage s) = true -> state_save s f = Some (ret, s', g) -> g = f.
Proof.
  intros Hro. unfold state_save. destruct (negb (s_dirty s)); [by intros [= _ _ <-]|].
  destruct (format_pack _ _ _ _) as [[[r buf] fmt]|]; [|done]. destruct (negb (r =? 0)); [by intros [= _ _ <-]|].
  destruct (_ && _); [by intros [= _ _ <-]|]. cbn [with_format s_storage]. unfold state_storage_write. rewrite Hro.
  by intros [= _ _ <-].
Qed.

Lemma save_loop_rdonly (states states' : list (loaded B F)) ret :
  Forall (fun l => st_readonly (s_storage (l_state l)) = true) states -> save_loop states = Ok (ret, states') ->
  l_file <$> states' = l_file <$> states.
Proof.
  intros Hro. revert ret states'. induction Hro as [|l states Hl _ IH]; intros ret states'; cbn [save_loop]; [by intros [= _ <-]|].
  destruct (negb (s_dirty (l_state l))).
  - intros ([r st] & H & [= _ <-])%bind_ok. cbn. by rewrite (IH _ _ H).
  - destruct (state_save _ _) as [[[r s] f]|] eqn:E; [|done]. apply save_rdonly in E as ->; [|done].
    destruct (negb (r =? 0)); [by intros [= _ <-]|]. intros ([r2 st] & H & [= _ <-])%bind_ok. cbn. by rewrite (IH _ _ H).
Qed.

(** Whatever the options of a call, what it was given stays as it was. *)
Lemma cli_main_rdonly o (states states' : list (loaded B F)) ret out :
  Forall (fun l => st_readonly (s_storage (l_state l)) = true) states -> cli_main o states = Ok (ret, out, states') ->
  l_file <$> states' = l_file <$> states.
Proof.
  intros Hro. unfold cli_main. intros (d & _ & (e & _ & ([[r x] st] & Hsg & H)%bind_ok)%bind_ok)%bind_ok.
  pose proof (sg_loop_files _ _ _ _ _ Hsg) as Hf. pose proof (sg_loop_held _ _ _ _ _ Hsg) as Hh.
  destruct (negb (r =? 0)); [by injection H as _ _ <-|]. apply bind_ok in H as ([r2 st2] & Hs & [= _ _ <-]).
  rewrite <-Hf. eapply save_loop_rdonly; [|exact Hs]. clear -Hh Hro. revert st Hh.
  induction Hro as [|l ls Hl _ IH]; intros [|l2 st] Hh; try done. injection Hh as _ Est Hh.
  constructor; [by rewrite Est|by apply IH].
Qed.
End State.

(** ** The tool *)

Section Tool.
Context (compat loopback : bool) (stack : bytes) (freed : bytes -> bytes) (fresh : nat -> Byte.byte) (w : world).
Context (Hstack : length stack = 8%nat).
#[local] Instance rdonly_ops : BucketOps direct := main_direct compat stack.
#[local] Instance rdonly_raw : FormatVerify raw_format := main_raw freed w.
#[local] Instance rdonly_raw_pack : FormatPack raw_format := main_raw_pack freed w.
#[local] Instance rdonly_view : BucketView direct := direct_view compat.
#[local] Instance rdonly_laws : BucketLaws direct := direct_laws compat stack Hstack.

(** No device of the world is flash memory that has to be erased. *)
Definition plain_world : Prop := forall p m, fst (w_device w p) = Some m -> mtd_no_erase m = true.

Lemma storage_init_rdonly meminfo offset size stride ty f ret st g :
  (forall m, meminfo = Some m -> mtd_no_erase m = true) ->
  state_storage_init meminfo true offset size stride ty f = (ret, st, g) ->
  same_medium f g /\ st_readonly (any_storage st) = true /\ Forall rdonly (st_buckets (any_storage st)).
Proof.
  intros Hm H. assert (exists d, st = inr d /\
    state_storage_file_buckets_init (Storage [] ty stride offset size true) f = (ret, d, g)) as (d & -> & E).
  { unfold state_storage_init in H. destruct meminfo as [m|]; [rewrite (Hm m eq_refl) in H; cbn [negb] in H|];
      destruct (state_storage_file_buckets_init _ f) as [[r d] h]; injection H as -> <- ->; by exists d. }
  apply (file_buckets_init_rdonly compat) in E as (Hmed & Hr & Hro); [|done|constructor].
  split; [done|]. split; [done|]. cbn. by apply Forall_fmap.
Qed.

Lemma new_from_node_rdonly root node m : plain_world ->
  state_new_from_node loopback (w_sys w) (w_device w) root node true = Ok m ->
  state_rdonly (m_state m) /\ exists p, same_medium (snd (w_device w p)) (m_file m).
Proof.
  intros Hp (be & st & vars & of_path & magic & _ & Hi & _ & ->)%new_from_node_parts.
  apply storage_init_rdonly in Hi as (Hm & Hro & Hb); [|apply Hp]. split; [by split|]. by exists (be_path be).
Qed.

Lemma get_load_rdonly root auth m m' : state_rdonly (m_state m) -> get_load compat stack freed fresh w root auth m = Ok m' ->
  state_rdonly (m_state m') /\ same_medium (m_file m) (m_file m').
Proof.
  unfold get_load, state_load, state_load_no_auth. intros Hr H. destruct auth.
  all: destruct (state_do_load _ _ _) as [[[r s] f]|] eqn:E; [|done]; injection H as <-; by eapply load_rdonly.
Qed.

Lemma state_get_rdonly name filename auth level global text gl m : plain_world ->
  state_get compat loopback stack freed fresh w name filename true auth level global = Ok (text, gl, m) ->
  state_rdonly (m_state m) /\ exists p, same_medium (snd (w_device w p)) (m_file m).
Proof.
  intros Hp. unfold state_get. intros (root & _ & ([x g] & _ & H)%bind_ok)%bind_ok.
  destruct (state_node root name) as [ref|]; [|done].
  apply bind_ok in H as (node & _ & H). apply bind_ok in H as (tx & _ & H). apply bind_ok in H as (r0 & _ & H).
  apply bind_ok in H as (m0 & H0 & H). apply bind_ok in H as (m1 & H1 & [= _ _ <-]).
  apply new_from_node_rdonly in H0 as (Hr & p & Hm); [|done]. apply get_load_rdonly in H1 as (Hr1 & Hm1); [|done].
  split; [done|]. exists p. by etrans.
Qed.

Lemma get_loop_rdonly p names : forall global text gl ls, plain_world -> p_readonly p = true ->
  get_loop compat loopback stack freed fresh w p names global = Ok (text, gl, Some ls) ->
  Forall (fun l => st_readonly (s_storage (l_state l)) = true /\ exists q, same_medium (snd (w_device w q)) (l_file l)) ls.
Proof.
  induction names as [|name names IH]; intros global text gl ls Hp Hro; cbn [get_loop]; [by intros [= _ _ <-]|].
  rewrite Hro. destruct (state_get _ _ _ _ _ _ _ _ _ _ _ _) as [[[tx g] m]|e|] eqn:E; [|done|done].
  intros ([[more gl2] states] & H & H2)%bind_ok. destruct states as [ls2|]; [|done]. injection H2 as _ _ <-.
  apply state_get_rdonly in E as ([Hr _] & Hm); [|done]. constructor; [done|]. by eapply IH.
Qed.

(** C3: without -s the tool only reads: on memory that needs no erase a call, whatever
    its other options, whatever the device tree says and the devices hold, and whatever
    system calls fail, leaves every byte as it was. *)
Theorem reading_changes_nothing lock os more ret out ls (Hset : existsb is_set os = false) (Hplain : plain_world)
    (Hrun : main compat loopback stack freed fresh w lock os more = Ok (ret, out, ls)) :
  Forall (fun l => exists p, same_medium (snd (w_device w p)) (l_file l)) ls.
Proof.
  unfold main in Hrun. destruct (parse_options os more) as [c|p] eqn:Ep; [by injection Hrun as _ _ <-|].
  assert (Hro : p_readonly p = true) by (by rewrite (parse_options_readonly _ _ _ Ep), Hset).
  destruct (lock && negb (w_lock w)); [by injection Hrun as _ _ <-|].
  apply bind_ok in Hrun as ([[text gl] states] & Hg & Hrun). destruct states as [states|]; [|by injection Hrun as _ _ <-].
  apply get_loop_rdonly in Hg; [|done..]. apply bind_ok in Hrun as (root & _ & Hrun). cbn zeta in Hrun.
  apply bind_ok in Hrun as ([[r o] st] & Hm & [= _ _ <-]).
  eapply cli_main_rdonly in Hm; [|eapply Forall_impl; [|exact Hg]; by intros l []].
  clear -Hm Hg. revert st Hm. induction Hg as [|l ls [_ Hl] _ IH]; intros [|l2 st] Hm; try done.
  injection Hm as El Hm. constructor; [by rewrite El|by apply IH].
Qed.
End Tool.

(** ** A damaged EEPROM *)

(** The first copy of the state is overwritten, and a system call fails. *)
Definition ex_damaged_file : Sysfile.file :=
  match main false false (zeros 8) id (fun _ => Byte.x55) ex_world true (call false (cstr "state") (cstr "boots=7")) false with
  | Ok (_, _, [l]) => Sysfile.File (splice 0 (zeros 64) (f_data (l_file l))) false [] [SysOk; SysOk; SysOk; SysErr EIO]
  | _ => Sysfile.File [] false [] []
  end.
Definition ex_damaged_world : world := with_device (be_path ex_backend) ex_damaged_file ex_world.

Lemma ex_damaged_plain : plain_world ex_damaged_world.
Proof. intros p m. unfold ex_damaged_world, with_device. cbn. by case_decide. Qed.

Lemma reading_changes_nothing_witness : exists out l,
  main false false (zeros 8) id (fun _ => Byte.x55) ex_damaged_world true [OptName (cstr "state"); OptDump] false = Ok (0, out, [l]) /\
  Forall (fun l => exists p, same_medium (snd (w_device ex_damaged_world p)) (l_file l)) [l].
Proof.
  pose proof (reading_changes_nothing false false (zeros 8) id (fun _ => Byte.x55) ex_damaged_world eq_refl true
    [OptName (cstr "state"); OptDump] false) as H.
  assert (Hv : match main false false (zeros 8) id (fun _ => Byte.x55) ex_damaged_world true [OptName (cstr "state"); OptDump] false with
               | Ok (0, out, [l]) => True
               | _ => False
               end) by (vm_compute; exact I).
  destruct (main _ _ _ _ _ _ _ _ _) as [[[[] out] [|l []]]|e|]; try (exfalso; exact Hv).
  exists out, l. split; [reflexivity|]. exact (H 0 out [l] eq_refl ex_damaged_plain eq_refl).
Defined.

(** On flash memory the read of a state that is read-only writes the copy that is
    missing. *)
Definition ex_flash : storage circular * Sysfile.file :=
  let '(_, st, f) := state_storage_mtd_buckets_init (Storage [] None 0 0 128 true) (MtdInfo 128 64 16 false) true
    (Sysfile.File (replicate 128 Byte.xff) true [] []) in
  match st_buckets st with
  | b :: bs => let '(_, i, f) := bucket_write (b_impl b) ex_old f in (set_buckets (set_impl i b :: bs) st, f)
  | [] => (st, f)
  end.

Example read_only_flash_repaired :
  let _ : FormatVerify raw_format := raw_format_verify id ex_secret in
  let (st, f) := ex_flash in
  st_readonly st = true /\
  match state_storage_read st ex_plain 0x1234 0 f with
  | Some ((ret, _), _, _, g) => ret = 0 /\ sub 64 16 (f_data f) = replicate 16 Byte.xff /\ sub 64 16 (f_data g) = sub 0 16 (f_data f)
  | None => False
  end.
Proof. vm_compute. repeat split. Qed.
