(* ===== verification/Keystore.v ===== *)
(** * The keystore (src/keystore-blob.c)

    Secrets are kept sealed in the variables of a state of their own, "/blobs", as
    base64 text. A driver of the kernel unseals them: a modifier and the sealed blob
    are written to two of its files, and the secret is read from a third one, again as
    base64 text. What the driver answers is an argument. *)

From S2P Require Import Prelude Base64 Sysfile Bucket StateVar Storage RawFormat Dt Tree Proc Variables State Devices Make Cli Main Persist.

Definition keystore_state_name : bytes := cstr "/blobs".

(** ** The driver *)

(** How the calls on the three files end: an errno or success; the results of
    [fprintf], of [write] for the bytes written, and of [read] for the modifier and the
    blob that were written before and the size of the buffer ([None] is -1), each with
    the [errno] that is left. *)
Record blob_gen : Type := BlobGen {
  bg_open_modifier : option Z;
  bg_fprintf : bytes -> Z;
  bg_close_modifier : option Z;
  bg_open_blob : option Z;
  bg_write : bytes -> Z * Z;
  bg_close_blob : option Z;
  bg_open_payload : option Z;
  bg_read : bytes -> bytes -> nat -> option bytes * Z
}.

(** ** keystore_get_secret *)

Section Keystore.
Context (compat loopback : bool) (stack : bytes) (freed : bytes -> bytes) (fresh : nat -> Byte.byte) (w : world).
Context (pr_level : Z) (bg : blob_gen).

(** The static variable [state]: made once, read-only and without authentication. *)
Definition keystore_state (state : option made_state) (global : of_state) : outcome (made_state * of_state) :=
  match state with
  | Some s => Ok (s, global)
  | None =>
      '(_, global, s) ← state_get compat loopback stack freed fresh w (Some keystore_state_name) None true false pr_level global;
      Ok (s, global)
  end.

(** The modifier of a name. *)
Definition modifier (name : bytes) : bytes := cstr "user:" ++ name.

(** From the payload on: the bytes that were read in a buffer of [len] zeros, which the
    decoder takes for a string. The key has room for as many bytes as were read. *)
Definition decode_payload (len : nat) (payload : bytes) : outcome bytes :=
  s ← of_option (until_nul (payload ++ zeros (len - length payload)));
  Ok (fst (decode_base64 (Z.of_nat (length payload)) s)).

(** The exchange with the driver: the result, and the key when it is stored. *)
Definition unseal_blob (name blob : bytes) : outcome (Z * option bytes) :=
  let blob_bin := fst (decode_base64 (Z.of_nat (length blob) + 1) blob) in
  let len := length blob_bin in
  match bg_open_blob bg with
  | Some e => Ok (- e, None)
  | None =>
      let (ret, errno) := bg_write bg blob_bin in
      if negb (ret =? Z.of_nat len) then Ok (- errno, None) else
      match bg_close_blob bg with
      | Some e => Ok (- e, None)
      | None =>
          match bg_open_payload bg with
          | Some e => Ok (- e, None)
          | None =>
              match bg_read bg (modifier name) blob_bin len with
              | (None, errno) | (Some [], errno) => Ok (- errno, None)
              | (Some payload, _) => key ← decode_payload len payload; Ok (0, Some key)
              end
          end
      end
  end.

(** The result, the key and the state that is kept. [Err] when that cannot be made. *)
Definition keystore_get_secret (state : option made_state) (global : of_state) (name : bytes)
  : outcome (Z * option bytes * made_state * of_state) :=
  '(state, global) ← keystore_state state global;
  match bg_open_modifier bg with
  | Some e => Ok (- e, None, state, global)
  | None =>
      let ret := bg_fprintf bg (modifier name) in
      if ret <? 0 then Ok (ret, None, state, global) else
      match bg_close_modifier bg with
      | Some e => Ok (- e, None, state, global)
      | None =>
          blob ← state_get_var (s_variables (m_state state)) name;
          match blob with
          | None => Ok (- ENOENT, None, state, global)
          | Some blob => '(ret, key) ← unseal_blob name blob; Ok (ret, key, state, global)
          end
      end
  end.

(** ** What it returns *)

(** A driver in order: it takes what is written, and gives the base64 text of what a
    blob holds for a modifier, as far as there is room. *)
Record seals (unseal : bytes -> bytes -> bytes) : Prop := {
  se_modifier : bg_open_modifier bg = None /\ (forall m, 0 <= bg_fprintf bg m) /\ bg_close_modifier bg = None;
  se_blob : bg_open_blob bg = None /\ (forall b, fst (bg_write bg b) = Z.of_nat (length b)) /\ bg_close_blob bg = None;
  se_payload : bg_open_payload bg = None /\ forall m b n, fst (bg_read bg m b n) = Some (take n (unseal m b))
}.

(** Drivers that set an [errno] with every call that does not do all it was asked. *)
Record reports : Prop := {
  re_open : forall e, bg_open_modifier bg = Some e \/ bg_close_modifier bg = Some e \/ bg_open_blob bg = Some e \/
    bg_close_blob bg = Some e \/ bg_open_payload bg = Some e -> 0 < e;
  re_write : forall b r e, bg_write bg b = (r, e) -> r <> Z.of_nat (length b) -> 0 < e;
  re_read : forall m b n r e, bg_read bg m b n = (r, e) -> r = None \/ r = Some [] -> 0 < e
}.

(** The buffer ends the payload when that is shorter. *)
Lemma payload_decoded len payload data : cstring payload -> (length payload < len)%nat ->
  filter in_table payload = encode_base64 data -> decode_payload len payload = Ok data.
Proof.
  intros Hs Hl Hf. unfold decode_payload. destruct (len - length payload)%nat as [|k] eqn:E; [lia|].
  assert (Hz : zeros (S k) = 0u8 :: zeros k) by done. rewrite Hz, until_nul_app by done. cbn [of_option mbind outcome_bind].
  rewrite (decode_text data payload); [done|done|]. pose proof (encode_length data) as Hd. rewrite <-Hf in Hd.
  pose proof (length_filter (λ b, in_table b) payload). lia.
Qed.

Lemma unseal_blob_sealed unseal name blob data secret : seals unseal ->
  filter in_table blob = encode_base64 data -> let payload := unseal (modifier name) data in
  cstring payload -> payload <> [] -> (length payload < length data)%nat -> filter in_table payload = encode_base64 secret ->
  unseal_blob name blob = Ok (0, Some secret).
Proof.
  intros [_ (Ho & Hw & Hc) (Hp & Hr)] Hb payload Hs Hne Hl Hsec. unfold unseal_blob.
  rewrite (decode_text data blob); [|done|].
  2:{ pose proof (encode_length data) as Hd. rewrite <-Hb in Hd. pose proof (length_filter (λ b, in_table b) blob). lia. }
  cbn [fst]. rewrite Ho, Hc, Hp. specialize (Hw data). destruct (bg_write bg data) as [r e]. cbn [fst] in Hw. subst r.
  rewrite Z.eqb_refl. cbn [negb]. specialize (Hr (modifier name) data (length data)). fold payload in Hr. rewrite take_ge in Hr by lia.
  destruct (bg_read bg _ _ _) as [r e2]. cbn [fst] in Hr. subst r. clearbody payload. destruct payload as [|b payload]; [done|].
  rewrite (payload_decoded _ _ secret) by done. done.
Qed.

(** C30: The secret of a name is what the driver unseals: when the state "/blobs" holds
    the base64 text of a blob under that name, with line breaks or not, and the driver
    takes the blob and gives the text of its content, then the key is that content,
    whether the state was made before or is made now. *)
Theorem keystore_secret unseal state global m gl name blob data secret (Hbg : seals unseal)
    (Hstate : keystore_state state global = Ok (m, gl))
    (Hvar : state_get_var (s_variables (m_state m)) name = Ok (Some blob))
    (Hblob : filter in_table blob = encode_base64 data)
    (Htext : cstring (unseal (cstr "user:" ++ name) data)) (Hsome : unseal (cstr "user:" ++ name) data <> [])
    (Hroom : (length (unseal (cstr "user:" ++ name) data) < length data)%nat)
    (Hsecret : filter in_table (unseal (cstr "user:" ++ name) data) = encode_base64 secret) :
  keystore_get_secret state global name = Ok (0, Some secret, m, gl) /\
  keystore_get_secret (Some m) gl name = Ok (0, Some secret, m, gl).
Proof.
  assert (H : forall st g, keystore_state st g = Ok (m, gl) -> keystore_get_secret st g name = Ok (0, Some secret, m, gl)).
  { intros st g E. unfold keystore_get_secret. rewrite E. cbn [mbind outcome_bind].
    pose proof (se_modifier _ Hbg) as (-> & Hp & ->). rewrite (proj2 (Z.ltb_ge _ _) (Hp _)), Hvar. cbn [mbind outcome_bind].
    rewrite (unseal_blob_sealed unseal name blob data secret) by done. done. }
  split; by apply H.
Qed.

Lemma unseal_blob_key name blob ret key : reports -> unseal_blob name blob = Ok (ret, key) ->
  (ret < 0 /\ key = None) \/ ret = 0 /\ exists k, key = Some k.
Proof.
  intros [Ho Hw Hr]. unfold unseal_blob. set (b := fst (decode_base64 _ blob)).
  destruct (bg_open_blob bg) as [e|]; [intros [= <- <-]; specialize (Ho e); left; split; [enough (0 < e) by lia; tauto|done]|].
  destruct (bg_write bg b) as [r e] eqn:Ew. destruct (r =? Z.of_nat (length b)) eqn:Er; cbn [negb].
  2:{ intros [= <- <-]. apply Z.eqb_neq in Er. specialize (Hw _ _ _ Ew Er). left; split; [lia|done]. }
  destruct (bg_close_blob bg) as [e2|]; [intros [= <- <-]; specialize (Ho e2); left; split; [enough (0 < e2) by lia; tauto|done]|].
  destruct (bg_open_payload bg) as [e2|]; [intros [= <- <-]; specialize (Ho e2); left; split; [enough (0 < e2) by lia; tauto|done]|].
  destruct (bg_read bg (modifier name) b (length b)) as [[[|c pl]|] e2] eqn:Erd.
  - intros [= <- <-]. specialize (Hr _ _ _ _ _ Erd). left; split; [|done]. enough (0 < e2) by lia. tauto.
  - intros (k & _ & [= <- <-])%bind_ok. right. split; [done|]. by exists k.
  - intros [= <- <-]. specialize (Hr _ _ _ _ _ Erd). left; split; [|done]. enough (0 < e2) by lia. tauto.
Qed.

(** With drivers that report every shortfall, success always comes with a key and an
    error never does. *)
Lemma keystore_key state global name ret key m gl : reports -> keystore_get_secret state global name = Ok (ret, key, m, gl) ->
  (ret < 0 /\ key = None) \/ ret = 0 /\ exists k, key = Some k.
Proof.
  intros Hre. unfold keystore_get_secret. intros ([m' gl'] & _ & H)%bind_ok. cbn beta iota in H. pose proof (re_open Hre) as Ho.
  destruct (bg_open_modifier bg) as [e|]; [injection H as <- <- _ _; specialize (Ho e); left; split; [enough (0 < e) by lia; tauto|done]|].
  destruct (Z.ltb_spec (bg_fprintf bg (modifier name)) 0); [injection H as <- <- _ _; by left|].
  destruct (bg_close_modifier bg) as [e|]; [injection H as <- <- _ _; specialize (Ho e); left; split; [enough (0 < e) by lia; tauto|done]|].
  apply bind_ok in H as (b & _ & H). destruct b as [b|]; [|injection H as <- <- _ _; by left].
  apply bind_ok in H as ([r k] & Hu & H). injection H as <- <- _ _. by eapply unseal_blob_key.
Qed.
End Keystore.

(** ** A sealed key on an EEPROM *)

Definition ex_blobs : device_node :=
  DeviceNode (cstr "blobs") (cstr "/blobs") 0
    [Property (cstr "magic") (Some (be_cell 4 0x5678)); Property (cstr "backend") (Some (be_cell 4 1));
     Property (cstr "backend-type") (ex_text "raw"); Property (cstr "backend-stridesize") (Some (be_cell 4 128))]
    [DeviceNode (cstr "key@0") (cstr "/blobs/key@0") 0
       [Property (cstr "type") (ex_text "string"); Property (cstr "reg") (Some (be_cell 4 0 ++ be_cell 4 64))] []].
Definition ex_key_root : device_node :=
  DeviceNode [] [] 0 []
    [DeviceNode (cstr "aliases") (cstr "/aliases") 0 [Property (cstr "blobs") (ex_text "/blobs")] [];
     DeviceNode (cstr "eeprom") (cstr "/eeprom") 1 [Property (cstr "phandle") (Some (be_cell 4 1))] []; ex_blobs].
Definition ex_key_world (f : Sysfile.file) : world :=
  World (fun _ => None) (Ok (proc_entries ex_key_root)) (Err (- ENOENT))
    (System [ex_eeprom] (fun _ _ => true) (fun p => if bool_decide (p = cstr "/sys/i2c0/eeprom") then Some (FileStatus OtherFile 0 0) else None) (fun _ => None))
    (fun _ => (None, f)) (fun _ => (- ENOENT, [])) true.

(** The driver keeps 24 bytes of a blob for itself. *)
Definition ex_unseal (m blob : bytes) : bytes := encode_base64 (drop 24 blob).
Definition ex_driver : blob_gen :=
  BlobGen None (fun m => Z.of_nat (length m)) None None (fun b => (Z.of_nat (length b), 0)) None None
    (fun m b n => (Some (take n (ex_unseal m b)), 0)).
Definition ex_data : bytes := cstr "abcdefghijklmnopqrstuvwxmy secret is this".
Definition ex_secret_text : bytes := encode_base64 ex_data.

(** The blob is stored with the tool, and the keystore makes the state on what that
    left. *)
Definition ex_keystore : outcome (made_state * of_state) :=
  '(_, _, ls) ← main false false (zeros 8) id (fun _ => Byte.x55) (ex_key_world (Sysfile.File (zeros 384) false [] [])) false
    (call false (cstr "blobs") (cstr "key=" ++ ex_secret_text)) false;
  match ls with
  | [l] => keystore_state false false (zeros 8) id (fun _ => Byte.x55) (ex_key_world (l_file l)) 5 None (OfState None [])
  | _ => Undef
  end.

Lemma ex_seals : seals ex_driver ex_unseal.
Proof. split; repeat split. intros m. cbn. lia. Qed.

Lemma keystore_secret_witness : exists m gl, ex_keystore = Ok (m, gl) /\
  keystore_get_secret false false (zeros 8) id (fun _ => Byte.x55) (ex_key_world (m_file m)) 5 ex_driver (Some m) gl (cstr "key")
    = Ok (0, Some (cstr "my secret is this"), m, gl).
Proof.
  assert (Hv : match ex_keystore with
               | Ok (m, _) => state_get_var (s_variables (m_state m)) (cstr "key") = Ok (Some ex_secret_text)
               | _ => False
               end) by (vm_compute; reflexivity).
  destruct ex_keystore as [[m gl]|e|]; [exists m, gl; split; [reflexivity|]|destruct Hv|destruct Hv].
  destruct (keystore_secret false false (zeros 8) id (fun _ => Byte.x55) (ex_key_world (m_file m)) 5 ex_driver ex_unseal (Some m) gl m gl
    (cstr "key") ex_secret_text ex_data (cstr "my secret is this") ex_seals eq_refl Hv) as [H _].
  - vm_compute. reflexivity.
  - evaluate.
  - discriminate.
  - evaluate.
  - vm_compute. reflexivity.
  - exact H.
Defined.

(** A driver that takes less than the whole blob and sets no [errno]: success is
    reported, and no key is stored. *)
Example ex_short_write :
  unseal_blob (BlobGen None (fun m => 9) None None (fun b => (1, 0)) None None (fun _ _ _ => (None, EIO))) (cstr "key") ex_secret_text = Ok (0, None).
Proof. vm_compute. reflexivity. Qed.

(** A payload that fills the buffer is not ended: the decoder reads behind it. *)
Example ex_long_payload :
  unseal_blob (BlobGen None (fun m => 9) None None (fun b => (Z.of_nat (length b), 0)) None None
    (fun m b n => (Some (take n (encode_base64 b)), 0))) (cstr "key") ex_secret_text = Undef.
Proof. vm_compute. reflexivity. Qed.
