(* ===== verification/Common.v ===== *)
(** * The helpers of the headers (src/dt/common.h, src/dt/dt.h)

    Pointers that carry errors, bounded copies of strings, numbers in unaligned
    memory, the log, alignment, and the one-line accessors of properties. Other files use plainer
    forms of some of them ([outcome] for a pointer or an error, [take] for a bounded
    copy, [be_word] for a number in memory); the lemmas here say that the code of the
    headers computes the same. *)

From S2P Require Import Prelude HashStream StateVar Dt Tree Fdt Variables Make Cli.

(** ** Pointers that carry errors *)

(** A pointer is its value as an [unsigned long]. *)
Definition MAX_ERRNO : Z := 4095.
Definition IS_ERR_VALUE (x : Z) : bool := u64 (- MAX_ERRNO) <=? x.
Definition ERR_PTR (error : Z) : Z := u64 error.
Definition PTR_ERR (ptr : Z) : Z := s64 ptr.
Definition IS_ERR (ptr : Z) : bool := IS_ERR_VALUE ptr.
Definition IS_ERR_OR_NULL (ptr : Z) : bool := (ptr =? 0) || IS_ERR_VALUE ptr.
Definition ERR_CAST (ptr : Z) : Z := ptr.
(** The error is returned as an [int]. *)
Definition PTR_ERR_OR_ZERO (ptr : Z) : Z := if IS_ERR ptr then s32 (PTR_ERR ptr) else 0.

(** What a function returns as a pointer, and what its caller makes of it. *)
Definition to_pointer (r : outcome Z) : outcome Z :=
  match r with Err e => Ok (ERR_PTR e) | _ => r end.
Definition from_pointer (ptr : Z) : outcome Z := if IS_ERR ptr then Err (PTR_ERR ptr) else Ok ptr.

(** A valid pointer does not point into the last page; an error is a number of errno. *)
Definition passable (r : outcome Z) : Prop :=
  match r with Ok p => 0 <= p < 2 ^ 64 - MAX_ERRNO | Err e => - MAX_ERRNO <= e < 0 | Undef => False end.

Lemma err_ptr_range e : - MAX_ERRNO <= e < 0 -> ERR_PTR e = 2 ^ 64 + e.
Proof.
  intros H. unfold ERR_PTR, u64, MAX_ERRNO in *. replace e with (e + 2 ^ 64 + -1 * 2 ^ 64) at 1 by lia.
  rewrite Z.mod_add by lia. rewrite Z.mod_small; lia.
Qed.

(** Callers find in the pointer exactly the result of the function. *)
Lemma pointer_passed r p : passable r -> to_pointer r = Ok p ->
  from_pointer p = r /\ (IS_ERR p = true <-> exists e, r = Err e) /\
  PTR_ERR_OR_ZERO p = match r with Err e => e | _ => 0 end.
Proof.
  assert (HE : u64 (- MAX_ERRNO) = 2 ^ 64 - MAX_ERRNO) by (vm_compute; reflexivity).
  unfold passable, from_pointer, PTR_ERR_OR_ZERO, PTR_ERR, IS_ERR, IS_ERR_VALUE. rewrite HE.
  destruct r as [q|e|]; [| |done]; cbn [to_pointer]; intros H [= <-].
  - destruct (Z.leb_spec (2 ^ 64 - MAX_ERRNO) q); [lia|]. split; [done|]. split; [|done]. split; [done|]. by intros [e [=]].
  - pose proof (err_ptr_range e H) as ->. unfold MAX_ERRNO in *. destruct (Z.leb_spec (2 ^ 64 - 4095) (2 ^ 64 + e)); [|lia].
    assert (Hs : s64 (2 ^ 64 + e) = e).
    { unfold s64. replace (2 ^ 64 + e + 2 ^ 63) with (e + 2 ^ 63 + 1 * 2 ^ 64) by lia. rewrite Z.mod_add by lia. rewrite Z.mod_small; lia. }
    rewrite Hs. split; [done|]. split; [|apply s32_small; lia]. split; [|done]. intros _. by exists e.
Qed.

(** ** Memory *)

(** [xzalloc] with the [errno] that an earlier call left and whether [calloc] finds
    memory; [None] when the process is ended. *)
Definition xzalloc (errno : Z) (found : bool) (size : nat) : option bytes :=
  if negb found || (errno =? ENOMEM) then None else Some (zeros size).

Definition xmalloc (errno : Z) (found : bool) (size : nat) : option bytes := xzalloc errno found size.

(** [xmemdup] copies [size] bytes of the memory [orig]; [None] inside when the process
    is ended. *)
Definition xmemdup (errno : Z) (found : bool) (orig : bytes) (size : nat) : outcome (option bytes) :=
  match xmalloc errno found size with
  | None => Ok None
  | Some buf => if (length orig <? size)%nat then Undef else Ok (Some (splice 0 (take size orig) buf))
  end.

Lemma xmemdup_copy errno orig size : errno <> ENOMEM -> (size <= length orig)%nat ->
  xmemdup errno true orig size = Ok (Some (take size orig)).
Proof.
  intros He Hs. unfold xmemdup, xmalloc, xzalloc. apply Z.eqb_neq in He. rewrite He. cbn [negb orb].
  destruct (Nat.ltb_spec (length orig) size); [lia|]. do 2 f_equal. unfold splice. cbn [take app].
  rewrite drop_ge; [apply app_nil_r|]. unfold zeros. rewrite length_replicate, length_take. lia.
Qed.

(** An allocation that works ends the process when an old [ENOMEM] is left. *)
Example xzalloc_stale : xzalloc ENOMEM true 4 = None /\ xzalloc 0 true 4 = Some (zeros 4).
Proof. done. Qed.

(** ** Strings *)

(** [DT_strlcpy] from the memory [src] to the buffer [dest]: the length of the source
    and the buffer. *)
Definition DT_strlcpy (dest src : bytes) (size : Z) : outcome (Z * bytes) :=
  s ← of_option (until_nul src);
  let ret := Z.of_nat (length s) in
  if size =? 0 then Ok (ret, dest) else
  let len := if size <=? ret then size - 1 else ret in
  if Z.of_nat (length dest) <? len + 1 then Undef
  else Ok (ret, splice 0 (take (Z.to_nat len) src ++ [0u8]) dest).

(** [xstrdup] with whether [strdup] finds memory: [None] outside when the process is
    ended, [None] inside for the null pointer. *)
Definition xstrdup (found : bool) (s : option bytes) : outcome (option (option bytes)) :=
  match s with
  | None => Ok (Some None)
  | Some s => p ← of_option (until_nul s); Ok (if found then Some (Some (p ++ [0u8])) else None)
  end.

(** [barebox_asprintf] with the answer of [vasprintf] and the string it made. *)
Definition barebox_asprintf (ret : Z) (p : bytes) : option bytes := if ret =? -1 then None else Some p.

(** The loop of [xstrndup]: what is left of the [int] that counts down. *)
Fixpoint xstrndup_loop (t : bytes) (m : Z) : outcome Z :=
  if m =? 0 then Ok 0 else
  match t with
  | [] => Undef
  | b :: t => if decide (b = 0u8) then Ok m else if m =? - 2 ^ 31 then Undef else xstrndup_loop t (m - 1)
  end.
(** [xstrndup]: the new memory. *)
Definition xstrndup (s : bytes) (n : Z) : outcome bytes :=
  m ← xstrndup_loop s (s32 n);
  let n := u64 (n - m) in
  if Z.of_nat (length s) <? n then Undef else Ok (take (Z.to_nat n) s ++ [0u8]).

Lemma strlcpy_spec dest src s size : until_nul src = Some s -> 0 < size <= Z.of_nat (length dest) ->
  exists dest', DT_strlcpy dest src size = Ok (Z.of_nat (length s), dest') /\ length dest' = length dest /\
    until_nul dest' = Some (take (Z.to_nat (size - 1)) s).
Proof.
  intros Hs Hz. unfold DT_strlcpy. rewrite Hs. cbn [of_option mbind outcome_bind].
  destruct (Z.eqb_spec size 0); [lia|]. set (len := if size <=? Z.of_nat (length s) then size - 1 else Z.of_nat (length s)).
  assert (Hl : 0 <= len < size /\ len <= Z.of_nat (length s)) by (unfold len; destruct (Z.leb_spec size (Z.of_nat (length s))); lia).
  destruct (Z.ltb_spec (Z.of_nat (length dest)) (len + 1)); [lia|]. eexists. split; [done|].
  apply until_nul_split in Hs as Hr. destruct Hr as [r ->].
  assert (Ht : take (Z.to_nat len) (s ++ 0u8 :: r) = take (Z.to_nat (size - 1)) s).
  { rewrite take_app_le by lia. unfold len. destruct (Z.leb_spec size (Z.of_nat (length s))); [done|].
    rewrite Nat2Z.id, !take_ge by lia. done. }
  rewrite Ht. split.
  - rewrite length_splice; [done|]. rewrite length_app, length_take. cbn [length]. lia.
  - unfold splice. cbn [take app]. rewrite <-app_assoc. cbn [app]. apply until_nul_app.
    apply until_nul_cstring in Hs. unfold cstring in *. intros Hin. apply Hs. rewrite <-(take_drop (Z.to_nat (size - 1)) s). set_solver.
Qed.

(** The buffer of [of_modalias_node] holds the string that Tree.v says. *)
Lemma modalias_copied node len s dest v : of_modalias_node node len = Ok (0, s) ->
  of_get_property node (cstr "compatible") = Some v -> (0 < len <= length dest)%nat ->
  exists compatible dest' r, until_nul v = Some compatible /\
    DT_strlcpy dest (default compatible (after_comma compatible) ++ [0u8]) (Z.of_nat len) = Ok (r, dest') /\ until_nul dest' = Some s.
Proof.
  unfold of_modalias_node. intros H Hv Hl. rewrite Hv in H. destruct (until_nul v) as [c|] eqn:Ec; [|done].
  cbn [of_option mbind outcome_bind] in H. set (p := default c (after_comma c)) in *.
  assert (Hp : cstring p).
  { apply until_nul_cstring in Ec. unfold p. clear -Ec. unfold cstring in *. destruct (after_comma c) as [q|] eqn:E; [|done]. cbn.
    revert Ec E. induction c as [|b c IH]; [done|]. cbn. case_decide; [intros Hc [= <-]; set_solver|]. intros Hc E. apply IH; [set_solver|done]. }
  destruct (strlcpy_spec dest (p ++ [0u8]) p (Z.of_nat len)) as (d & Hd & _ & Hu); [by apply until_nul_app|lia|].
  exists c, d, (Z.of_nat (length p)). split; [done|]. split; [exact Hd|]. rewrite Hu. injection H as <-. f_equal.
  replace (Z.to_nat (Z.of_nat len - 1)) with (len - 1)%nat by lia.
  destruct (Nat.leb_spec len (length p)); [done|]. rewrite !take_ge by lia. done.
Qed.

Lemma xstrndup_loop_spec t : forall m, (m <= length t)%nat -> Z.of_nat m < 2 ^ 31 ->
  xstrndup_loop t (Z.of_nat m) = Ok (Z.of_nat (m - strnlen (take m t))).
Proof.
  induction t as [|b t IH]; intros [|m] Hm Hr; cbn [length] in Hm; [done|lia|done|].
  cbn [xstrndup_loop take strnlen]. destruct (Z.eqb_spec (Z.of_nat (S m)) 0); [lia|]. case_decide; [f_equal; lia|].
  destruct (Z.eqb_spec (Z.of_nat (S m)) (- 2 ^ 31)); [lia|]. replace (Z.of_nat (S m) - 1) with (Z.of_nat m) by lia.
  rewrite IH by lia. f_equal; lia.
Qed.

(** In the memory of a string of [n] bytes the copy is the string, ended. *)
Lemma xstrndup_spec s n : (n <= length s)%nat -> Z.of_nat n < 2 ^ 31 ->
  xstrndup s (Z.of_nat n) = Ok (take (strnlen (take n s)) s ++ [0u8]).
Proof.
  intros Hn Hr. unfold xstrndup. rewrite s32_small by lia. rewrite xstrndup_loop_spec by done. cbn [mbind outcome_bind].
  pose proof (strnlen_le (take n s)) as Hs. rewrite length_take in Hs.
  rewrite u64_small by lia. destruct (Z.ltb_spec (Z.of_nat (length s)) (Z.of_nat n - Z.of_nat (n - strnlen (take n s)))); [lia|].
  do 2 f_equal. f_equal. lia.
Qed.

(** What [barebox-state -g] prints of a string is the copy [state_string_get] makes. *)
Lemma string_get_copied raw n s : (n <= length raw)%nat -> Z.of_nat n < 2 ^ 31 ->
  __state_string_get (Z.of_nat n) raw = Ok s -> xstrndup raw (Z.of_nat n) = Ok (s ++ [0u8]).
Proof.
  intros Hn Hr H. rewrite xstrndup_spec by done. do 2 f_equal. unfold __state_string_get in H. rewrite Nat2Z.id in H.
  pose proof (strnlen_le (take n raw)) as Hs. rewrite length_take in Hs.
  destruct raw as [|b raw]; [done|]. injection H as <-. rewrite take_take. f_equal. lia.
Qed.

(** A limit from 2 GiB on is negative in the [int], and more than 4 GiB are copied. *)
Example xstrndup_large : xstrndup (cstr "abc" ++ zeros 4) 10 = Ok (cstr "abc" ++ [0u8]) /\
  xstrndup (cstr "abc" ++ zeros 4) (2 ^ 31 + 5) = Undef.
Proof. vm_compute. done. Qed.

(** ** Numbers in unaligned memory *)

(** The parts are joined in an [int] and in an [u64]; a load into the sign bit of an
    [int] is taken as the compilers take it. [p] is the memory from the pointer on. *)
Definition __get_unaligned_be16 (p : bytes) : outcome Z :=
  match p with b0 :: b1 :: _ => Ok (u16 (Z.lor (Z.shiftl (bval b0) 8) (bval b1))) | _ => Undef end.
Definition __get_unaligned_be32 (p : bytes) : outcome Z :=
  match p with
  | b0 :: b1 :: b2 :: b3 :: _ =>
      Ok (u32 (Z.lor (Z.lor (Z.lor (Z.shiftl (bval b0) 24) (Z.shiftl (bval b1) 16)) (Z.shiftl (bval b2) 8)) (bval b3)))
  | _ => Undef
  end.
Definition __get_unaligned_be64 (p : bytes) : outcome Z :=
  hi ← __get_unaligned_be32 p; lo ← __get_unaligned_be32 (drop 4 p); Ok (Z.lor (u64 (Z.shiftl hi 32)) lo).

(** The memory after the stores. *)
Definition __put_unaligned_be16 (val : Z) (p : bytes) : outcome bytes :=
  match p with _ :: _ :: r => Ok (byte_of (Z.shiftr val 8) :: byte_of val :: r) | _ => Undef end.
Definition __put_unaligned_be32 (val : Z) (p : bytes) : outcome bytes :=
  p ← __put_unaligned_be16 (u16 (Z.shiftr val 16)) p;
  q ← __put_unaligned_be16 (u16 val) (drop 2 p); Ok (take 2 p ++ q).
Definition __put_unaligned_be64 (val : Z) (p : bytes) : outcome bytes :=
  p ← __put_unaligned_be32 (u32 (Z.shiftr val 32)) p;
  q ← __put_unaligned_be32 (u32 val) (drop 4 p); Ok (take 4 p ++ q).

Definition get_unaligned_be16 (p : bytes) : outcome Z := __get_unaligned_be16 p.
Definition get_unaligned_be32 (p : bytes) : outcome Z := __get_unaligned_be32 p.
Definition get_unaligned_be64 (p : bytes) : outcome Z := __get_unaligned_be64 p.
Definition put_unaligned_be16 (val : Z) (p : bytes) : outcome bytes := __put_unaligned_be16 val p.
Definition put_unaligned_be32 (val : Z) (p : bytes) : outcome bytes := __put_unaligned_be32 val p.
Definition put_unaligned_be64 (val : Z) (p : bytes) : outcome bytes := __put_unaligned_be64 val p.

Lemma le_combine_cons b l : le_combine (b :: l) = Z.lor (bval b) (Z.shiftl (le_combine l) 8).
Proof. done. Qed.
(** What is read is the number whose digits the bytes are. *)
Lemma get_be16 p : (2 <= length p)%nat -> __get_unaligned_be16 p = Ok (get_be (take 2 p)).
Proof.
  destruct p as [|b0 [|b1 p]]; cbn [length]; try lia. intros _. cbn [__get_unaligned_be16 take]. f_equal.
  assert (E : Z.lor (Z.shiftl (bval b0) 8) (bval b1) = get_be [b0; b1]).
  { unfold get_be. cbn [rev app]. rewrite !le_combine_cons. change (le_combine []) with 0. by rewrite Z.shiftl_0_l, Z.lor_0_r, Z.lor_comm. }
  rewrite E. apply Z.mod_small. apply (get_be_range [b0; b1]).
Qed.
Lemma get_be32 p : (4 <= length p)%nat -> __get_unaligned_be32 p = Ok (get_be (take 4 p)).
Proof.
  destruct p as [|b0 [|b1 [|b2 [|b3 p]]]]; cbn [length]; try lia. intros _. cbn [__get_unaligned_be32 take]. f_equal.
  assert (E : Z.lor (Z.lor (Z.lor (Z.shiftl (bval b0) 24) (Z.shiftl (bval b1) 16)) (Z.shiftl (bval b2) 8)) (bval b3) = get_be [b0; b1; b2; b3]).
  { unfold get_be. cbn [rev app]. rewrite !le_combine_cons. change (le_combine []) with 0. rewrite Z.shiftl_0_l, Z.lor_0_r, !Z.shiftl_lor, !Z.shiftl_shiftl by lia.
    change (8 + 8) with 16. change (16 + 8) with 24. rewrite (Z.lor_comm _ (bval b3)). f_equal.
    rewrite (Z.lor_comm _ (Z.shiftl (bval b2) 8)). f_equal. by rewrite Z.lor_comm. }
  rewrite E. apply u32_small. apply (get_be_range [b0; b1; b2; b3]).
Qed.
Lemma get_be_app l1 l2 : get_be (l1 ++ l2) = Z.lor (Z.shiftl (get_be l1) (8 * Z.of_nat (length l2))) (get_be l2).
Proof. unfold get_be. rewrite rev_app_distr, le_combine_app, length_rev, Z.lor_comm. f_equal. f_equal. lia. Qed.
Lemma get_be64 p : (8 <= length p)%nat -> __get_unaligned_be64 p = Ok (get_be (take 8 p)).
Proof.
  intros H. unfold __get_unaligned_be64. rewrite !get_be32 by (rewrite ?length_drop; lia). cbn [mbind outcome_bind]. f_equal.
  assert (E : take 8 p = take 4 p ++ take 4 (drop 4 p)).
  { rewrite <-(take_drop 4 (take 8 p)). rewrite take_take, skipn_firstn_comm. done. }
  assert (H4 : length (take 4 p) = 4%nat) by (rewrite length_take; lia).
  assert (H4' : length (take 4 (drop 4 p)) = 4%nat) by (rewrite length_take, length_drop; lia).
  rewrite E, get_be_app, H4'. pose proof (get_be_range (take 4 p)) as R. rewrite H4 in R. f_equal.
  apply u64_small. rewrite Z.shiftl_mul_pow2 by lia. lia.
Qed.

(** The words that the hash functions load. *)
Lemma be_word_loaded data i : (4 * i + 4 <= length data)%nat -> __get_unaligned_be32 (drop (4 * i) data) = Ok (be_word data i).
Proof. intros H. rewrite get_be32 by (rewrite length_drop; lia). done. Qed.

Lemma le_split_app n m : forall v, le_split (n + m) v = le_split n v ++ le_split m (Z.shiftr v (8 * Z.of_nat n)).
Proof.
  induction n as [|n IH]; intros v; [by rewrite Z.shiftr_0_r|].
  change (le_split (S n + m) v) with (byte_of v :: le_split (n + m) (Z.shiftr v 8)).
  change (le_split (S n) v) with (byte_of v :: le_split n (Z.shiftr v 8)). cbn [app]. rewrite IH, Z.shiftr_shiftr by lia.
  do 4 f_equal. lia.
Qed.
(** A number of two halves; each is stored cut to its width. *)
Lemma be_cell_halves w v (k := 8 * Z.of_nat w) :
  be_cell (w + w) v = be_cell w (Z.shiftr v k mod 2 ^ k) ++ be_cell w (v mod 2 ^ k).
Proof.
  unfold be_cell. rewrite le_split_app, rev_app_distr. fold k. unfold k. rewrite (Z.mul_comm 8). f_equal; f_equal; apply le_split_mod.
Qed.

(** What is stored are the digits; the memory behind them is kept. *)
Lemma put_be16 v p : (2 <= length p)%nat -> __put_unaligned_be16 v p = Ok (be_cell 2 v ++ drop 2 p).
Proof. destruct p as [|b0 [|b1 p]]; cbn [length]; try lia. done. Qed.
Lemma put_twice w (put : Z -> bytes -> outcome bytes) v hi lo p :
  (forall v p, (w <= length p)%nat -> put v p = Ok (be_cell w v ++ drop w p)) -> (w + w <= length p)%nat ->
  be_cell (w + w) v = be_cell w hi ++ be_cell w lo ->
  (p ← put hi p; q ← put lo (drop w p); Ok (take w p ++ q)) = Ok (be_cell (w + w) v ++ drop (w + w) p).
Proof.
  intros Hput Hl E. rewrite Hput by lia. cbn [mbind outcome_bind]. rewrite drop_app_length', take_app_length' by (by rewrite length_be_cell).
  rewrite Hput by (rewrite length_drop; lia). cbn [mbind outcome_bind]. by rewrite E, drop_drop, app_assoc.
Qed.
Lemma put_be32 v p : (4 <= length p)%nat -> __put_unaligned_be32 v p = Ok (be_cell 4 v ++ drop 4 p).
Proof.
  intros H. apply (put_twice 2); [apply put_be16|done|apply (be_cell_halves 2)].
Qed.
Lemma put_be64 v p : (8 <= length p)%nat -> __put_unaligned_be64 v p = Ok (be_cell 8 v ++ drop 8 p).
Proof.
  intros H. apply (put_twice 4); [apply put_be32|done|apply (be_cell_halves 4)].
Qed.

Lemma ok_inj {A} (a b : A) : Ok a = Ok b -> a = b.
Proof. by intros [=]. Qed.
(** What is put is got again, at any width. *)
Lemma unaligned_roundtrip v p p' : (8 <= length p)%nat ->
  (0 <= v < 2 ^ 16 -> put_unaligned_be16 v p = Ok p' -> get_unaligned_be16 p' = Ok v) /\
  (0 <= v < 2 ^ 32 -> put_unaligned_be32 v p = Ok p' -> get_unaligned_be32 p' = Ok v) /\
  (0 <= v < 2 ^ 64 -> put_unaligned_be64 v p = Ok p' -> get_unaligned_be64 p' = Ok v).
Proof.
  intros H. unfold put_unaligned_be16, put_unaligned_be32, put_unaligned_be64, get_unaligned_be16, get_unaligned_be32, get_unaligned_be64.
  rewrite put_be16, put_be32, put_be64 by lia.
  repeat split; intros Hv <-%ok_inj; rewrite ?get_be16, ?get_be32, ?get_be64 by (rewrite length_app, length_be_cell; lia);
    rewrite take_app_length' by (by rewrite length_be_cell); by rewrite get_be_cell.
Qed.

(** ** The log *)

(** [pr_level], what [pr_level_set] leaves of it and what [pr_level_get] answers. *)
Definition pr_level_init : Z := 5.
Definition pr_level_set (pr_level level : Z) : Z := level.
Definition pr_level_get (pr_level : Z) : Z := pr_level.

(** [pr_printf] and [dev_printf] with the text that [vsnprintf] makes of the arguments,
    a C string: the value returned, which is the length of the whole message, and what
    the error output gets. *)
Definition pr_printf (pr_level level : Z) (text : bytes) : Z * bytes :=
  if pr_level <? level then (0, []) else (Z.of_nat (length text), take (1024 - 1) text).
Definition dev_printf (pr_level level : Z) (name text : bytes) : outcome (Z * bytes) :=
  if pr_level <? level then Ok (0, []) else
  let head := name ++ cstr ": " in
  if (1025 <? length head + 1)%nat then Undef
  else Ok (Z.of_nat (length head) + Z.of_nat (length text), head ++ take (1024 - length head - 1) text).

(** A message about a device is the message of its name and its text: the buffer holds
    the longest name that a device can have, and long texts are cut at the same place. *)
Lemma dev_printf_named pr_level level name text : Z.of_nat (length name) < MAX_DRIVER_NAME ->
  dev_printf pr_level level name text = Ok (pr_printf pr_level level (name ++ cstr ": " ++ text)).
Proof.
  unfold MAX_DRIVER_NAME. intros H. unfold dev_printf, pr_printf. destruct (pr_level <? level); [done|].
  assert (Hl : length (name ++ cstr ": ") = (length name + 2)%nat) by (rewrite length_app; reflexivity).
  destruct (Nat.ltb_spec 1025 (length (name ++ cstr ": ") + 1)); [lia|].
  rewrite (app_assoc name), (length_app (name ++ cstr ": ")), Nat2Z.inj_add.
  rewrite take_app, (take_ge (name ++ cstr ": ")) by lia.
  replace (1024 - 1 - length (name ++ cstr ": "))%nat with (1024 - length (name ++ cstr ": ") - 1)%nat by lia. done.
Qed.

(** ** Alignment *)

(** [ALIGN] and [IS_ALIGNED] in an unsigned type of [w] bits. *)
Definition ALIGN (w x a : Z) : Z := let mask := (a - 1) mod 2 ^ w in Z.ldiff ((x + mask) mod 2 ^ w) mask.
Definition IS_ALIGNED (w x a : Z) : bool := Z.land x ((a - 1) mod 2 ^ w) =? 0.

(** For a power of two that fits, the next multiple; it is aligned. *)
Lemma align_next w x k (a := 2 ^ k) : 0 <= k < w -> 0 <= x -> x + a <= 2 ^ w ->
  x <= ALIGN w x a < x + a /\ (a | ALIGN w x a) /\ IS_ALIGNED w (ALIGN w x a) a = true.
Proof.
  intros Hk Hx Hf. assert (Ha : 1 <= a) by (unfold a; pose proof (Z.pow_pos_nonneg 2 k); lia).
  assert (Hm : (a - 1) mod 2 ^ w = Z.ones k) by (rewrite Z.ones_equiv; unfold a; apply Z.mod_small; unfold a in *; lia).
  unfold ALIGN, IS_ALIGNED. rewrite Hm. pose proof (Z.ones_equiv k) as Ho. fold a in Ho.
  rewrite Z.mod_small by lia. rewrite Z.ldiff_ones_r, Z.shiftl_mul_pow2, Z.shiftr_div_pow2 by lia. fold a.
  replace (x + Z.ones k) with (x + (a - 1)) by lia. set (q := (x + (a - 1)) / a).
  pose proof (Z.div_mod (x + (a - 1)) a ltac:(lia)) as Hd. pose proof (Z.mod_pos_bound (x + (a - 1)) a ltac:(lia)). fold q in Hd.
  split; [nia|]. split; [by exists q|]. rewrite Z.land_ones by lia. fold a. rewrite Z.mod_mul by lia. done.
Qed.
Lemma align4 x : ALIGN4 x = ALIGN 32 x 4.
Proof. done. Qed.

(** Behind the last multiple the sum wraps. *)
Example align_wraps : ALIGN 32 (2 ^ 32 - 1) 4 = 0.
Proof. done. Qed.

(** ** The accessors of dt/dt.h *)

Definition of_property_read_u8 (np : device_node) (propname : bytes) : outcome Z :=
  vs ← of_property_read_u8_array np propname 1; Ok (bval (nth 0 vs 0u8)).
Definition of_property_read_u16 (np : device_node) (propname : bytes) : outcome Z :=
  vs ← of_property_read_u16_array np propname 1; Ok (nth 0 vs 0).
Definition of_property_write_u8 (np : device_node) (propname : bytes) (value : Z) : Z * device_node :=
  of_property_write_u8_array np propname [byte_of value].
Definition of_property_write_u16 (np : device_node) (propname : bytes) (value : Z) : Z * device_node :=
  of_property_write_u16_array np propname [value].
Definition of_property_write_u64 (np : device_node) (propname : bytes) (value : Z) : Z * device_node :=
  of_property_write_u64_array np propname [value].

(** [of_property_for_each_string]: the strings of a value, from the next one on. *)
Fixpoint each_string (fuel : nat) (value : bytes) (cur : option nat) : outcome (list bytes) :=
  match fuel with
  | O => Ok []
  | S fuel =>
      n ← of_prop_next_string value cur;
      match n with
      | None => Ok []
      | Some c => s ← of_option (until_nul (drop c value)); l ← each_string fuel value (Some c); Ok (s :: l)
      end
  end.

(** [of_find_root_node]: up from parent to parent. *)
Fixpoint of_find_root_node (fuel : nat) (node : node_ref) : node_ref :=
  match fuel with
  | O => node
  | S fuel => match of_get_parent node with Some parent => of_find_root_node fuel parent | None => node end
  end.

Definition of_find_matching_node (root : device_node) (from : node_ref) (matches : list bytes) : outcome (option node_ref) :=
  r ← of_find_matching_node_and_match root from matches; Ok (option_map fst r).

Lemma root_found node : of_find_root_node (length node) node = [].
Proof.
  induction node as [|i node IH] using rev_ind; [done|]. rewrite length_app, Nat.add_comm. cbn [length Nat.add of_find_root_node].
  assert (E : of_get_parent (node ++ [i]) = Some node) by (unfold of_get_parent; rewrite removelast_last; by destruct node).
  by rewrite E.
Qed.

(** A number in two cells. *)
Lemma number_cells v : 0 <= v < 2 ^ 64 -> of_read_number (cells 4 2 (of_write_number v)) = v.
Proof.
  intros Hv. unfold of_write_number, of_read_number.
  assert (Hc : forall z, be_cell 4 z = be_cell 4 (u32 z)) by (intros z; unfold be_cell, u32; f_equal; apply (le_split_mod z 4)).
  rewrite (Hc (Z.shiftr v 32)), (Hc v). rewrite <-(app_nil_r (_ ++ _)), <-app_assoc.
  assert (Hh : u32 (Z.shiftr v 32) = Z.shiftr v 32) by (apply u32_small; rewrite Z.shiftr_div_pow2 by lia; Z.to_euclidean_division_equations; lia).
  rewrite Hh. pose proof (u32_range v) as Hl.
  assert (Hs : 0 <= Z.shiftr v 32 < 2 ^ 32) by (rewrite <-Hh; apply u32_range).
  pose proof (cells_app 4 [Z.shiftr v 32; u32 v] []) as E. cbn [length] in E.
  change (mjoin (be_cell 4 <$> [Z.shiftr v 32; u32 v]) ++ []) with ((be_cell 4 (Z.shiftr v 32) ++ be_cell 4 (u32 v) ++ []) ++ []) in E.
  rewrite app_nil_r in E. rewrite E by (repeat constructor; change (8 * Z.of_nat 4) with 32; lia).
  cbn [fold_left]. rewrite Z.shiftl_0_l, Z.lor_0_l. rewrite (u64_small (Z.shiftr v 32)) by lia.
  replace (Z.lor (Z.shiftl (Z.shiftr v 32) 32) (u32 v)) with v; [by apply u64_small|].
  apply Z.bits_inj'. intros n Hn. unfold u32. rewrite Z.lor_spec. destruct (Z.lt_ge_cases n 32).
  - by rewrite Z.shiftl_spec_low, Z.mod_pow2_bits_low by lia.
  - rewrite Z.shiftl_spec, Z.mod_pow2_bits_high, Z.shiftr_spec, orb_false_r by lia. f_equal. lia.
Qed.

(** What the one-line accessors write, they read. *)
Lemma accessors_roundtrip np name v : props_unique np ->
  (0 <= v < 2 ^ 8 -> of_property_read_u8 (snd (of_property_write_u8 np name v)) name = Ok v) /\
  (0 <= v < 2 ^ 16 -> of_property_read_u16 (snd (of_property_write_u16 np name v)) name = Ok v) /\
  (0 <= v < 2 ^ 64 -> of_property_read_u64 (snd (of_property_write_u64 np name v)) name = Ok v).
Proof.
  intros Hu. split; [|split]; intros Hv.
  - unfold of_property_read_u8, of_property_write_u8. rewrite write_u8_wr. cbn [snd].
    rewrite (read_u8_found _ name [byte_of v]) by (cbn [length]; lia || by apply wr_same). cbn [mbind outcome_bind nth].
    rewrite bval_of. f_equal. by apply Z.mod_small.
  - unfold of_property_read_u16, of_property_write_u16, of_property_write_u16_array, of_property_write, of_property_read_u16_array. cbn [snd].
    pose proof (read_array_cells 2 (wr np name (mjoin (be_cell 2 <$> [v]))) name [v]) as R. cbn [length] in R. unfold wr in R.
    rewrite R; [done|lia|by constructor|lia|]. by apply find_get, wr_same.
  - unfold of_property_read_u64, of_property_write_u64, of_property_write_u64_array, of_property_write. cbn [snd].
    change (mjoin (of_write_number <$> [v])) with (of_write_number v ++ []). rewrite app_nil_r.
    pose proof (find_get _ _ _ (wr_same np name (of_write_number v) Hu)) as Hg. unfold wr in Hg.
    rewrite (value_of_size _ _ _ _ Hg) by (unfold of_write_number; rewrite length_app, !length_be_cell; done).
    cbn [mbind outcome_bind]. f_equal. by apply number_cells.
Qed.

Lemma next_string_behind p s ss : cstring s ->
  of_prop_next_string (p ++ string_list (s :: ss)) (Some (length p))
  = Ok (match ss with [] => None | _ => Some (length (p ++ s ++ [0u8])) end).
Proof.
  intros Hs. cbn [of_prop_next_string]. rewrite string_list_cons, drop_app_length, until_nul_app by done. f_equal.
  rewrite !length_app. cbn [length]. rewrite Nat.add_assoc. destruct ss as [|t ss].
  - change (length (string_list [])) with 0%nat.
    destruct (Nat.leb_spec (length p + length s + 1) (length p + length s + 1)); [done|lia].
  - rewrite string_list_cons, length_app. cbn [length].
    destruct (Nat.leb_spec (length p + length s + S (length t + S (length (string_list ss)))) (length p + length s + 1)); [lia|].
    apply (f_equal Some). lia.
Qed.

Lemma each_string_S fuel value cur : each_string (S fuel) value cur =
  (n ← of_prop_next_string value cur;
   match n with
   | None => Ok []
   | Some c => s ← of_option (until_nul (drop c value)); l ← each_string fuel value (Some c); Ok (s :: l)
   end).
Proof. done. Qed.
Lemma each_string_from ss : Forall cstring ss -> forall p s, cstring s ->
  each_string (S (length ss)) (p ++ string_list (s :: ss)) (Some (length p)) = Ok ss.
Proof.
  induction 1 as [|t ss Ht Hss IH]; intros p s Hs; cbn [length]; rewrite each_string_S, next_string_behind by done; [done|].
  cbn [mbind outcome_bind]. assert (E : p ++ string_list (s :: t :: ss) = (p ++ s ++ [0u8]) ++ string_list (t :: ss)).
  { rewrite (string_list_cons s). by rewrite <-!app_assoc. }
  rewrite E, drop_app_length. rewrite string_list_cons at 1. rewrite until_nul_app by done. cbn [of_option mbind outcome_bind].
  by rewrite (IH (p ++ s ++ [0u8]) t Ht).
Qed.

(** The loop over the strings of a value visits them all in their order. *)
Lemma each_string_list s ss : cstring s -> Forall cstring ss ->
  each_string (S (S (length ss))) (string_list (s :: ss)) None = Ok (s :: ss).
Proof.
  intros Hs Hss. rewrite each_string_S. cbn [of_prop_next_string mbind outcome_bind]. rewrite drop_0.
  rewrite string_list_cons at 1. rewrite until_nul_app by done. cbn [of_option mbind outcome_bind].
  pose proof (each_string_from ss Hss [] s Hs) as E. cbn [app] in E. change (length (@nil Byte.byte)) with 0%nat in E. by rewrite E.
Qed.
